(* ===== verification/_CoqProject ===== *)
-Q . S2P
Prelude.v
CLayout.v
Checksum.v
Vmlinux.v
VmlinuxNet.v
VmlinuxBpf.v
NatTypes.v
Kernel.v
RefKernel.v
Samples.v
NatParse.v
NatRewrite.v
NatState.v
NatArp.v
NatTap.v
NatUplink.v
NatFlows.v
NatTheorems.v
NatSystem.v
Layouts.v
Tapfilter.v
Decode.v
Ipam.v
Publish.v
Lifecycle.v
Host.v
GoSort.v
Fleet.v
Scheduler.v
Servers.v
ControlPlane.v
Reconciler.v
Ledger.v
ControlRuns.v
Minecraft.v
Whitelist.v
SquashFormat.v
SquashMeta.v
SquashDir.v
SquashWriter.v
SquashFiles.v
SquashTree.v
SquashImage.v
SquashTotal.v
SquashTheorems.v
Rootfs.v
ImageStore.v
