(* ===== verification/Prelude.v ===== *)
(** * Verification of Craftling: eBPF dataplane, control plane, image writer

    Craftling runs Minecraft servers in Firecracker microVMs.  A guest reaches the
    network through two BPF programs, [nat_tap] on every guest's TAP and [nat_uplink] on
    the host's uplink ([bpf/nat.c]), which translate addresses with the kernel's
    conntrack table; a third, [bpf/tapfilter.c], watches one port of a TAP.  The host
    agent (Go) leases addresses and ports to guests ([netalloc.go]), writes the maps the
    programs read ([nat_linux.go]) and decodes the events they emit.  The control plane
    (Go) keeps the table of game servers and the inventory of hosts; its scheduler places
    servers on hosts and its reconciler drives the agents, over the hub they connect to,
    until the machines are what the users asked for.  The root file systems the machines
    boot from are squashfs images, made of OCI images by the image store ([image]) through a
    writer package of its own ([squashfs]).  Paths of
    the dataplane are relative to [src/internal/agent/firecracker], all others to
    [src/internal].

    ** What is modelled where

    - [Prelude]: bytes and machine words, little-endian loads and stores, the state
      monad with faults the programs are written in ([ST], [wp]), generic lemmas,
      tactics and hints.
    - [CLayout]: C types and the x86-64 ABI rules for size, alignment, bit-fields and
      member offsets ([sizeof], [offsetof], [resolve]).
    - [Checksum]: the 16-bit one's-complement sum and incremental updates.
    - [Vmlinux]: the declarations of [bpf/vmlinux.h] the programs use, each with the lines it
      transcribes.  [VmlinuxNet], [VmlinuxBpf]: its further declarations of the network stack
      and of BPF, which no program reads; only that their layouts are sound is shown
      ([layouts_sound]).
    - [NatTypes]: constants, structures and maps of [bpf/nat.c] (records, and [_decl]
      declarations whose offsets are computed, never written down).
    - [Kernel]: the interface to the kernel.  [BpfHelpers] and [Conntrack] are the helpers
      and kfuncs, with laws in [BpfHelpersLaws], [ConntrackLaws] and [StoresSucceed]; [world]
      is the state of a run: packet (with whether its transport checksum is left to the
      device), maps, conntrack table, references held, redirect target.  The checksum
      helpers are specified by the size and the flags they are given.  [RefKernel] is an executable instance that satisfies the laws, [Samples]
      builds packets and maps for it.
    - [NatParse] ([parse]), [NatRewrite] ([set_addr], [set_port], [set_eth_dst]), [NatState]
      ([get_cfg], [stat_for], [emit], [policy_check], [mk_tuple]), [NatArp] ([handle_arp]),
      [NatTap] ([nat_tap]), [NatUplink] ([nat_uplink]): one file per part of [bpf/nat.c], the
      translation first, then its specification and the lemma that the program meets it.
      A block of a long function is a definition of its own ([tap_flow], [tap_forward],
      [uplink_reply], [uplink_inbound], ...) called where the block stands.
    - [NatFlows]: what several packets of one flow have in common.
    - [NatTheorems]: the properties of the two programs.
    - [NatSystem]: runs of the dataplane, any packets on any port in any order.
    - [Layouts]: agreement of the header structures with the formats on the wire and of the
      Go structures ([natGlobalConfig], [natVMEntry], ...) with the C ones, and soundness of
      the computed layouts.
    - [Tapfilter]: [bpf/tapfilter.c].
    - [Decode]: [decodeNatEvent] and [decodeFlowEvent].
    - [Ipam]: [netalloc.go].
    - [Publish]: [newDataplane], [publishVM], [withdrawVM] and [vmStats] of [nat_linux.go];
      the library calls are the class [EbpfLibrary]; [EbpfCalls] says what they do when
      they succeed, [EbpfLibraryLaws] also that the calls whose errors the code ignores do.
    - [Lifecycle]: [Provision], [Start] and [teardown] ([runtime.go], [machine.go], [mmds.go])
      as far as they use the allocator and the dataplane, and the invariant [guests_ok]
      of the two.
    - [Host]: the same operations as interleaved steps, one per access to the shared state,
      with packets in between ([host_step]; every command has its own goroutine,
      [internal/agent/link.go]).
    - [GoSort]: Go's [sort.SliceStable] and what it determines.
    - [Fleet]: [HostRepository] of [repository/host.go]; a method holds the mutex from
      start to end, so it is a function on the inventory.
    - [Scheduler]: [scheduler/scheduler.go] over the class [hostStore], with what a client
      may rely on in [hostStoreLaws]; the inventory shared with the other goroutines
      implements it ([world_store] in [ControlPlane], laws in [ControlRuns]).
    - [Servers]: [model.GameServer] and the SQL statements of [repository/game_server.go]
      and [repository/billing.go], as functions on the tables.
    - [ControlPlane]: the shared state ([World]), the connections of [agentlink/hub.go]
      as one critical section after the other, what other goroutines may do between two
      calls of the reconciler ([act]), and [provisioner/remote.go], an instance of the
      class [Provisioner].
    - [Reconciler]: [reconciler/reconciler.go], over any [Provisioner].
    - [Ledger]: the invariant [balanced] (free and committed capacity of every host
      account for its total, also half-way through a placement) and that every operation
      of the reconciler and of the other goroutines keeps it.
    - [ControlRuns]: runs of the control plane ([cp_step]) and their properties.
    - [Minecraft]: [minecraft/ping.go] and [minecraft/rcon.go], the packets and an RCON
      session.  [Whitelist]: [minecraft/whitelist.go].
    - [SquashFormat]: [squashfs/format.go], [superblock.go] and [inode.go], each encoder with
      the reader of what it writes.  [SquashMeta]: [metadata.go], [idtable.go] and
      [compressor.go]; the classes [Compressor] and [WriteSeeker] are the Go interfaces,
      [Decompressor] and [FileLaws] what is assumed of them.  [SquashDir]: [directory.go].
      [SquashWriter]: [writer.go], the state [Writer], the calls of the API and [Close];
      an entry is named by its path where the code has a pointer.
    - [SquashFiles]: the specification (a file system as a map, what each call does to it,
      and a reader of images, [stat]) and that the calls keep writer and file system in
      step ([writing]).  [SquashTree]: the passes and tables of [Close].  [SquashImage]:
      reading the finished image.  [SquashTotal]: loops end and no nil pointer is
      followed.  [SquashTheorems]: the properties of the package.
    - [Rootfs]: [buildSquashfs] of [image/rootfs.go], which streams the tar of an OCI image
      into the writer and adds the init agent and the mount points; its specification
      [rootfs_of], the triple [built] that connects a run of the builder with the calls of
      the writer it makes, and the names of cached images.  [ImageStore]: the store of the
      same file ([Ensure], [PullImage], [UntagImage], ...) over a directory of names and
      inodes ([disk]).

    ** What the theorems show

    - Refinement: each program, on every packet, returns and behaves as one branch of a
      relation that says what the branch promises ([tap_step], [uplink_step],
      [filter_post]); no read leaves the packet.
    - Translation: replies come back to whoever sent the packet, in both directions, with
      the original endpoints; a flow keeps its translation; a lost insertion race uses
      the winner; checksums that are right stay right, and nothing but the translated
      endpoint and the checksums changes.
    - Safety: both policies are enforced before anything is touched; the host's own
      traffic passes untouched, except for later fragments, which are dropped; every conntrack reference is given back.
    - Invariants over runs: leases never collide, and in every interleaving of the steps of
      [host_step] what is in use is what is leased, and what is in the maps is what is
      published, apart from the traces of calls in progress, each under the keys of its own
      lease; a published guest is reachable on its host port.
    - Parsing, rewriting, policy lookup, allocation, publication and event decoding are
      characterised exactly, errors included.
    - Control plane: with statements and agents that fail and with all interleavings of
      reconciler, hub, reaper and API requests, no host is committed beyond its capacity
      as long as every registration has an identifier and the true totals of its machine
      and the writes that settle a placement do not fail;
      an undisturbed reconciliation brings a server to its desired state; the scheduler
      picks the freest fitting host and stays correct when others reserve between its
      calls; a delete removes the row unless a host that is up refused it.
    - Minecraft: VarInts, status packets and RCON packets come back as they were sent, a
      session pairs every command with its reply, and after the commands of a
      synchronisation the whitelist is the desired one.
    - Squashfs: an image reads back as the file system that the calls described, file
      contents, hard links and listings included, for any compressor that can be undone
      and any output that keeps to the contract of [io.Writer]; whatever the calls, the
      writer ends with a complete image or an error that the code returns.
    - Images: what a guest boots from is what the tar says, under the builder's rules, and
      whatever the tar holds the reserved directory has the init agent and nothing else;
      the store publishes an image whole or leaves the cache as it was.
    - Defects the model showed are theorems as well ([snat_failure_leaks],
      [inbound_conns_every_packet], [fragments_dropped], [nat_event_length_swapped],
      [failed_boot_leaves_rule], [restart_race_republishes], [port_entry_masks_shorter],
      [top_of_space_wraps], [tapfilter_matches_fragment_payload], [failed_stop_overcommits],
      [reconnect_marked_down], [shrunk_host_overcommits], [rcon_split_reply_shifts],
      [concurrent_ensure_publishes_partial]).

    ** Conventions and bounds

    Integers are [Z] with their wrap-around written out ([wrap], [count]); a value in
    network order is the little-endian value of its bytes, as the little-endian BPF
    target loads it.  A load outside [data .. data_end] is a fault ([None]), so totality
    of a program is part of its theorem.  The programs have no loops; fuel is
    the number of rounds of the two scans of the allocator, which is the size of the
    range as the code computes it ([allocate_complete] shows it is enough), and the five
    rounds of [writeVarInt], enough for a [uint32] ([writeVarInt_fuel]).  In the squashfs
    writer a loop over bytes has one round per byte and the walks over the tree as many
    levels as the longest path has bytes; [writer_total] shows that none runs out. The
    loop over the directories above a path has a round per byte of the path
    ([ancestors_above]). The round trip of the writer holds for [2^23] entries (the size
    of a listing stays in 32 bits) and images below [2^48] bytes (the range of an inode
    reference). Capacities of hosts and of placed servers stay below [2^31], the range
    of the registration message and of the columns.
    [packet_ok] says a packet is bytes with the linear part inside it; [maps_ok] that
    map values fit their C members.  A run of the control plane takes an [Oracle]: the
    clock, fresh identifiers, the outcome of every statement, the replies of the agents
    and the steps of the other goroutines, one entry per call.

    ** Not modelled

    - The kernel behind the interface classes; map contents changing while a program
      runs; other CPUs, except that a failed insertion may find the table changed.  The
      per-CPU counters are those of the CPU a program runs on.
    - The rest of [bpf/vmlinux.h], and unused constants ([IP_MF], [BPF_F_INGRESS]).
    - Attaching and closing beyond its effect on links and maps ([Close], [drain]), TAP
      creation, the Firecracker API, disks, health checks: process and file I/O;
      how far a boot gets is an argument.  [host_step] leaves out a boot that fails after
      the publication and a restart that publishes after the teardown of the same VM took
      its link away; what those do is stated separately.  Restarts of the control plane
      happen between two passes of the reconciler.
    - Of the control plane: HTTP and authentication (the requests that change a server are
      steps), the read-only queries of the API, tickers, gRPC framing, whitelist pushes
      and logs.  Of the Minecraft helpers: dialling, JSON and regular expressions.
    - Of the squashfs package: [metaWriter.Resolve], [Compressor.Options] and constants that
      nothing uses; calls on a writer after one of them failed.
    - Of the image store: the registry client, [archive/tar] and the operating system, whose
      answers are arguments; the JSON and HTTP of the run spec.
    - The in-VM init agent and the web front end. *)
From stdpp Require Export base gmap list numbers.
#[global] Open Scope Z_scope.

(** ** Bytes and machine words

    A packet, a map value or a kernel object is a list of bytes, each a [Z] in
    [[0, 256)].  The programs are compiled for the little-endian BPF target
    (bpf2go [-target bpfel]), so a multi-byte load assembles bytes in
    little-endian order; "network order" values are the ones whose bytes on the
    wire are big-endian, held as they were loaded. *)

Definition zlen {A} (l : list A) : Z := Z.of_nat (length l).

Definition byte_ok (b : Z) : Prop := 0 ≤ b < 256.

Definition bytes_ok (l : list Z) : Prop := Forall byte_ok l.

(** [slice off n d] is the [n] bytes of [d] from [off]. *)
Definition slice (off n : Z) (d : list Z) : list Z :=
  take (Z.to_nat n) (drop (Z.to_nat off) d).

(** [splice off bs d] is [d] with the bytes from [off] overwritten by [bs]. *)
Definition splice (off : Z) (bs d : list Z) : list Z :=
  take (Z.to_nat off) d ++ bs ++ drop (Z.to_nat off + length bs) d.

(** The value of a little-endian byte sequence, and its inverse. *)
Fixpoint le_val (bs : list Z) : Z :=
  match bs with
  | [] => 0
  | b :: t => b + 256 * le_val t
  end.

Fixpoint le_bytes (n : nat) (v : Z) : list Z :=
  match n with
  | O => []
  | S n => v mod 256 :: le_bytes n (v / 256)
  end.

Definition load (n off : Z) (d : list Z) : Z := le_val (slice off n d).

(** The value of a big-endian byte sequence (what the wire format means). *)
Definition be_val (bs : list Z) : Z := le_val (rev bs).

(** [wrap w v] is the value a [w]-bit unsigned object holds after [v] is
    assigned to it. *)
Definition wrap (w v : Z) : Z := v mod 2 ^ w.

(** [__builtin_bswap16], which [bpf_htons] and [bpf_ntohs] are on a
    little-endian target. *)
Definition bswap16 (v : Z) : Z := v mod 256 * 256 + v / 256 mod 256.

Definition bpf_htons (v : Z) : Z := bswap16 v.

Definition bpf_ntohs (v : Z) : Z := bswap16 v.

(** ** A state monad with faults

    [None] is an access outside the memory the program may touch; a program
    that is memory safe never produces it. *)

Definition ST (W A : Type) : Type := W → option (A * W).

Definition ret {W A} (a : A) : ST W A := λ w, Some (a, w).

Definition bind {W A B} (m : ST W A) (k : A → ST W B) : ST W B :=
  λ w, match m w with Some (a, w') => k a w' | None => None end.

Definition fault {W A} : ST W A := λ _, None.

Definition gets {W A} (f : W → A) : ST W A := λ w, Some (f w, w).

Definition modify {W} (f : W → W) : ST W unit := λ w, Some (tt, f w).

Declare Scope st_scope.
Delimit Scope st_scope with st.

Notation "'let*' x ':=' m 'in' k" := (bind m (λ x, k))
  (at level 10, x pattern, m at level 100, k at level 200) : st_scope.
Notation "'do*' m 'in' k" := (bind m (λ _, k))
  (at level 10, m at level 100, k at level 200) : st_scope.
#[global] Open Scope st_scope.

(** [when b m] is the C statement [if (b) m;]. *)
Definition when {W} (b : bool) (m : ST W unit) : ST W unit := if b then m else ret tt.

(** Total correctness: the run does not fault, and its result satisfies [Q]. *)
Definition wp {W A} (m : ST W A) (Q : A → W → Prop) (w : W) : Prop :=
  match m w with Some (a, w') => Q a w' | None => False end.

(** ** Lemmas on byte sequences *)

Create HintDb bytes.
Create Rewrite HintDb bytes.

Lemma zlen_nonneg {A} (l : list A) : 0 ≤ zlen l.
Proof. unfold zlen. lia. Qed.

Lemma zlen_app {A} (l k : list A) : zlen (l ++ k) = zlen l + zlen k.
Proof. unfold zlen. rewrite length_app. lia. Qed.

Lemma zlen_cons {A} (x : A) (l : list A) : zlen (x :: l) = 1 + zlen l.
Proof. unfold zlen. simpl. lia. Qed.

Lemma zlen_slice off n d :
  0 ≤ off → 0 ≤ n → off + n ≤ zlen d → zlen (slice off n d) = n.
Proof. unfold zlen, slice. rewrite length_take, length_drop. lia. Qed.

Lemma zlen_splice off bs d :
  0 ≤ off → off + zlen bs ≤ zlen d → zlen (splice off bs d) = zlen d.
Proof.
  unfold zlen, splice. rewrite !length_app, length_take, length_drop. lia.
Qed.

Lemma zlen_le_bytes n v : zlen (le_bytes n v) = Z.of_nat n.
Proof. revert v. induction n as [|n IH]; intros v; [done|]. simpl. rewrite zlen_cons, IH. lia. Qed.

Lemma slice_splice_eq off n bs d :
  0 ≤ off → n = zlen bs → off + n ≤ zlen d → slice off n (splice off bs d) = bs.
Proof.
  intros Ho -> Hl. unfold slice, splice, zlen in *.
  rewrite drop_app_ge by (rewrite length_take; lia).
  rewrite length_take, Nat.min_l by lia. rewrite Nat.sub_diag, drop_0.
  rewrite Nat2Z.id, take_app_length. done.
Qed.

Lemma slice_splice_ne o n off bs d :
  0 ≤ o → 0 ≤ n → 0 ≤ off → off + zlen bs ≤ zlen d →
  o + n ≤ off ∨ off + zlen bs ≤ o →
  slice o n (splice off bs d) = slice o n d.
Proof.
  intros Ho Hn Hoff Hl Hd. unfold slice, splice, zlen in *.
  apply list_eq. intros i.
  destruct (decide (i < Z.to_nat n)%nat) as [Hi|Hi]; last first.
  { rewrite !lookup_take_ge by lia. done. }
  rewrite !lookup_take_lt by lia. rewrite !lookup_drop.
  destruct Hd as [Hd|Hd].
  - rewrite lookup_app_l by (rewrite length_take; lia).
    apply lookup_take_lt. lia.
  - rewrite lookup_app_r by (rewrite length_take; lia).
    rewrite lookup_app_r by (rewrite length_take; lia).
    rewrite lookup_drop. f_equal. rewrite length_take. lia.
Qed.

Lemma slice_app_l off n l k :
  0 ≤ off → 0 ≤ n → off + n ≤ zlen l → slice off n (l ++ k) = slice off n l.
Proof.
  intros. unfold slice, zlen in *. rewrite drop_app_le by lia.
  rewrite take_app_le; [done|]. rewrite length_drop. lia.
Qed.

Lemma slice_all d : slice 0 (zlen d) d = d.
Proof. unfold slice, zlen. rewrite Nat2Z.id. apply firstn_all. Qed.

Lemma slice_slice o n off m d :
  0 ≤ o → 0 ≤ n → 0 ≤ off → o + n ≤ m →
  slice o n (slice off m d) = slice (off + o) n d.
Proof.
  intros. unfold slice. rewrite skipn_firstn_comm, drop_drop, take_take.
  f_equal; [lia|]. f_equal. lia.
Qed.

Lemma slice_split off n m d :
  0 ≤ off → 0 ≤ n → 0 ≤ m → slice off (n + m) d = slice off n d ++ slice (off + n) m d.
Proof.
  intros. unfold slice. rewrite Z2Nat.inj_add by lia. rewrite <- take_take_drop.
  rewrite drop_drop. do 3 f_equal. lia.
Qed.

(** A store inside a slice is a store into the slice. *)
Lemma slice_splice_inner o n off bs d :
  0 ≤ o → o ≤ off → off + zlen bs ≤ o + n → o + n ≤ zlen d →
  slice o n (splice off bs d) = splice (off - o) bs (slice o n d).
Proof.
  intros Ho Hoff Hb Hl. unfold slice, splice, zlen in *.
  rewrite drop_app_le by (rewrite length_take; lia).
  rewrite skipn_firstn_comm.
  rewrite take_app_ge by (rewrite length_take, length_drop; lia).
  rewrite take_take. rewrite length_take, length_drop.
  f_equal; [f_equal; lia|].
  rewrite take_app_ge by lia. f_equal.
  rewrite skipn_firstn_comm, drop_drop. f_equal; [lia|]. f_equal. lia.
Qed.

Lemma split_front n (l : list Z) : 0 ≤ n ≤ zlen l → ∃ a b, l = a ++ b ∧ zlen a = n.
Proof.
  intros. exists (take (Z.to_nat n) l), (drop (Z.to_nat n) l). rewrite take_drop.
  split; [done|]. unfold zlen in *. rewrite length_take. lia.
Qed.

(** Stores into a sequence given in pieces: past a piece, and over a piece. *)
Lemma splice_skip off bs l k :
  zlen l ≤ off → splice off bs (l ++ k) = l ++ splice (off - zlen l) bs k.
Proof.
  unfold splice, zlen. intros Hl. rewrite take_app_ge, drop_app_ge by lia.
  rewrite <- app_assoc. f_equal. f_equal; [f_equal; lia|]. do 2 f_equal. lia.
Qed.

Lemma splice_here off bs old k :
  off = 0 → zlen old = zlen bs → splice off bs (old ++ k) = bs ++ k.
Proof.
  unfold splice, zlen. intros -> Hl. simpl. f_equal.
  replace (length bs) with (length old) by lia. apply drop_app_length.
Qed.

Lemma bytes_ok_slice off n d : bytes_ok d → bytes_ok (slice off n d).
Proof. intros. by apply Forall_take, Forall_drop. Qed.

Lemma bytes_ok_splice off bs d : bytes_ok bs → bytes_ok d → bytes_ok (splice off bs d).
Proof.
  intros. apply Forall_app. split; [by apply Forall_take|].
  apply Forall_app. split; [done|by apply Forall_drop].
Qed.

Lemma bytes_ok_le_bytes n v : bytes_ok (le_bytes n v).
Proof.
  revert v. induction n; intros v; constructor; [|apply IHn].
  unfold byte_ok. apply Z.mod_pos_bound. lia.
Qed.

Lemma le_val_bound bs : bytes_ok bs → 0 ≤ le_val bs < 256 ^ zlen bs.
Proof.
  induction 1 as [|b t Hb Ht IH]; [simpl; unfold zlen; simpl; lia|].
  rewrite zlen_cons. rewrite Z.pow_add_r by (try apply zlen_nonneg; lia).
  unfold byte_ok in Hb. simpl. lia.
Qed.

Lemma le_val_le_bytes n v : le_val (le_bytes n v) = v mod 256 ^ Z.of_nat n.
Proof.
  revert v. induction n as [|n IH]; intros v; [simpl; by rewrite Z.mod_1_r|].
  cbn [le_bytes le_val]. rewrite IH. rewrite Nat2Z.inj_succ, Z.pow_succ_r by lia.
  rewrite Z.rem_mul_r by lia. done.
Qed.

Lemma le_bytes_le_val bs : bytes_ok bs → le_bytes (length bs) (le_val bs) = bs.
Proof.
  induction 1 as [|b t Hb Ht IH]; [done|]. simpl. unfold byte_ok in Hb.
  rewrite Z.mul_comm, Z.mod_add, Z.div_add by lia.
  rewrite Z.mod_small, Z.div_small by lia. by rewrite Z.add_0_l, IH.
Qed.

Lemma le_val_app l k : le_val (l ++ k) = le_val l + 256 ^ zlen l * le_val k.
Proof.
  induction l as [|b t IH]; [simpl; change (zlen []) with 0; lia|].
  rewrite zlen_cons. simpl. rewrite IH.
  rewrite Z.pow_add_r by (try apply zlen_nonneg; lia). lia.
Qed.

Lemma le_val_inj l k : bytes_ok l → bytes_ok k → length l = length k →
  le_val l = le_val k → l = k.
Proof.
  intros Hl Hk Hn He. rewrite <- (le_bytes_le_val l), <- (le_bytes_le_val k) by done.
  by rewrite He, Hn.
Qed.

Lemma load_bound n off d : bytes_ok d → 0 ≤ n → 0 ≤ load n off d < 256 ^ n.
Proof.
  intros Hd Hn. unfold load.
  pose proof (le_val_bound (slice off n d) (bytes_ok_slice _ _ _ Hd)) as [H0 H1].
  split; [done|]. eapply Z.lt_le_trans; [done|].
  apply Z.pow_le_mono_r; [lia|]. unfold zlen, slice. rewrite length_take. lia.
Qed.

Lemma load_splice_eq n off bs d :
  0 ≤ off → n = zlen bs → off + n ≤ zlen d → load n off (splice off bs d) = le_val bs.
Proof. intros. unfold load. by rewrite slice_splice_eq. Qed.

Lemma load_splice_ne n o off bs d :
  0 ≤ o → 0 ≤ n → 0 ≤ off → off + zlen bs ≤ zlen d →
  o + n ≤ off ∨ off + zlen bs ≤ o →
  load n o (splice off bs d) = load n o d.
Proof. intros. unfold load. by rewrite slice_splice_ne. Qed.

Lemma bswap16_involutive v : 0 ≤ v < 65536 → bswap16 (bswap16 v) = v.
Proof. unfold bswap16. intros. Z.to_euclidean_division_equations. lia. Qed.

Lemma bswap16_bound v : 0 ≤ bswap16 v < 65536.
Proof. unfold bswap16. Z.to_euclidean_division_equations. lia. Qed.

Lemma bswap16_inj u v :
  0 ≤ u < 65536 → 0 ≤ v < 65536 → bswap16 u = bswap16 v → u = v.
Proof. intros Hu Hv H. rewrite <- (bswap16_involutive u), H by done. by apply bswap16_involutive. Qed.

(** The bits of two numbers that do not overlap. *)
Lemma lor_low_high a b k : 0 ≤ k → 0 ≤ a < 2 ^ k → 0 ≤ b → Z.lor a (b * 2 ^ k) = a + b * 2 ^ k.
Proof.
  intros Hk Ha Hb. assert (Hdis : Z.land a (b * 2 ^ k) = 0).
  { rewrite <- Z.shiftl_mul_pow2 by lia. apply Z.bits_inj'. intros i Hi. rewrite Z.land_spec, Z.bits_0.
    destruct (Z.lt_ge_cases i k).
    - by rewrite Z.shiftl_spec_low, andb_false_r.
    - by rewrite <- (Z.mod_small a (2 ^ k)), Z.mod_pow2_bits_high by lia. }
  rewrite <- Z.lxor_lor by done. symmetry. by apply Z.add_nocarry_lxor.
Qed.

#[export] Instance byte_ok_dec b : Decision (byte_ok b).
Proof. unfold byte_ok. apply _. Defined.

#[export] Instance bytes_ok_dec l : Decision (bytes_ok l).
Proof. unfold bytes_ok. apply _. Defined.

#[export] Hint Resolve zlen_nonneg bytes_ok_slice bytes_ok_splice bytes_ok_le_bytes : bytes.
#[export] Hint Rewrite @zlen_app @zlen_cons zlen_le_bytes : bytes.

(** Ranges of lengths and offsets, through stores. *)
Ltac solve_bytes :=
  autorewrite with bytes; repeat rewrite zlen_splice by solve_bytes;
  autorewrite with bytes; lia.

(** ** Lemmas on [wp] *)

Section wp.
Context {W : Type}.

Lemma wp_ret {A} (a : A) (Q : A → W → Prop) w : Q a w → wp (ret a) Q w.
Proof. done. Qed.

Lemma wp_bind {A B} (m : ST W A) (k : A → ST W B) Q w :
  wp m (λ a w', wp (k a) Q w') w → wp (bind m k) Q w.
Proof. unfold wp, bind. by destruct (m w) as [[??]|]. Qed.

Lemma wp_bind_inv {A B} (m : ST W A) (k : A → ST W B) Q w :
  wp (bind m k) Q w → wp m (λ a w', wp (k a) Q w') w.
Proof. unfold wp, bind. by destruct (m w) as [[??]|]. Qed.

Lemma wp_gets {A} (f : W → A) (Q : A → W → Prop) w : Q (f w) w → wp (gets f) Q w.
Proof. done. Qed.

Lemma wp_modify (f : W → W) (Q : unit → W → Prop) w : Q tt (f w) → wp (modify f) Q w.
Proof. done. Qed.

Lemma wp_mono {A} (m : ST W A) (Q R : A → W → Prop) w :
  wp m Q w → (∀ a w', Q a w' → R a w') → wp m R w.
Proof. unfold wp. destruct (m w) as [[??]|]; [intros H HQR; by apply HQR|done]. Qed.

Lemma wp_conj {A} (m : ST W A) (Q R : A → W → Prop) w :
  wp m Q w → wp m R w → wp m (λ a w', Q a w' ∧ R a w') w.
Proof. unfold wp. by destruct (m w) as [[??]|]. Qed.

Lemma wp_when b (m : ST W unit) (Q : unit → W → Prop) w :
  (b = true → wp m Q w) → (b = false → Q tt w) → wp (when b m) Q w.
Proof. destruct b; cbn; auto. Qed.

Lemma wp_run {A} (m : ST W A) (Q : A → W → Prop) w :
  wp m Q w ↔ ∃ a w', m w = Some (a, w') ∧ Q a w'.
Proof.
  unfold wp. destruct (m w) as [[a w']|]; split.
  - intros H. by exists a, w'.
  - by intros (? & ? & [= <- <-] & H).
  - done.
  - by intros (? & ? & ? & _).
Qed.

End wp.

(** One step of symbolic execution of a [wp] goal. *)
Ltac wp_step :=
  lazymatch goal with
  | |- wp (bind _ _) _ _ => apply wp_bind
  | |- wp (ret _) _ _ => apply wp_ret
  | |- wp (gets _) _ _ => apply wp_gets
  | |- wp (modify _) _ _ => apply wp_modify
  | |- wp (when _ _) _ _ => apply wp_when; intros
  end.

Ltac wp_steps := repeat (wp_step; cbv beta).

(** Decide the boolean tests of the programs as propositions. *)
Ltac bool_prop :=
  repeat match goal with
  | H : _ && _ = true |- _ => apply andb_true_iff in H; destruct H
  | H : _ || _ = false |- _ => apply orb_false_iff in H; destruct H
  | H : negb _ = true |- _ => apply negb_true_iff in H
  | H : negb _ = false |- _ => apply negb_false_iff in H
  | H : (_ =? _)%Z = true |- _ => apply Z.eqb_eq in H
  | H : (_ =? _)%Z = false |- _ => apply Z.eqb_neq in H
  | H : (_ <=? _)%Z = true |- _ => apply Z.leb_le in H
  | H : (_ <=? _)%Z = false |- _ => apply Z.leb_gt in H
  | H : (_ <? _)%Z = true |- _ => apply Z.ltb_lt in H
  | H : (_ <? _)%Z = false |- _ => apply Z.ltb_ge in H
  end.

(** Two results of the same call are the same. *)
Ltac merge_calls :=
  repeat match goal with
  | H1 : ?x = (_, _), H2 : ?x = (_, _) |- _ => rewrite H1 in H2; simplify_eq
  end.

(** Decide a closed proposition by computation. *)
Ltac by_eval := apply (bool_decide_eq_true_1 _); vm_compute; reflexivity.
