(* ===== verification/CLayout.v ===== *)
(** * C object layout

    The layout rules of the target (x86-64 System V, which the little-endian BPF
    target and the kernel's BTF share): size, alignment and member placement of
    integers, pointers, arrays, structures and unions, with bit-fields, packed
    and explicitly aligned declarations, unnamed padding and anonymous members.
    [Vmlinux*] transcribe the declarations of [bpf/vmlinux.h] as values of
    [ctype]; the dataplane model takes every [offsetof], [sizeof] and
    [BPF_CORE_READ] offset from here.

    The theorems are generic in the declaration: sizes are multiples of
    alignments, members lie inside their object, members of a structure do not
    overlap, and an ordinary member is naturally aligned. *)
From stdpp Require Export strings.
From S2P Require Import Prelude.

(** ** Types *)

Inductive ctype : Type :=
| CInt (sgn : bool) (sz : Z)
| CEnum (sz : Z) (vals : list (string * Z))
| CPtr (pointee : string)
| CArr (n : Z) (t : ctype)
| CStruct (packed : bool) (al : Z) (fs : cfields)
| CUnion (packed : bool) (al : Z) (fs : cfields)
with cfields : Type :=
| FNil
| FCons (name : string) (bits : option Z) (al : Z) (t : ctype) (fs : cfields).

(** The integer types of the target. *)
Definition cchar : ctype := CInt true 1.
Definition cschar : ctype := CInt true 1.
Definition cuchar : ctype := CInt false 1.
Definition cbool : ctype := CInt false 1.
Definition cshort : ctype := CInt true 2.
Definition cushort : ctype := CInt false 2.
Definition cint : ctype := CInt true 4.
Definition cuint : ctype := CInt false 4.
Definition clong : ctype := CInt true 8.
Definition culong : ctype := CInt false 8.
Definition cllong : ctype := CInt true 8.
Definition cullong : ctype := CInt false 8.
Definition cint128 : ctype := CInt true 16.
Definition cuint128 : ctype := CInt false 16.

Scheme ctype_mut := Induction for ctype Sort Prop
  with cfields_mut := Induction for cfields Sort Prop.
Combined Scheme ctype_cfields_ind from ctype_mut, cfields_mut.

(** A declaration lists its members in order: [F] an ordinary member, [FA] one
    with an explicit [aligned] attribute, [B] a bit-field of the given width;
    [""] is an anonymous member. *)
Definition field : Type := string * option Z * Z * ctype.
Definition F (n : string) (t : ctype) : field := (n, None, 1, t).
Definition FA (n : string) (al : Z) (t : ctype) : field := (n, None, al, t).
Definition B (n : string) (t : ctype) (w : Z) : field := (n, Some w, 1, t).

Fixpoint fields (l : list field) : cfields :=
  match l with
  | [] => FNil
  | (n, bits, al, t) :: l => FCons n bits al t (fields l)
  end.

Definition cstruct (l : list field) : ctype := CStruct false 1 (fields l).
Definition cunion (l : list field) : ctype := CUnion false 1 (fields l).

(** ** Size, alignment and placement (offsets and widths in bits) *)

Definition align_up (x a : Z) : Z := (x + a - 1) / a * a.

Fixpoint alignof (t : ctype) : Z :=
  match t with
  | CInt _ sz => sz
  | CEnum sz _ => sz
  | CPtr _ => 8
  | CArr _ t => alignof t
  | CStruct p al fs => Z.max al (fields_align p fs)
  | CUnion p al fs => Z.max al (fields_align p fs)
  end
with fields_align (p : bool) (fs : cfields) : Z :=
  match fs with
  | FNil => 1
  | FCons n bits al t fs =>
      let a := if p then al
               else match bits with
                    | Some _ => if String.eqb n "" then 1 else Z.max al (alignof t)
                    | None => Z.max al (alignof t)
                    end in
      Z.max a (fields_align p fs)
  end.

(** The alignment, in bits, that placing a member must respect. *)
Definition member_align (p : bool) (al : Z) (t : ctype) : Z :=
  8 * (if p then al else Z.max al (alignof t)).

(** The first bit a member declared at running position [pos] occupies; [szt] is
    the size of its type in bits. *)
Definition place (p : bool) (bits : option Z) (al : Z) (t : ctype) (szt pos : Z) : Z :=
  match bits with
  | None => align_up pos (member_align p al t)
  | Some w =>
      if w =? 0 then align_up pos (8 * alignof t)
      else if p then pos
      else if pos mod szt + w <=? szt then pos
      else align_up pos szt
  end.

Definition member_width (bits : option Z) (szt : Z) : Z :=
  match bits with Some w => w | None => szt end.

Fixpoint sizeof (t : ctype) : Z :=
  match t with
  | CInt _ sz => sz
  | CEnum sz _ => sz
  | CPtr _ => 8
  | CArr n t => n * sizeof t
  | CStruct p al fs =>
      align_up (fields_end p fs 0) (8 * Z.max al (fields_align p fs)) / 8
  | CUnion p al fs =>
      align_up (fields_max fs) (8 * Z.max al (fields_align p fs)) / 8
  end
with fields_end (p : bool) (fs : cfields) (pos : Z) : Z :=
  match fs with
  | FNil => pos
  | FCons _ bits al t fs =>
      let szt := 8 * sizeof t in
      fields_end p fs (place p bits al t szt pos + member_width bits szt)
  end
with fields_max (fs : cfields) : Z :=
  match fs with
  | FNil => 0
  | FCons _ bits _ t fs => Z.max (member_width bits (8 * sizeof t)) (fields_max fs)
  end.

(** ** Members *)

Record member := mkMember { m_off : Z; m_width : Z; m_bits : bool; m_type : ctype }.

Definition shift_member (d : Z) (m : member) : member :=
  mkMember (d + m_off m) (m_width m) (m_bits m) (m_type m).

Definition is_some {A} (o : option A) : bool :=
  match o with Some _ => true | None => false end.

(** [find_member t n]: member [n] of [t], looking through anonymous members. *)
Fixpoint find_member (t : ctype) (n : string) : option member :=
  match t with
  | CStruct p _ fs => find_field p false fs 0 n
  | CUnion p _ fs => find_field p true fs 0 n
  | _ => None
  end
with find_field (p u : bool) (fs : cfields) (pos : Z) (n : string) : option member :=
  match fs with
  | FNil => None
  | FCons n' bits al t fs =>
      let szt := 8 * sizeof t in
      let start := if u then 0 else place p bits al t szt pos in
      let next := if u then 0 else start + member_width bits szt in
      if String.eqb n' "" then
        match (if is_some bits then None else find_member t n) with
        | Some m => Some (shift_member start m)
        | None => find_field p u fs next n
        end
      else if String.eqb n' n then
        Some (mkMember start (member_width bits szt) (is_some bits) t)
      else find_field p u fs next n
  end.

(** An access path, as written after [->] or in [BPF_CORE_READ]. *)
Inductive accessor : Type :=
| Fld (n : string)
| Idx (i : Z).

Definition access (t : ctype) (a : accessor) : option member :=
  match a with
  | Fld n => find_member t n
  | Idx i =>
      match t with
      | CArr n t' =>
          if (0 <=? i) && (i <? n)
          then Some (mkMember (i * (8 * sizeof t')) (8 * sizeof t') false t')
          else None
      | _ => None
      end
  end.

Fixpoint resolve (t : ctype) (path : list accessor) : option member :=
  match path with
  | [] => Some (mkMember 0 (8 * sizeof t) false t)
  | a :: path =>
      match access t a with
      | Some m =>
          match path with
          | [] => Some m
          | _ => if m_bits m then None
                 else option_map (shift_member (m_off m)) (resolve (m_type m) path)
          end
      | None => None
      end
  end.

(** [offsetof(t, path)] in bytes; every use is on a path that resolves, and the
    [-1] of an unresolvable one never occurs (see the [Vmlinux] lemmas). *)
Definition offsetof (t : ctype) (path : list accessor) : Z :=
  match resolve t path with Some m => m_off m / 8 | None => -1 end.

Definition sizeof_path (t : ctype) (path : list accessor) : Z :=
  match resolve t path with Some m => m_width m / 8 | None => -1 end.

(** The placements of all direct members, in declaration order. *)
Fixpoint placements (p : bool) (fs : cfields) (pos : Z) : list (Z * Z) :=
  match fs with
  | FNil => []
  | FCons _ bits al t fs =>
      let szt := 8 * sizeof t in
      let start := place p bits al t szt pos in
      let next := start + member_width bits szt in
      (start, next) :: placements p fs next
  end.

(** The value of an enumerator. *)
Definition enumerator (t : ctype) (n : string) : option Z :=
  match t with
  | CEnum _ vals => snd <$> find (λ p, String.eqb (fst p) n) vals
  | _ => None
  end.

(** ** Well-formed declarations (decided by [wfb]) *)

Definition pow2b (a : Z) : bool := (0 <? a) && (a =? 2 ^ Z.log2 a).

Fixpoint wfb (t : ctype) : bool :=
  match t with
  | CInt _ sz => pow2b sz
  | CEnum sz _ => pow2b sz
  | CPtr _ => true
  | CArr n t => (0 <=? n) && wfb t
  | CStruct _ al fs => pow2b al && fields_wfb fs
  | CUnion _ al fs => pow2b al && fields_wfb fs
  end
with fields_wfb (fs : cfields) : bool :=
  match fs with
  | FNil => true
  | FCons _ bits al t fs =>
      pow2b al && wfb t &&
      match bits with
      | Some w => (0 <=? w) && (w <=? 8 * sizeof t) && (0 <? sizeof t)
      | None => true
      end && fields_wfb fs
  end.

(** No packed structure is crossed on the way to a member. *)
Fixpoint unpackedb (t : ctype) : bool :=
  match t with
  | CArr _ t => unpackedb t
  | CStruct p _ fs | CUnion p _ fs => negb p && fields_unpackedb fs
  | _ => true
  end
with fields_unpackedb (fs : cfields) : bool :=
  match fs with
  | FNil => true
  | FCons _ _ _ t fs => unpackedb t && fields_unpackedb fs
  end.

(** ** Alignment arithmetic *)

Definition pow2 (a : Z) : Prop := ∃ k, 0 ≤ k ∧ a = 2 ^ k.

Lemma pow2b_pow2 a : pow2b a = true → pow2 a.
Proof. unfold pow2b. intros H. bool_prop. exists (Z.log2 a). split; [apply Z.log2_nonneg|done]. Qed.

Lemma pow2_pos a : pow2 a → 0 < a.
Proof. intros (k & Hk & ->). by apply Z.pow_pos_nonneg. Qed.

Lemma pow2_max a b : pow2 a → pow2 b → pow2 (Z.max a b).
Proof. intros ??. destruct (Z.max_spec a b) as [[_ ->]|[_ ->]]; done. Qed.

Lemma pow2_divide a b : pow2 a → pow2 b → a ≤ b → (a | b).
Proof.
  intros (j & Hj & ->) (k & Hk & ->) Hle.
  apply Z.pow_le_mono_r_iff in Hle; [|lia..].
  exists (2 ^ (k - j)). rewrite <- Z.pow_add_r by lia. f_equal. lia.
Qed.

Lemma align_up_ge x a : 0 < a → x ≤ align_up x a.
Proof. unfold align_up. intros. Z.to_euclidean_division_equations. nia. Qed.

Lemma align_up_divide x a : 0 < a → (a | align_up x a).
Proof. intros. apply Z.divide_factor_r. Qed.

Lemma align_up_nonneg x a : 0 ≤ x → 0 < a → 0 ≤ align_up x a.
Proof. intros. etrans; [|by apply align_up_ge]. done. Qed.

Lemma align_up_bits x a : 0 < a → 8 * (align_up x (8 * a) / 8) = align_up x (8 * a).
Proof.
  intros. unfold align_up. rewrite (Z.mul_comm 8 a), Z.mul_assoc, Z.div_mul by lia. lia.
Qed.

(** ** Placement *)

Definition bits_ok (bits : option Z) (szt : Z) : Prop :=
  match bits with Some w => 0 ≤ w ≤ szt ∧ 0 < szt | None => True end.

Lemma member_align_pos p al t : pow2 al → pow2 (alignof t) → 0 < member_align p al t.
Proof.
  intros ?%pow2_pos ?%pow2_pos. unfold member_align. destruct p; lia.
Qed.

Lemma place_ge p bits al t szt pos :
  pow2 al → pow2 (alignof t) → bits_ok bits szt → pos ≤ place p bits al t szt pos.
Proof.
  intros Ha Ht Hb. pose proof (pow2_pos _ Ht). pose proof (member_align_pos p _ _ Ha Ht).
  unfold place, bits_ok in *. destruct bits as [w|]; [|by apply align_up_ge].
  repeat case_match; try done; apply align_up_ge; lia.
Qed.

Lemma member_width_nonneg bits szt : 0 ≤ szt → bits_ok bits szt → 0 ≤ member_width bits szt.
Proof. unfold member_width, bits_ok. destruct bits; lia. Qed.

Lemma wf_cons n bits al t fs :
  fields_wfb (FCons n bits al t fs) = true →
  pow2 al ∧ wfb t = true ∧ bits_ok bits (8 * sizeof t) ∧ fields_wfb fs = true.
Proof.
  simpl. intros H. bool_prop. split_and!; [by apply pow2b_pow2|done| |done].
  unfold bits_ok. destruct bits; [bool_prop; lia|done].
Qed.

(** ** Sizes and alignments of well-formed declarations *)

Definition layout_ok (t : ctype) : Prop :=
  pow2 (alignof t) ∧ 0 ≤ sizeof t ∧ (alignof t | sizeof t).

Lemma aggregate_size_ok x a :
  0 ≤ x → pow2 a → 0 ≤ align_up x (8 * a) / 8 ∧ (a | align_up x (8 * a) / 8).
Proof.
  intros Hx Ha. pose proof (pow2_pos _ Ha). split.
  - apply Z.div_pos; [|lia]. apply align_up_nonneg; lia.
  - apply Z.mul_divide_cancel_l with (p := 8); [lia|].
    rewrite align_up_bits by done. apply align_up_divide. lia.
Qed.

Lemma wf_layout :
  (∀ t, wfb t = true → layout_ok t) ∧
  (∀ fs, fields_wfb fs = true →
     (∀ p, pow2 (fields_align p fs)) ∧ (∀ p pos, pos ≤ fields_end p fs pos) ∧
     0 ≤ fields_max fs).
Proof.
  unfold layout_ok. apply ctype_cfields_ind.
  - simpl. intros sgn sz H%pow2b_pow2. pose proof (pow2_pos _ H). split_and!; [done|lia|done].
  - simpl. intros sz vals H%pow2b_pow2. pose proof (pow2_pos _ H). split_and!; [done|lia|done].
  - simpl. intros _ _. split_and!; [by exists 3|lia|done].
  - simpl. intros n t IH H. bool_prop. destruct IH as (Hp & Hs & Hd); [done|].
    split_and!; [done|nia|by apply Z.divide_mul_r].
  - simpl. intros p al fs IH H. bool_prop. destruct IH as (Hp & He & _); [done|].
    split; [apply pow2_max; [by apply pow2b_pow2|done]|].
    apply aggregate_size_ok; [apply He|apply pow2_max; [by apply pow2b_pow2|done]].
  - simpl. intros p al fs IH H. bool_prop. destruct IH as (Hp & _ & Hx); [done|].
    split; [apply pow2_max; [by apply pow2b_pow2|done]|].
    apply aggregate_size_ok; [done|apply pow2_max; [by apply pow2b_pow2|done]].
  - simpl. intros _. split_and!; [by exists 0|done|lia].
  - intros n bits al t IHt fs IHfs (Hal & Hwt & Hb & Hwf)%wf_cons.
    destruct IHt as (Hp & Hs & Hd); [done|]. destruct IHfs as (Hps & He & Hx); [done|].
    assert (0 ≤ member_width bits (8 * sizeof t)) by (apply member_width_nonneg; [lia|done]).
    cbn [fields_align fields_end fields_max]. split_and!; [| |lia].
    + intros p. apply pow2_max; [|done]. destruct p; [done|].
      destruct bits; [case_match|]; try (by apply pow2_max). by exists 0.
    + intros p pos. pose proof (place_ge p bits al t (8 * sizeof t) pos).
      etrans; [|apply He]. naive_solver lia.
Qed.

Lemma wf_layout_ok t : wfb t = true → layout_ok t.
Proof. apply wf_layout. Qed.

Lemma wf_fields_align fs p : fields_wfb fs = true → pow2 (fields_align p fs).
Proof. intros H. by apply wf_layout. Qed.

Lemma wf_fields_end fs p pos : fields_wfb fs = true → pos ≤ fields_end p fs pos.
Proof. intros H. by apply wf_layout. Qed.

(** ** Members lie inside their object *)

Definition inside (m : member) (lo hi : Z) : Prop :=
  lo ≤ m_off m ∧ 0 ≤ m_width m ∧ m_off m + m_width m ≤ hi.

Lemma struct_end_le p al fs :
  fields_wfb fs = true → pow2 al → fields_end p fs 0 ≤ 8 * sizeof (CStruct p al fs).
Proof.
  intros Hw Ha. cbn [sizeof].
  pose proof (pow2_pos _ (pow2_max _ _ Ha (wf_fields_align fs p Hw))).
  rewrite align_up_bits by done. apply align_up_ge. lia.
Qed.

Lemma union_max_le p al fs :
  fields_wfb fs = true → pow2 al → fields_max fs ≤ 8 * sizeof (CUnion p al fs).
Proof.
  intros Hw Ha. cbn [sizeof].
  pose proof (pow2_pos _ (pow2_max _ _ Ha (wf_fields_align fs p Hw))).
  rewrite align_up_bits by done. apply align_up_ge. lia.
Qed.

(** The member found is not a bit-field wider than its type, and for an
    ordinary member the width is the size of its type. *)
Definition member_ok (m : member) : Prop :=
  wfb (m_type m) = true ∧ (m_bits m = false → m_width m = 8 * sizeof (m_type m)).

(** Where a member search that starts at a declaration ends. *)
Lemma find_field_cons p u n' bits al t fs pos n m :
  find_field p u (FCons n' bits al t fs) pos n = Some m →
  let szt := 8 * sizeof t in
  let start := if u then 0 else place p bits al t szt pos in
  let next := if u then 0 else start + member_width bits szt in
  ((∃ m0, bits = None ∧ find_member t n = Some m0 ∧ m = shift_member start m0) ∨
   m = mkMember start (member_width bits szt) (is_some bits) t) ∨
  find_field p u fs next n = Some m.
Proof.
  cbn [find_field]. set (start := if u then 0 else _).
  destruct (String.eqb n' ""); [|destruct (String.eqb n' n)]; cbv zeta.
  - destruct bits as [w|]; simpl; [by right|].
    destruct (find_member t n) as [m0|]; [|by right].
    intros [= <-]. left. left. by exists m0.
  - intros [= <-]. by left; right.
  - by right.
Qed.

Lemma inside_weaken m lo hi lo' hi' : lo' ≤ lo → hi ≤ hi' → inside m lo hi → inside m lo' hi'.
Proof. unfold inside. lia. Qed.

(** A member found at or below a declaration placed at [start]. *)
Lemma found_inside (bits : option Z) t n start hi m :
  wfb t = true → bits_ok bits (8 * sizeof t) →
  (∀ m0, find_member t n = Some m0 → inside m0 0 (8 * sizeof t) ∧ member_ok m0) →
  start + member_width bits (8 * sizeof t) ≤ hi →
  (∃ m0, bits = None ∧ find_member t n = Some m0 ∧ m = shift_member start m0) ∨
  m = mkMember start (member_width bits (8 * sizeof t)) (is_some bits) t →
  inside m start hi ∧ member_ok m.
Proof.
  intros Hwt Hb IH Hhi [(m0 & -> & Hf & ->)| ->].
  - destruct (IH m0 Hf) as [(?&?&?) ?]. simpl in Hhi. split; [|done].
    unfold inside, shift_member; simpl. lia.
  - destruct (wf_layout_ok t Hwt) as (_ & ? & _).
    pose proof (member_width_nonneg bits (8 * sizeof t) ltac:(lia) Hb).
    split; [unfold inside; simpl; lia|]. split; [done|]. by destruct bits.
Qed.

Lemma find_member_inside_aux :
  (∀ t n m, wfb t = true → find_member t n = Some m →
     inside m 0 (8 * sizeof t) ∧ member_ok m) ∧
  (∀ fs, ∀ p n m, fields_wfb fs = true →
     (∀ pos, find_field p false fs pos n = Some m →
        inside m pos (fields_end p fs pos) ∧ member_ok m) ∧
     (∀ pos, find_field p true fs pos n = Some m →
        inside m 0 (fields_max fs) ∧ member_ok m)).
Proof.
  apply ctype_cfields_ind; try done.
  - intros p al fs IH n m H Hf. simpl in H. bool_prop.
    destruct (IH p n m ltac:(done)) as [Hs _]. destruct (Hs 0 Hf). split; [|done].
    eapply inside_weaken; [| |done]; [done|]. apply struct_end_le; [done|by apply pow2b_pow2].
  - intros p al fs IH n m H Hf. simpl in H. bool_prop.
    destruct (IH p n m ltac:(done)) as [_ Hs]. destruct (Hs 0 Hf). split; [|done].
    eapply inside_weaken; [| |done]; [done|]. apply union_max_le; [done|by apply pow2b_pow2].
  - intros n' bits al t IHt fs IHfs p n m (Hal & Hwt & Hb & Hwf)%wf_cons.
    destruct (IHfs p n m Hwf) as [IHs IHu]. destruct (wf_layout_ok t Hwt) as (Hp & Hsz & _).
    pose proof (member_width_nonneg bits (8 * sizeof t) ltac:(lia) Hb).
    split; intros pos Hf; apply find_field_cons in Hf; cbv zeta in Hf;
      cbn [fields_end fields_max]; destruct Hf as [Hf|Hf].
    + pose proof (place_ge p bits al t _ pos Hal Hp Hb).
      eapply found_inside in Hf as [Hi Ho]; [|by eauto..|by apply wf_fields_end].
      split; [|done]. by eapply inside_weaken; [| |exact Hi].
    + pose proof (place_ge p bits al t _ pos Hal Hp Hb).
      destruct (IHs _ Hf) as [Hi Ho]. split; [|done].
      by eapply inside_weaken; [| |exact Hi]; [lia|].
    + eapply found_inside; [by eauto..| |exact Hf]. lia.
    + destruct (IHu _ Hf) as [Hi Ho]. split; [|done].
      by eapply inside_weaken; [| |exact Hi]; [|lia].
Qed.

Lemma find_member_inside t n m :
  wfb t = true → find_member t n = Some m → inside m 0 (8 * sizeof t) ∧ member_ok m.
Proof. apply find_member_inside_aux. Qed.

Lemma access_inside t a m :
  wfb t = true → access t a = Some m → inside m 0 (8 * sizeof t) ∧ member_ok m.
Proof.
  intros Hw Ha. destruct a as [n|i]; [by eapply find_member_inside|].
  destruct t as [| | |n t| |]; simpl in *; try done. bool_prop.
  destruct (wf_layout_ok t) as (_ & Hs & _); [done|].
  destruct ((0 <=? i) && (i <? n)) eqn:E; [|done]. bool_prop. injection Ha as <-.
  split; [|done]. unfold inside; simpl. nia.
Qed.

(** A path that resolves stays inside the object it starts from. *)
Lemma resolve_inside t path m :
  wfb t = true → resolve t path = Some m → inside m 0 (8 * sizeof t) ∧ member_ok m.
Proof.
  revert t m. induction path as [|a path IH]; intros t m Hw Hr.
  { injection Hr as <-. destruct (wf_layout_ok t Hw) as (_ & ? & _).
    split; [unfold inside; simpl; lia|done]. }
  cbn [resolve] in Hr. destruct (access t a) as [m1|] eqn:Ea; [|done].
  destruct (access_inside _ _ _ Hw Ea) as [(?&?&?) [Hw1 Hb]].
  destruct path as [|a' path]; [injection Hr as <-; done|].
  destruct (m_bits m1) eqn:Eb; [done|].
  destruct (resolve (m_type m1) (a' :: path)) as [m2|] eqn:Er; [|done].
  injection Hr as <-. destruct (IH _ _ Hw1 Er) as [(?&?&?) ?].
  specialize (Hb eq_refl). split; [unfold inside, shift_member; simpl; lia|done].
Qed.

(** ** Members of a structure do not overlap *)

Fixpoint ordered (lo : Z) (l : list (Z * Z)) : Prop :=
  match l with
  | [] => True
  | (a, b) :: l => lo ≤ a ∧ a ≤ b ∧ ordered b l
  end.

Lemma ordered_lookup lo l i j a b c d :
  ordered lo l → (i < j)%nat → l !! i = Some (a, b) → l !! j = Some (c, d) → b ≤ c.
Proof.
  assert (∀ l lo k c d, ordered lo l → l !! k = Some (c, d) → lo ≤ c) as Hlo.
  { clear. induction l as [|[a b] l IH]; intros lo k c d Ho Hk; [done|].
    simpl in Ho. destruct k as [|k]; simpl in Hk; simplify_eq; [lia|].
    destruct Ho as (? & ? & Ho). pose proof (IH _ _ _ _ Ho Hk). lia. }
  revert lo i j. induction l as [|[a' b'] l IH]; intros lo i j Ho Hij Hi Hj; [done|].
  destruct Ho as (? & ? & Ho). destruct j as [|j]; [lia|]. destruct i as [|i]; simpl in *.
  - simplify_eq. by eapply Hlo.
  - eapply IH; [done| |done..]. lia.
Qed.

Lemma placements_ordered p fs pos : fields_wfb fs = true → ordered pos (placements p fs pos).
Proof.
  revert pos. induction fs as [|n bits al t fs IH]; intros pos; [done|].
  intros (Hal & Hwt & Hb & Hwf)%wf_cons. destruct (wf_layout_ok t Hwt) as (Hp & Hsz & _).
  cbn [placements ordered]. split_and!.
  - by apply place_ge.
  - pose proof (member_width_nonneg bits (8 * sizeof t) ltac:(lia) Hb). lia.
  - by apply IH.
Qed.

(** ** Natural alignment *)

Definition aligned_in (m : member) (a : Z) : Prop :=
  m_bits m = false →
  (8 * alignof (m_type m) | m_off m) ∧ alignof (m_type m) ≤ a ∧ unpackedb (m_type m) = true.

Lemma shift_aligned start t m :
  wfb t = true → wfb (m_type m) = true → (8 * alignof t | start) →
  aligned_in m (alignof t) → aligned_in (shift_member start m) (alignof t).
Proof.
  intros Hw Hm Hs Ha Hb. destruct (Ha Hb) as (Hd & Hle & Hu). simpl. split; [|done].
  apply Z.divide_add_r; [|done]. etrans; [|exact Hs]. apply Z.mul_divide_mono_l.
  apply pow2_divide; [by apply wf_layout_ok..|done].
Qed.

Lemma place_aligned al t szt pos :
  pow2 al → pow2 (alignof t) → (8 * alignof t | place false None al t szt pos).
Proof.
  intros Hal Ht. pose proof (pow2_pos _ Ht).
  cbn [place]. etrans; [|apply align_up_divide; by apply member_align_pos].
  apply Z.mul_divide_mono_l, pow2_divide; [done|by apply pow2_max|lia].
Qed.

(** A member found at or below an unpacked ordinary declaration. *)
Lemma found_aligned (bits : option Z) t n start hi m :
  wfb t = true → unpackedb t = true → (bits = None → (8 * alignof t | start)) →
  (bits = None → alignof t ≤ hi) →
  (∀ m0, find_member t n = Some m0 → aligned_in m0 (alignof t)) →
  (∃ m0, bits = None ∧ find_member t n = Some m0 ∧ m = shift_member start m0) ∨
  m = mkMember start (member_width bits (8 * sizeof t)) (is_some bits) t →
  aligned_in m hi.
Proof.
  intros Hwt Hu Hs Hle IH [(m0 & -> & Hf & ->)| ->] Hb.
  - destruct (find_member_inside _ _ _ Hwt Hf) as [_ [Hw0 _]].
    destruct (shift_aligned start t m0 Hwt Hw0 (Hs eq_refl) (IH _ Hf) Hb) as (?&?&?).
    specialize (Hle eq_refl). split_and!; [done|lia|done].
  - destruct bits; [done|]. simpl in *. split_and!; auto.
Qed.

Lemma find_member_aligned_aux :
  (∀ t n m, wfb t = true → unpackedb t = true → find_member t n = Some m →
     aligned_in m (alignof t)) ∧
  (∀ fs, ∀ u n m pos, fields_wfb fs = true → fields_unpackedb fs = true →
     find_field false u fs pos n = Some m → aligned_in m (fields_align false fs)).
Proof.
  apply ctype_cfields_ind; try done.
  - intros p al fs IH n m H Hu Hf. simpl in H, Hu. bool_prop. subst p.
    intros Hb. destruct (IH _ _ _ _ ltac:(done) ltac:(done) Hf Hb) as (?&?&?).
    split_and!; [done| |done]. simpl. lia.
  - intros p al fs IH n m H Hu Hf. simpl in H, Hu. bool_prop. subst p.
    intros Hb. destruct (IH _ _ _ _ ltac:(done) ltac:(done) Hf Hb) as (?&?&?).
    split_and!; [done| |done]. simpl. lia.
  - intros n' bits al t IHt fs IHfs u n m pos (Hal & Hwt & _ & Hwf)%wf_cons Hu Hf.
    simpl in Hu. bool_prop. destruct (wf_layout_ok t Hwt) as (Hp & _ & _).
    apply find_field_cons in Hf. cbv zeta in Hf. cbn [fields_align]. destruct Hf as [Hf|Hf].
    + eapply found_aligned; [done|done| | |by eauto|exact Hf].
      * intros ->. destruct u; [apply Z.divide_0_r|by apply place_aligned].
      * intros ->. lia.
    + intros Hb. edestruct IHfs as (?&?&?); [done..|]. split_and!; [done|lia|done].
Qed.

Lemma access_aligned t a m :
  wfb t = true → unpackedb t = true → access t a = Some m → aligned_in m (alignof t).
Proof.
  intros Hw Hu Ha. destruct a as [n|i]; [by eapply find_member_aligned_aux|].
  destruct t as [| | |n t| |]; simpl in *; try done. bool_prop.
  destruct (wf_layout_ok t) as (_ & _ & Hd); [done|].
  destruct ((0 <=? i) && (i <? n)) eqn:E; [|done]. injection Ha as <-.
  intros _. simpl. split_and!; [|lia|done].
  apply Z.divide_mul_r. by apply Z.mul_divide_mono_l.
Qed.

(** In a declaration without packed structures every ordinary member a path
    reaches sits at a multiple of its own alignment. *)
Lemma resolve_aligned t path m :
  wfb t = true → unpackedb t = true → resolve t path = Some m → aligned_in m (alignof t).
Proof.
  revert t m. induction path as [|a path IH]; intros t m Hw Hu Hr.
  { injection Hr as <-. intros _. split_and!; [apply Z.divide_0_r|done|done]. }
  cbn [resolve] in Hr. destruct (access t a) as [m1|] eqn:Ea; [|done].
  pose proof (access_aligned _ _ _ Hw Hu Ea) as Hal.
  destruct (access_inside _ _ _ Hw Ea) as [_ [Hw1 _]].
  destruct path as [|a' path]; [injection Hr as <-; done|].
  destruct (m_bits m1) eqn:Eb; [done|]. destruct (Hal Eb) as (Hd1 & Hle1 & Hu1).
  destruct (resolve (m_type m1) (a' :: path)) as [m2|] eqn:Er; [|done].
  injection Hr as <-. destruct (resolve_inside _ _ _ Hw1 Er) as [_ [Hw2 _]].
  intros Hb. pose proof (IH _ _ Hw1 Hu1 Er) as Hal2.
  destruct (shift_aligned _ _ _ Hw1 Hw2 Hd1 Hal2 Hb) as (?&?&?). split_and!; [done|lia|done].
Qed.
