(* ===== verification/Checksum.v ===== *)
(** * The Internet checksum

    One's-complement sums of 16-bit words (RFC 1071) over byte sequences, and the
    effect of overwriting a field of the summed data, which is what the incremental
    update performed by [bpf_l3_csum_replace] and [bpf_l4_csum_replace] (RFC 1624)
    must compensate.  Words are taken in little-endian order: the one's-complement
    sum does not depend on the byte order it is computed in, and the programs run on
    a little-endian target. *)
From S2P Require Import Prelude.
#[local] Open Scope Z_scope.

(** The sum of the 16-bit words of a byte sequence, an odd last byte padded with
    a zero byte. *)
Fixpoint sum16 (bs : list Z) : Z :=
  match bs with
  | a :: b :: t => a + 256 * b + sum16 t
  | [a] => a
  | [] => 0
  end.

(** Folding the carries of a 32-bit accumulator back in, as [csum_fold] does
    before it complements. *)
Definition fold16 (s : Z) : Z :=
  let s1 := s mod 65536 + s / 65536 in
  s1 mod 65536 + s1 / 65536.

(** A checksummed region is consistent when its words sum to zero in one's
    complement arithmetic, that is modulo [2^16 - 1]. *)
Definition csum_ok (s : Z) : Prop := s mod 65535 = 0.

(** The 16-bit checksum field at [off] of [d] was updated for a summed field
    that changed from [from] to [to]. *)
Definition csum_updated (off from to : Z) (d d' : list Z) : Prop :=
  0 ≤ off ∧ off + 2 ≤ zlen d ∧
  ∃ c, 0 ≤ c < 65536 ∧ d' = splice off (le_bytes 2 c) d ∧
       c mod 65535 = (load 2 off d + from - to) mod 65535.

(** The same for a TCP or UDP checksum.  When the packet's checksum is partial
    ([CHECKSUM_PARTIAL]: the device will complete it), the field holds the sum of the
    pseudo header, not complemented: it follows changes of the pseudo header, and the
    others are none of its business. *)
Definition l4_updated (partial pseudo : bool) (off from to : Z) (d d' : list Z) : Prop :=
  if partial then if pseudo then csum_updated off to from d d' else d' = d
  else csum_updated off from to d d'.

Lemma cong_elim a b : a mod 65535 = b mod 65535 → ∃ k, a = b + k * 65535.
Proof. intros H. exists (a / 65535 - b / 65535). Z.to_euclidean_division_equations; lia. Qed.

Lemma cong_intro a b k : a = b + k * 65535 → a mod 65535 = b mod 65535.
Proof. intros ->. by rewrite Z.mod_add. Qed.

Lemma csum_ok_cong s s' : s mod 65535 = s' mod 65535 → csum_ok s → csum_ok s'.
Proof. unfold csum_ok. congruence. Qed.

(** For an accumulator that is not zero, the consistency test is the one a
    receiver performs: the folded sum is all ones. *)
Lemma fold16_all_ones s : 0 < s < 2 ^ 32 → fold16 s = 65535 ↔ csum_ok s.
Proof.
  intros Hs. unfold fold16, csum_ok. split; intros H.
  - Z.to_euclidean_division_equations; lia.
  - Z.to_euclidean_division_equations; lia.
Qed.

Lemma list_pair_ind {A} (P : list A → Prop) :
  P [] → (∀ a, P [a]) → (∀ a b t, P t → P (a :: b :: t)) → ∀ l, P l.
Proof.
  intros H0 H1 H2. fix IH 1. intros [|a [|b t]]; [done|apply H1|apply H2, IH].
Qed.

Lemma sum16_app l k : Z.Even (zlen l) → sum16 (l ++ k) = sum16 l + sum16 k.
Proof.
  revert l. apply (list_pair_ind (λ l, Z.Even (zlen l) → sum16 (l ++ k) = sum16 l + sum16 k)).
  - done.
  - intros a [q Hq]. unfold zlen in Hq. simpl in Hq. lia.
  - intros a b t IH H. rewrite !zlen_cons in H. simpl. rewrite IH; [lia|].
    destruct H as [q Hq]. exists (q - 1). unfold zlen in *. lia.
Qed.

Lemma sum16_nonneg bs : bytes_ok bs → 0 ≤ sum16 bs.
Proof.
  revert bs. apply (list_pair_ind (λ bs, bytes_ok bs → 0 ≤ sum16 bs)); simpl; [done|..].
  - intros a Ha. apply Forall_cons_1 in Ha as [Ha _]. unfold byte_ok in Ha. lia.
  - intros a b t IH H. apply Forall_cons_1 in H as [Ha H]. apply Forall_cons_1 in H as [Hb H].
    specialize (IH H). unfold byte_ok in *. lia.
Qed.

(** [2^16] is one modulo [2^16 - 1], so a field contributes its value. *)
Lemma sum16_le_val bs : sum16 bs mod 65535 = le_val bs mod 65535.
Proof.
  revert bs. apply (list_pair_ind (λ bs, sum16 bs mod 65535 = le_val bs mod 65535)); simpl.
  - done.
  - intros a. f_equal. lia.
  - intros a b t IH. rewrite Z.add_mod, IH, <- Z.add_mod by lia.
    replace (a + 256 * (b + 256 * le_val t)) with (a + 256 * b + le_val t + le_val t * 65535) by lia.
    by rewrite Z.mod_add.
Qed.

Lemma sum16_splice off bs d :
  0 ≤ off → off + zlen bs ≤ zlen d → Z.Even off → Z.Even (zlen bs) →
  sum16 (splice off bs d) = sum16 d - sum16 (slice off (zlen bs) d) + sum16 bs.
Proof.
  intros Ho Hl He1 He2.
  assert (Z.Even (zlen (take (Z.to_nat off) d))) as He3.
  { unfold zlen in *. rewrite length_take. replace (Z.of_nat (Z.to_nat off `min` length d)) with off by lia. done. }
  assert (d = take (Z.to_nat off) d ++ slice off (zlen bs) d ++ drop (Z.to_nat off + length bs) d) as Hd.
  { unfold slice, zlen. rewrite Nat2Z.id.
    rewrite <- (take_drop (Z.to_nat off) d) at 1. f_equal.
    rewrite <- (take_drop (length bs) (drop (Z.to_nat off) d)) at 1. f_equal.
    rewrite drop_drop. f_equal. }
  assert (Z.Even (zlen (slice off (zlen bs) d))) as He4.
  { rewrite zlen_slice; [done|done|apply zlen_nonneg|done]. }
  apply (f_equal sum16) in Hd. rewrite !sum16_app in Hd by done.
  unfold splice. rewrite !sum16_app by done. lia.
Qed.

(** Overwriting an even-sized field at an even offset changes the sum by the
    difference of the values. *)
Lemma sum16_store off bs d :
  0 ≤ off → off + zlen bs ≤ zlen d → Z.Even off → Z.Even (zlen bs) →
  sum16 (splice off bs d) mod 65535 =
    (sum16 d - load (zlen bs) off d + le_val bs) mod 65535.
Proof.
  intros. rewrite sum16_splice by done. unfold load.
  destruct (cong_elim _ _ (sum16_le_val bs)) as [k Hk].
  destruct (cong_elim _ _ (sum16_le_val (slice off (zlen bs) d))) as [j Hj].
  apply (cong_intro _ _ (k - j)). lia.
Qed.

(** A checksum field inside the summed region absorbs the change of another
    field of the region (or of the pseudo header), when it is updated for it. *)
Lemma csum_absorb off from to d d' :
  Z.Even off → csum_updated off from to d d' →
  (sum16 d' + to) mod 65535 = (sum16 d + from) mod 65535.
Proof.
  intros He (Ho & Hl & c & Hc & -> & Hcong).
  pose proof (zlen_le_bytes 2 c) as Hz. change (Z.of_nat 2) with 2 in Hz.
  assert (sum16 (splice off (le_bytes 2 c) d) mod 65535 =
          (sum16 d - load 2 off d + c) mod 65535) as Hs.
  { rewrite sum16_store; [|done|lia|done|rewrite Hz; by exists 1].
    rewrite Hz, le_val_le_bytes. change (256 ^ Z.of_nat 2) with 65536.
    by rewrite (Z.mod_small c). }
  destruct (cong_elim _ _ Hs) as [k Hk]. destruct (cong_elim _ _ Hcong) as [j Hj].
  apply (cong_intro _ _ (k + j)). lia.
Qed.

(** An update inside a region is an update of the region; outside, it leaves
    the region alone. *)
Lemma csum_updated_slice o n off from to d d' :
  0 ≤ o → o ≤ off → off + 2 ≤ o + n → o + n ≤ zlen d → csum_updated off from to d d' →
  csum_updated (off - o) from to (slice o n d) (slice o n d').
Proof.
  intros Ho Hoff Hn Hl (H0 & H1 & c & Hc & -> & Hcong).
  split; [lia|]. split; [rewrite zlen_slice; lia|]. exists c. split_and!; [lia|lia| |].
  - apply slice_splice_inner; solve_bytes.
  - rewrite Hcong. unfold load. rewrite slice_slice by lia. do 5 f_equal. lia.
Qed.

Lemma csum_updated_frame o n off from to d d' :
  0 ≤ o → 0 ≤ n → o + n ≤ off ∨ off + 2 ≤ o → csum_updated off from to d d' →
  slice o n d' = slice o n d.
Proof.
  intros Ho Hn Hd (H0 & H1 & c & Hc & -> & _). apply slice_splice_ne; solve_bytes.
Qed.

Lemma csum_updated_zlen off from to d d' : csum_updated off from to d d' → zlen d' = zlen d.
Proof. intros (H0 & H1 & c & Hc & -> & _). apply zlen_splice; solve_bytes. Qed.

Lemma csum_updated_bytes_ok off from to d d' :
  bytes_ok d → csum_updated off from to d d' → bytes_ok d'.
Proof. intros Hd (H0 & H1 & c & Hc & -> & _). auto with bytes. Qed.
