(* ===== verification/Vmlinux.v ===== *)
(** * Kernel declarations the dataplane is compiled against

    The declarations of [bpf/vmlinux.h] that [bpf/nat.c] uses by value: the program
    context, the Ethernet, IPv4, TCP, UDP and ARP headers, the conntrack entry
    [nf_conn] with everything embedded in it, the lookup tuple, and the enumerations
    whose values the programs repeat as [#define]s.  One definition per declaration,
    under the declaration's own name; [F], [FA] and [B] are members, aligned members
    and bit-fields, [""] an anonymous member, and a pointer keeps only the name of
    what it points to. *)
From S2P Require Import Prelude CLayout.

#[local] Open Scope Z_scope.

Module vmlinux.

(** [__u32], vmlinux.h lines 32814-32814. *)
Definition __u32 : ctype := cuint.

(** [__u64], vmlinux.h lines 32450-32450. *)
Definition __u64 : ctype := cullong.

(** [__u8], vmlinux.h lines 32752-32752. *)
Definition __u8 : ctype := cuchar.

(** [struct __sk_buff], vmlinux.h lines 36368-36407. *)
Definition __sk_buff : ctype := cstruct
  [ F "len" __u32;
    F "pkt_type" __u32;
    F "mark" __u32;
    F "queue_mapping" __u32;
    F "protocol" __u32;
    F "vlan_present" __u32;
    F "vlan_tci" __u32;
    F "vlan_proto" __u32;
    F "priority" __u32;
    F "ingress_ifindex" __u32;
    F "ifindex" __u32;
    F "tc_index" __u32;
    F "cb" (CArr 5 __u32);
    F "hash" __u32;
    F "tc_classid" __u32;
    F "data" __u32;
    F "data_end" __u32;
    F "napi_id" __u32;
    F "family" __u32;
    F "remote_ip4" __u32;
    F "local_ip4" __u32;
    F "remote_ip6" (CArr 4 __u32);
    F "local_ip6" (CArr 4 __u32);
    F "remote_port" __u32;
    F "local_port" __u32;
    F "data_meta" __u32;
    F "" (cunion
    [ F "flow_keys" (CPtr "struct bpf_flow_keys") ]);
    F "tstamp" __u64;
    F "wire_len" __u32;
    F "gso_segs" __u32;
    F "" (cunion
    [ F "sk" (CPtr "struct bpf_sock") ]);
    F "gso_size" __u32;
    F "tstamp_type" __u8;
    F "hwtstamp" __u64 ].

(** [__u16], vmlinux.h lines 32638-32638. *)
Definition __u16 : ctype := cushort.

(** [__be16], vmlinux.h lines 32654-32654. *)
Definition __be16 : ctype := __u16.

(** [struct ethhdr], vmlinux.h lines 59521-59525. *)
Definition ethhdr : ctype := cstruct
  [ F "h_dest" (CArr 6 cuchar);
    F "h_source" (CArr 6 cuchar);
    F "h_proto" __be16 ].

(** [__sum16], vmlinux.h lines 32674-32674. *)
Definition __sum16 : ctype := __u16.

(** [__be32], vmlinux.h lines 32846-32846. *)
Definition __be32 : ctype := __u32.

(** [struct iphdr], vmlinux.h lines 63575-63595. *)
Definition iphdr : ctype := cstruct
  [ B "ihl" __u8 4;
    B "version" __u8 4;
    F "tos" __u8;
    F "tot_len" __be16;
    F "id" __be16;
    F "frag_off" __be16;
    F "ttl" __u8;
    F "protocol" __u8;
    F "check" __sum16;
    F "" (cunion
    [ F "" (cstruct
      [ F "saddr" __be32;
        F "daddr" __be32 ]);
      F "addrs" (cstruct
      [ F "saddr" __be32;
        F "daddr" __be32 ]) ]) ].

(** [struct tcphdr], vmlinux.h lines 63597-63616. *)
Definition tcphdr : ctype := cstruct
  [ F "source" __be16;
    F "dest" __be16;
    F "seq" __be32;
    F "ack_seq" __be32;
    B "ae" __u16 1;
    B "res1" __u16 3;
    B "doff" __u16 4;
    B "fin" __u16 1;
    B "syn" __u16 1;
    B "rst" __u16 1;
    B "psh" __u16 1;
    B "ack" __u16 1;
    B "urg" __u16 1;
    B "ece" __u16 1;
    B "cwr" __u16 1;
    F "window" __be16;
    F "check" __sum16;
    F "urg_ptr" __be16 ].

(** [struct udphdr], vmlinux.h lines 153154-153159. *)
Definition udphdr : ctype := cstruct
  [ F "source" __be16;
    F "dest" __be16;
    F "len" __be16;
    F "check" __sum16 ].

(** [struct arphdr], vmlinux.h lines 44446-44452. *)
Definition arphdr : ctype := cstruct
  [ F "ar_hrd" __be16;
    F "ar_pro" __be16;
    F "ar_hln" cuchar;
    F "ar_pln" cuchar;
    F "ar_op" __be16 ].

(** [atomic_t], vmlinux.h lines 33619-33621. *)
Definition atomic_t : ctype := cstruct
  [ F "counter" cint ].

(** [struct refcount_struct], vmlinux.h lines 34943-34945. *)
Definition refcount_struct : ctype := cstruct
  [ F "refs" atomic_t ].

(** [refcount_t], vmlinux.h lines 34947-34947. *)
Definition refcount_t : ctype := refcount_struct.

(** [struct nf_conntrack], vmlinux.h lines 113629-113631. *)
Definition nf_conntrack : ctype := cstruct
  [ F "use" refcount_t ].

(** [u8], vmlinux.h lines 32754-32754. *)
Definition u8 : ctype := __u8.

(** [u16], vmlinux.h lines 32648-32648. *)
Definition u16 : ctype := __u16.

(** [struct qspinlock], vmlinux.h lines 34541-34553. *)
Definition qspinlock : ctype := cstruct
  [ F "" (cunion
    [ F "val" atomic_t;
      F "" (cstruct
      [ F "locked" u8;
        F "pending" u8 ]);
      F "" (cstruct
      [ F "locked_pending" u16;
        F "tail" u16 ]) ]) ].

(** [arch_spinlock_t], vmlinux.h lines 34555-34555. *)
Definition arch_spinlock_t : ctype := qspinlock.

(** [struct raw_spinlock], vmlinux.h lines 34557-34559. *)
Definition raw_spinlock : ctype := cstruct
  [ F "raw_lock" arch_spinlock_t ].

(** [struct spinlock], vmlinux.h lines 34723-34727. *)
Definition spinlock : ctype := cstruct
  [ F "" (cunion
    [ F "rlock" raw_spinlock ]) ].

(** [spinlock_t], vmlinux.h lines 33939-33939. *)
Definition spinlock_t : ctype := spinlock.

(** [u32], vmlinux.h lines 32828-32828. *)
Definition u32 : ctype := __u32.

(** [struct nf_conntrack_zone], vmlinux.h lines 113633-113637. *)
Definition nf_conntrack_zone : ctype := cstruct
  [ F "id" u16;
    F "flags" u8;
    F "dir" u8 ].

(** [struct hlist_nulls_node], vmlinux.h lines 49113-49116. *)
Definition hlist_nulls_node : ctype := cstruct
  [ F "next" (CPtr "struct hlist_nulls_node");
    F "pprev" (CPtr "struct hlist_nulls_node *") ].

(** [struct in_addr], vmlinux.h lines 60190-60192. *)
Definition in_addr : ctype := cstruct
  [ F "s_addr" __be32 ].

(** [struct in6_addr], vmlinux.h lines 34833-34839. *)
Definition in6_addr : ctype := cstruct
  [ F "in6_u" (cunion
    [ F "u6_addr8" (CArr 16 __u8);
      F "u6_addr16" (CArr 8 __be16);
      F "u6_addr32" (CArr 4 __be32) ]) ].

(** [union nf_inet_addr], vmlinux.h lines 113639-113645. *)
Definition nf_inet_addr : ctype := cunion
  [ F "all" (CArr 4 __u32);
    F "ip" __be32;
    F "ip6" (CArr 4 __be32);
    F "in" in_addr;
    F "in6" in6_addr ].

(** [union nf_conntrack_man_proto], vmlinux.h lines 113647-113667. *)
Definition nf_conntrack_man_proto : ctype := cunion
  [ F "all" __be16;
    F "tcp" (cstruct
    [ F "port" __be16 ]);
    F "udp" (cstruct
    [ F "port" __be16 ]);
    F "icmp" (cstruct
    [ F "id" __be16 ]);
    F "dccp" (cstruct
    [ F "port" __be16 ]);
    F "sctp" (cstruct
    [ F "port" __be16 ]);
    F "gre" (cstruct
    [ F "key" __be16 ]) ].

(** [u_int16_t], vmlinux.h lines 32728-32728. *)
Definition u_int16_t : ctype := u16.

(** [struct nf_conntrack_man], vmlinux.h lines 113669-113673. *)
Definition nf_conntrack_man : ctype := cstruct
  [ F "u3" nf_inet_addr;
    F "u" nf_conntrack_man_proto;
    F "l3num" u_int16_t ].

(** [u_int8_t], vmlinux.h lines 32800-32800. *)
Definition u_int8_t : ctype := u8.

(** [struct nf_conntrack_tuple], vmlinux.h lines 113675-113705. *)
Definition nf_conntrack_tuple : ctype := cstruct
  [ F "src" nf_conntrack_man;
    F "dst" (cstruct
    [ F "u3" nf_inet_addr;
      F "u" (cunion
      [ F "all" __be16;
        F "tcp" (cstruct
        [ F "port" __be16 ]);
        F "udp" (cstruct
        [ F "port" __be16 ]);
        F "icmp" (cstruct
        [ F "type" u_int8_t;
          F "code" u_int8_t ]);
        F "dccp" (cstruct
        [ F "port" __be16 ]);
        F "sctp" (cstruct
        [ F "port" __be16 ]);
        F "gre" (cstruct
        [ F "key" __be16 ]) ]);
      F "protonum" u_int8_t;
      F "__nfct_hash_offsetend" (cstruct  []);
      F "dir" u_int8_t ]) ].

(** [struct nf_conntrack_tuple_hash], vmlinux.h lines 113707-113710. *)
Definition nf_conntrack_tuple_hash : ctype := cstruct
  [ F "hnnode" hlist_nulls_node;
    F "tuple" nf_conntrack_tuple ].

(** [possible_net_t], vmlinux.h lines 34640-34642. *)
Definition possible_net_t : ctype := (cstruct
  [ F "net" (CPtr "struct net") ]).

(** [struct hlist_node], vmlinux.h lines 33627-33630. *)
Definition hlist_node : ctype := cstruct
  [ F "next" (CPtr "struct hlist_node");
    F "pprev" (CPtr "struct hlist_node *") ].

(** [u_int32_t], vmlinux.h lines 33028-33028. *)
Definition u_int32_t : ctype := u32.

(** [enum sctp_conntrack], vmlinux.h lines 27598-27610. *)
Definition sctp_conntrack : ctype := CEnum 4 
  [ ("SCTP_CONNTRACK_NONE", 0);
    ("SCTP_CONNTRACK_CLOSED", 1);
    ("SCTP_CONNTRACK_COOKIE_WAIT", 2);
    ("SCTP_CONNTRACK_COOKIE_ECHOED", 3);
    ("SCTP_CONNTRACK_ESTABLISHED", 4);
    ("SCTP_CONNTRACK_SHUTDOWN_SENT", 5);
    ("SCTP_CONNTRACK_SHUTDOWN_RECD", 6);
    ("SCTP_CONNTRACK_SHUTDOWN_ACK_SENT", 7);
    ("SCTP_CONNTRACK_HEARTBEAT_SENT", 8);
    ("SCTP_CONNTRACK_HEARTBEAT_ACKED", 9);
    ("SCTP_CONNTRACK_MAX", 10) ].

(** [struct ip_ct_sctp], vmlinux.h lines 96128-96134. *)
Definition ip_ct_sctp : ctype := cstruct
  [ F "state" sctp_conntrack;
    F "vtag" (CArr 2 __be32);
    F "init" (CArr 2 u8);
    F "last_dir" u8;
    F "flags" u8 ].

(** [struct ip_ct_tcp_state], vmlinux.h lines 96136-96143. *)
Definition ip_ct_tcp_state : ctype := cstruct
  [ F "td_end" u_int32_t;
    F "td_maxend" u_int32_t;
    F "td_maxwin" u_int32_t;
    F "td_maxack" u_int32_t;
    F "td_scale" u_int8_t;
    F "flags" u_int8_t ].

(** [struct ip_ct_tcp], vmlinux.h lines 96145-96157. *)
Definition ip_ct_tcp : ctype := cstruct
  [ F "seen" (CArr 2 ip_ct_tcp_state);
    F "state" u_int8_t;
    F "last_dir" u_int8_t;
    F "retrans" u_int8_t;
    F "last_index" u_int8_t;
    F "last_seq" u_int32_t;
    F "last_ack" u_int32_t;
    F "last_end" u_int32_t;
    F "last_win" u_int16_t;
    F "last_wscale" u_int8_t;
    F "last_flags" u_int8_t ].

(** [struct nf_ct_udp], vmlinux.h lines 113712-113714. *)
Definition nf_ct_udp : ctype := cstruct
  [ F "stream_ts" culong ].

(** [struct nf_ct_gre], vmlinux.h lines 113716-113719. *)
Definition nf_ct_gre : ctype := cstruct
  [ F "stream_timeout" cuint;
    F "timeout" cuint ].

(** [union nf_conntrack_proto], vmlinux.h lines 113721-113727. *)
Definition nf_conntrack_proto : ctype := cunion
  [ F "sctp" ip_ct_sctp;
    F "tcp" ip_ct_tcp;
    F "udp" nf_ct_udp;
    F "gre" nf_ct_gre;
    F "tmpl_padto" cuint ].

(** [struct nf_conn], vmlinux.h lines 113731-113746. *)
Definition nf_conn : ctype := cstruct
  [ F "ct_general" nf_conntrack;
    F "lock" spinlock_t;
    F "timeout" u32;
    F "zone" nf_conntrack_zone;
    F "tuplehash" (CArr 2 nf_conntrack_tuple_hash);
    F "status" culong;
    F "ct_net" possible_net_t;
    F "nat_bysource" hlist_node;
    F "__nfct_init_offset" (cstruct  []);
    F "master" (CPtr "struct nf_conn");
    F "mark" u_int32_t;
    F "secmark" u_int32_t;
    F "ext" (CPtr "struct nf_ct_ext");
    F "proto" nf_conntrack_proto ].

(** [struct nf_conn___init], vmlinux.h lines 113748-113750. *)
Definition nf_conn___init : ctype := cstruct
  [ F "ct" nf_conn ].

(** [struct bpf_sock_tuple], vmlinux.h lines 53523-53538. *)
Definition bpf_sock_tuple : ctype := cstruct
  [ F "" (cunion
    [ F "ipv4" (cstruct
      [ F "saddr" __be32;
        F "daddr" __be32;
        F "sport" __be16;
        F "dport" __be16 ]);
      F "ipv6" (cstruct
      [ F "saddr" (CArr 4 __be32);
        F "daddr" (CArr 4 __be32);
        F "sport" __be16;
        F "dport" __be16 ]) ]) ].

(** [enum bpf_map_type], vmlinux.h lines 13725-13764. *)
Definition bpf_map_type : ctype := CEnum 4 
  [ ("BPF_MAP_TYPE_UNSPEC", 0);
    ("BPF_MAP_TYPE_HASH", 1);
    ("BPF_MAP_TYPE_ARRAY", 2);
    ("BPF_MAP_TYPE_PROG_ARRAY", 3);
    ("BPF_MAP_TYPE_PERF_EVENT_ARRAY", 4);
    ("BPF_MAP_TYPE_PERCPU_HASH", 5);
    ("BPF_MAP_TYPE_PERCPU_ARRAY", 6);
    ("BPF_MAP_TYPE_STACK_TRACE", 7);
    ("BPF_MAP_TYPE_CGROUP_ARRAY", 8);
    ("BPF_MAP_TYPE_LRU_HASH", 9);
    ("BPF_MAP_TYPE_LRU_PERCPU_HASH", 10);
    ("BPF_MAP_TYPE_LPM_TRIE", 11);
    ("BPF_MAP_TYPE_ARRAY_OF_MAPS", 12);
    ("BPF_MAP_TYPE_HASH_OF_MAPS", 13);
    ("BPF_MAP_TYPE_DEVMAP", 14);
    ("BPF_MAP_TYPE_SOCKMAP", 15);
    ("BPF_MAP_TYPE_CPUMAP", 16);
    ("BPF_MAP_TYPE_XSKMAP", 17);
    ("BPF_MAP_TYPE_SOCKHASH", 18);
    ("BPF_MAP_TYPE_CGROUP_STORAGE_DEPRECATED", 19);
    ("BPF_MAP_TYPE_CGROUP_STORAGE", 19);
    ("BPF_MAP_TYPE_REUSEPORT_SOCKARRAY", 20);
    ("BPF_MAP_TYPE_PERCPU_CGROUP_STORAGE_DEPRECATED", 21);
    ("BPF_MAP_TYPE_PERCPU_CGROUP_STORAGE", 21);
    ("BPF_MAP_TYPE_QUEUE", 22);
    ("BPF_MAP_TYPE_STACK", 23);
    ("BPF_MAP_TYPE_SK_STORAGE", 24);
    ("BPF_MAP_TYPE_DEVMAP_HASH", 25);
    ("BPF_MAP_TYPE_STRUCT_OPS", 26);
    ("BPF_MAP_TYPE_RINGBUF", 27);
    ("BPF_MAP_TYPE_INODE_STORAGE", 28);
    ("BPF_MAP_TYPE_TASK_STORAGE", 29);
    ("BPF_MAP_TYPE_BLOOM_FILTER", 30);
    ("BPF_MAP_TYPE_USER_RINGBUF", 31);
    ("BPF_MAP_TYPE_CGRP_STORAGE", 32);
    ("BPF_MAP_TYPE_ARENA", 33);
    ("BPF_MAP_TYPE_INSN_ARRAY", 34);
    ("__MAX_BPF_MAP_TYPE", 35) ].

(** [enum ip_conntrack_status], vmlinux.h lines 20890-20929. *)
Definition ip_conntrack_status : ctype := CEnum 4 
  [ ("IPS_EXPECTED_BIT", 0);
    ("IPS_EXPECTED", 1);
    ("IPS_SEEN_REPLY_BIT", 1);
    ("IPS_SEEN_REPLY", 2);
    ("IPS_ASSURED_BIT", 2);
    ("IPS_ASSURED", 4);
    ("IPS_CONFIRMED_BIT", 3);
    ("IPS_CONFIRMED", 8);
    ("IPS_SRC_NAT_BIT", 4);
    ("IPS_SRC_NAT", 16);
    ("IPS_DST_NAT_BIT", 5);
    ("IPS_DST_NAT", 32);
    ("IPS_NAT_MASK", 48);
    ("IPS_SEQ_ADJUST_BIT", 6);
    ("IPS_SEQ_ADJUST", 64);
    ("IPS_SRC_NAT_DONE_BIT", 7);
    ("IPS_SRC_NAT_DONE", 128);
    ("IPS_DST_NAT_DONE_BIT", 8);
    ("IPS_DST_NAT_DONE", 256);
    ("IPS_NAT_DONE_MASK", 384);
    ("IPS_DYING_BIT", 9);
    ("IPS_DYING", 512);
    ("IPS_FIXED_TIMEOUT_BIT", 10);
    ("IPS_FIXED_TIMEOUT", 1024);
    ("IPS_TEMPLATE_BIT", 11);
    ("IPS_TEMPLATE", 2048);
    ("IPS_UNTRACKED_BIT", 12);
    ("IPS_UNTRACKED", 4096);
    ("IPS_NAT_CLASH_BIT", 12);
    ("IPS_NAT_CLASH", 4096);
    ("IPS_HELPER_BIT", 13);
    ("IPS_HELPER", 8192);
    ("IPS_OFFLOAD_BIT", 14);
    ("IPS_OFFLOAD", 16384);
    ("IPS_HW_OFFLOAD_BIT", 15);
    ("IPS_HW_OFFLOAD", 32768);
    ("IPS_UNCHANGEABLE_MASK", 56313);
    ("__IPS_MAX_BIT", 16) ].

(** [enum ip_conntrack_dir], vmlinux.h lines 20873-20877. *)
Definition ip_conntrack_dir : ctype := CEnum 4 
  [ ("IP_CT_DIR_ORIGINAL", 0);
    ("IP_CT_DIR_REPLY", 1);
    ("IP_CT_DIR_MAX", 2) ].

(** [enum ip_conntrack_info], vmlinux.h lines 20879-20888. *)
Definition ip_conntrack_info : ctype := CEnum 4 
  [ ("IP_CT_ESTABLISHED", 0);
    ("IP_CT_RELATED", 1);
    ("IP_CT_NEW", 2);
    ("IP_CT_IS_REPLY", 3);
    ("IP_CT_ESTABLISHED_REPLY", 3);
    ("IP_CT_RELATED_REPLY", 4);
    ("IP_CT_NUMBER", 5);
    ("IP_CT_UNTRACKED", 7) ].

(** [enum tcx_action_base], vmlinux.h lines 29259-29264. *)
Definition tcx_action_base : ctype := CEnum 4 
  [ ("TCX_NEXT", (-1));
    ("TCX_PASS", 0);
    ("TCX_DROP", 2);
    ("TCX_REDIRECT", 7) ].

(** Every declaration of this file, for statements about all of them. *)
Definition declarations : list (string * ctype) :=
  [ ("typedef __u32", __u32);
    ("typedef __u64", __u64);
    ("typedef __u8", __u8);
    ("struct __sk_buff", __sk_buff);
    ("typedef __u16", __u16);
    ("typedef __be16", __be16);
    ("struct ethhdr", ethhdr);
    ("typedef __sum16", __sum16);
    ("typedef __be32", __be32);
    ("struct iphdr", iphdr);
    ("struct tcphdr", tcphdr);
    ("struct udphdr", udphdr);
    ("struct arphdr", arphdr);
    ("typedef atomic_t", atomic_t);
    ("struct refcount_struct", refcount_struct);
    ("typedef refcount_t", refcount_t);
    ("struct nf_conntrack", nf_conntrack);
    ("typedef u8", u8);
    ("typedef u16", u16);
    ("struct qspinlock", qspinlock);
    ("typedef arch_spinlock_t", arch_spinlock_t);
    ("struct raw_spinlock", raw_spinlock);
    ("struct spinlock", spinlock);
    ("typedef spinlock_t", spinlock_t);
    ("typedef u32", u32);
    ("struct nf_conntrack_zone", nf_conntrack_zone);
    ("struct hlist_nulls_node", hlist_nulls_node);
    ("struct in_addr", in_addr);
    ("struct in6_addr", in6_addr);
    ("union nf_inet_addr", nf_inet_addr);
    ("union nf_conntrack_man_proto", nf_conntrack_man_proto);
    ("typedef u_int16_t", u_int16_t);
    ("struct nf_conntrack_man", nf_conntrack_man);
    ("typedef u_int8_t", u_int8_t);
    ("struct nf_conntrack_tuple", nf_conntrack_tuple);
    ("struct nf_conntrack_tuple_hash", nf_conntrack_tuple_hash);
    ("typedef possible_net_t", possible_net_t);
    ("struct hlist_node", hlist_node);
    ("typedef u_int32_t", u_int32_t);
    ("enum sctp_conntrack", sctp_conntrack);
    ("struct ip_ct_sctp", ip_ct_sctp);
    ("struct ip_ct_tcp_state", ip_ct_tcp_state);
    ("struct ip_ct_tcp", ip_ct_tcp);
    ("struct nf_ct_udp", nf_ct_udp);
    ("struct nf_ct_gre", nf_ct_gre);
    ("union nf_conntrack_proto", nf_conntrack_proto);
    ("struct nf_conn", nf_conn);
    ("struct nf_conn___init", nf_conn___init);
    ("struct bpf_sock_tuple", bpf_sock_tuple);
    ("enum bpf_map_type", bpf_map_type);
    ("enum ip_conntrack_status", ip_conntrack_status);
    ("enum ip_conntrack_dir", ip_conntrack_dir);
    ("enum ip_conntrack_info", ip_conntrack_info);
    ("enum tcx_action_base", tcx_action_base) ].

End vmlinux.
