(* ===== verification/VmlinuxNet.v ===== *)
(** * Kernel declarations of the objects the helpers work on: networking

    The declarations of [bpf/vmlinux.h] behind the networking helpers and kfuncs the
    programs call: the kernel packet buffer behind [__sk_buff], the socket it may
    carry, the device and TAP objects [bpf_redirect] resolves an ifindex to, the
    route and neighbour entries [bpf_redirect_neigh] consults, the network namespace
    the conntrack kfuncs look up, and the conntrack extension and expectation
    records.  Transcribed as in [Vmlinux]. *)
From S2P Require Import Prelude CLayout Vmlinux.

Import vmlinux.
#[local] Open Scope Z_scope.

Module vmnet.

(** [struct rb_node], vmlinux.h lines 35266-35270. *)
Definition rb_node : ctype := cstruct
  [ F "__rb_parent_color" culong;
    F "rb_right" (CPtr "struct rb_node");
    F "rb_left" (CPtr "struct rb_node") ].

(** [struct list_head], vmlinux.h lines 34561-34564. *)
Definition list_head : ctype := cstruct
  [ F "next" (CPtr "struct list_head");
    F "prev" (CPtr "struct list_head") ].

(** [struct llist_node], vmlinux.h lines 35868-35870. *)
Definition llist_node : ctype := cstruct
  [ F "next" (CPtr "struct llist_node") ].

(** [__s64], vmlinux.h lines 32426-32426. *)
Definition __s64 : ctype := cllong.

(** [s64], vmlinux.h lines 32430-32430. *)
Definition s64 : ctype := __s64.

(** [ktime_t], vmlinux.h lines 32442-32442. *)
Definition ktime_t : ctype := s64.

(** [u64], vmlinux.h lines 32458-32458. *)
Definition u64 : ctype := __u64.

(** [__wsum], vmlinux.h lines 32880-32880. *)
Definition __wsum : ctype := __u32.

(** [sk_buff_data_t], vmlinux.h lines 33010-33010. *)
Definition sk_buff_data_t : ctype := cuint.

(** [struct sk_buff], vmlinux.h lines 48863-49065. *)
Definition sk_buff : ctype := cstruct
  [ F "" (cunion
    [ F "" (cstruct
      [ F "next" (CPtr "struct sk_buff");
        F "prev" (CPtr "struct sk_buff");
        F "" (cunion
        [ F "dev" (CPtr "struct net_device");
          F "dev_scratch" culong ]) ]);
      F "rbnode" rb_node;
      F "list" list_head;
      F "ll_node" llist_node ]);
    F "sk" (CPtr "struct sock");
    F "" (cunion
    [ F "tstamp" ktime_t;
      F "skb_mstamp_ns" u64 ]);
    F "cb" (CArr 48 cchar);
    F "" (cunion
    [ F "" (cstruct
      [ F "_skb_refdst" culong;
        F "destructor" (CPtr "fn") ]);
      F "tcp_tsorted_anchor" list_head;
      F "_sk_redir" culong ]);
    F "_nfct" culong;
    F "len" cuint;
    F "data_len" cuint;
    F "mac_len" __u16;
    F "hdr_len" __u16;
    F "queue_mapping" __u16;
    F "__cloned_offset" (CArr 0 __u8);
    B "cloned" __u8 1;
    B "nohdr" __u8 1;
    B "fclone" __u8 2;
    B "peeked" __u8 1;
    B "head_frag" __u8 1;
    B "pfmemalloc" __u8 1;
    B "pp_recycle" __u8 1;
    F "active_extensions" __u8;
    F "" (cunion
    [ F "" (cstruct
      [ F "__pkt_type_offset" (CArr 0 __u8);
        B "pkt_type" __u8 3;
        B "ignore_df" __u8 1;
        B "dst_pending_confirm" __u8 1;
        B "ip_summed" __u8 2;
        B "ooo_okay" __u8 1;
        F "__mono_tc_offset" (CArr 0 __u8);
        B "tstamp_type" __u8 2;
        B "tc_at_ingress" __u8 1;
        B "tc_skip_classify" __u8 1;
        B "remcsum_offload" __u8 1;
        B "csum_complete_sw" __u8 1;
        B "csum_level" __u8 2;
        B "inner_protocol_type" __u8 1;
        B "l4_hash" __u8 1;
        B "sw_hash" __u8 1;
        B "wifi_acked_valid" __u8 1;
        B "wifi_acked" __u8 1;
        B "no_fcs" __u8 1;
        B "encapsulation" __u8 1;
        B "encap_hdr_csum" __u8 1;
        B "csum_valid" __u8 1;
        B "ndisc_nodetype" __u8 2;
        B "ipvs_property" __u8 1;
        B "nf_trace" __u8 1;
        B "offload_fwd_mark" __u8 1;
        B "offload_l3_fwd_mark" __u8 1;
        B "redirected" __u8 1;
        B "from_ingress" __u8 1;
        B "nf_skip_egress" __u8 1;
        B "decrypted" __u8 1;
        B "slow_gro" __u8 1;
        B "csum_not_inet" __u8 1;
        B "unreadable" __u8 1;
        F "tc_index" __u16;
        F "alloc_cpu" u16;
        F "" (cunion
        [ F "csum" __wsum;
          F "" (cstruct
          [ F "csum_start" __u16;
            F "csum_offset" __u16 ]) ]);
        F "priority" __u32;
        F "skb_iif" cint;
        F "hash" __u32;
        F "" (cunion
        [ F "vlan_all" u32;
          F "" (cstruct
          [ F "vlan_proto" __be16;
            F "vlan_tci" __u16 ]) ]);
        F "" (cunion
        [ F "napi_id" cuint;
          F "sender_cpu" cuint ]);
        F "secmark" __u32;
        F "" (cunion
        [ F "mark" __u32;
          F "reserved_tailroom" __u32 ]);
        F "" (cunion
        [ F "inner_protocol" __be16;
          F "inner_ipproto" __u8 ]);
        F "inner_transport_header" __u16;
        F "inner_network_header" __u16;
        F "inner_mac_header" __u16;
        F "protocol" __be16;
        F "transport_header" __u16;
        F "network_header" __u16;
        F "mac_header" __u16 ]);
      F "headers" (cstruct
      [ F "__pkt_type_offset" (CArr 0 __u8);
        B "pkt_type" __u8 3;
        B "ignore_df" __u8 1;
        B "dst_pending_confirm" __u8 1;
        B "ip_summed" __u8 2;
        B "ooo_okay" __u8 1;
        F "__mono_tc_offset" (CArr 0 __u8);
        B "tstamp_type" __u8 2;
        B "tc_at_ingress" __u8 1;
        B "tc_skip_classify" __u8 1;
        B "remcsum_offload" __u8 1;
        B "csum_complete_sw" __u8 1;
        B "csum_level" __u8 2;
        B "inner_protocol_type" __u8 1;
        B "l4_hash" __u8 1;
        B "sw_hash" __u8 1;
        B "wifi_acked_valid" __u8 1;
        B "wifi_acked" __u8 1;
        B "no_fcs" __u8 1;
        B "encapsulation" __u8 1;
        B "encap_hdr_csum" __u8 1;
        B "csum_valid" __u8 1;
        B "ndisc_nodetype" __u8 2;
        B "ipvs_property" __u8 1;
        B "nf_trace" __u8 1;
        B "offload_fwd_mark" __u8 1;
        B "offload_l3_fwd_mark" __u8 1;
        B "redirected" __u8 1;
        B "from_ingress" __u8 1;
        B "nf_skip_egress" __u8 1;
        B "decrypted" __u8 1;
        B "slow_gro" __u8 1;
        B "csum_not_inet" __u8 1;
        B "unreadable" __u8 1;
        F "tc_index" __u16;
        F "alloc_cpu" u16;
        F "" (cunion
        [ F "csum" __wsum;
          F "" (cstruct
          [ F "csum_start" __u16;
            F "csum_offset" __u16 ]) ]);
        F "priority" __u32;
        F "skb_iif" cint;
        F "hash" __u32;
        F "" (cunion
        [ F "vlan_all" u32;
          F "" (cstruct
          [ F "vlan_proto" __be16;
            F "vlan_tci" __u16 ]) ]);
        F "" (cunion
        [ F "napi_id" cuint;
          F "sender_cpu" cuint ]);
        F "secmark" __u32;
        F "" (cunion
        [ F "mark" __u32;
          F "reserved_tailroom" __u32 ]);
        F "" (cunion
        [ F "inner_protocol" __be16;
          F "inner_ipproto" __u8 ]);
        F "inner_transport_header" __u16;
        F "inner_network_header" __u16;
        F "inner_mac_header" __u16;
        F "protocol" __be16;
        F "transport_header" __u16;
        F "network_header" __u16;
        F "mac_header" __u16 ]) ]);
    F "tail" sk_buff_data_t;
    F "end" sk_buff_data_t;
    F "head" (CPtr "unsigned char");
    F "data" (CPtr "unsigned char");
    F "truesize" cuint;
    F "users" refcount_t;
    F "extensions" (CPtr "struct skb_ext") ].

(** [struct skb_shared_hwtstamps], vmlinux.h lines 134561-134566. *)
Definition skb_shared_hwtstamps : ctype := cstruct
  [ F "" (cunion
    [ F "hwtstamp" ktime_t;
      F "netdev_data" (CPtr "void") ]) ].

(** [struct xsk_tx_metadata_compl], vmlinux.h lines 134568-134570. *)
Definition xsk_tx_metadata_compl : ctype := cstruct
  [ F "tx_timestamp" (CPtr "__u64") ].

(** [netmem_ref], vmlinux.h lines 32594-32594. *)
Definition netmem_ref : ctype := culong.

(** [struct skb_frag], vmlinux.h lines 134527-134531. *)
Definition skb_frag : ctype := cstruct
  [ F "netmem" netmem_ref;
    F "len" cuint;
    F "offset" cuint ].

(** [skb_frag_t], vmlinux.h lines 134533-134533. *)
Definition skb_frag_t : ctype := skb_frag.

(** [struct skb_shared_info], vmlinux.h lines 134572-134595. *)
Definition skb_shared_info : ctype := cstruct
  [ F "flags" __u8;
    F "meta_len" __u8;
    F "nr_frags" __u8;
    F "tx_flags" __u8;
    F "gso_size" cushort;
    F "gso_segs" cushort;
    F "frag_list" (CPtr "struct sk_buff");
    F "" (cunion
    [ F "hwtstamps" skb_shared_hwtstamps;
      F "xsk_meta" xsk_tx_metadata_compl ]);
    F "gso_type" cuint;
    F "tskey" u32;
    F "dataref" atomic_t;
    F "" (cunion
    [ F "" (cstruct
      [ F "xdp_frags_size" u32;
        F "xdp_frags_truesize" u32 ]);
      F "destructor_arg" (CPtr "void") ]);
    F "frags" (CArr 17 skb_frag_t) ].

(** [__addrpair], vmlinux.h lines 32466-32466. *)
Definition __addrpair : ctype := __u64.

(** [__portpair], vmlinux.h lines 32876-32876. *)
Definition __portpair : ctype := __u32.

(** [atomic64_t], vmlinux.h lines 33613-33615. *)
Definition atomic64_t : ctype := cstruct
  [ F "counter" s64 ].

(** [struct sock_common], vmlinux.h lines 49122-49182. *)
Definition sock_common : ctype := cstruct
  [ F "" (cunion
    [ F "skc_addrpair" __addrpair;
      F "" (cstruct
      [ F "skc_daddr" __be32;
        F "skc_rcv_saddr" __be32 ]) ]);
    F "" (cunion
    [ F "skc_hash" cuint;
      F "skc_u16hashes" (CArr 2 __u16) ]);
    F "" (cunion
    [ F "skc_portpair" __portpair;
      F "" (cstruct
      [ F "skc_dport" __be16;
        F "skc_num" __u16 ]) ]);
    F "skc_family" cushort;
    F "skc_state" cuchar;
    B "skc_reuse" cuchar 4;
    B "skc_reuseport" cuchar 1;
    B "skc_ipv6only" cuchar 1;
    B "skc_net_refcnt" cuchar 1;
    B "skc_bypass_prot_mem" cuchar 1;
    F "skc_bound_dev_if" cint;
    F "" (cunion
    [ F "skc_bind_node" hlist_node;
      F "skc_portaddr_node" hlist_node ]);
    F "skc_prot" (CPtr "struct proto");
    F "skc_net" possible_net_t;
    F "skc_v6_daddr" in6_addr;
    F "skc_v6_rcv_saddr" in6_addr;
    F "skc_cookie" atomic64_t;
    F "" (cunion
    [ F "skc_flags" culong;
      F "skc_listener" (CPtr "struct sock");
      F "skc_tw_dr" (CPtr "struct inet_timewait_death_row") ]);
    F "skc_dontcopy_begin" (CArr 0 cint);
    F "" (cunion
    [ F "skc_node" hlist_node;
      F "skc_nulls_node" hlist_nulls_node ]);
    F "skc_tx_queue_mapping" cushort;
    F "skc_rx_queue_mapping" cushort;
    F "" (cunion
    [ F "skc_incoming_cpu" cint;
      F "skc_rcv_wnd" u32;
      F "skc_tw_rcv_nxt" u32 ]);
    F "skc_refcnt" refcount_t;
    F "skc_dontcopy_end" (CArr 0 cint);
    F "" (cunion
    [ F "skc_rxhash" u32;
      F "skc_window_clamp" u32;
      F "skc_tw_snd_nxt" u32 ]) ].

(** [__s32], vmlinux.h lines 32320-32320. *)
Definition __s32 : ctype := cint.

(** [struct sk_buff_list], vmlinux.h lines 34951-34954. *)
Definition sk_buff_list : ctype := cstruct
  [ F "next" (CPtr "struct sk_buff");
    F "prev" (CPtr "struct sk_buff") ].

(** [struct sk_buff_head], vmlinux.h lines 34956-34966. *)
Definition sk_buff_head : ctype := cstruct
  [ F "" (cunion
    [ F "" (cstruct
      [ F "next" (CPtr "struct sk_buff");
        F "prev" (CPtr "struct sk_buff") ]);
      F "list" sk_buff_list ]);
    F "qlen" __u32;
    F "lock" spinlock_t ].

(** [struct wait_queue_head], vmlinux.h lines 34729-34732. *)
Definition wait_queue_head : ctype := cstruct
  [ F "lock" spinlock_t;
    F "head" list_head ].

(** [wait_queue_head_t], vmlinux.h lines 34734-34734. *)
Definition wait_queue_head_t : ctype := wait_queue_head.

(** [socket_lock_t], vmlinux.h lines 34736-34740. *)
Definition socket_lock_t : ctype := cstruct
  [ F "slock" spinlock_t;
    F "owned" cint;
    F "wq" wait_queue_head_t ].

(** [struct rb_root], vmlinux.h lines 37058-37060. *)
Definition rb_root : ctype := cstruct
  [ F "rb_node" (CPtr "struct rb_node") ].

(** [struct page_frag], vmlinux.h lines 49184-49188. *)
Definition page_frag : ctype := cstruct
  [ F "page" (CPtr "struct page");
    F "offset" __u32;
    F "size" __u32 ].

(** [struct timer_list], vmlinux.h lines 33632-33637. *)
Definition timer_list : ctype := cstruct
  [ F "entry" hlist_node;
    F "expires" culong;
    F "function" (CPtr "fn");
    F "flags" u32 ].

(** [__kernel_uid32_t], vmlinux.h lines 32868-32868. *)
Definition __kernel_uid32_t : ctype := cuint.

(** [uid_t], vmlinux.h lines 33032-33032. *)
Definition uid_t : ctype := __kernel_uid32_t.

(** [kuid_t], vmlinux.h lines 34472-34474. *)
Definition kuid_t : ctype := cstruct
  [ F "val" uid_t ].

(** [netdev_features_t], vmlinux.h lines 32522-32522. *)
Definition netdev_features_t : ctype := u64.

(** [gfp_t], vmlinux.h lines 32954-32954. *)
Definition gfp_t : ctype := cuint.

(** [struct qrwlock], vmlinux.h lines 37041-37050. *)
Definition qrwlock : ctype := cstruct
  [ F "" (cunion
    [ F "cnts" atomic_t;
      F "" (cstruct
      [ F "wlocked" u8;
        F "__lstate" (CArr 3 u8) ]) ]);
    F "wait_lock" arch_spinlock_t ].

(** [arch_rwlock_t], vmlinux.h lines 37052-37052. *)
Definition arch_rwlock_t : ctype := qrwlock.

(** [struct rwlock], vmlinux.h lines 37054-37056. *)
Definition rwlock : ctype := cstruct
  [ F "raw_lock" arch_rwlock_t ].

(** [rwlock_t], vmlinux.h lines 33897-33897. *)
Definition rwlock_t : ctype := rwlock.

(** [struct sock_cgroup_data], vmlinux.h lines 49190-49194. *)
Definition sock_cgroup_data : ctype := cstruct
  [ F "cgroup" (CPtr "struct cgroup");
    F "classid" u32;
    F "prioidx" u16 ].

(** [struct callback_head], vmlinux.h lines 34997-35000. *)
Definition callback_head : ctype := cstruct
  [ F "next" (CPtr "struct callback_head");
    F "func" (CPtr "fn") ].

(** [freeptr_t], vmlinux.h lines 34427-34429. *)
Definition freeptr_t : ctype := cstruct
  [ F "v" culong ].

(** [netns_tracker], vmlinux.h lines 34608-34608. *)
Definition netns_tracker : ctype := cstruct  [].

(** [struct xarray], vmlinux.h lines 38702-38706. *)
Definition xarray : ctype := cstruct
  [ F "xa_lock" spinlock_t;
    F "xa_flags" gfp_t;
    F "xa_head" (CPtr "void") ].

(** [struct sock], vmlinux.h lines 49216-49357. *)
Definition sock : ctype := cstruct
  [ F "__sk_common" sock_common;
    F "__cacheline_group_begin__sock_write_rx" (CArr 0 __u8);
    F "sk_drops" atomic_t;
    F "sk_peek_off" __s32;
    F "sk_error_queue" sk_buff_head;
    F "sk_receive_queue" sk_buff_head;
    F "sk_backlog" (cstruct
    [ F "rmem_alloc" atomic_t;
      F "len" cint;
      F "head" (CPtr "struct sk_buff");
      F "tail" (CPtr "struct sk_buff") ]);
    F "__cacheline_group_end__sock_write_rx" (CArr 0 __u8);
    F "__cacheline_group_begin__sock_read_rx" (CArr 0 __u8);
    F "sk_rx_dst" (CPtr "struct dst_entry");
    F "sk_rx_dst_ifindex" cint;
    F "sk_rx_dst_cookie" u32;
    F "sk_ll_usec" cuint;
    F "sk_napi_id" cuint;
    F "sk_busy_poll_budget" u16;
    F "sk_prefer_busy_poll" u8;
    F "sk_userlocks" u8;
    F "sk_rcvbuf" cint;
    F "sk_filter" (CPtr "struct sk_filter");
    F "" (cunion
    [ F "sk_wq" (CPtr "struct socket_wq");
      F "sk_wq_raw" (CPtr "struct socket_wq") ]);
    F "sk_data_ready" (CPtr "fn");
    F "sk_rcvtimeo" clong;
    F "sk_rcvlowat" cint;
    F "__cacheline_group_end__sock_read_rx" (CArr 0 __u8);
    F "__cacheline_group_begin__sock_read_rxtx" (CArr 0 __u8);
    F "sk_err" cint;
    F "sk_socket" (CPtr "struct socket");
    F "sk_memcg" (CPtr "struct mem_cgroup");
    F "sk_policy" (CArr 2 (CPtr "struct xfrm_policy"));
    F "psp_assoc" (CPtr "struct psp_assoc");
    F "__cacheline_group_end__sock_read_rxtx" (CArr 0 __u8);
    F "__cacheline_group_begin__sock_write_rxtx" (CArr 0 __u8);
    F "sk_lock" socket_lock_t;
    F "sk_reserved_mem" u32;
    F "sk_forward_alloc" cint;
    F "sk_tsflags" u32;
    F "__cacheline_group_end__sock_write_rxtx" (CArr 0 __u8);
    F "__cacheline_group_begin__sock_write_tx" (CArr 0 __u8);
    F "sk_write_pending" cint;
    F "sk_omem_alloc" atomic_t;
    F "sk_err_soft" cint;
    F "sk_wmem_queued" cint;
    F "sk_wmem_alloc" refcount_t;
    F "sk_tsq_flags" culong;
    F "" (cunion
    [ F "sk_send_head" (CPtr "struct sk_buff");
      F "tcp_rtx_queue" rb_root ]);
    F "sk_write_queue" sk_buff_head;
    F "sk_frag" page_frag;
    F "" (cunion
    [ F "sk_timer" timer_list;
      F "tcp_retransmit_timer" timer_list;
      F "mptcp_retransmit_timer" timer_list ]);
    F "sk_pacing_rate" culong;
    F "sk_zckey" atomic_t;
    F "sk_tskey" atomic_t;
    F "sk_tx_queue_mapping_jiffies" culong;
    F "__cacheline_group_end__sock_write_tx" (CArr 0 __u8);
    F "__cacheline_group_begin__sock_read_tx" (CArr 0 __u8);
    F "sk_dst_pending_confirm" u32;
    F "sk_pacing_status" u32;
    F "sk_max_pacing_rate" culong;
    F "sk_sndtimeo" clong;
    F "sk_priority" u32;
    F "sk_mark" u32;
    F "sk_uid" kuid_t;
    F "sk_protocol" u16;
    F "sk_type" u16;
    F "sk_dst_cache" (CPtr "struct dst_entry");
    F "sk_route_caps" netdev_features_t;
    F "sk_validate_xmit_skb" (CPtr "fn");
    F "sk_gso_type" u16;
    F "sk_gso_max_segs" u16;
    F "sk_gso_max_size" cuint;
    F "sk_allocation" gfp_t;
    F "sk_txhash" u32;
    F "sk_sndbuf" cint;
    F "sk_pacing_shift" u8;
    F "sk_use_task_frag" cbool;
    F "__cacheline_group_end__sock_read_tx" (CArr 0 __u8);
    B "sk_gso_disabled" u8 1;
    B "sk_kern_sock" u8 1;
    B "sk_no_check_tx" u8 1;
    B "sk_no_check_rx" u8 1;
    F "sk_shutdown" u8;
    F "sk_lingertime" culong;
    F "sk_prot_creator" (CPtr "struct proto");
    F "sk_callback_lock" rwlock_t;
    F "sk_ack_backlog" u32;
    F "sk_max_ack_backlog" u32;
    F "sk_ino" culong;
    F "sk_peer_lock" spinlock_t;
    F "sk_bind_phc" cint;
    F "sk_peer_pid" (CPtr "struct pid");
    F "sk_peer_cred" (CPtr "struct cred");
    F "sk_stamp" ktime_t;
    F "sk_disconnects" cint;
    F "" (cunion
    [ F "sk_txrehash" u8;
      F "sk_scm_recv_flags" u8;
      F "" (cstruct
      [ B "sk_scm_credentials" u8 1;
        B "sk_scm_security" u8 1;
        B "sk_scm_pidfd" u8 1;
        B "sk_scm_rights" u8 1;
        B "sk_scm_unused" u8 4 ]) ]);
    F "sk_clockid" u8;
    B "sk_txtime_deadline_mode" u8 1;
    B "sk_txtime_report_errors" u8 1;
    B "sk_txtime_unused" u8 6;
    F "sk_bpf_cb_flags" u8;
    F "sk_user_data" (CPtr "void");
    F "sk_security" (CPtr "void");
    F "sk_cgrp_data" sock_cgroup_data;
    F "sk_state_change" (CPtr "fn");
    F "sk_write_space" (CPtr "fn");
    F "sk_error_report" (CPtr "fn");
    F "sk_backlog_rcv" (CPtr "fn");
    F "sk_destruct" (CPtr "fn");
    F "sk_reuseport_cb" (CPtr "struct sock_reuseport");
    F "sk_bpf_storage" (CPtr "struct bpf_local_storage");
    F "sk_drop_counters" (CPtr "struct numa_drop_counters");
    F "" (cunion
    [ F "sk_rcu" callback_head;
      F "sk_freeptr" freeptr_t ]);
    F "ns_tracker" netns_tracker;
    F "sk_user_frags" xarray ].

(** [__s16], vmlinux.h lines 32630-32630. *)
Definition __s16 : ctype := cshort.

(** [s16], vmlinux.h lines 32632-32632. *)
Definition s16 : ctype := __s16.

(** [struct netdev_tc_txq], vmlinux.h lines 111820-111823. *)
Definition netdev_tc_txq : ctype := cstruct
  [ F "count" u16;
    F "offset" u16 ].

(** [enum netdev_stat_type], vmlinux.h lines 23493-23498. *)
Definition netdev_stat_type : ctype := CEnum 4 
  [ ("NETDEV_PCPU_STAT_NONE", 0);
    ("NETDEV_PCPU_STAT_LSTATS", 1);
    ("NETDEV_PCPU_STAT_TSTATS", 2);
    ("NETDEV_PCPU_STAT_DSTATS", 3) ].

(** [xdp_features_t], vmlinux.h lines 33046-33046. *)
Definition xdp_features_t : ctype := u32.

(** [atomic_long_t], vmlinux.h lines 33617-33617. *)
Definition atomic_long_t : ctype := atomic64_t.

(** [struct net_device_stats], vmlinux.h lines 111827-111920. *)
Definition net_device_stats : ctype := cstruct
  [ F "" (cunion
    [ F "rx_packets" culong;
      F "__rx_packets" atomic_long_t ]);
    F "" (cunion
    [ F "tx_packets" culong;
      F "__tx_packets" atomic_long_t ]);
    F "" (cunion
    [ F "rx_bytes" culong;
      F "__rx_bytes" atomic_long_t ]);
    F "" (cunion
    [ F "tx_bytes" culong;
      F "__tx_bytes" atomic_long_t ]);
    F "" (cunion
    [ F "rx_errors" culong;
      F "__rx_errors" atomic_long_t ]);
    F "" (cunion
    [ F "tx_errors" culong;
      F "__tx_errors" atomic_long_t ]);
    F "" (cunion
    [ F "rx_dropped" culong;
      F "__rx_dropped" atomic_long_t ]);
    F "" (cunion
    [ F "tx_dropped" culong;
      F "__tx_dropped" atomic_long_t ]);
    F "" (cunion
    [ F "multicast" culong;
      F "__multicast" atomic_long_t ]);
    F "" (cunion
    [ F "collisions" culong;
      F "__collisions" atomic_long_t ]);
    F "" (cunion
    [ F "rx_length_errors" culong;
      F "__rx_length_errors" atomic_long_t ]);
    F "" (cunion
    [ F "rx_over_errors" culong;
      F "__rx_over_errors" atomic_long_t ]);
    F "" (cunion
    [ F "rx_crc_errors" culong;
      F "__rx_crc_errors" atomic_long_t ]);
    F "" (cunion
    [ F "rx_frame_errors" culong;
      F "__rx_frame_errors" atomic_long_t ]);
    F "" (cunion
    [ F "rx_fifo_errors" culong;
      F "__rx_fifo_errors" atomic_long_t ]);
    F "" (cunion
    [ F "rx_missed_errors" culong;
      F "__rx_missed_errors" atomic_long_t ]);
    F "" (cunion
    [ F "tx_aborted_errors" culong;
      F "__tx_aborted_errors" atomic_long_t ]);
    F "" (cunion
    [ F "tx_carrier_errors" culong;
      F "__tx_carrier_errors" atomic_long_t ]);
    F "" (cunion
    [ F "tx_fifo_errors" culong;
      F "__tx_fifo_errors" atomic_long_t ]);
    F "" (cunion
    [ F "tx_heartbeat_errors" culong;
      F "__tx_heartbeat_errors" atomic_long_t ]);
    F "" (cunion
    [ F "tx_window_errors" culong;
      F "__tx_window_errors" atomic_long_t ]);
    F "" (cunion
    [ F "rx_compressed" culong;
      F "__rx_compressed" atomic_long_t ]);
    F "" (cunion
    [ F "tx_compressed" culong;
      F "__tx_compressed" atomic_long_t ]) ].

(** [struct netdev_hw_addr_list], vmlinux.h lines 111922-111926. *)
Definition netdev_hw_addr_list : ctype := cstruct
  [ F "list" list_head;
    F "count" cint;
    F "tree" rb_root ].

(** [struct hlist_head], vmlinux.h lines 45820-45822. *)
Definition hlist_head : ctype := cstruct
  [ F "first" (CPtr "struct hlist_node") ].

(** [struct ref_tracker_dir], vmlinux.h lines 68494-68494. *)
Definition ref_tracker_dir : ctype := cstruct  [].

(** [enum netdev_ml_priv_type], vmlinux.h lines 23419-23422. *)
Definition netdev_ml_priv_type : ctype := CEnum 4 
  [ ("ML_PRIV_NONE", 0);
    ("ML_PRIV_CAN", 1) ].

(** [struct kref], vmlinux.h lines 35173-35175. *)
Definition kref : ctype := cstruct
  [ F "refcount" refcount_t ].

(** [struct kobject], vmlinux.h lines 35238-35251. *)
Definition kobject : ctype := cstruct
  [ F "name" (CPtr "char");
    F "entry" list_head;
    F "parent" (CPtr "struct kobject");
    F "kset" (CPtr "struct kset");
    F "ktype" (CPtr "struct kobj_type");
    F "sd" (CPtr "struct kernfs_node");
    F "kref" kref;
    B "state_initialized" cuint 1;
    B "state_in_sysfs" cuint 1;
    B "state_add_uevent_sent" cuint 1;
    B "state_remove_uevent_sent" cuint 1;
    B "uevent_suppress" cuint 1 ].

(** [raw_spinlock_t], vmlinux.h lines 33774-33774. *)
Definition raw_spinlock_t : ctype := raw_spinlock.

(** [struct optimistic_spin_queue], vmlinux.h lines 34537-34539. *)
Definition optimistic_spin_queue : ctype := cstruct
  [ F "tail" atomic_t ].

(** [struct mutex], vmlinux.h lines 34574-34579. *)
Definition mutex : ctype := cstruct
  [ F "owner" atomic_long_t;
    F "wait_lock" raw_spinlock_t;
    F "osq" optimistic_spin_queue;
    F "wait_list" list_head ].

(** [enum dl_dev_state], vmlinux.h lines 16139-16144. *)
Definition dl_dev_state : ctype := CEnum 4 
  [ ("DL_DEV_NO_DRIVER", 0);
    ("DL_DEV_PROBING", 1);
    ("DL_DEV_DRIVER_BOUND", 2);
    ("DL_DEV_UNBINDING", 3) ].

(** [struct dev_links_info], vmlinux.h lines 35253-35258. *)
Definition dev_links_info : ctype := cstruct
  [ F "suppliers" list_head;
    F "consumers" list_head;
    F "defer_sync" list_head;
    F "status" dl_dev_state ].

(** [struct pm_message], vmlinux.h lines 35260-35262. *)
Definition pm_message : ctype := cstruct
  [ F "event" cint ].

(** [pm_message_t], vmlinux.h lines 35264-35264. *)
Definition pm_message_t : ctype := pm_message.

(** [struct swait_queue_head], vmlinux.h lines 35177-35180. *)
Definition swait_queue_head : ctype := cstruct
  [ F "lock" raw_spinlock_t;
    F "task_list" list_head ].

(** [struct completion], vmlinux.h lines 35182-35185. *)
Definition completion : ctype := cstruct
  [ F "done" cuint;
    F "wait" swait_queue_head ].

(** [struct timerqueue_node], vmlinux.h lines 35272-35275. *)
Definition timerqueue_node : ctype := cstruct
  [ F "node" rb_node;
    F "expires" ktime_t ].

(** [struct hrtimer], vmlinux.h lines 35279-35288. *)
Definition hrtimer : ctype := cstruct
  [ F "node" timerqueue_node;
    F "_softexpires" ktime_t;
    F "function" (CPtr "fn");
    F "base" (CPtr "struct hrtimer_clock_base");
    F "state" u8;
    F "is_rel" u8;
    F "is_soft" u8;
    F "is_hard" u8 ].

(** [work_func_t], vmlinux.h lines 35292-35292. *)
Definition work_func_t : ctype := CPtr "fn".

(** [struct work_struct], vmlinux.h lines 35294-35298. *)
Definition work_struct : ctype := cstruct
  [ F "data" atomic_long_t;
    F "entry" list_head;
    F "func" work_func_t ].

(** [enum rpm_request], vmlinux.h lines 27009-27015. *)
Definition rpm_request : ctype := CEnum 4 
  [ ("RPM_REQ_NONE", 0);
    ("RPM_REQ_IDLE", 1);
    ("RPM_REQ_SUSPEND", 2);
    ("RPM_REQ_AUTOSUSPEND", 3);
    ("RPM_REQ_RESUME", 4) ].

(** [enum rpm_status], vmlinux.h lines 27017-27024. *)
Definition rpm_status : ctype := CEnum 4 
  [ ("RPM_INVALID", (-1));
    ("RPM_ACTIVE", 0);
    ("RPM_RESUMING", 1);
    ("RPM_SUSPENDED", 2);
    ("RPM_SUSPENDING", 3);
    ("RPM_BLOCKED", 4) ].

(** [struct dev_pm_info], vmlinux.h lines 35308-35367. *)
Definition dev_pm_info : ctype := cstruct
  [ F "power_state" pm_message_t;
    B "can_wakeup" cbool 1;
    B "async_suspend" cbool 1;
    B "in_dpm_list" cbool 1;
    B "is_prepared" cbool 1;
    B "is_suspended" cbool 1;
    B "is_noirq_suspended" cbool 1;
    B "is_late_suspended" cbool 1;
    B "no_pm" cbool 1;
    B "early_init" cbool 1;
    B "direct_complete" cbool 1;
    F "driver_flags" u32;
    F "lock" spinlock_t;
    F "entry" list_head;
    F "completion" completion;
    F "wakeup" (CPtr "struct wakeup_source");
    F "work_in_progress" cbool;
    B "wakeup_path" cbool 1;
    B "syscore" cbool 1;
    B "no_pm_callbacks" cbool 1;
    B "smart_suspend" cbool 1;
    B "must_resume" cbool 1;
    B "may_skip_resume" cbool 1;
    B "out_band_wakeup" cbool 1;
    B "strict_midlayer" cbool 1;
    F "suspend_timer" hrtimer;
    F "timer_expires" u64;
    F "work" work_struct;
    F "wait_queue" wait_queue_head_t;
    F "wakeirq" (CPtr "struct wake_irq");
    F "usage_count" atomic_t;
    F "child_count" atomic_t;
    B "disable_depth" cuint 3;
    B "idle_notification" cbool 1;
    B "request_pending" cbool 1;
    B "deferred_resume" cbool 1;
    B "needs_force_resume" cbool 1;
    B "runtime_auto" cbool 1;
    B "ignore_children" cbool 1;
    B "no_callbacks" cbool 1;
    B "irq_safe" cbool 1;
    B "use_autosuspend" cbool 1;
    B "timer_autosuspends" cbool 1;
    B "memalloc_noio" cbool 1;
    F "links_count" cuint;
    F "request" rpm_request;
    F "runtime_status" rpm_status;
    F "last_status" rpm_status;
    F "runtime_error" cint;
    F "autosuspend_delay" cint;
    F "last_busy" u64;
    F "active_time" u64;
    F "suspended_time" u64;
    F "accounting_timestamp" u64;
    F "subsys_data" (CPtr "struct pm_subsys_data");
    F "set_latency_tolerance" (CPtr "fn");
    F "qos" (CPtr "struct dev_pm_qos");
    B "detach_power_off" cbool 1 ].

(** [struct dev_msi_info], vmlinux.h lines 35373-35376. *)
Definition dev_msi_info : ctype := cstruct
  [ F "domain" (CPtr "struct irq_domain");
    F "data" (CPtr "struct msi_device_data") ].

(** [struct dev_archdata], vmlinux.h lines 35378-35378. *)
Definition dev_archdata : ctype := cstruct  [].

(** [__kernel_dev_t], vmlinux.h lines 32860-32860. *)
Definition __kernel_dev_t : ctype := u32.

(** [dev_t], vmlinux.h lines 32932-32932. *)
Definition dev_t : ctype := __kernel_dev_t.

(** [enum device_removable], vmlinux.h lines 15383-15388. *)
Definition device_removable : ctype := CEnum 4 
  [ ("DEVICE_REMOVABLE_NOT_SUPPORTED", 0);
    ("DEVICE_REMOVABLE_UNKNOWN", 1);
    ("DEVICE_FIXED", 2);
    ("DEVICE_REMOVABLE", 3) ].

(** [struct device], vmlinux.h lines 35418-35473. *)
Definition device : ctype := cstruct
  [ F "kobj" kobject;
    F "parent" (CPtr "struct device");
    F "p" (CPtr "struct device_private");
    F "init_name" (CPtr "char");
    F "type" (CPtr "struct device_type");
    F "bus" (CPtr "struct bus_type");
    F "driver" (CPtr "struct device_driver");
    F "platform_data" (CPtr "void");
    F "driver_data" (CPtr "void");
    F "driver_override" (cstruct
    [ F "name" (CPtr "char");
      F "lock" spinlock_t ]);
    F "mutex" mutex;
    F "links" dev_links_info;
    F "power" dev_pm_info;
    F "pm_domain" (CPtr "struct dev_pm_domain");
    F "em_pd" (CPtr "struct em_perf_domain");
    F "pins" (CPtr "struct dev_pin_info");
    F "msi" dev_msi_info;
    F "dma_ops" (CPtr "struct dma_map_ops");
    F "dma_mask" (CPtr "u64");
    F "coherent_dma_mask" u64;
    F "bus_dma_limit" u64;
    F "dma_range_map" (CPtr "struct bus_dma_region");
    F "dma_parms" (CPtr "struct device_dma_parameters");
    F "dma_pools" list_head;
    F "cma_area" (CPtr "struct cma");
    F "dma_io_tlb_mem" (CPtr "struct io_tlb_mem");
    F "dma_io_tlb_pools" list_head;
    F "dma_io_tlb_lock" spinlock_t;
    F "dma_uses_io_tlb" cbool;
    F "archdata" dev_archdata;
    F "of_node" (CPtr "struct device_node");
    F "fwnode" (CPtr "struct fwnode_handle");
    F "numa_node" cint;
    F "devt" dev_t;
    F "id" u32;
    F "devres_lock" spinlock_t;
    F "devres_head" list_head;
    F "class" (CPtr "struct class");
    F "groups" (CPtr "struct attribute_group *");
    F "release" (CPtr "fn");
    F "iommu_group" (CPtr "struct iommu_group");
    F "iommu" (CPtr "struct dev_iommu");
    F "physical_location" (CPtr "struct device_physical_location");
    F "removable" device_removable;
    B "offline_disabled" cbool 1;
    B "offline" cbool 1;
    B "of_node_reused" cbool 1;
    B "state_synced" cbool 1;
    B "can_match" cbool 1;
    B "dma_skip_sync" cbool 1;
    B "dma_iommu" cbool 1 ].

(** [struct bpf_xdp_entity], vmlinux.h lines 54365-54368. *)
Definition bpf_xdp_entity : ctype := cstruct
  [ F "prog" (CPtr "struct bpf_prog");
    F "link" (CPtr "struct bpf_xdp_link") ].

(** [netdevice_tracker], vmlinux.h lines 34606-34606. *)
Definition netdevice_tracker : ctype := cstruct  [].

(** [struct net_device], vmlinux.h lines 111990-112212. *)
Definition net_device : ctype := cstruct
  [ F "__cacheline_group_begin__net_device_read_tx" (CArr 0 __u8);
    F "" (cunion
    [ F "" (cstruct
      [ B "priv_flags" culong 32;
        B "lltx" culong 1;
        B "netmem_tx" culong 1 ]);
      F "priv_flags_fast" (cstruct
      [ B "priv_flags" culong 32;
        B "lltx" culong 1;
        B "netmem_tx" culong 1 ]) ]);
    F "netdev_ops" (CPtr "struct net_device_ops");
    F "header_ops" (CPtr "struct header_ops");
    F "_tx" (CPtr "struct netdev_queue");
    F "gso_partial_features" netdev_features_t;
    F "real_num_tx_queues" cuint;
    F "gso_max_size" cuint;
    F "gso_ipv4_max_size" cuint;
    F "gso_max_segs" u16;
    F "num_tc" s16;
    F "mtu" cuint;
    F "needed_headroom" cushort;
    F "tc_to_txq" (CArr 16 netdev_tc_txq);
    F "xps_maps" (CArr 2 (CPtr "struct xps_dev_maps"));
    F "nf_hooks_egress" (CPtr "struct nf_hook_entries");
    F "tcx_egress" (CPtr "struct bpf_mprog_entry");
    F "__cacheline_group_end__net_device_read_tx" (CArr 0 __u8);
    F "__cacheline_group_begin__net_device_read_txrx" (CArr 0 __u8);
    F "" (cunion
    [ F "lstats" (CPtr "struct pcpu_lstats");
      F "tstats" (CPtr "struct pcpu_sw_netstats");
      F "dstats" (CPtr "struct pcpu_dstats") ]);
    F "state" culong;
    F "flags" cuint;
    F "hard_header_len" cushort;
    B "pcpu_stat_type" netdev_stat_type 8;
    F "features" netdev_features_t;
    F "ip6_ptr" (CPtr "struct inet6_dev");
    F "__cacheline_group_end__net_device_read_txrx" (CArr 0 __u8);
    F "__cacheline_group_begin__net_device_read_rx" (CArr 0 __u8);
    F "xdp_prog" (CPtr "struct bpf_prog");
    F "ptype_specific" list_head;
    F "ifindex" cint;
    F "real_num_rx_queues" cuint;
    F "_rx" (CPtr "struct netdev_rx_queue");
    F "gro_max_size" cuint;
    F "gro_ipv4_max_size" cuint;
    F "rx_handler" (CPtr "rx_handler_func_t");
    F "rx_handler_data" (CPtr "void");
    F "nd_net" possible_net_t;
    F "npinfo" (CPtr "struct netpoll_info");
    F "tcx_ingress" (CPtr "struct bpf_mprog_entry");
    F "__cacheline_group_end__net_device_read_rx" (CArr 0 __u8);
    F "name" (CArr 16 cchar);
    F "name_node" (CPtr "struct netdev_name_node");
    F "ifalias" (CPtr "struct dev_ifalias");
    F "mem_end" culong;
    F "mem_start" culong;
    F "base_addr" culong;
    F "dev_list" list_head;
    F "napi_list" list_head;
    F "unreg_list" list_head;
    F "close_list" list_head;
    F "ptype_all" list_head;
    F "adj_list" (cstruct
    [ F "upper" list_head;
      F "lower" list_head ]);
    F "xdp_features" xdp_features_t;
    F "xdp_metadata_ops" (CPtr "struct xdp_metadata_ops");
    F "xsk_tx_metadata_ops" (CPtr "struct xsk_tx_metadata_ops");
    F "gflags" cushort;
    F "needed_tailroom" cushort;
    F "hw_features" netdev_features_t;
    F "wanted_features" netdev_features_t;
    F "vlan_features" netdev_features_t;
    F "hw_enc_features" netdev_features_t;
    F "mpls_features" netdev_features_t;
    F "mangleid_features" netdev_features_t;
    F "min_mtu" cuint;
    F "max_mtu" cuint;
    F "type" cushort;
    F "min_header_len" cuchar;
    F "name_assign_type" cuchar;
    F "group" cint;
    F "stats" net_device_stats;
    F "core_stats" (CPtr "struct net_device_core_stats");
    F "carrier_up_count" atomic_t;
    F "carrier_down_count" atomic_t;
    F "wireless_handlers" (CPtr "struct iw_handler_def");
    F "ethtool_ops" (CPtr "struct ethtool_ops");
    F "l3mdev_ops" (CPtr "struct l3mdev_ops");
    F "ndisc_ops" (CPtr "struct ndisc_ops");
    F "xfrmdev_ops" (CPtr "struct xfrmdev_ops");
    F "tlsdev_ops" (CPtr "struct tlsdev_ops");
    F "operstate" cuint;
    F "link_mode" cuchar;
    F "if_port" cuchar;
    F "dma" cuchar;
    F "perm_addr" (CArr 32 cuchar);
    F "addr_assign_type" cuchar;
    F "addr_len" cuchar;
    F "upper_level" cuchar;
    F "lower_level" cuchar;
    F "threaded" u8;
    F "neigh_priv_len" cushort;
    F "dev_id" cushort;
    F "dev_port" cushort;
    F "irq" cint;
    F "priv_len" u32;
    F "addr_list_lock" spinlock_t;
    F "uc" netdev_hw_addr_list;
    F "mc" netdev_hw_addr_list;
    F "dev_addrs" netdev_hw_addr_list;
    F "queues_kset" (CPtr "struct kset");
    F "promiscuity" cuint;
    F "allmulti" cuint;
    F "uc_promisc" cbool;
    F "ip_ptr" (CPtr "struct in_device");
    F "fib_nh_head" hlist_head;
    F "vlan_info" (CPtr "struct vlan_info");
    F "dsa_ptr" (CPtr "struct dsa_port");
    F "tipc_ptr" (CPtr "struct tipc_bearer");
    F "atalk_ptr" (CPtr "void");
    F "ax25_ptr" (CPtr "struct ax25_dev");
    F "ieee80211_ptr" (CPtr "struct wireless_dev");
    F "ieee802154_ptr" (CPtr "struct wpan_dev");
    F "mpls_ptr" (CPtr "struct mpls_dev");
    F "mctp_ptr" (CPtr "struct mctp_dev");
    F "psp_dev" (CPtr "struct psp_dev");
    F "dev_addr" (CPtr "unsigned char");
    F "num_rx_queues" cuint;
    F "xdp_zc_max_segs" cuint;
    F "ingress_queue" (CPtr "struct netdev_queue");
    F "nf_hooks_ingress" (CPtr "struct nf_hook_entries");
    F "broadcast" (CArr 32 cuchar);
    F "rx_cpu_rmap" (CPtr "struct cpu_rmap");
    F "index_hlist" hlist_node;
    F "num_tx_queues" cuint;
    F "qdisc" (CPtr "struct Qdisc");
    F "tx_queue_len" cuint;
    F "tx_global_lock" spinlock_t;
    F "xdp_bulkq" (CPtr "struct xdp_dev_bulk_queue");
    F "qdisc_hash" (CArr 16 hlist_head);
    F "watchdog_timer" timer_list;
    F "watchdog_timeo" cint;
    F "proto_down_reason" u32;
    F "todo_list" list_head;
    F "pcpu_refcnt" (CPtr "int");
    F "refcnt_tracker" ref_tracker_dir;
    F "link_watch_list" list_head;
    F "reg_state" u8;
    F "dismantle" cbool;
    F "moving_ns" cbool;
    F "rtnl_link_initializing" cbool;
    F "needs_free_netdev" cbool;
    F "priv_destructor" (CPtr "fn");
    F "ml_priv" (CPtr "void");
    F "ml_priv_type" netdev_ml_priv_type;
    F "garp_port" (CPtr "struct garp_port");
    F "mrp_port" (CPtr "struct mrp_port");
    F "dm_private" (CPtr "struct dm_hw_stat_delta");
    F "dev" device;
    F "sysfs_groups" (CArr 5 (CPtr "struct attribute_group"));
    F "sysfs_rx_queue_group" (CPtr "struct attribute_group");
    F "rtnl_link_ops" (CPtr "struct rtnl_link_ops");
    F "stat_ops" (CPtr "struct netdev_stat_ops");
    F "queue_mgmt_ops" (CPtr "struct netdev_queue_mgmt_ops");
    F "tso_max_size" cuint;
    F "tso_max_segs" u16;
    F "dcbnl_ops" (CPtr "struct dcbnl_rtnl_ops");
    F "prio_tc_map" (CArr 16 u8);
    F "fcoe_ddp_xid" cuint;
    F "priomap" (CPtr "struct netprio_map");
    F "link_topo" (CPtr "struct phy_link_topology");
    F "phydev" (CPtr "struct phy_device");
    F "sfp_bus" (CPtr "struct sfp_bus");
    F "qdisc_tx_busylock" (CPtr "struct lock_class_key");
    F "proto_down" cbool;
    F "irq_affinity_auto" cbool;
    F "rx_cpu_rmap_auto" cbool;
    B "see_all_hwtstamp_requests" culong 1;
    B "change_proto_down" culong 1;
    B "netns_immutable" culong 1;
    B "fcoe_mtu" culong 1;
    F "net_notifier_list" list_head;
    F "macsec_ops" (CPtr "struct macsec_ops");
    F "udp_tunnel_nic_info" (CPtr "struct udp_tunnel_nic_info");
    F "udp_tunnel_nic" (CPtr "struct udp_tunnel_nic");
    F "cfg" (CPtr "struct netdev_config");
    F "cfg_pending" (CPtr "struct netdev_config");
    F "ethtool" (CPtr "struct ethtool_netdev_state");
    F "xdp_state" (CArr 3 bpf_xdp_entity);
    F "dev_addr_shadow" (CArr 32 u8);
    F "linkwatch_dev_tracker" netdevice_tracker;
    F "watchdog_dev_tracker" netdevice_tracker;
    F "dev_registered_tracker" netdevice_tracker;
    F "offload_xstats_l3" (CPtr "struct rtnl_hw_stats64");
    F "devlink_port" (CPtr "struct devlink_port");
    F "dpll_pin" (CPtr "struct dpll_pin");
    F "page_pools" hlist_head;
    F "irq_moder" (CPtr "struct dim_irq_moder");
    F "max_pacing_offload_horizon" u64;
    F "napi_config" (CPtr "struct napi_config");
    F "num_napi_configs" u32;
    F "napi_defer_hard_irqs" u32;
    F "gro_flush_timeout" culong;
    F "up" cbool;
    F "request_ops_lock" cbool;
    F "lock" mutex;
    F "net_shaper_hierarchy" (CPtr "struct net_shaper_hierarchy");
    F "neighbours" (CArr 2 hlist_head);
    F "hwprov" (CPtr "struct hwtstamp_provider");
    B "" clong 64;
    B "" clong 64;
    B "" clong 64;
    B "" clong 64;
    F "priv" (CArr 0 u8) ].

(** [struct idr], vmlinux.h lines 58022-58026. *)
Definition idr : ctype := cstruct
  [ F "idr_rt" xarray;
    F "idr_base" cuint;
    F "idr_next" cuint ].

(** [struct ns_tree_node], vmlinux.h lines 57932-57935. *)
Definition ns_tree_node : ctype := cstruct
  [ F "ns_node" rb_node;
    F "ns_list_entry" list_head ].

(** [struct ns_tree_root], vmlinux.h lines 57937-57940. *)
Definition ns_tree_root : ctype := cstruct
  [ F "ns_rb" rb_root;
    F "ns_list_head" list_head ].

(** [struct ns_tree], vmlinux.h lines 57942-57949. *)
Definition ns_tree : ctype := cstruct
  [ F "ns_id" u64;
    F "__ns_ref_active" atomic_t;
    F "ns_unified_node" ns_tree_node;
    F "ns_tree_node" ns_tree_node;
    F "ns_owner_node" ns_tree_node;
    F "ns_owner_root" ns_tree_root ].

(** [struct ns_common], vmlinux.h lines 57953-57972. *)
Definition ns_common : ctype := cstruct
  [ F "" (cstruct
    [ F "__ns_ref" refcount_t;
      B "" clong 64;
      B "" clong 64;
      B "" clong 64;
      B "" clong 64;
      B "" clong 64;
      B "" clong 64;
      B "" clong 64 ]);
    F "ns_type" u32;
    F "stashed" (CPtr "struct dentry");
    F "ops" (CPtr "struct proc_ns_operations");
    F "inum" cuint;
    F "" (cunion
    [ F "" ns_tree;
      F "ns_rcu" callback_head ]) ].

(** [struct ctl_table_header], vmlinux.h lines 63677-63699. *)
Definition ctl_table_header : ctype := cstruct
  [ F "" (cunion
    [ F "" (cstruct
      [ F "ctl_table" (CPtr "struct ctl_table");
        F "ctl_table_size" cint;
        F "used" cint;
        F "count" cint;
        F "nreg" cint ]);
      F "rcu" callback_head ]);
    F "unregistering" (CPtr "struct completion");
    F "ctl_table_arg" (CPtr "struct ctl_table");
    F "root" (CPtr "struct ctl_table_root");
    F "set" (CPtr "struct ctl_table_set");
    F "parent" (CPtr "struct ctl_dir");
    F "node" (CPtr "struct ctl_node");
    F "inodes" hlist_head;
    F "type" (CEnum 4 
    [ ("SYSCTL_TABLE_TYPE_DEFAULT", 0);
      ("SYSCTL_TABLE_TYPE_PERMANENTLY_EMPTY", 1) ]) ].

(** [struct ctl_dir], vmlinux.h lines 63701-63704. *)
Definition ctl_dir : ctype := cstruct
  [ F "header" ctl_table_header;
    F "root" rb_root ].

(** [struct ctl_table_set], vmlinux.h lines 63739-63742. *)
Definition ctl_table_set : ctype := cstruct
  [ F "is_seen" (CPtr "fn");
    F "dir" ctl_dir ].

(** [struct raw_notifier_head], vmlinux.h lines 72196-72198. *)
Definition raw_notifier_head : ctype := cstruct
  [ F "head" (CPtr "struct notifier_block") ].

(** [struct netns_core], vmlinux.h lines 110783-110793. *)
Definition netns_core : ctype := cstruct
  [ F "sysctl_hdr" (CPtr "struct ctl_table_header");
    F "sysctl_somaxconn" cint;
    F "sysctl_txq_reselection" cint;
    F "sysctl_optmem_max" cint;
    F "sysctl_txrehash" u8;
    F "sysctl_tstamp_allow_data" u8;
    F "sysctl_bypass_prot_mem" u8;
    F "prot_inuse" (CPtr "struct prot_inuse");
    F "rps_default_mask" (CPtr "struct cpumask") ].

(** [struct netns_mib], vmlinux.h lines 110799-110816. *)
Definition netns_mib : ctype := cstruct
  [ F "ip_statistics" (CPtr "struct ipstats_mib");
    F "ipv6_statistics" (CPtr "struct ipstats_mib");
    F "tcp_statistics" (CPtr "struct tcp_mib");
    F "net_statistics" (CPtr "struct linux_mib");
    F "udp_statistics" (CPtr "struct udp_mib");
    F "udp_stats_in6" (CPtr "struct udp_mib");
    F "xfrm_statistics" (CPtr "struct linux_xfrm_mib");
    F "tls_statistics" (CPtr "struct linux_tls_mib");
    F "mptcp_statistics" (CPtr "struct mptcp_mib");
    F "udplite_statistics" (CPtr "struct udp_mib");
    F "udplite_stats_in6" (CPtr "struct udp_mib");
    F "icmp_statistics" (CPtr "struct icmp_mib");
    F "icmpmsg_statistics" (CPtr "struct icmpmsg_mib");
    F "icmpv6_statistics" (CPtr "struct icmpv6_mib");
    F "icmpv6msg_statistics" (CPtr "struct icmpv6msg_mib");
    F "proc_net_devsnmp6" (CPtr "struct proc_dir_entry") ].

(** [struct netns_packet], vmlinux.h lines 110818-110821. *)
Definition netns_packet : ctype := cstruct
  [ F "sklist_lock" mutex;
    F "sklist" hlist_head ].

(** [struct unix_table], vmlinux.h lines 110823-110826. *)
Definition unix_table : ctype := cstruct
  [ F "locks" (CPtr "spinlock_t");
    F "buckets" (CPtr "struct hlist_head") ].

(** [struct netns_unix], vmlinux.h lines 110828-110832. *)
Definition netns_unix : ctype := cstruct
  [ F "table" unix_table;
    F "sysctl_max_dgram_qlen" cint;
    F "ctl" (CPtr "struct ctl_table_header") ].

(** [struct rw_semaphore], vmlinux.h lines 34566-34572. *)
Definition rw_semaphore : ctype := cstruct
  [ F "count" atomic_long_t;
    F "owner" atomic_long_t;
    F "osq" optimistic_spin_queue;
    F "wait_lock" raw_spinlock_t;
    F "wait_list" list_head ].

(** [struct blocking_notifier_head], vmlinux.h lines 42135-42138. *)
Definition blocking_notifier_head : ctype := cstruct
  [ F "rwsem" rw_semaphore;
    F "head" (CPtr "struct notifier_block") ].

(** [struct netns_nexthop], vmlinux.h lines 110834-110840. *)
Definition netns_nexthop : ctype := cstruct
  [ F "rb_root" rb_root;
    F "devhash" (CPtr "struct hlist_head");
    F "seq" cuint;
    F "last_id_allocated" u32;
    F "notifier_chain" blocking_notifier_head ].

(** [struct inet_timewait_death_row], vmlinux.h lines 92061-92078. *)
Definition inet_timewait_death_row : ctype := cstruct
  [ F "tw_refcount" refcount_t;
    B "" clong 64;
    B "" clong 64;
    B "" clong 64;
    B "" clong 64;
    B "" clong 64;
    B "" clong 64;
    B "" clong 64;
    F "hashinfo" (CPtr "struct inet_hashinfo");
    F "sysctl_max_tw_buckets" cint;
    B "" clong 64;
    B "" clong 64;
    B "" clong 64;
    B "" clong 64;
    B "" clong 64;
    B "" clong 64 ].

(** [struct udp_tunnel_gro], vmlinux.h lines 110842-110845. *)
Definition udp_tunnel_gro : ctype := cstruct
  [ F "sk" (CPtr "struct sock");
    F "list" hlist_head ].

(** [struct local_ports], vmlinux.h lines 102617-102620. *)
Definition local_ports : ctype := cstruct
  [ F "range" u32;
    F "warned" cbool ].

(** [struct seqcount], vmlinux.h lines 34705-34707. *)
Definition seqcount : ctype := cstruct
  [ F "sequence" cuint ].

(** [seqcount_t], vmlinux.h lines 34709-34709. *)
Definition seqcount_t : ctype := seqcount.

(** [struct seqcount_spinlock], vmlinux.h lines 46169-46171. *)
Definition seqcount_spinlock : ctype := cstruct
  [ F "seqcount" seqcount_t ].

(** [seqcount_spinlock_t], vmlinux.h lines 46173-46173. *)
Definition seqcount_spinlock_t : ctype := seqcount_spinlock.

(** [struct seqlock], vmlinux.h lines 46175-46178. *)
Definition seqlock : ctype := cstruct
  [ F "seqcount" seqcount_spinlock_t;
    F "lock" spinlock_t ].

(** [seqlock_t], vmlinux.h lines 46180-46180. *)
Definition seqlock_t : ctype := seqlock.

(** [__kernel_gid32_t], vmlinux.h lines 32862-32862. *)
Definition __kernel_gid32_t : ctype := cuint.

(** [gid_t], vmlinux.h lines 32956-32956. *)
Definition gid_t : ctype := __kernel_gid32_t.

(** [kgid_t], vmlinux.h lines 34468-34470. *)
Definition kgid_t : ctype := cstruct
  [ F "val" gid_t ].

(** [struct ping_group_range], vmlinux.h lines 110847-110850. *)
Definition ping_group_range : ctype := cstruct
  [ F "lock" seqlock_t;
    F "range" (CArr 2 kgid_t) ].

(** [struct sysctl_fib_multipath_hash_seed], vmlinux.h lines 110852-110855. *)
Definition sysctl_fib_multipath_hash_seed : ctype := cstruct
  [ F "user_seed" u32;
    F "mp_seed" u32 ].

(** [siphash_key_t], vmlinux.h lines 34719-34721. *)
Definition siphash_key_t : ctype := (cstruct
  [ F "key" (CArr 2 u64) ]).

(** [struct delayed_work], vmlinux.h lines 36758-36763. *)
Definition delayed_work : ctype := cstruct
  [ F "work" work_struct;
    F "timer" timer_list;
    F "wq" (CPtr "struct workqueue_struct");
    F "cpu" cint ].

(** [struct netns_ipv4], vmlinux.h lines 110857-111052. *)
Definition netns_ipv4 : ctype := cstruct
  [ F "__cacheline_group_begin__netns_ipv4_read_tx" (CArr 0 __u8);
    F "sysctl_tcp_early_retrans" u8;
    F "sysctl_tcp_tso_win_divisor" u8;
    F "sysctl_tcp_tso_rtt_log" u8;
    F "sysctl_tcp_autocorking" u8;
    F "sysctl_tcp_min_snd_mss" cint;
    F "sysctl_tcp_notsent_lowat" cuint;
    F "sysctl_tcp_limit_output_bytes" cint;
    F "sysctl_tcp_min_rtt_wlen" cint;
    F "sysctl_tcp_wmem" (CArr 3 cint);
    F "sysctl_ip_fwd_use_pmtu" u8;
    F "__cacheline_group_end__netns_ipv4_read_tx" (CArr 0 __u8);
    F "__cacheline_group_begin__netns_ipv4_read_txrx" (CArr 0 __u8);
    F "__cacheline_group_end__netns_ipv4_read_txrx" (CArr 0 __u8);
    F "__cacheline_group_begin__netns_ipv4_read_rx" (CArr 0 __u8);
    F "sysctl_tcp_moderate_rcvbuf" u8;
    F "sysctl_ip_early_demux" u8;
    F "sysctl_tcp_early_demux" u8;
    F "sysctl_tcp_l3mdev_accept" u8;
    F "sysctl_tcp_reordering" cint;
    F "sysctl_tcp_rmem" (CArr 3 cint);
    F "sysctl_tcp_rcvbuf_low_rtt" cint;
    F "__cacheline_group_end__netns_ipv4_read_rx" (CArr 0 __u8);
    B "" clong 0;
    F "__cacheline_group_begin__icmp" (CArr 0 __u8);
    F "icmp_global_credit" atomic_t;
    F "icmp_global_stamp" u32;
    F "__cacheline_group_end__icmp" (CArr 0 __u8);
    B "" clong 64;
    B "" clong 64;
    B "" clong 64;
    B "" clong 64;
    B "" clong 64;
    B "" clong 64;
    B "" clong 64;
    F "__cacheline_group_pad__icmp" (cstruct  []);
    F "tcp_death_row" inet_timewait_death_row;
    F "udp_table" (CPtr "struct udp_table");
    F "udp_tunnel_gro" (CArr 2 udp_tunnel_gro);
    F "forw_hdr" (CPtr "struct ctl_table_header");
    F "frags_hdr" (CPtr "struct ctl_table_header");
    F "ipv4_hdr" (CPtr "struct ctl_table_header");
    F "route_hdr" (CPtr "struct ctl_table_header");
    F "xfrm4_hdr" (CPtr "struct ctl_table_header");
    F "devconf_all" (CPtr "struct ipv4_devconf");
    F "devconf_dflt" (CPtr "struct ipv4_devconf");
    F "ra_chain" (CPtr "struct ip_ra_chain");
    F "ra_mutex" mutex;
    F "rules_ops" (CPtr "struct fib_rules_ops");
    F "fib_main" (CPtr "struct fib_table");
    F "fib_default" (CPtr "struct fib_table");
    F "fib_rules_require_fldissect" cuint;
    F "fib_has_custom_rules" cbool;
    F "fib_has_custom_local_routes" cbool;
    F "fib_offload_disabled" cbool;
    F "sysctl_tcp_shrink_window" u8;
    F "fib_num_tclassid_users" atomic_t;
    F "fib_table_hash" (CPtr "struct hlist_head");
    F "fibnl" (CPtr "struct sock");
    F "fib_info_hash" (CPtr "struct hlist_head");
    F "fib_info_hash_bits" cuint;
    F "fib_info_cnt" cuint;
    F "mc_autojoin_sk" (CPtr "struct sock");
    F "peers" (CPtr "struct inet_peer_base");
    F "fqdir" (CPtr "struct fqdir");
    F "sysctl_icmp_echo_ignore_all" u8;
    F "sysctl_icmp_echo_enable_probe" u8;
    F "sysctl_icmp_echo_ignore_broadcasts" u8;
    F "sysctl_icmp_ignore_bogus_error_responses" u8;
    F "sysctl_icmp_errors_use_inbound_ifaddr" u8;
    F "sysctl_icmp_errors_extension_mask" u8;
    F "sysctl_icmp_ratelimit" cint;
    F "sysctl_icmp_ratemask" cint;
    F "sysctl_icmp_msgs_per_sec" cint;
    F "sysctl_icmp_msgs_burst" cint;
    F "ip_rt_min_pmtu" u32;
    F "ip_rt_mtu_expires" cint;
    F "ip_rt_min_advmss" cint;
    F "ip_local_ports" local_ports;
    F "sysctl_tcp_ecn" u8;
    F "sysctl_tcp_ecn_option" u8;
    F "sysctl_tcp_ecn_option_beacon" u8;
    F "sysctl_tcp_ecn_fallback" u8;
    F "sysctl_ip_default_ttl" u8;
    F "sysctl_ip_no_pmtu_disc" u8;
    F "sysctl_ip_fwd_update_priority" u8;
    F "sysctl_ip_nonlocal_bind" u8;
    F "sysctl_ip_autobind_reuse" u8;
    F "sysctl_ip_dynaddr" u8;
    F "sysctl_raw_l3mdev_accept" u8;
    F "sysctl_udp_early_demux" u8;
    F "sysctl_nexthop_compat_mode" u8;
    F "sysctl_fwmark_reflect" u8;
    F "sysctl_tcp_fwmark_accept" u8;
    F "sysctl_tcp_mtu_probing" u8;
    F "sysctl_tcp_mtu_probe_floor" cint;
    F "sysctl_tcp_base_mss" cint;
    F "sysctl_tcp_probe_threshold" cint;
    F "sysctl_tcp_probe_interval" u32;
    F "sysctl_tcp_keepalive_time" cint;
    F "sysctl_tcp_keepalive_intvl" cint;
    F "sysctl_tcp_keepalive_probes" u8;
    F "sysctl_tcp_syn_retries" u8;
    F "sysctl_tcp_synack_retries" u8;
    F "sysctl_tcp_syncookies" u8;
    F "sysctl_tcp_migrate_req" u8;
    F "sysctl_tcp_comp_sack_nr" u8;
    F "sysctl_tcp_backlog_ack_defer" u8;
    F "sysctl_tcp_pingpong_thresh" u8;
    F "sysctl_tcp_retries1" u8;
    F "sysctl_tcp_retries2" u8;
    F "sysctl_tcp_orphan_retries" u8;
    F "sysctl_tcp_tw_reuse" u8;
    F "sysctl_tcp_tw_reuse_delay" cuint;
    F "sysctl_tcp_fin_timeout" cint;
    F "sysctl_tcp_sack" u8;
    F "sysctl_tcp_window_scaling" u8;
    F "sysctl_tcp_timestamps" u8;
    F "sysctl_tcp_rto_min_us" cint;
    F "sysctl_tcp_rto_max_ms" cint;
    F "sysctl_tcp_recovery" u8;
    F "sysctl_tcp_thin_linear_timeouts" u8;
    F "sysctl_tcp_slow_start_after_idle" u8;
    F "sysctl_tcp_retrans_collapse" u8;
    F "sysctl_tcp_stdurg" u8;
    F "sysctl_tcp_rfc1337" u8;
    F "sysctl_tcp_abort_on_overflow" u8;
    F "sysctl_tcp_fack" u8;
    F "sysctl_tcp_max_reordering" cint;
    F "sysctl_tcp_adv_win_scale" cint;
    F "sysctl_tcp_dsack" u8;
    F "sysctl_tcp_app_win" u8;
    F "sysctl_tcp_frto" u8;
    F "sysctl_tcp_nometrics_save" u8;
    F "sysctl_tcp_no_ssthresh_metrics_save" u8;
    F "sysctl_tcp_workaround_signed_windows" u8;
    F "sysctl_tcp_challenge_ack_limit" cint;
    F "sysctl_tcp_min_tso_segs" u8;
    F "sysctl_tcp_reflect_tos" u8;
    F "sysctl_tcp_invalid_ratelimit" cint;
    F "sysctl_tcp_pacing_ss_ratio" cint;
    F "sysctl_tcp_pacing_ca_ratio" cint;
    F "sysctl_tcp_child_ehash_entries" cuint;
    F "sysctl_tcp_comp_sack_rtt_percent" cint;
    F "sysctl_tcp_comp_sack_delay_ns" culong;
    F "sysctl_tcp_comp_sack_slack_ns" culong;
    F "sysctl_max_syn_backlog" cint;
    F "sysctl_tcp_fastopen" cint;
    F "tcp_congestion_control" (CPtr "struct tcp_congestion_ops");
    F "tcp_fastopen_ctx" (CPtr "struct tcp_fastopen_context");
    F "sysctl_tcp_fastopen_blackhole_timeout" cuint;
    F "tfo_active_disable_times" atomic_t;
    F "tfo_active_disable_stamp" culong;
    F "tcp_challenge_timestamp" u32;
    F "tcp_challenge_count" u32;
    F "sysctl_tcp_plb_enabled" u8;
    F "sysctl_tcp_plb_idle_rehash_rounds" u8;
    F "sysctl_tcp_plb_rehash_rounds" u8;
    F "sysctl_tcp_plb_suspend_rto_sec" u8;
    F "sysctl_tcp_plb_cong_thresh" cint;
    F "sysctl_udp_wmem_min" cint;
    F "sysctl_udp_rmem_min" cint;
    F "sysctl_fib_notify_on_flag_change" u8;
    F "sysctl_tcp_syn_linear_timeouts" u8;
    F "sysctl_udp_l3mdev_accept" u8;
    F "sysctl_igmp_llm_reports" u8;
    F "sysctl_igmp_max_memberships" cint;
    F "sysctl_igmp_max_msf" cint;
    F "sysctl_igmp_qrv" cint;
    F "ping_group_range" ping_group_range;
    F "ping_port_rover" u16;
    F "dev_addr_genid" atomic_t;
    F "sysctl_udp_child_hash_entries" cuint;
    F "sysctl_local_reserved_ports" (CPtr "long unsigned int");
    F "sysctl_ip_prot_sock" cint;
    F "mr_tables" list_head;
    F "mr_rules_ops" (CPtr "struct fib_rules_ops");
    F "sysctl_fib_multipath_hash_seed" sysctl_fib_multipath_hash_seed;
    F "sysctl_fib_multipath_hash_fields" u32;
    F "sysctl_fib_multipath_use_neigh" u8;
    F "sysctl_fib_multipath_hash_policy" u8;
    F "notifier_ops" (CPtr "struct fib_notifier_ops");
    F "fib_seq" cuint;
    F "ipmr_notifier_ops" (CPtr "struct fib_notifier_ops");
    F "ipmr_seq" cuint;
    F "rt_genid" atomic_t;
    F "ip_id_key" siphash_key_t;
    F "inet_addr_lst" (CPtr "struct hlist_head");
    F "addr_chk_work" delayed_work;
    B "" clong 64;
    B "" clong 64;
    B "" clong 64;
    B "" clong 64;
    B "" clong 64 ].

(** [struct percpu_counter], vmlinux.h lines 45982-45987. *)
Definition percpu_counter : ctype := cstruct
  [ F "lock" raw_spinlock_t;
    F "count" s64;
    F "list" list_head;
    F "counters" (CPtr "s32") ].

(** [struct dst_ops], vmlinux.h lines 72284-72306. *)
Definition dst_ops : ctype := cstruct
  [ F "family" cushort;
    F "gc_thresh" cuint;
    F "gc" (CPtr "fn");
    F "check" (CPtr "fn");
    F "default_advmss" (CPtr "fn");
    F "mtu" (CPtr "fn");
    F "cow_metrics" (CPtr "fn");
    F "destroy" (CPtr "fn");
    F "ifdown" (CPtr "fn");
    F "negative_advice" (CPtr "fn");
    F "link_failure" (CPtr "fn");
    F "update_pmtu" (CPtr "fn");
    F "redirect" (CPtr "fn");
    F "local_out" (CPtr "fn");
    F "neigh_lookup" (CPtr "fn");
    F "confirm_neigh" (CPtr "fn");
    F "kmem_cachep" (CPtr "struct kmem_cache");
    F "pcpuc_entries" percpu_counter;
    B "" clong 64;
    B "" clong 64;
    B "" clong 64 ].

(** [struct netns_sysctl_ipv6], vmlinux.h lines 111054-111099. *)
Definition netns_sysctl_ipv6 : ctype := cstruct
  [ F "hdr" (CPtr "struct ctl_table_header");
    F "route_hdr" (CPtr "struct ctl_table_header");
    F "icmp_hdr" (CPtr "struct ctl_table_header");
    F "frags_hdr" (CPtr "struct ctl_table_header");
    F "xfrm6_hdr" (CPtr "struct ctl_table_header");
    F "flush_delay" cint;
    F "ip6_rt_max_size" cint;
    F "ip6_rt_gc_min_interval" cint;
    F "ip6_rt_gc_timeout" cint;
    F "ip6_rt_gc_interval" cint;
    F "ip6_rt_gc_elasticity" cint;
    F "ip6_rt_mtu_expires" cint;
    F "ip6_rt_min_advmss" cint;
    F "multipath_hash_fields" u32;
    F "multipath_hash_policy" u8;
    F "__cacheline_group_begin__sysctl_ipv6_flowlabel" (CArr 0 __u8);
    F "flowlabel_consistency" u8;
    F "auto_flowlabels" u8;
    F "flowlabel_state_ranges" u8;
    F "__cacheline_group_end__sysctl_ipv6_flowlabel" (CArr 0 __u8);
    F "icmpv6_echo_ignore_all" u8;
    F "icmpv6_echo_ignore_multicast" u8;
    F "icmpv6_echo_ignore_anycast" u8;
    F "icmpv6_time" cint;
    F "icmpv6_ratemask" (CArr 4 culong);
    F "icmpv6_ratemask_ptr" (CPtr "long unsigned int");
    F "anycast_src_echo_reply" u8;
    F "bindv6only" u8;
    F "ip_nonlocal_bind" u8;
    F "fwmark_reflect" u8;
    F "idgen_retries" cint;
    F "idgen_delay" cint;
    F "flowlabel_reflect" cint;
    F "max_dst_opts_cnt" cint;
    F "max_hbh_opts_cnt" cint;
    F "max_dst_opts_len" cint;
    F "max_hbh_opts_len" cint;
    F "seg6_flowlabel" cint;
    F "ioam6_id" u32;
    F "ioam6_id_wide" u64;
    F "skip_notify_on_dev_down" u8;
    F "fib_notify_on_flag_change" u8;
    F "icmpv6_error_anycast_as_unicast" u8;
    F "icmpv6_errors_extension_mask" u8 ].

(** [struct netns_ipv6], vmlinux.h lines 111105-111156. *)
Definition netns_ipv6 : ctype := cstruct
  [ F "ip6_dst_ops" dst_ops;
    F "sysctl" netns_sysctl_ipv6;
    F "devconf_all" (CPtr "struct ipv6_devconf");
    F "devconf_dflt" (CPtr "struct ipv6_devconf");
    F "peers" (CPtr "struct inet_peer_base");
    F "fqdir" (CPtr "struct fqdir");
    F "fib6_null_entry" (CPtr "struct fib6_info");
    F "ip6_null_entry" (CPtr "struct rt6_info");
    F "rt6_stats" (CPtr "struct rt6_statistics");
    F "ip6_fib_timer" timer_list;
    F "fib_table_hash" (CPtr "struct hlist_head");
    F "fib_table_hash_lock" spinlock_t;
    F "fib6_main_tbl" (CPtr "struct fib6_table");
    F "fib6_walkers" list_head;
    F "fib6_walker_lock" rwlock_t;
    F "fib6_gc_lock" spinlock_t;
    F "ip6_rt_gc_expire" atomic_t;
    F "ip6_rt_last_gc" culong;
    F "flowlabel_has_excl" cuchar;
    F "fib6_has_custom_rules" cbool;
    F "fib6_rules_require_fldissect" cuint;
    F "fib6_routes_require_src" cuint;
    F "ip6_prohibit_entry" (CPtr "struct rt6_info");
    F "ip6_blk_hole_entry" (CPtr "struct rt6_info");
    F "fib6_local_tbl" (CPtr "struct fib6_table");
    F "fib6_rules_ops" (CPtr "struct fib_rules_ops");
    F "ndisc_sk" (CPtr "struct sock");
    F "tcp_sk" (CPtr "struct sock");
    F "igmp_sk" (CPtr "struct sock");
    F "mc_autojoin_sk" (CPtr "struct sock");
    F "inet6_addr_lst" (CPtr "struct hlist_head");
    F "addrconf_hash_lock" spinlock_t;
    F "addr_chk_work" delayed_work;
    F "mr6_tables" list_head;
    F "mr6_rules_ops" (CPtr "struct fib_rules_ops");
    F "dev_addr_genid" atomic_t;
    F "fib6_sernum" atomic_t;
    F "seg6_data" (CPtr "struct seg6_pernet_data");
    F "notifier_ops" (CPtr "struct fib_notifier_ops");
    F "ip6mr_notifier_ops" (CPtr "struct fib_notifier_ops");
    F "ipmr_seq" cuint;
    F "ip6addrlbl_table" (cstruct
    [ F "head" hlist_head;
      F "lock" spinlock_t;
      F "seq" u32 ]);
    F "ioam6_data" (CPtr "struct ioam6_pernet_data");
    B "" clong 64;
    B "" clong 64;
    B "" clong 64 ].

(** [struct netns_sysctl_lowpan], vmlinux.h lines 111158-111160. *)
Definition netns_sysctl_lowpan : ctype := cstruct
  [ F "frags_hdr" (CPtr "struct ctl_table_header") ].

(** [struct netns_ieee802154_lowpan], vmlinux.h lines 111162-111165. *)
Definition netns_ieee802154_lowpan : ctype := cstruct
  [ F "sysctl" netns_sysctl_lowpan;
    F "fqdir" (CPtr "struct fqdir") ].

(** [struct netns_sctp], vmlinux.h lines 111169-111217. *)
Definition netns_sctp : ctype := cstruct
  [ F "sctp_statistics" (CPtr "struct sctp_mib");
    F "proc_net_sctp" (CPtr "struct proc_dir_entry");
    F "sysctl_header" (CPtr "struct ctl_table_header");
    F "ctl_sock" (CPtr "struct sock");
    F "udp4_sock" (CPtr "struct sock");
    F "udp6_sock" (CPtr "struct sock");
    F "udp_port" cint;
    F "encap_port" cint;
    F "local_addr_list" list_head;
    F "addr_waitq" list_head;
    F "addr_wq_timer" timer_list;
    F "auto_asconf_splist" list_head;
    F "addr_wq_lock" spinlock_t;
    F "local_addr_lock" spinlock_t;
    F "rto_initial" cuint;
    F "rto_min" cuint;
    F "rto_max" cuint;
    F "rto_alpha" cint;
    F "rto_beta" cint;
    F "max_burst" cint;
    F "cookie_preserve_enable" cint;
    F "cookie_auth_enable" cint;
    F "valid_cookie_life" cuint;
    F "sack_timeout" cuint;
    F "hb_interval" cuint;
    F "probe_interval" cuint;
    F "max_retrans_association" cint;
    F "max_retrans_path" cint;
    F "max_retrans_init" cint;
    F "pf_retrans" cint;
    F "ps_retrans" cint;
    F "pf_enable" cint;
    F "pf_expose" cint;
    F "sndbuf_policy" cint;
    F "rcvbuf_policy" cint;
    F "default_auto_asconf" cint;
    F "addip_enable" cint;
    F "addip_noauth" cint;
    F "prsctp_enable" cint;
    F "reconf_enable" cint;
    F "auth_enable" cint;
    F "intl_enable" cint;
    F "ecn_enable" cint;
    F "scope_policy" cint;
    F "rwnd_upd_shift" cint;
    F "max_autoclose" culong;
    F "l3mdev_accept" cint ].

(** [struct netns_nf], vmlinux.h lines 111223-111234. *)
Definition netns_nf : ctype := cstruct
  [ F "proc_netfilter" (CPtr "struct proc_dir_entry");
    F "nf_loggers" (CArr 11 (CPtr "struct nf_logger"));
    F "nf_log_dir_header" (CPtr "struct ctl_table_header");
    F "nf_lwtnl_dir_header" (CPtr "struct ctl_table_header");
    F "hooks_ipv4" (CArr 5 (CPtr "struct nf_hook_entries"));
    F "hooks_ipv6" (CArr 5 (CPtr "struct nf_hook_entries"));
    F "hooks_arp" (CArr 3 (CPtr "struct nf_hook_entries"));
    F "hooks_bridge" (CArr 5 (CPtr "struct nf_hook_entries"));
    F "defrag_ipv4_users" cuint;
    F "defrag_ipv6_users" cuint ].

(** [struct nf_generic_net], vmlinux.h lines 111236-111238. *)
Definition nf_generic_net : ctype := cstruct
  [ F "timeout" cuint ].

(** [struct nf_tcp_net], vmlinux.h lines 111240-111247. *)
Definition nf_tcp_net : ctype := cstruct
  [ F "timeouts" (CArr 14 cuint);
    F "tcp_loose" u8;
    F "tcp_be_liberal" u8;
    F "tcp_max_retrans" u8;
    F "tcp_ignore_invalid_rst" u8;
    F "offload_timeout" cuint ].

(** [struct nf_udp_net], vmlinux.h lines 111249-111252. *)
Definition nf_udp_net : ctype := cstruct
  [ F "timeouts" (CArr 2 cuint);
    F "offload_timeout" cuint ].

(** [struct nf_icmp_net], vmlinux.h lines 111254-111256. *)
Definition nf_icmp_net : ctype := cstruct
  [ F "timeout" cuint ].

(** [struct nf_sctp_net], vmlinux.h lines 111258-111260. *)
Definition nf_sctp_net : ctype := cstruct
  [ F "timeouts" (CArr 10 cuint) ].

(** [struct nf_gre_net], vmlinux.h lines 111262-111265. *)
Definition nf_gre_net : ctype := cstruct
  [ F "keymap_list" list_head;
    F "timeouts" (CArr 2 cuint) ].

(** [struct nf_ip_net], vmlinux.h lines 111267-111275. *)
Definition nf_ip_net : ctype := cstruct
  [ F "generic" nf_generic_net;
    F "tcp" nf_tcp_net;
    F "udp" nf_udp_net;
    F "icmp" nf_icmp_net;
    F "icmpv6" nf_icmp_net;
    F "sctp" nf_sctp_net;
    F "gre" nf_gre_net ].

(** [struct netns_ct], vmlinux.h lines 111279-111290. *)
Definition netns_ct : ctype := cstruct
  [ F "ecache_dwork_pending" cbool;
    F "sysctl_log_invalid" u8;
    F "sysctl_events" u8;
    F "sysctl_acct" u8;
    F "sysctl_tstamp" u8;
    F "sysctl_checksum" u8;
    F "stat" (CPtr "struct ip_conntrack_stat");
    F "nf_conntrack_event_cb" (CPtr "struct nf_ct_event_notifier");
    F "nf_ct_proto" nf_ip_net;
    F "labels_used" atomic_t ].

(** [struct netns_nftables], vmlinux.h lines 111292-111295. *)
Definition netns_nftables : ctype := cstruct
  [ F "base_seq" cuint;
    F "gencursor" u8 ].

(** [struct netns_ft], vmlinux.h lines 111299-111301. *)
Definition netns_ft : ctype := cstruct
  [ F "stat" (CPtr "struct nf_flow_table_stat") ].

(** [struct netns_bpf], vmlinux.h lines 111303-111307. *)
Definition netns_bpf : ctype := cstruct
  [ F "run_array" (CArr 2 (CPtr "struct bpf_prog_array"));
    F "progs" (CArr 2 (CPtr "struct bpf_prog"));
    F "links" (CArr 2 list_head) ].

(** [struct xfrm_policy_hash], vmlinux.h lines 111309-111316. *)
Definition xfrm_policy_hash : ctype := cstruct
  [ F "table" (CPtr "struct hlist_head");
    F "hmask" cuint;
    F "dbits4" u8;
    F "sbits4" u8;
    F "dbits6" u8;
    F "sbits6" u8 ].

(** [struct xfrm_policy_hthresh], vmlinux.h lines 111318-111325. *)
Definition xfrm_policy_hthresh : ctype := cstruct
  [ F "work" work_struct;
    F "lock" seqlock_t;
    F "lbits4" u8;
    F "rbits4" u8;
    F "lbits6" u8;
    F "rbits6" u8 ].

(** [struct netns_xfrm], vmlinux.h lines 111327-111374. *)
Definition netns_xfrm : ctype := cstruct
  [ F "state_all" list_head;
    F "state_bydst" (CPtr "struct hlist_head");
    F "state_bysrc" (CPtr "struct hlist_head");
    F "state_byspi" (CPtr "struct hlist_head");
    F "state_byseq" (CPtr "struct hlist_head");
    F "state_cache_input" (CPtr "struct hlist_head");
    F "state_hmask" cuint;
    F "state_num" cuint;
    F "state_hash_work" work_struct;
    F "policy_all" list_head;
    F "policy_byidx" (CPtr "struct hlist_head");
    F "policy_idx_hmask" cuint;
    F "idx_generator" cuint;
    F "policy_bydst" (CArr 3 xfrm_policy_hash);
    F "policy_count" (CArr 6 cuint);
    F "policy_hash_work" work_struct;
    F "policy_hthresh" xfrm_policy_hthresh;
    F "inexact_bins" list_head;
    F "nlsk" (CPtr "struct sock");
    F "nlsk_stash" (CPtr "struct sock");
    F "sysctl_aevent_etime" u32;
    F "sysctl_aevent_rseqth" u32;
    F "sysctl_larval_drop" cint;
    F "sysctl_acq_expires" u32;
    F "policy_default" (CArr 3 u8);
    F "sysctl_hdr" (CPtr "struct ctl_table_header");
    B "" clong 64;
    B "" clong 64;
    B "" clong 64;
    B "" clong 64;
    B "" clong 64;
    F "xfrm4_dst_ops" dst_ops;
    F "xfrm6_dst_ops" dst_ops;
    F "xfrm_state_lock" spinlock_t;
    F "xfrm_state_hash_generation" seqcount_spinlock_t;
    F "xfrm_policy_hash_generation" seqcount_spinlock_t;
    F "xfrm_policy_lock" spinlock_t;
    F "xfrm_cfg_mutex" mutex;
    F "nat_keepalive_work" delayed_work;
    B "" clong 64;
    B "" clong 64;
    B "" clong 64;
    B "" clong 64;
    B "" clong 64;
    B "" clong 64;
    B "" clong 64 ].

(** [__kernel_ulong_t], vmlinux.h lines 32546-32546. *)
Definition __kernel_ulong_t : ctype := culong.

(** [__kernel_size_t], vmlinux.h lines 32548-32548. *)
Definition __kernel_size_t : ctype := __kernel_ulong_t.

(** [size_t], vmlinux.h lines 32550-32550. *)
Definition size_t : ctype := __kernel_size_t.

(** [struct seqcount_mutex], vmlinux.h lines 111380-111382. *)
Definition seqcount_mutex : ctype := cstruct
  [ F "seqcount" seqcount_t ].

(** [seqcount_mutex_t], vmlinux.h lines 111384-111384. *)
Definition seqcount_mutex_t : ctype := seqcount_mutex.

(** [struct netns_mpls], vmlinux.h lines 111386-111394. *)
Definition netns_mpls : ctype := cstruct
  [ F "ip_ttl_propagate" cint;
    F "default_ttl" cint;
    F "platform_labels" size_t;
    F "platform_label" (CPtr "struct mpls_route *");
    F "platform_mutex" mutex;
    F "platform_label_seq" seqcount_mutex_t;
    F "ctl" (CPtr "struct ctl_table_header") ].

(** [struct netns_can], vmlinux.h lines 111402-111419. *)
Definition netns_can : ctype := cstruct
  [ F "proc_dir" (CPtr "struct proc_dir_entry");
    F "pde_stats" (CPtr "struct proc_dir_entry");
    F "pde_reset_stats" (CPtr "struct proc_dir_entry");
    F "pde_rcvlist_all" (CPtr "struct proc_dir_entry");
    F "pde_rcvlist_fil" (CPtr "struct proc_dir_entry");
    F "pde_rcvlist_inv" (CPtr "struct proc_dir_entry");
    F "pde_rcvlist_sff" (CPtr "struct proc_dir_entry");
    F "pde_rcvlist_eff" (CPtr "struct proc_dir_entry");
    F "pde_rcvlist_err" (CPtr "struct proc_dir_entry");
    F "bcmproc_dir" (CPtr "struct proc_dir_entry");
    F "rx_alldev_list" (CPtr "struct can_dev_rcv_lists");
    F "rcvlists_lock" spinlock_t;
    F "stattimer" timer_list;
    F "pkg_stats" (CPtr "struct can_pkg_stats");
    F "rcv_lists_stats" (CPtr "struct can_rcv_lists_stats");
    F "cgw_list" hlist_head ].

(** [struct netns_xdp], vmlinux.h lines 111421-111424. *)
Definition netns_xdp : ctype := cstruct
  [ F "lock" mutex;
    F "list" hlist_head ].

(** [struct netns_mctp], vmlinux.h lines 111426-111435. *)
Definition netns_mctp : ctype := cstruct
  [ F "routes" list_head;
    F "bind_lock" mutex;
    F "binds" (CArr 128 hlist_head);
    F "keys_lock" spinlock_t;
    F "keys" hlist_head;
    F "default_net" cuint;
    F "neigh_lock" mutex;
    F "neighbours" list_head ].

(** [struct netns_smc], vmlinux.h lines 111443-111459. *)
Definition netns_smc : ctype := cstruct
  [ F "smc_stats" (CPtr "struct smc_stats");
    F "mutex_fback_rsn" mutex;
    F "fback_rsn" (CPtr "struct smc_stats_rsn");
    F "limit_smc_hs" cbool;
    F "smc_hdr" (CPtr "struct ctl_table_header");
    F "hs_ctrl" (CPtr "struct smc_hs_ctrl");
    F "sysctl_autocorking_size" cuint;
    F "sysctl_smcr_buf_type" cuint;
    F "sysctl_smcr_testlink_time" cint;
    F "sysctl_wmem" cint;
    F "sysctl_rmem" cint;
    F "sysctl_max_links_per_lgr" cint;
    F "sysctl_max_conns_per_lgr" cint;
    F "sysctl_smcr_max_send_wr" cuint;
    F "sysctl_smcr_max_recv_wr" cuint ].

(** [enum vsock_net_mode], vmlinux.h lines 31486-31489. *)
Definition vsock_net_mode : ctype := CEnum 4 
  [ ("VSOCK_NET_MODE_GLOBAL", 0);
    ("VSOCK_NET_MODE_LOCAL", 1) ].

(** [struct netns_vsock], vmlinux.h lines 111461-111467. *)
Definition netns_vsock : ctype := cstruct
  [ F "sysctl_hdr" (CPtr "struct ctl_table_header");
    F "port" u32;
    F "mode" vsock_net_mode;
    F "child_ns_mode" vsock_net_mode;
    F "child_ns_mode_locked" cint ].

(** [struct net], vmlinux.h lines 111473-111549. *)
Definition net : ctype := cstruct
  [ F "passive" refcount_t;
    F "rules_mod_lock" spinlock_t;
    F "dev_base_seq" cuint;
    F "ifindex" u32;
    F "nsid_lock" spinlock_t;
    F "fnhe_genid" atomic_t;
    F "list" list_head;
    F "exit_list" list_head;
    F "defer_free_list" llist_node;
    F "cleanup_list" llist_node;
    F "ptype_all" list_head;
    F "ptype_specific" list_head;
    F "key_domain" (CPtr "struct key_tag");
    F "user_ns" (CPtr "struct user_namespace");
    F "ucounts" (CPtr "struct ucounts");
    F "netns_ids" idr;
    B "" clong 64;
    B "" clong 64;
    B "" clong 64;
    B "" clong 64;
    B "" clong 64;
    F "ns" ns_common;
    F "refcnt_tracker" ref_tracker_dir;
    F "notrefcnt_tracker" ref_tracker_dir;
    F "dev_base_head" list_head;
    F "proc_net" (CPtr "struct proc_dir_entry");
    F "proc_net_stat" (CPtr "struct proc_dir_entry");
    F "sysctls" ctl_table_set;
    F "rtnl" (CPtr "struct sock");
    F "genl_sock" (CPtr "struct sock");
    F "uevent_sock" (CPtr "struct uevent_sock");
    F "dev_name_head" (CPtr "struct hlist_head");
    F "dev_index_head" (CPtr "struct hlist_head");
    F "dev_by_index" xarray;
    F "netdev_chain" raw_notifier_head;
    F "hash_mix" u32;
    F "is_dying" cbool;
    F "loopback_dev" (CPtr "struct net_device");
    F "rules_ops" list_head;
    F "core" netns_core;
    F "mib" netns_mib;
    F "packet" netns_packet;
    F "unx" netns_unix;
    F "nexthop" netns_nexthop;
    B "" clong 64;
    B "" clong 64;
    B "" clong 64;
    B "" clong 64;
    F "ipv4" netns_ipv4;
    F "ipv6" netns_ipv6;
    F "ieee802154_lowpan" netns_ieee802154_lowpan;
    F "sctp" netns_sctp;
    F "nf" netns_nf;
    F "ct" netns_ct;
    F "nft" netns_nftables;
    F "ft" netns_ft;
    F "wext_nlevents" sk_buff_head;
    F "gen" (CPtr "struct net_generic");
    F "bpf" netns_bpf;
    B "" clong 64;
    B "" clong 64;
    B "" clong 64;
    F "xfrm" netns_xfrm;
    F "net_cookie" u64;
    F "ipvs" (CPtr "struct netns_ipvs");
    F "mpls" netns_mpls;
    F "can" netns_can;
    F "xdp" netns_xdp;
    F "mctp" netns_mctp;
    F "crypto_nlsk" (CPtr "struct sock");
    F "diag_nlsk" (CPtr "struct sock");
    F "smc" netns_smc;
    F "vsock" netns_vsock;
    B "" clong 64;
    B "" clong 64 ].

(** [struct tap_filter], vmlinux.h lines 138506-138510. *)
Definition tap_filter : ctype := cstruct
  [ F "count" cuint;
    F "mask" (CArr 2 u32);
    F "addr" (CArr 48 cuchar) ].

(** [struct sock_fprog], vmlinux.h lines 135196-135199. *)
Definition sock_fprog : ctype := cstruct
  [ F "len" cushort;
    F "filter" (CPtr "struct sock_filter") ].

(** [__s8], vmlinux.h lines 32746-32746. *)
Definition __s8 : ctype := cschar.

(** [struct ethtool_link_settings], vmlinux.h lines 75841-75857. *)
Definition ethtool_link_settings : ctype := cstruct
  [ F "cmd" __u32;
    F "speed" __u32;
    F "duplex" __u8;
    F "port" __u8;
    F "phy_address" __u8;
    F "autoneg" __u8;
    F "mdio_support" __u8;
    F "eth_tp_mdix" __u8;
    F "eth_tp_mdix_ctrl" __u8;
    F "link_mode_masks_nwords" __s8;
    F "transceiver" __u8;
    F "master_slave_cfg" __u8;
    F "master_slave_state" __u8;
    F "rate_matching" __u8;
    F "reserved" (CArr 7 __u32) ].

(** [struct ethtool_link_ksettings], vmlinux.h lines 75859-75867. *)
Definition ethtool_link_ksettings : ctype := cstruct
  [ F "base" ethtool_link_settings;
    F "link_modes" (cstruct
    [ F "supported" (CArr 2 culong);
      F "advertising" (CArr 2 culong);
      F "lp_advertising" (CArr 2 culong) ]);
    F "lanes" u32 ].

(** [struct tun_struct], vmlinux.h lines 152624-152655. *)
Definition tun_struct : ctype := cstruct
  [ F "tfiles" (CArr 256 (CPtr "struct tun_file"));
    F "numqueues" cuint;
    F "flags" cuint;
    F "owner" kuid_t;
    F "group" kgid_t;
    F "dev" (CPtr "struct net_device");
    F "set_features" netdev_features_t;
    F "align" cint;
    F "vnet_hdr_sz" cint;
    F "sndbuf" cint;
    F "txflt" tap_filter;
    F "fprog" sock_fprog;
    F "filter_attached" cbool;
    F "msg_enable" u32;
    F "lock" spinlock_t;
    F "flows" (CArr 1024 hlist_head);
    F "flow_gc_timer" timer_list;
    F "ageing_time" culong;
    F "numdisabled" cuint;
    F "disabled" list_head;
    F "security" (CPtr "void");
    F "flow_count" u32;
    F "rx_batched" u32;
    F "rx_frame_errors" atomic_long_t;
    F "xdp_prog" (CPtr "struct bpf_prog");
    F "steering_prog" (CPtr "struct tun_prog");
    F "filter_prog" (CPtr "struct tun_prog");
    F "link_ksettings" ethtool_link_ksettings;
    F "file" (CPtr "struct file");
    F "ifr" (CPtr "struct ifreq") ].

(** [socket_state], vmlinux.h lines 10892-10898. *)
Definition socket_state : ctype := (CEnum 4 
  [ ("SS_FREE", 0);
    ("SS_UNCONNECTED", 1);
    ("SS_CONNECTING", 2);
    ("SS_CONNECTED", 3);
    ("SS_DISCONNECTING", 4) ]).

(** [struct socket_wq], vmlinux.h lines 135289-135295. *)
Definition socket_wq : ctype := cstruct
  [ F "wait" wait_queue_head_t;
    F "fasync_list" (CPtr "struct fasync_struct");
    F "flags" culong;
    F "rcu" callback_head;
    B "" clong 64 ].

(** [struct socket], vmlinux.h lines 135297-135308. *)
Definition socket : ctype := cstruct
  [ F "state" socket_state;
    F "type" cshort;
    F "flags" culong;
    F "file" (CPtr "struct file");
    F "sk" (CPtr "struct sock");
    F "ops" (CPtr "struct proto_ops");
    B "" clong 64;
    B "" clong 64;
    B "" clong 64;
    F "wq" socket_wq ].

(** [struct gro_list], vmlinux.h lines 48776-48779. *)
Definition gro_list : ctype := cstruct
  [ F "list" list_head;
    F "count" cint ].

(** [struct gro_node], vmlinux.h lines 48781-48787. *)
Definition gro_node : ctype := cstruct
  [ F "bitmask" culong;
    F "hash" (CArr 8 gro_list);
    F "rx_list" list_head;
    F "rx_count" u32;
    F "cached_napi_id" u32 ].

(** [struct irq_affinity_notify], vmlinux.h lines 86027-86033. *)
Definition irq_affinity_notify : ctype := cstruct
  [ F "irq" cuint;
    F "kref" kref;
    F "work" work_struct;
    F "notify" (CPtr "fn");
    F "release" (CPtr "fn") ].

(** [struct napi_struct], vmlinux.h lines 86037-86061. *)
Definition napi_struct : ctype := cstruct
  [ F "state" culong;
    F "poll_list" list_head;
    F "weight" cint;
    F "defer_hard_irqs_count" u32;
    F "poll" (CPtr "fn");
    F "poll_owner" cint;
    F "list_owner" cint;
    F "dev" (CPtr "struct net_device");
    F "skb" (CPtr "struct sk_buff");
    F "gro" gro_node;
    F "timer" hrtimer;
    F "thread" (CPtr "struct task_struct");
    F "gro_flush_timeout" culong;
    F "irq_suspend_timeout" culong;
    F "defer_hard_irqs" u32;
    F "napi_id" u32;
    F "dev_list" list_head;
    F "napi_hash_node" hlist_node;
    F "irq" cint;
    F "notify" irq_affinity_notify;
    F "napi_rmap_idx" cint;
    F "index" cint;
    F "config" (CPtr "struct napi_config") ].

(** [struct ptr_ring], vmlinux.h lines 116915-116943. *)
Definition ptr_ring : ctype := cstruct
  [ F "producer" cint;
    F "producer_lock" spinlock_t;
    B "" clong 64;
    B "" clong 64;
    B "" clong 64;
    B "" clong 64;
    B "" clong 64;
    B "" clong 64;
    B "" clong 64;
    F "consumer_head" cint;
    F "consumer_tail" cint;
    F "consumer_lock" spinlock_t;
    B "" clong 64;
    B "" clong 64;
    B "" clong 64;
    B "" clong 64;
    B "" clong 64;
    B "" clong 64;
    F "size" cint;
    F "batch" cint;
    F "queue" (CPtr "void *");
    B "" clong 64;
    B "" clong 64;
    B "" clong 64;
    B "" clong 64;
    B "" clong 64;
    B "" clong 64 ].

(** [struct xdp_mem_info], vmlinux.h lines 112954-112957. *)
Definition xdp_mem_info : ctype := cstruct
  [ F "type" u32;
    F "id" u32 ].

(** [struct xdp_rxq_info], vmlinux.h lines 112959-112969. *)
Definition xdp_rxq_info : ctype := cstruct
  [ F "dev" (CPtr "struct net_device");
    F "queue_index" u32;
    F "reg_state" u32;
    F "mem" xdp_mem_info;
    F "frag_size" u32;
    B "" clong 64;
    B "" clong 64;
    B "" clong 64;
    B "" clong 64 ].

(** [struct tun_file], vmlinux.h lines 152545-152573. *)
Definition tun_file : ctype := cstruct
  [ F "sk" sock;
    B "" clong 64;
    B "" clong 64;
    B "" clong 64;
    F "socket" socket;
    F "tun" (CPtr "struct tun_struct");
    F "fasync" (CPtr "struct fasync_struct");
    F "flags" cuint;
    F "" (cunion
    [ F "queue_index" u16;
      F "ifindex" cuint ]);
    F "napi" napi_struct;
    F "napi_enabled" cbool;
    F "napi_frags_enabled" cbool;
    F "napi_mutex" mutex;
    F "next" list_head;
    F "detached" (CPtr "struct tun_struct");
    B "" clong 64;
    B "" clong 64;
    B "" clong 64;
    B "" clong 64;
    B "" clong 64;
    B "" clong 64;
    B "" clong 64;
    F "tx_ring" ptr_ring;
    F "xdp_rxq" xdp_rxq_info ].

(** [struct hh_cache], vmlinux.h lines 86384-86388. *)
Definition hh_cache : ctype := cstruct
  [ F "hh_len" cuint;
    F "hh_lock" seqlock_t;
    F "hh_data" (CArr 16 culong) ].

(** [struct neighbour], vmlinux.h lines 110738-110769. *)
Definition neighbour : ctype := cstruct
  [ F "hash" hlist_node;
    F "dev_list" hlist_node;
    F "tbl" (CPtr "struct neigh_table");
    F "parms" (CPtr "struct neigh_parms");
    F "confirmed" culong;
    F "updated" culong;
    F "lock" rwlock_t;
    F "refcnt" refcount_t;
    F "arp_queue_len_bytes" cuint;
    F "arp_queue" sk_buff_head;
    F "timer" timer_list;
    F "used" culong;
    F "probes" atomic_t;
    F "nud_state" u8;
    F "type" u8;
    F "dead" u8;
    F "protocol" u8;
    F "flags" u32;
    F "ha_lock" seqlock_t;
    B "" clong 0;
    F "ha" (CArr 32 cuchar);
    F "hh" hh_cache;
    F "output" (CPtr "fn");
    F "ops" (CPtr "struct neigh_ops");
    F "gc_list" list_head;
    F "managed_list" list_head;
    F "rcu" callback_head;
    F "dev" (CPtr "struct net_device");
    F "dev_tracker" netdevice_tracker;
    F "primary_key" (CArr 0 u8) ].

(** [rcuref_t], vmlinux.h lines 34657-34659. *)
Definition rcuref_t : ctype := cstruct
  [ F "refcnt" atomic_t ].

(** [struct dst_entry], vmlinux.h lines 72249-72275. *)
Definition dst_entry : ctype := cstruct
  [ F "" (cunion
    [ F "dev" (CPtr "struct net_device");
      F "dev_rcu" (CPtr "struct net_device") ]);
    F "ops" (CPtr "struct dst_ops");
    F "_metrics" culong;
    F "expires" culong;
    F "xfrm" (CPtr "struct xfrm_state");
    F "input" (CPtr "fn");
    F "output" (CPtr "fn");
    F "flags" cushort;
    F "obsolete" cshort;
    F "header_len" cushort;
    F "trailer_len" cushort;
    F "__rcuref" rcuref_t;
    F "__use" cint;
    F "lastuse" culong;
    F "callback_head" callback_head;
    F "error" cshort;
    F "__pad" cshort;
    F "tclassid" __u32;
    F "dev_tracker" netdevice_tracker;
    F "rt_uncached" list_head;
    F "rt_uncached_list" (CPtr "struct uncached_list");
    F "lwtstate" (CPtr "struct lwtunnel_state") ].

(** [struct rtable], vmlinux.h lines 111578-111593. *)
Definition rtable : ctype := cstruct
  [ F "dst" dst_entry;
    F "rt_genid" cint;
    F "rt_flags" cuint;
    F "rt_type" __u16;
    F "rt_is_input" __u8;
    F "rt_uses_gateway" __u8;
    F "rt_iif" cint;
    F "rt_gw_family" u8;
    F "" (cunion
    [ F "rt_gw4" __be32;
      F "rt_gw6" in6_addr ]);
    B "rt_mtu_locked" u32 1;
    B "rt_pmtu" u32 31 ].

(** [struct fib_nh_common], vmlinux.h lines 79670-79688. *)
Definition fib_nh_common : ctype := cstruct
  [ F "nhc_dev" (CPtr "struct net_device");
    F "nhc_dev_tracker" netdevice_tracker;
    F "nhc_oif" cint;
    F "nhc_scope" cuchar;
    F "nhc_family" u8;
    F "nhc_gw_family" u8;
    F "nhc_flags" cuchar;
    F "nhc_lwtstate" (CPtr "struct lwtunnel_state");
    F "nhc_gw" (cunion
    [ F "ipv4" __be32;
      F "ipv6" in6_addr ]);
    F "nhc_weight" cint;
    F "nhc_upper_bound" atomic_t;
    F "nhc_pcpu_rth_output" (CPtr "struct rtable *");
    F "nhc_rth_input" (CPtr "struct rtable");
    F "nhc_exceptions" (CPtr "struct fnhe_hash_bucket") ].

(** [struct fib_nh], vmlinux.h lines 79917-79924. *)
Definition fib_nh : ctype := cstruct
  [ F "nh_common" fib_nh_common;
    F "nh_hash" hlist_node;
    F "nh_parent" (CPtr "struct fib_info");
    F "nh_tclassid" __u32;
    F "nh_saddr" __be32;
    F "nh_saddr_genid" cint ].

(** [struct fib_info], vmlinux.h lines 79926-79949. *)
Definition fib_info : ctype := cstruct
  [ F "fib_hash" hlist_node;
    F "fib_lhash" hlist_node;
    F "nh_list" list_head;
    F "fib_net" (CPtr "struct net");
    F "fib_treeref" refcount_t;
    F "fib_clntref" refcount_t;
    F "fib_flags" cuint;
    F "fib_dead" cuchar;
    F "fib_protocol" cuchar;
    F "fib_scope" cuchar;
    F "fib_type" cuchar;
    F "fib_prefsrc" __be32;
    F "fib_tb_id" u32;
    F "fib_priority" u32;
    F "fib_metrics" (CPtr "struct dst_metrics");
    F "fib_nhs" cint;
    F "fib_nh_is_v6" cbool;
    F "nh_updated" cbool;
    F "pfsrc_removed" cbool;
    F "nh" (CPtr "struct nexthop");
    F "rcu" callback_head;
    F "fib_nh" (CArr 0 fib_nh) ].

(** [dscp_t], vmlinux.h lines 32776-32776. *)
Definition dscp_t : ctype := u8.

(** [__be64], vmlinux.h lines 32468-32468. *)
Definition __be64 : ctype := __u64.

(** [struct flowi_tunnel], vmlinux.h lines 81219-81221. *)
Definition flowi_tunnel : ctype := cstruct
  [ F "tun_id" __be64 ].

(** [struct flowi_common], vmlinux.h lines 81223-81236. *)
Definition flowi_common : ctype := cstruct
  [ F "flowic_oif" cint;
    F "flowic_iif" cint;
    F "flowic_l3mdev" cint;
    F "flowic_mark" __u32;
    F "flowic_dscp" dscp_t;
    F "flowic_scope" __u8;
    F "flowic_proto" __u8;
    F "flowic_flags" __u8;
    F "flowic_secid" __u32;
    F "flowic_uid" kuid_t;
    F "flowic_multipath_hash" __u32;
    F "flowic_tun_key" flowi_tunnel ].

(** [union flowi_uli], vmlinux.h lines 81238-81251. *)
Definition flowi_uli : ctype := cunion
  [ F "ports" (cstruct
    [ F "dport" __be16;
      F "sport" __be16 ]);
    F "icmpt" (cstruct
    [ F "type" __u8;
      F "code" __u8 ]);
    F "gre_key" __be32;
    F "mht" (cstruct
    [ F "type" __u8 ]) ].

(** [struct flowi4], vmlinux.h lines 81253-81258. *)
Definition flowi4 : ctype := cstruct
  [ F "__fl_common" flowi_common;
    F "saddr" __be32;
    F "daddr" __be32;
    F "uli" flowi_uli ].

(** [struct nf_hook_state], vmlinux.h lines 113848-113856. *)
Definition nf_hook_state : ctype := cstruct
  [ F "hook" u8;
    F "pf" u8;
    F "in" (CPtr "struct net_device");
    F "out" (CPtr "struct net_device");
    F "sk" (CPtr "struct sock");
    F "net" (CPtr "struct net");
    F "okfn" (CPtr "fn") ].

(** [struct nf_conntrack_tuple_mask], vmlinux.h lines 113756-113761. *)
Definition nf_conntrack_tuple_mask : ctype := cstruct
  [ F "src" (cstruct
    [ F "u3" nf_inet_addr;
      F "u" nf_conntrack_man_proto ]) ].

(** [struct nf_conntrack_expect], vmlinux.h lines 113765-113783. *)
Definition nf_conntrack_expect : ctype := cstruct
  [ F "lnode" hlist_node;
    F "hnode" hlist_node;
    F "net" possible_net_t;
    F "tuple" nf_conntrack_tuple;
    F "mask" nf_conntrack_tuple_mask;
    F "zone" nf_conntrack_zone;
    F "use" refcount_t;
    F "flags" cuint;
    F "class" cuint;
    F "expectfn" (CPtr "fn");
    F "helper" (CPtr "struct nf_conntrack_helper");
    F "master" (CPtr "struct nf_conn");
    F "timeout" timer_list;
    F "saved_addr" nf_inet_addr;
    F "saved_proto" nf_conntrack_man_proto;
    F "dir" ip_conntrack_dir;
    F "rcu" callback_head ].

(** [struct nf_ct_ext], vmlinux.h lines 113798-113803. *)
Definition nf_ct_ext : ctype := cstruct
  [ F "offset" (CArr 10 u8);
    F "len" u8;
    F "gen_id" cuint;
    F "data" (CArr 0 cchar) ].

(** Every declaration of this file, for statements about all of them. *)
Definition declarations : list (string * ctype) :=
  [ ("struct rb_node", rb_node);
    ("struct list_head", list_head);
    ("struct llist_node", llist_node);
    ("typedef __s64", __s64);
    ("typedef s64", s64);
    ("typedef ktime_t", ktime_t);
    ("typedef u64", u64);
    ("typedef __wsum", __wsum);
    ("typedef sk_buff_data_t", sk_buff_data_t);
    ("struct sk_buff", sk_buff);
    ("struct skb_shared_hwtstamps", skb_shared_hwtstamps);
    ("struct xsk_tx_metadata_compl", xsk_tx_metadata_compl);
    ("typedef netmem_ref", netmem_ref);
    ("struct skb_frag", skb_frag);
    ("typedef skb_frag_t", skb_frag_t);
    ("struct skb_shared_info", skb_shared_info);
    ("typedef __addrpair", __addrpair);
    ("typedef __portpair", __portpair);
    ("typedef atomic64_t", atomic64_t);
    ("struct sock_common", sock_common);
    ("typedef __s32", __s32);
    ("struct sk_buff_list", sk_buff_list);
    ("struct sk_buff_head", sk_buff_head);
    ("struct wait_queue_head", wait_queue_head);
    ("typedef wait_queue_head_t", wait_queue_head_t);
    ("typedef socket_lock_t", socket_lock_t);
    ("struct rb_root", rb_root);
    ("struct page_frag", page_frag);
    ("struct timer_list", timer_list);
    ("typedef __kernel_uid32_t", __kernel_uid32_t);
    ("typedef uid_t", uid_t);
    ("typedef kuid_t", kuid_t);
    ("typedef netdev_features_t", netdev_features_t);
    ("typedef gfp_t", gfp_t);
    ("struct qrwlock", qrwlock);
    ("typedef arch_rwlock_t", arch_rwlock_t);
    ("struct rwlock", rwlock);
    ("typedef rwlock_t", rwlock_t);
    ("struct sock_cgroup_data", sock_cgroup_data);
    ("struct callback_head", callback_head);
    ("typedef freeptr_t", freeptr_t);
    ("typedef netns_tracker", netns_tracker);
    ("struct xarray", xarray);
    ("struct sock", sock);
    ("typedef __s16", __s16);
    ("typedef s16", s16);
    ("struct netdev_tc_txq", netdev_tc_txq);
    ("enum netdev_stat_type", netdev_stat_type);
    ("typedef xdp_features_t", xdp_features_t);
    ("typedef atomic_long_t", atomic_long_t);
    ("struct net_device_stats", net_device_stats);
    ("struct netdev_hw_addr_list", netdev_hw_addr_list);
    ("struct hlist_head", hlist_head);
    ("struct ref_tracker_dir", ref_tracker_dir);
    ("enum netdev_ml_priv_type", netdev_ml_priv_type);
    ("struct kref", kref);
    ("struct kobject", kobject);
    ("typedef raw_spinlock_t", raw_spinlock_t);
    ("struct optimistic_spin_queue", optimistic_spin_queue);
    ("struct mutex", mutex);
    ("enum dl_dev_state", dl_dev_state);
    ("struct dev_links_info", dev_links_info);
    ("struct pm_message", pm_message);
    ("typedef pm_message_t", pm_message_t);
    ("struct swait_queue_head", swait_queue_head);
    ("struct completion", completion);
    ("struct timerqueue_node", timerqueue_node);
    ("struct hrtimer", hrtimer);
    ("typedef work_func_t", work_func_t);
    ("struct work_struct", work_struct);
    ("enum rpm_request", rpm_request);
    ("enum rpm_status", rpm_status);
    ("struct dev_pm_info", dev_pm_info);
    ("struct dev_msi_info", dev_msi_info);
    ("struct dev_archdata", dev_archdata);
    ("typedef __kernel_dev_t", __kernel_dev_t);
    ("typedef dev_t", dev_t);
    ("enum device_removable", device_removable);
    ("struct device", device);
    ("struct bpf_xdp_entity", bpf_xdp_entity);
    ("typedef netdevice_tracker", netdevice_tracker);
    ("struct net_device", net_device);
    ("struct idr", idr);
    ("struct ns_tree_node", ns_tree_node);
    ("struct ns_tree_root", ns_tree_root);
    ("struct ns_tree", ns_tree);
    ("struct ns_common", ns_common);
    ("struct ctl_table_header", ctl_table_header);
    ("struct ctl_dir", ctl_dir);
    ("struct ctl_table_set", ctl_table_set);
    ("struct raw_notifier_head", raw_notifier_head);
    ("struct netns_core", netns_core);
    ("struct netns_mib", netns_mib);
    ("struct netns_packet", netns_packet);
    ("struct unix_table", unix_table);
    ("struct netns_unix", netns_unix);
    ("struct rw_semaphore", rw_semaphore);
    ("struct blocking_notifier_head", blocking_notifier_head);
    ("struct netns_nexthop", netns_nexthop);
    ("struct inet_timewait_death_row", inet_timewait_death_row);
    ("struct udp_tunnel_gro", udp_tunnel_gro);
    ("struct local_ports", local_ports);
    ("struct seqcount", seqcount);
    ("typedef seqcount_t", seqcount_t);
    ("struct seqcount_spinlock", seqcount_spinlock);
    ("typedef seqcount_spinlock_t", seqcount_spinlock_t);
    ("struct seqlock", seqlock);
    ("typedef seqlock_t", seqlock_t);
    ("typedef __kernel_gid32_t", __kernel_gid32_t);
    ("typedef gid_t", gid_t);
    ("typedef kgid_t", kgid_t);
    ("struct ping_group_range", ping_group_range);
    ("struct sysctl_fib_multipath_hash_seed", sysctl_fib_multipath_hash_seed);
    ("typedef siphash_key_t", siphash_key_t);
    ("struct delayed_work", delayed_work);
    ("struct netns_ipv4", netns_ipv4);
    ("struct percpu_counter", percpu_counter);
    ("struct dst_ops", dst_ops);
    ("struct netns_sysctl_ipv6", netns_sysctl_ipv6);
    ("struct netns_ipv6", netns_ipv6);
    ("struct netns_sysctl_lowpan", netns_sysctl_lowpan);
    ("struct netns_ieee802154_lowpan", netns_ieee802154_lowpan);
    ("struct netns_sctp", netns_sctp);
    ("struct netns_nf", netns_nf);
    ("struct nf_generic_net", nf_generic_net);
    ("struct nf_tcp_net", nf_tcp_net);
    ("struct nf_udp_net", nf_udp_net);
    ("struct nf_icmp_net", nf_icmp_net);
    ("struct nf_sctp_net", nf_sctp_net);
    ("struct nf_gre_net", nf_gre_net);
    ("struct nf_ip_net", nf_ip_net);
    ("struct netns_ct", netns_ct);
    ("struct netns_nftables", netns_nftables);
    ("struct netns_ft", netns_ft);
    ("struct netns_bpf", netns_bpf);
    ("struct xfrm_policy_hash", xfrm_policy_hash);
    ("struct xfrm_policy_hthresh", xfrm_policy_hthresh);
    ("struct netns_xfrm", netns_xfrm);
    ("typedef __kernel_ulong_t", __kernel_ulong_t);
    ("typedef __kernel_size_t", __kernel_size_t);
    ("typedef size_t", size_t);
    ("struct seqcount_mutex", seqcount_mutex);
    ("typedef seqcount_mutex_t", seqcount_mutex_t);
    ("struct netns_mpls", netns_mpls);
    ("struct netns_can", netns_can);
    ("struct netns_xdp", netns_xdp);
    ("struct netns_mctp", netns_mctp);
    ("struct netns_smc", netns_smc);
    ("enum vsock_net_mode", vsock_net_mode);
    ("struct netns_vsock", netns_vsock);
    ("struct net", net);
    ("struct tap_filter", tap_filter);
    ("struct sock_fprog", sock_fprog);
    ("typedef __s8", __s8);
    ("struct ethtool_link_settings", ethtool_link_settings);
    ("struct ethtool_link_ksettings", ethtool_link_ksettings);
    ("struct tun_struct", tun_struct);
    ("typedef socket_state", socket_state);
    ("struct socket_wq", socket_wq);
    ("struct socket", socket);
    ("struct gro_list", gro_list);
    ("struct gro_node", gro_node);
    ("struct irq_affinity_notify", irq_affinity_notify);
    ("struct napi_struct", napi_struct);
    ("struct ptr_ring", ptr_ring);
    ("struct xdp_mem_info", xdp_mem_info);
    ("struct xdp_rxq_info", xdp_rxq_info);
    ("struct tun_file", tun_file);
    ("struct hh_cache", hh_cache);
    ("struct neighbour", neighbour);
    ("typedef rcuref_t", rcuref_t);
    ("struct dst_entry", dst_entry);
    ("struct rtable", rtable);
    ("struct fib_nh_common", fib_nh_common);
    ("struct fib_nh", fib_nh);
    ("struct fib_info", fib_info);
    ("typedef dscp_t", dscp_t);
    ("typedef __be64", __be64);
    ("struct flowi_tunnel", flowi_tunnel);
    ("struct flowi_common", flowi_common);
    ("union flowi_uli", flowi_uli);
    ("struct flowi4", flowi4);
    ("struct nf_hook_state", nf_hook_state);
    ("struct nf_conntrack_tuple_mask", nf_conntrack_tuple_mask);
    ("struct nf_conntrack_expect", nf_conntrack_expect);
    ("struct nf_ct_ext", nf_ct_ext) ].

End vmnet.
