(* ===== verification/VmlinuxBpf.v ===== *)
(** * Kernel declarations of the objects the helpers work on: BPF

    The declarations of [bpf/vmlinux.h] behind the maps and programs themselves: the
    hash, array, LPM-trie and ring-buffer maps the dataplane declares, the program
    object and its auxiliary data, the redirect state the redirect helpers fill, the
    TCX attachment entry, and the helper and attach-type enumerations.  Transcribed
    as in [Vmlinux]. *)
From S2P Require Import Prelude CLayout Vmlinux VmlinuxNet.

Import vmlinux.
Import vmnet.
#[local] Open Scope Z_scope.

Module vmbpf.

(** [struct bpf_map], vmlinux.h lines 48096-48134. *)
Definition bpf_map : ctype := cstruct
  [ F "sha" (CArr 32 u8);
    F "ops" (CPtr "struct bpf_map_ops");
    F "inner_map_meta" (CPtr "struct bpf_map");
    F "security" (CPtr "void");
    F "map_type" bpf_map_type;
    F "key_size" u32;
    F "value_size" u32;
    F "max_entries" u32;
    F "map_extra" u64;
    F "map_flags" u32;
    F "id" u32;
    F "record" (CPtr "struct btf_record");
    F "numa_node" cint;
    F "btf_key_type_id" u32;
    F "btf_value_type_id" u32;
    F "btf_vmlinux_value_type_id" u32;
    F "btf" (CPtr "struct btf");
    F "objcg" (CPtr "struct obj_cgroup");
    F "name" (CArr 16 cchar);
    F "freeze_mutex" mutex;
    F "refcnt" atomic64_t;
    F "usercnt" atomic64_t;
    F "" (cunion
    [ F "work" work_struct;
      F "rcu" callback_head ]);
    F "writecnt" atomic64_t;
    F "owner_lock" spinlock_t;
    F "owner" (CPtr "struct bpf_map_owner");
    F "bypass_spec_v1" cbool;
    F "frozen" cbool;
    F "free_after_mult_rcu_gp" cbool;
    F "free_after_rcu_gp" cbool;
    F "sleepable_refcnt" atomic64_t;
    F "elem_count" (CPtr "s64");
    F "cookie" u64;
    F "excl_prog_sha" (CPtr "char") ].

(** [struct bpf_mem_alloc], vmlinux.h lines 50084-50092. *)
Definition bpf_mem_alloc : ctype := cstruct
  [ F "caches" (CPtr "struct bpf_mem_caches");
    F "cache" (CPtr "struct bpf_mem_cache");
    F "objcg" (CPtr "struct obj_cgroup");
    F "percpu" cbool;
    F "work" work_struct;
    F "dtor_ctx_free" (CPtr "fn");
    F "dtor_ctx" (CPtr "void") ].

(** [struct pcpu_freelist], vmlinux.h lines 50096-50098. *)
Definition pcpu_freelist : ctype := cstruct
  [ F "freelist" (CPtr "struct pcpu_freelist_head") ].

(** [struct bpf_lru_list], vmlinux.h lines 48680-48692. *)
Definition bpf_lru_list : ctype := cstruct
  [ F "lists" (CArr 3 list_head);
    F "counts" (CArr 2 cuint);
    F "next_inactive_rotation" (CPtr "struct list_head");
    F "lock" raw_spinlock_t;
    B "" clong 64;
    B "" clong 64;
    B "" clong 64;
    B "" clong 64;
    B "" clong 64;
    B "" clong 64;
    B "" clong 64 ].

(** [struct bpf_common_lru], vmlinux.h lines 48696-48706. *)
Definition bpf_common_lru : ctype := cstruct
  [ F "lru_list" bpf_lru_list;
    F "local_list" (CPtr "struct bpf_lru_locallist");
    B "" clong 64;
    B "" clong 64;
    B "" clong 64;
    B "" clong 64;
    B "" clong 64;
    B "" clong 64;
    B "" clong 64 ].

(** [del_from_htab_func], vmlinux.h lines 50102-50102. *)
Definition del_from_htab_func : ctype := CPtr "fn".

(** [struct bpf_lru], vmlinux.h lines 50104-50119. *)
Definition bpf_lru : ctype := cstruct
  [ F "" (cunion
    [ F "common_lru" bpf_common_lru;
      F "percpu_lru" (CPtr "struct bpf_lru_list") ]);
    F "del_from_htab" del_from_htab_func;
    F "del_arg" (CPtr "void");
    F "hash_offset" cuint;
    F "target_free" cuint;
    F "nr_scans" cuint;
    F "percpu" cbool;
    B "" clong 64;
    B "" clong 64;
    B "" clong 64;
    B "" clong 64 ].

(** [struct bpf_htab], vmlinux.h lines 50125-50155. *)
Definition bpf_htab : ctype := cstruct
  [ F "map" bpf_map;
    F "ma" bpf_mem_alloc;
    F "pcpu_ma" bpf_mem_alloc;
    F "buckets" (CPtr "struct bucket");
    F "elems" (CPtr "void");
    B "" clong 64;
    B "" clong 64;
    B "" clong 64;
    B "" clong 64;
    B "" clong 64;
    B "" clong 64;
    F "" (cunion
    [ F "freelist" pcpu_freelist;
      F "lru" bpf_lru ]);
    F "extra_elems" (CPtr "struct htab_elem *");
    F "pcount" percpu_counter;
    F "count" atomic_t;
    F "use_percpu_counter" cbool;
    F "n_buckets" u32;
    F "elem_size" u32;
    F "hashrnd" u32;
    B "" clong 64;
    B "" clong 64;
    B "" clong 64;
    B "" clong 64;
    B "" clong 64;
    B "" clong 64;
    B "" clong 64 ].

(** [struct bpf_array], vmlinux.h lines 48171-48190. *)
Definition bpf_array : ctype := cstruct
  [ F "map" bpf_map;
    F "elem_size" u32;
    F "index_mask" u32;
    F "aux" (CPtr "struct bpf_array_aux");
    F "" (cunion
    [ F "" (cstruct
      [ F "__empty_value" (cstruct  []);
        F "value" (CArr 0 cchar) ]);
      F "" (cstruct
      [ F "__empty_ptrs" (cstruct  []);
        F "ptrs" (CArr 0 (CPtr "void")) ]);
      F "" (cstruct
      [ F "__empty_pptrs" (cstruct  []);
        F "pptrs" (CArr 0 (CPtr "void")) ]) ]) ].

(** [rqspinlock_t], vmlinux.h lines 48141-48141. *)
Definition rqspinlock_t : ctype := qspinlock.

(** [struct lpm_trie], vmlinux.h lines 102892-102900. *)
Definition lpm_trie : ctype := cstruct
  [ F "map" bpf_map;
    F "root" (CPtr "struct lpm_trie_node");
    F "ma" bpf_mem_alloc;
    F "n_entries" size_t;
    F "max_prefixlen" size_t;
    F "data_size" size_t;
    F "lock" rqspinlock_t ].

(** [struct bpf_ringbuf_map], vmlinux.h lines 53383-53386. *)
Definition bpf_ringbuf_map : ctype := cstruct
  [ F "map" bpf_map;
    F "rb" (CPtr "struct bpf_ringbuf") ].

(** [enum bpf_prog_type], vmlinux.h lines 13784-13819. *)
Definition bpf_prog_type : ctype := CEnum 4 
  [ ("BPF_PROG_TYPE_UNSPEC", 0);
    ("BPF_PROG_TYPE_SOCKET_FILTER", 1);
    ("BPF_PROG_TYPE_KPROBE", 2);
    ("BPF_PROG_TYPE_SCHED_CLS", 3);
    ("BPF_PROG_TYPE_SCHED_ACT", 4);
    ("BPF_PROG_TYPE_TRACEPOINT", 5);
    ("BPF_PROG_TYPE_XDP", 6);
    ("BPF_PROG_TYPE_PERF_EVENT", 7);
    ("BPF_PROG_TYPE_CGROUP_SKB", 8);
    ("BPF_PROG_TYPE_CGROUP_SOCK", 9);
    ("BPF_PROG_TYPE_LWT_IN", 10);
    ("BPF_PROG_TYPE_LWT_OUT", 11);
    ("BPF_PROG_TYPE_LWT_XMIT", 12);
    ("BPF_PROG_TYPE_SOCK_OPS", 13);
    ("BPF_PROG_TYPE_SK_SKB", 14);
    ("BPF_PROG_TYPE_CGROUP_DEVICE", 15);
    ("BPF_PROG_TYPE_SK_MSG", 16);
    ("BPF_PROG_TYPE_RAW_TRACEPOINT", 17);
    ("BPF_PROG_TYPE_CGROUP_SOCK_ADDR", 18);
    ("BPF_PROG_TYPE_LWT_SEG6LOCAL", 19);
    ("BPF_PROG_TYPE_LIRC_MODE2", 20);
    ("BPF_PROG_TYPE_SK_REUSEPORT", 21);
    ("BPF_PROG_TYPE_FLOW_DISSECTOR", 22);
    ("BPF_PROG_TYPE_CGROUP_SYSCTL", 23);
    ("BPF_PROG_TYPE_RAW_TRACEPOINT_WRITABLE", 24);
    ("BPF_PROG_TYPE_CGROUP_SOCKOPT", 25);
    ("BPF_PROG_TYPE_TRACING", 26);
    ("BPF_PROG_TYPE_STRUCT_OPS", 27);
    ("BPF_PROG_TYPE_EXT", 28);
    ("BPF_PROG_TYPE_LSM", 29);
    ("BPF_PROG_TYPE_SK_LOOKUP", 30);
    ("BPF_PROG_TYPE_SYSCALL", 31);
    ("BPF_PROG_TYPE_NETFILTER", 32);
    ("__MAX_BPF_PROG_TYPE", 33) ].

(** [enum bpf_attach_type], vmlinux.h lines 13273-13334. *)
Definition bpf_attach_type : ctype := CEnum 4 
  [ ("BPF_CGROUP_INET_INGRESS", 0);
    ("BPF_CGROUP_INET_EGRESS", 1);
    ("BPF_CGROUP_INET_SOCK_CREATE", 2);
    ("BPF_CGROUP_SOCK_OPS", 3);
    ("BPF_SK_SKB_STREAM_PARSER", 4);
    ("BPF_SK_SKB_STREAM_VERDICT", 5);
    ("BPF_CGROUP_DEVICE", 6);
    ("BPF_SK_MSG_VERDICT", 7);
    ("BPF_CGROUP_INET4_BIND", 8);
    ("BPF_CGROUP_INET6_BIND", 9);
    ("BPF_CGROUP_INET4_CONNECT", 10);
    ("BPF_CGROUP_INET6_CONNECT", 11);
    ("BPF_CGROUP_INET4_POST_BIND", 12);
    ("BPF_CGROUP_INET6_POST_BIND", 13);
    ("BPF_CGROUP_UDP4_SENDMSG", 14);
    ("BPF_CGROUP_UDP6_SENDMSG", 15);
    ("BPF_LIRC_MODE2", 16);
    ("BPF_FLOW_DISSECTOR", 17);
    ("BPF_CGROUP_SYSCTL", 18);
    ("BPF_CGROUP_UDP4_RECVMSG", 19);
    ("BPF_CGROUP_UDP6_RECVMSG", 20);
    ("BPF_CGROUP_GETSOCKOPT", 21);
    ("BPF_CGROUP_SETSOCKOPT", 22);
    ("BPF_TRACE_RAW_TP", 23);
    ("BPF_TRACE_FENTRY", 24);
    ("BPF_TRACE_FEXIT", 25);
    ("BPF_MODIFY_RETURN", 26);
    ("BPF_LSM_MAC", 27);
    ("BPF_TRACE_ITER", 28);
    ("BPF_CGROUP_INET4_GETPEERNAME", 29);
    ("BPF_CGROUP_INET6_GETPEERNAME", 30);
    ("BPF_CGROUP_INET4_GETSOCKNAME", 31);
    ("BPF_CGROUP_INET6_GETSOCKNAME", 32);
    ("BPF_XDP_DEVMAP", 33);
    ("BPF_CGROUP_INET_SOCK_RELEASE", 34);
    ("BPF_XDP_CPUMAP", 35);
    ("BPF_SK_LOOKUP", 36);
    ("BPF_XDP", 37);
    ("BPF_SK_SKB_VERDICT", 38);
    ("BPF_SK_REUSEPORT_SELECT", 39);
    ("BPF_SK_REUSEPORT_SELECT_OR_MIGRATE", 40);
    ("BPF_PERF_EVENT", 41);
    ("BPF_TRACE_KPROBE_MULTI", 42);
    ("BPF_LSM_CGROUP", 43);
    ("BPF_STRUCT_OPS", 44);
    ("BPF_NETFILTER", 45);
    ("BPF_TCX_INGRESS", 46);
    ("BPF_TCX_EGRESS", 47);
    ("BPF_TRACE_UPROBE_MULTI", 48);
    ("BPF_CGROUP_UNIX_CONNECT", 49);
    ("BPF_CGROUP_UNIX_SENDMSG", 50);
    ("BPF_CGROUP_UNIX_RECVMSG", 51);
    ("BPF_CGROUP_UNIX_GETPEERNAME", 52);
    ("BPF_CGROUP_UNIX_GETSOCKNAME", 53);
    ("BPF_NETKIT_PRIMARY", 54);
    ("BPF_NETKIT_PEER", 55);
    ("BPF_TRACE_KPROBE_SESSION", 56);
    ("BPF_TRACE_UPROBE_SESSION", 57);
    ("BPF_TRACE_FSESSION", 58);
    ("__MAX_BPF_ATTACH_TYPE", 59) ].

(** [struct sock_filter], vmlinux.h lines 51496-51501. *)
Definition sock_filter : ctype := cstruct
  [ F "code" __u16;
    F "jt" __u8;
    F "jf" __u8;
    F "k" __u32 ].

(** [struct bpf_insn], vmlinux.h lines 50181-50187. *)
Definition bpf_insn : ctype := cstruct
  [ F "code" __u8;
    B "dst_reg" __u8 4;
    B "src_reg" __u8 4;
    F "off" __s16;
    F "imm" __s32 ].

(** [struct bpf_prog], vmlinux.h lines 51507-51548. *)
Definition bpf_prog : ctype := cstruct
  [ F "pages" u16;
    B "jited" u16 1;
    B "jit_requested" u16 1;
    B "gpl_compatible" u16 1;
    B "cb_access" u16 1;
    B "dst_needed" u16 1;
    B "blinding_requested" u16 1;
    B "blinded" u16 1;
    B "is_func" u16 1;
    B "kprobe_override" u16 1;
    B "has_callchain_buf" u16 1;
    B "enforce_expected_attach_type" u16 1;
    B "call_get_stack" u16 1;
    B "call_get_func_ip" u16 1;
    B "call_session_cookie" u16 1;
    B "tstamp_type_access" u16 1;
    B "sleepable" u16 1;
    F "type" bpf_prog_type;
    F "expected_attach_type" bpf_attach_type;
    F "len" u32;
    F "jited_len" u32;
    F "" (cunion
    [ F "digest" (CArr 32 u8);
      F "tag" (CArr 8 u8) ]);
    F "stats" (CPtr "struct bpf_prog_stats");
    F "active" (CPtr "u8");
    F "bpf_func" (CPtr "fn");
    F "aux" (CPtr "struct bpf_prog_aux");
    F "orig_prog" (CPtr "struct sock_fprog_kern");
    F "" (cunion
    [ F "" (cstruct
      [ F "__empty_insns" (cstruct  []);
        F "insns" (CArr 0 sock_filter) ]);
      F "" (cstruct
      [ F "__empty_insnsi" (cstruct  []);
        F "insnsi" (CArr 0 bpf_insn) ]) ]) ].

(** [struct latch_tree_node], vmlinux.h lines 49724-49726. *)
Definition latch_tree_node : ctype := cstruct
  [ F "node" (CArr 2 rb_node) ].

(** [struct bpf_ksym], vmlinux.h lines 49728-49737. *)
Definition bpf_ksym : ctype := cstruct
  [ F "start" culong;
    F "end" culong;
    F "name" (CArr 512 cchar);
    F "lnode" list_head;
    F "tnode" latch_tree_node;
    F "prog" cbool;
    F "fp_start" u32;
    F "fp_end" u32 ].

(** [struct llist_head], vmlinux.h lines 34993-34995. *)
Definition llist_head : ctype := cstruct
  [ F "first" (CPtr "struct llist_node") ].

(** [struct bpf_stream], vmlinux.h lines 51550-51556. *)
Definition bpf_stream : ctype := cstruct
  [ F "capacity" atomic_t;
    F "log" llist_head;
    F "lock" mutex;
    F "backlog_head" (CPtr "struct llist_node");
    F "backlog_tail" (CPtr "struct llist_node") ].

(** [struct bpf_prog_aux], vmlinux.h lines 51572-51662. *)
Definition bpf_prog_aux : ctype := cstruct
  [ F "refcnt" atomic64_t;
    F "used_map_cnt" u32;
    F "used_btf_cnt" u32;
    F "max_ctx_offset" u32;
    F "max_pkt_offset" u32;
    F "max_tp_access" u32;
    F "stack_depth" u32;
    F "id" u32;
    F "func_cnt" u32;
    F "real_func_cnt" u32;
    F "func_idx" u32;
    F "attach_btf_id" u32;
    F "attach_st_ops_member_off" u32;
    F "ctx_arg_info_size" u32;
    F "max_rdonly_access" u32;
    F "max_rdwr_access" u32;
    F "subprog_start" u32;
    F "attach_btf" (CPtr "struct btf");
    F "ctx_arg_info" (CPtr "struct bpf_ctx_arg_aux");
    F "priv_stack_ptr" (CPtr "void");
    F "dst_mutex" mutex;
    F "dst_prog" (CPtr "struct bpf_prog");
    F "dst_trampoline" (CPtr "struct bpf_trampoline");
    F "saved_dst_prog_type" bpf_prog_type;
    F "saved_dst_attach_type" bpf_attach_type;
    F "verifier_zext" cbool;
    F "dev_bound" cbool;
    F "offload_requested" cbool;
    F "attach_btf_trace" cbool;
    F "attach_tracing_prog" cbool;
    F "func_proto_unreliable" cbool;
    F "tail_call_reachable" cbool;
    F "xdp_has_frags" cbool;
    F "exception_cb" cbool;
    F "exception_boundary" cbool;
    F "is_extended" cbool;
    F "jits_use_priv_stack" cbool;
    F "priv_stack_requested" cbool;
    F "changes_pkt_data" cbool;
    F "might_sleep" cbool;
    F "kprobe_write_ctx" cbool;
    F "prog_array_member_cnt" u64;
    F "ext_mutex" mutex;
    F "arena" (CPtr "struct bpf_arena");
    F "recursion_detected" (CPtr "fn");
    F "attach_func_proto" (CPtr "struct btf_type");
    F "attach_func_name" (CPtr "char");
    F "func" (CPtr "struct bpf_prog *");
    F "main_prog_aux" (CPtr "struct bpf_prog_aux");
    F "jit_data" (CPtr "void");
    F "poke_tab" (CPtr "struct bpf_jit_poke_descriptor");
    F "kfunc_tab" (CPtr "struct bpf_kfunc_desc_tab");
    F "kfunc_btf_tab" (CPtr "struct bpf_kfunc_btf_tab");
    F "size_poke_tab" u32;
    F "ksym" bpf_ksym;
    F "ops" (CPtr "struct bpf_prog_ops");
    F "st_ops" (CPtr "struct bpf_struct_ops");
    F "used_maps" (CPtr "struct bpf_map *");
    F "used_maps_mutex" mutex;
    F "used_btfs" (CPtr "struct btf_mod_pair");
    F "prog" (CPtr "struct bpf_prog");
    F "user" (CPtr "struct user_struct");
    F "load_time" u64;
    F "verified_insns" u32;
    F "cgroup_atype" cint;
    F "cgroup_storage" (CArr 2 (CPtr "struct bpf_map"));
    F "name" (CArr 16 cchar);
    F "bpf_exception_cb" (CPtr "fn");
    F "security" (CPtr "void");
    F "token" (CPtr "struct bpf_token");
    F "offload" (CPtr "struct bpf_prog_offload");
    F "btf" (CPtr "struct btf");
    F "func_info" (CPtr "struct bpf_func_info");
    F "func_info_aux" (CPtr "struct bpf_func_info_aux");
    F "linfo" (CPtr "struct bpf_line_info");
    F "jited_linfo" (CPtr "void *");
    F "func_info_cnt" u32;
    F "nr_linfo" u32;
    F "linfo_idx" u32;
    F "mod" (CPtr "struct module");
    F "num_exentries" u32;
    F "extable" (CPtr "struct exception_table_entry");
    F "" (cunion
    [ F "work" work_struct;
      F "rcu" callback_head ]);
    F "stream" (CArr 2 bpf_stream);
    F "st_ops_assoc_mutex" mutex;
    F "st_ops_assoc" (CPtr "struct bpf_map") ].

(** [struct bpf_nh_params], vmlinux.h lines 51387-51393. *)
Definition bpf_nh_params : ctype := cstruct
  [ F "nh_family" u32;
    F "" (cunion
    [ F "ipv4_nh" u32;
      F "ipv6_nh" in6_addr ]) ].

(** [struct bpf_redirect_info], vmlinux.h lines 51395-51404. *)
Definition bpf_redirect_info : ctype := cstruct
  [ F "tgt_index" u64;
    F "tgt_value" (CPtr "void");
    F "map" (CPtr "struct bpf_map");
    F "flags" u32;
    F "map_id" u32;
    F "map_type" bpf_map_type;
    F "nh" bpf_nh_params;
    F "kern_flags" u32 ].

(** [struct bpf_fib_lookup], vmlinux.h lines 49856-49895. *)
Definition bpf_fib_lookup : ctype := cstruct
  [ F "family" __u8;
    F "l4_protocol" __u8;
    F "sport" __be16;
    F "dport" __be16;
    F "" (cunion
    [ F "tot_len" __u16;
      F "mtu_result" __u16 ]);
    F "ifindex" __u32;
    F "" (cunion
    [ F "tos" __u8;
      F "flowinfo" __be32;
      F "rt_metric" __u32 ]);
    F "" (cunion
    [ F "ipv4_src" __be32;
      F "ipv6_src" (CArr 4 __u32) ]);
    F "" (cunion
    [ F "ipv4_dst" __be32;
      F "ipv6_dst" (CArr 4 __u32) ]);
    F "" (cunion
    [ F "" (cstruct
      [ F "h_vlan_proto" __be16;
        F "h_vlan_TCI" __be16 ]);
      F "tbid" __u32 ]);
    F "" (cunion
    [ F "" (cstruct
      [ F "mark" __u32 ]);
      F "" (cstruct
      [ F "smac" (CArr 6 __u8);
        F "dmac" (CArr 6 __u8) ]) ]) ].

(** [struct bpf_mprog_fp], vmlinux.h lines 51359-51361. *)
Definition bpf_mprog_fp : ctype := cstruct
  [ F "prog" (CPtr "struct bpf_prog") ].

(** [struct bpf_mprog_entry], vmlinux.h lines 51365-51368. *)
Definition bpf_mprog_entry : ctype := cstruct
  [ F "fp_items" (CArr 64 bpf_mprog_fp);
    F "parent" (CPtr "struct bpf_mprog_bundle") ].

(** [struct bpf_mprog_cp], vmlinux.h lines 51370-51372. *)
Definition bpf_mprog_cp : ctype := cstruct
  [ F "link" (CPtr "struct bpf_link") ].

(** [struct bpf_mprog_bundle], vmlinux.h lines 51374-51381. *)
Definition bpf_mprog_bundle : ctype := cstruct
  [ F "a" bpf_mprog_entry;
    F "b" bpf_mprog_entry;
    F "cp_items" (CArr 64 bpf_mprog_cp);
    F "ref" (CPtr "struct bpf_prog");
    F "revision" atomic64_t;
    F "count" u32 ].

(** [struct tcx_entry], vmlinux.h lines 140490-140495. *)
Definition tcx_entry : ctype := cstruct
  [ F "miniq" (CPtr "struct mini_Qdisc");
    F "bundle" bpf_mprog_bundle;
    F "miniq_active" u32;
    F "rcu" callback_head ].

(** [struct bpf_flow_keys], vmlinux.h lines 49897-49920. *)
Definition bpf_flow_keys : ctype := cstruct
  [ F "nhoff" __u16;
    F "thoff" __u16;
    F "addr_proto" __u16;
    F "is_frag" __u8;
    F "is_first_frag" __u8;
    F "is_encap" __u8;
    F "ip_proto" __u8;
    F "n_proto" __be16;
    F "sport" __be16;
    F "dport" __be16;
    F "" (cunion
    [ F "" (cstruct
      [ F "ipv4_src" __be32;
        F "ipv4_dst" __be32 ]);
      F "" (cstruct
      [ F "ipv6_src" (CArr 4 __u32);
        F "ipv6_dst" (CArr 4 __u32) ]) ]);
    F "flags" __u32;
    F "flow_label" __be32 ].

(** [struct bpf_sock], vmlinux.h lines 49096-49111. *)
Definition bpf_sock : ctype := cstruct
  [ F "bound_dev_if" __u32;
    F "family" __u32;
    F "type" __u32;
    F "protocol" __u32;
    F "mark" __u32;
    F "priority" __u32;
    F "src_ip4" __u32;
    F "src_ip6" (CArr 4 __u32);
    F "src_port" __u32;
    F "dst_port" __be16;
    F "dst_ip4" __u32;
    F "dst_ip6" (CArr 4 __u32);
    F "state" __u32;
    F "rx_queue_mapping" __s32 ].

(** [enum bpf_func_id], vmlinux.h lines 13447-13661. *)
Definition bpf_func_id : ctype := CEnum 4 
  [ ("BPF_FUNC_unspec", 0);
    ("BPF_FUNC_map_lookup_elem", 1);
    ("BPF_FUNC_map_update_elem", 2);
    ("BPF_FUNC_map_delete_elem", 3);
    ("BPF_FUNC_probe_read", 4);
    ("BPF_FUNC_ktime_get_ns", 5);
    ("BPF_FUNC_trace_printk", 6);
    ("BPF_FUNC_get_prandom_u32", 7);
    ("BPF_FUNC_get_smp_processor_id", 8);
    ("BPF_FUNC_skb_store_bytes", 9);
    ("BPF_FUNC_l3_csum_replace", 10);
    ("BPF_FUNC_l4_csum_replace", 11);
    ("BPF_FUNC_tail_call", 12);
    ("BPF_FUNC_clone_redirect", 13);
    ("BPF_FUNC_get_current_pid_tgid", 14);
    ("BPF_FUNC_get_current_uid_gid", 15);
    ("BPF_FUNC_get_current_comm", 16);
    ("BPF_FUNC_get_cgroup_classid", 17);
    ("BPF_FUNC_skb_vlan_push", 18);
    ("BPF_FUNC_skb_vlan_pop", 19);
    ("BPF_FUNC_skb_get_tunnel_key", 20);
    ("BPF_FUNC_skb_set_tunnel_key", 21);
    ("BPF_FUNC_perf_event_read", 22);
    ("BPF_FUNC_redirect", 23);
    ("BPF_FUNC_get_route_realm", 24);
    ("BPF_FUNC_perf_event_output", 25);
    ("BPF_FUNC_skb_load_bytes", 26);
    ("BPF_FUNC_get_stackid", 27);
    ("BPF_FUNC_csum_diff", 28);
    ("BPF_FUNC_skb_get_tunnel_opt", 29);
    ("BPF_FUNC_skb_set_tunnel_opt", 30);
    ("BPF_FUNC_skb_change_proto", 31);
    ("BPF_FUNC_skb_change_type", 32);
    ("BPF_FUNC_skb_under_cgroup", 33);
    ("BPF_FUNC_get_hash_recalc", 34);
    ("BPF_FUNC_get_current_task", 35);
    ("BPF_FUNC_probe_write_user", 36);
    ("BPF_FUNC_current_task_under_cgroup", 37);
    ("BPF_FUNC_skb_change_tail", 38);
    ("BPF_FUNC_skb_pull_data", 39);
    ("BPF_FUNC_csum_update", 40);
    ("BPF_FUNC_set_hash_invalid", 41);
    ("BPF_FUNC_get_numa_node_id", 42);
    ("BPF_FUNC_skb_change_head", 43);
    ("BPF_FUNC_xdp_adjust_head", 44);
    ("BPF_FUNC_probe_read_str", 45);
    ("BPF_FUNC_get_socket_cookie", 46);
    ("BPF_FUNC_get_socket_uid", 47);
    ("BPF_FUNC_set_hash", 48);
    ("BPF_FUNC_setsockopt", 49);
    ("BPF_FUNC_skb_adjust_room", 50);
    ("BPF_FUNC_redirect_map", 51);
    ("BPF_FUNC_sk_redirect_map", 52);
    ("BPF_FUNC_sock_map_update", 53);
    ("BPF_FUNC_xdp_adjust_meta", 54);
    ("BPF_FUNC_perf_event_read_value", 55);
    ("BPF_FUNC_perf_prog_read_value", 56);
    ("BPF_FUNC_getsockopt", 57);
    ("BPF_FUNC_override_return", 58);
    ("BPF_FUNC_sock_ops_cb_flags_set", 59);
    ("BPF_FUNC_msg_redirect_map", 60);
    ("BPF_FUNC_msg_apply_bytes", 61);
    ("BPF_FUNC_msg_cork_bytes", 62);
    ("BPF_FUNC_msg_pull_data", 63);
    ("BPF_FUNC_bind", 64);
    ("BPF_FUNC_xdp_adjust_tail", 65);
    ("BPF_FUNC_skb_get_xfrm_state", 66);
    ("BPF_FUNC_get_stack", 67);
    ("BPF_FUNC_skb_load_bytes_relative", 68);
    ("BPF_FUNC_fib_lookup", 69);
    ("BPF_FUNC_sock_hash_update", 70);
    ("BPF_FUNC_msg_redirect_hash", 71);
    ("BPF_FUNC_sk_redirect_hash", 72);
    ("BPF_FUNC_lwt_push_encap", 73);
    ("BPF_FUNC_lwt_seg6_store_bytes", 74);
    ("BPF_FUNC_lwt_seg6_adjust_srh", 75);
    ("BPF_FUNC_lwt_seg6_action", 76);
    ("BPF_FUNC_rc_repeat", 77);
    ("BPF_FUNC_rc_keydown", 78);
    ("BPF_FUNC_skb_cgroup_id", 79);
    ("BPF_FUNC_get_current_cgroup_id", 80);
    ("BPF_FUNC_get_local_storage", 81);
    ("BPF_FUNC_sk_select_reuseport", 82);
    ("BPF_FUNC_skb_ancestor_cgroup_id", 83);
    ("BPF_FUNC_sk_lookup_tcp", 84);
    ("BPF_FUNC_sk_lookup_udp", 85);
    ("BPF_FUNC_sk_release", 86);
    ("BPF_FUNC_map_push_elem", 87);
    ("BPF_FUNC_map_pop_elem", 88);
    ("BPF_FUNC_map_peek_elem", 89);
    ("BPF_FUNC_msg_push_data", 90);
    ("BPF_FUNC_msg_pop_data", 91);
    ("BPF_FUNC_rc_pointer_rel", 92);
    ("BPF_FUNC_spin_lock", 93);
    ("BPF_FUNC_spin_unlock", 94);
    ("BPF_FUNC_sk_fullsock", 95);
    ("BPF_FUNC_tcp_sock", 96);
    ("BPF_FUNC_skb_ecn_set_ce", 97);
    ("BPF_FUNC_get_listener_sock", 98);
    ("BPF_FUNC_skc_lookup_tcp", 99);
    ("BPF_FUNC_tcp_check_syncookie", 100);
    ("BPF_FUNC_sysctl_get_name", 101);
    ("BPF_FUNC_sysctl_get_current_value", 102);
    ("BPF_FUNC_sysctl_get_new_value", 103);
    ("BPF_FUNC_sysctl_set_new_value", 104);
    ("BPF_FUNC_strtol", 105);
    ("BPF_FUNC_strtoul", 106);
    ("BPF_FUNC_sk_storage_get", 107);
    ("BPF_FUNC_sk_storage_delete", 108);
    ("BPF_FUNC_send_signal", 109);
    ("BPF_FUNC_tcp_gen_syncookie", 110);
    ("BPF_FUNC_skb_output", 111);
    ("BPF_FUNC_probe_read_user", 112);
    ("BPF_FUNC_probe_read_kernel", 113);
    ("BPF_FUNC_probe_read_user_str", 114);
    ("BPF_FUNC_probe_read_kernel_str", 115);
    ("BPF_FUNC_tcp_send_ack", 116);
    ("BPF_FUNC_send_signal_thread", 117);
    ("BPF_FUNC_jiffies64", 118);
    ("BPF_FUNC_read_branch_records", 119);
    ("BPF_FUNC_get_ns_current_pid_tgid", 120);
    ("BPF_FUNC_xdp_output", 121);
    ("BPF_FUNC_get_netns_cookie", 122);
    ("BPF_FUNC_get_current_ancestor_cgroup_id", 123);
    ("BPF_FUNC_sk_assign", 124);
    ("BPF_FUNC_ktime_get_boot_ns", 125);
    ("BPF_FUNC_seq_printf", 126);
    ("BPF_FUNC_seq_write", 127);
    ("BPF_FUNC_sk_cgroup_id", 128);
    ("BPF_FUNC_sk_ancestor_cgroup_id", 129);
    ("BPF_FUNC_ringbuf_output", 130);
    ("BPF_FUNC_ringbuf_reserve", 131);
    ("BPF_FUNC_ringbuf_submit", 132);
    ("BPF_FUNC_ringbuf_discard", 133);
    ("BPF_FUNC_ringbuf_query", 134);
    ("BPF_FUNC_csum_level", 135);
    ("BPF_FUNC_skc_to_tcp6_sock", 136);
    ("BPF_FUNC_skc_to_tcp_sock", 137);
    ("BPF_FUNC_skc_to_tcp_timewait_sock", 138);
    ("BPF_FUNC_skc_to_tcp_request_sock", 139);
    ("BPF_FUNC_skc_to_udp6_sock", 140);
    ("BPF_FUNC_get_task_stack", 141);
    ("BPF_FUNC_load_hdr_opt", 142);
    ("BPF_FUNC_store_hdr_opt", 143);
    ("BPF_FUNC_reserve_hdr_opt", 144);
    ("BPF_FUNC_inode_storage_get", 145);
    ("BPF_FUNC_inode_storage_delete", 146);
    ("BPF_FUNC_d_path", 147);
    ("BPF_FUNC_copy_from_user", 148);
    ("BPF_FUNC_snprintf_btf", 149);
    ("BPF_FUNC_seq_printf_btf", 150);
    ("BPF_FUNC_skb_cgroup_classid", 151);
    ("BPF_FUNC_redirect_neigh", 152);
    ("BPF_FUNC_per_cpu_ptr", 153);
    ("BPF_FUNC_this_cpu_ptr", 154);
    ("BPF_FUNC_redirect_peer", 155);
    ("BPF_FUNC_task_storage_get", 156);
    ("BPF_FUNC_task_storage_delete", 157);
    ("BPF_FUNC_get_current_task_btf", 158);
    ("BPF_FUNC_bprm_opts_set", 159);
    ("BPF_FUNC_ktime_get_coarse_ns", 160);
    ("BPF_FUNC_ima_inode_hash", 161);
    ("BPF_FUNC_sock_from_file", 162);
    ("BPF_FUNC_check_mtu", 163);
    ("BPF_FUNC_for_each_map_elem", 164);
    ("BPF_FUNC_snprintf", 165);
    ("BPF_FUNC_sys_bpf", 166);
    ("BPF_FUNC_btf_find_by_name_kind", 167);
    ("BPF_FUNC_sys_close", 168);
    ("BPF_FUNC_timer_init", 169);
    ("BPF_FUNC_timer_set_callback", 170);
    ("BPF_FUNC_timer_start", 171);
    ("BPF_FUNC_timer_cancel", 172);
    ("BPF_FUNC_get_func_ip", 173);
    ("BPF_FUNC_get_attach_cookie", 174);
    ("BPF_FUNC_task_pt_regs", 175);
    ("BPF_FUNC_get_branch_snapshot", 176);
    ("BPF_FUNC_trace_vprintk", 177);
    ("BPF_FUNC_skc_to_unix_sock", 178);
    ("BPF_FUNC_kallsyms_lookup_name", 179);
    ("BPF_FUNC_find_vma", 180);
    ("BPF_FUNC_loop", 181);
    ("BPF_FUNC_strncmp", 182);
    ("BPF_FUNC_get_func_arg", 183);
    ("BPF_FUNC_get_func_ret", 184);
    ("BPF_FUNC_get_func_arg_cnt", 185);
    ("BPF_FUNC_get_retval", 186);
    ("BPF_FUNC_set_retval", 187);
    ("BPF_FUNC_xdp_get_buff_len", 188);
    ("BPF_FUNC_xdp_load_bytes", 189);
    ("BPF_FUNC_xdp_store_bytes", 190);
    ("BPF_FUNC_copy_from_user_task", 191);
    ("BPF_FUNC_skb_set_tstamp", 192);
    ("BPF_FUNC_ima_file_hash", 193);
    ("BPF_FUNC_kptr_xchg", 194);
    ("BPF_FUNC_map_lookup_percpu_elem", 195);
    ("BPF_FUNC_skc_to_mptcp_sock", 196);
    ("BPF_FUNC_dynptr_from_mem", 197);
    ("BPF_FUNC_ringbuf_reserve_dynptr", 198);
    ("BPF_FUNC_ringbuf_submit_dynptr", 199);
    ("BPF_FUNC_ringbuf_discard_dynptr", 200);
    ("BPF_FUNC_dynptr_read", 201);
    ("BPF_FUNC_dynptr_write", 202);
    ("BPF_FUNC_dynptr_data", 203);
    ("BPF_FUNC_tcp_raw_gen_syncookie_ipv4", 204);
    ("BPF_FUNC_tcp_raw_gen_syncookie_ipv6", 205);
    ("BPF_FUNC_tcp_raw_check_syncookie_ipv4", 206);
    ("BPF_FUNC_tcp_raw_check_syncookie_ipv6", 207);
    ("BPF_FUNC_ktime_get_tai_ns", 208);
    ("BPF_FUNC_user_ringbuf_drain", 209);
    ("BPF_FUNC_cgrp_storage_get", 210);
    ("BPF_FUNC_cgrp_storage_delete", 211);
    ("__BPF_FUNC_MAX_ID", 212) ].

(** Every declaration of this file, for statements about all of them. *)
Definition declarations : list (string * ctype) :=
  [ ("struct bpf_map", bpf_map);
    ("struct bpf_mem_alloc", bpf_mem_alloc);
    ("struct pcpu_freelist", pcpu_freelist);
    ("struct bpf_lru_list", bpf_lru_list);
    ("struct bpf_common_lru", bpf_common_lru);
    ("typedef del_from_htab_func", del_from_htab_func);
    ("struct bpf_lru", bpf_lru);
    ("struct bpf_htab", bpf_htab);
    ("struct bpf_array", bpf_array);
    ("typedef rqspinlock_t", rqspinlock_t);
    ("struct lpm_trie", lpm_trie);
    ("struct bpf_ringbuf_map", bpf_ringbuf_map);
    ("enum bpf_prog_type", bpf_prog_type);
    ("enum bpf_attach_type", bpf_attach_type);
    ("struct sock_filter", sock_filter);
    ("struct bpf_insn", bpf_insn);
    ("struct bpf_prog", bpf_prog);
    ("struct latch_tree_node", latch_tree_node);
    ("struct bpf_ksym", bpf_ksym);
    ("struct llist_head", llist_head);
    ("struct bpf_stream", bpf_stream);
    ("struct bpf_prog_aux", bpf_prog_aux);
    ("struct bpf_nh_params", bpf_nh_params);
    ("struct bpf_redirect_info", bpf_redirect_info);
    ("struct bpf_fib_lookup", bpf_fib_lookup);
    ("struct bpf_mprog_fp", bpf_mprog_fp);
    ("struct bpf_mprog_entry", bpf_mprog_entry);
    ("struct bpf_mprog_cp", bpf_mprog_cp);
    ("struct bpf_mprog_bundle", bpf_mprog_bundle);
    ("struct tcx_entry", tcx_entry);
    ("struct bpf_flow_keys", bpf_flow_keys);
    ("struct bpf_sock", bpf_sock);
    ("enum bpf_func_id", bpf_func_id) ].

End vmbpf.
