(* ===== verification/NatTypes.v ===== *)
(** * Data of the NAT dataplane

    The constants, structures and map declarations of [bpf/nat.c]: [#define]s as
    [Z] constants, each structure as a record (what the program computes with) and
    as a [ctype] declaration (what its bytes look like), and the maps as one record
    of finite maps.  Multi-byte members hold the value a little-endian load gives,
    so "network order" members hold swapped values, as in the C code. *)
From S2P Require Import Prelude CLayout Vmlinux.
#[local] Open Scope Z_scope.

(** ** Constants *)

Definition ETH_P_IP : Z := 0x0800.
Definition ETH_P_ARP : Z := 0x0806.
Definition ETH_HLEN : Z := 14.
Definition ETH_ALEN : Z := 6.
Definition IPPROTO_TCP : Z := 6.
Definition IPPROTO_UDP : Z := 17.
Definition TC_ACT_OK : Z := 0.
Definition TC_ACT_SHOT : Z := 2.
Definition TC_ACT_REDIRECT : Z := 7.
Definition IP_OFFMASK : Z := 0x1fff.
Definition ARPHRD_ETHER : Z := 1.
Definition ARPOP_REQUEST : Z := 1.
Definition ARPOP_REPLY : Z := 2.
Definition BPF_F_CURRENT_NETNS : Z := -1.
Definition BPF_F_PSEUDO_HDR : Z := 0x10.
Definition BPF_NOEXIST : Z := 1.
Definition IPS_CONFIRMED : Z := 0x8.
Definition IPS_SEEN_REPLY : Z := 0x2.
Definition IPS_ASSURED : Z := 0x4.
Definition CT_TIMEOUT : Z := 120.
Definition CT_DIR_ORIGINAL : Z := 0.
Definition CT_DIR_REPLY : Z := 1.
Definition EV_EGRESS : Z := 0.
Definition EV_EGRESS_REPLY : Z := 1.
Definition EV_INBOUND : Z := 2.
Definition EV_INBOUND_REPLY : Z := 3.
Definition EV_DENY : Z := 4.

(** ** Conntrack interface types *)

Inductive nf_nat_manip_type : Type :=
| NF_NAT_MANIP_SRC
| NF_NAT_MANIP_DST.

Record bpf_ct_opts := mkCtOpts {
  co_netns_id : Z;
  co_error : Z;
  co_l4proto : Z;
  co_dir : Z;
  co_ct_zone_id : Z;
  co_ct_zone_dir : Z;
  co_reserved : list Z
}.

Definition bpf_ct_opts_decl : ctype := cstruct
  [ F "netns_id" cint;
    F "error" cint;
    F "l4proto" vmlinux.u8;
    F "dir" vmlinux.u8;
    F "ct_zone_id" vmlinux.u16;
    F "ct_zone_dir" vmlinux.u8;
    F "reserved" (CArr 3 vmlinux.u8) ].

(** The [ipv4] arm of [struct bpf_sock_tuple]; the rest of the union is zero. *)
Record bpf_sock_tuple := mkTuple {
  tu_saddr : Z;
  tu_daddr : Z;
  tu_sport : Z;
  tu_dport : Z
}.

(** ** Map entries *)

Record global_config := mkGlobalConfig {
  gc_host_ip : Z;
  gc_uplink_ifindex : Z;
  gc_gw_ip : Z;
  gc_gw_mac : list Z;
  gc_default_egress_allow : Z;
  gc_default_ingress_allow : Z
}.

Definition global_config_decl : ctype := cstruct
  [ F "host_ip" vmlinux.__u32;
    F "uplink_ifindex" vmlinux.__u32;
    F "gw_ip" vmlinux.__u32;
    F "gw_mac" (CArr ETH_ALEN vmlinux.__u8);
    F "default_egress_allow" vmlinux.__u8;
    F "default_ingress_allow" vmlinux.__u8 ].

Record vm_entry := mkVmEntry {
  ve_vm_ip : Z;
  ve_tap_ifindex : Z;
  ve_vm_mac : list Z
}.

Definition vm_entry_decl : ctype := cstruct
  [ F "vm_ip" vmlinux.__u32;
    F "tap_ifindex" vmlinux.__u32;
    F "vm_mac" (CArr ETH_ALEN vmlinux.__u8);
    F "_pad" (CArr 2 vmlinux.__u8) ].

(** Map keys are compared byte by byte, padding included. *)
Record dnat_key := mkDnatKey {
  dk_host_ip : Z;
  dk_host_port : Z;
  dk_proto : Z;
  dk_pad : Z
}.

Definition dnat_key_decl : ctype := cstruct
  [ F "host_ip" vmlinux.__u32;
    F "host_port" vmlinux.__u16;
    F "proto" vmlinux.__u8;
    F "_pad" vmlinux.__u8 ].

Record dnat_val := mkDnatVal {
  dv_vm_ip : Z;
  dv_tap_ifindex : Z;
  dv_vm_port : Z;
  dv_vm_mac : list Z
}.

Definition dnat_val_decl : ctype := cstruct
  [ F "vm_ip" vmlinux.__u32;
    F "tap_ifindex" vmlinux.__u32;
    F "vm_port" vmlinux.__u16;
    F "vm_mac" (CArr ETH_ALEN vmlinux.__u8) ].

Record policy_key := mkPolicyKey {
  pk_prefixlen : Z;
  pk_addr : Z
}.

Definition policy_key_decl : ctype := cstruct
  [ F "prefixlen" vmlinux.__u32;
    F "addr" vmlinux.__u32 ].

Record policy_val := mkPolicyVal {
  pv_verdict : Z;
  pv_port : Z
}.

Definition policy_val_decl : ctype := cstruct
  [ F "verdict" vmlinux.__u8;
    F "_pad" vmlinux.__u8;
    F "port" vmlinux.__u16 ].

(** [struct nat_event] exists only as the bytes written to the ring buffer. *)
Definition nat_event_decl : ctype := cstruct
  [ F "orig_saddr" vmlinux.__u32;
    F "orig_daddr" vmlinux.__u32;
    F "new_saddr" vmlinux.__u32;
    F "new_daddr" vmlinux.__u32;
    F "vm_ip" vmlinux.__u32;
    F "orig_sport" vmlinux.__u16;
    F "orig_dport" vmlinux.__u16;
    F "new_sport" vmlinux.__u16;
    F "new_dport" vmlinux.__u16;
    F "len" vmlinux.__u16;
    F "proto" vmlinux.__u8;
    F "dir" vmlinux.__u8;
    F "verdict" vmlinux.__u8;
    F "_pad" (CArr 3 vmlinux.__u8) ].

Record nat_stats := mkNatStats {
  rx_pkts : Z;
  rx_bytes : Z;
  tx_pkts : Z;
  tx_bytes : Z;
  drops : Z;
  conns : Z
}.

Definition nat_stats_decl : ctype := cstruct
  [ F "rx_pkts" vmlinux.__u64;
    F "rx_bytes" vmlinux.__u64;
    F "tx_pkts" vmlinux.__u64;
    F "tx_bytes" vmlinux.__u64;
    F "drops" vmlinux.__u64;
    F "conns" vmlinux.__u64 ].

(** The ARP payload after the fixed header. *)
Definition arp_eth_ipv4_decl : ctype := cstruct
  [ F "ar_sha" (CArr ETH_ALEN vmlinux.__u8);
    F "ar_sip" (CArr 4 vmlinux.__u8);
    F "ar_tha" (CArr ETH_ALEN vmlinux.__u8);
    F "ar_tip" (CArr 4 vmlinux.__u8) ].

(** What [parse] fills in. *)
Record l4off := mkL4off {
  ip_off : Z;
  l4_off : Z;
  l4_proto : Z;
  l4_sport : Z;
  l4_dport : Z;
  l4_saddr : Z;
  l4_daddr : Z;
  l4_tot_len : Z
}.

(** [struct l4off o = {};] *)
Definition l4off_zero : l4off := mkL4off 0 0 0 0 0 0 0 0.

Definition nat_stats_zero : nat_stats := mkNatStats 0 0 0 0 0 0.

#[export] Instance dnat_key_eq_dec : EqDecision dnat_key.
Proof. solve_decision. Defined.

#[export] Instance dnat_key_countable : Countable dnat_key.
Proof.
  refine (inj_countable' (λ k, (dk_host_ip k, dk_host_port k, dk_proto k, dk_pad k))
                         (λ '(a, b, c, d), mkDnatKey a b c d) _).
  by intros [].
Defined.

#[export] Instance policy_key_eq_dec : EqDecision policy_key.
Proof. solve_decision. Defined.

#[export] Instance policy_key_countable : Countable policy_key.
Proof.
  refine (inj_countable' (λ k, (pk_prefixlen k, pk_addr k)) (λ '(a, b), mkPolicyKey a b) _).
  by intros [].
Defined.

#[export] Instance nat_stats_eq_dec : EqDecision nat_stats.
Proof. solve_decision. Defined.

#[export] Instance bpf_sock_tuple_eq_dec : EqDecision bpf_sock_tuple.
Proof. solve_decision. Defined.

(** ** Maps

    The pinned maps shared by every attachment.  [stats] is a per-CPU hash: the
    model keeps the slot of the CPU the program runs on.  [events] holds the
    records submitted to the ring buffer, oldest first. *)
Record nat_maps := mkNatMaps {
  global_config_map : gmap Z global_config;
  vm_config : gmap Z vm_entry;
  dnat_rules : gmap dnat_key dnat_val;
  egress_policy : gmap policy_key policy_val;
  ingress_policy : gmap policy_key policy_val;
  events : list (list Z);
  stats : gmap Z nat_stats
}.

(** The values in the maps fit the members of the C structures. *)
Definition mac_ok (mac : list Z) : Prop := zlen mac = ETH_ALEN ∧ bytes_ok mac.

Definition maps_ok (m : nat_maps) : Prop :=
  map_Forall (λ _ c, 0 ≤ gc_host_ip c < 2 ^ 32 ∧ 0 ≤ gc_gw_ip c < 2 ^ 32 ∧ mac_ok (gc_gw_mac c))
             (global_config_map m) ∧
  map_Forall (λ _ v, mac_ok (ve_vm_mac v)) (vm_config m) ∧
  map_Forall (λ _ v, 0 ≤ dv_vm_ip v < 2 ^ 32 ∧ 0 ≤ dv_vm_port v < 2 ^ 16 ∧ mac_ok (dv_vm_mac v))
             (dnat_rules m).

#[export] Instance mac_ok_dec mac : Decision (mac_ok mac).
Proof. unfold mac_ok. apply _. Defined.

#[export] Instance maps_ok_dec m : Decision (maps_ok m).
Proof. unfold maps_ok. apply _. Defined.

(** ** Offsets and sizes, from the declarations *)

Definition sizeof_ethhdr : Z := Eval vm_compute in sizeof vmlinux.ethhdr.
Definition sizeof_iphdr : Z := Eval vm_compute in sizeof vmlinux.iphdr.
Definition sizeof_tcphdr : Z := Eval vm_compute in sizeof vmlinux.tcphdr.
Definition sizeof_udphdr : Z := Eval vm_compute in sizeof vmlinux.udphdr.
Definition sizeof_arphdr : Z := Eval vm_compute in sizeof vmlinux.arphdr.
Definition sizeof_arp_eth_ipv4 : Z := Eval vm_compute in sizeof arp_eth_ipv4_decl.
Definition sizeof_ct_opts : Z := Eval vm_compute in sizeof bpf_ct_opts_decl.
Definition sizeof_tuple_ipv4 : Z :=
  Eval vm_compute in sizeof_path vmlinux.bpf_sock_tuple [Fld "ipv4"].
Definition sizeof_nat_event : Z := Eval vm_compute in sizeof nat_event_decl.

Definition eth_h_dest : Z := Eval vm_compute in offsetof vmlinux.ethhdr [Fld "h_dest"].
Definition eth_h_source : Z := Eval vm_compute in offsetof vmlinux.ethhdr [Fld "h_source"].
Definition eth_h_proto : Z := Eval vm_compute in offsetof vmlinux.ethhdr [Fld "h_proto"].
Definition ip_ihl : Z := Eval vm_compute in offsetof vmlinux.iphdr [Fld "ihl"].
Definition ip_tot_len : Z := Eval vm_compute in offsetof vmlinux.iphdr [Fld "tot_len"].
Definition ip_frag_off : Z := Eval vm_compute in offsetof vmlinux.iphdr [Fld "frag_off"].
Definition ip_protocol : Z := Eval vm_compute in offsetof vmlinux.iphdr [Fld "protocol"].
Definition ip_check : Z := Eval vm_compute in offsetof vmlinux.iphdr [Fld "check"].
Definition ip_saddr : Z := Eval vm_compute in offsetof vmlinux.iphdr [Fld "saddr"].
Definition ip_daddr : Z := Eval vm_compute in offsetof vmlinux.iphdr [Fld "daddr"].
Definition tcp_source : Z := Eval vm_compute in offsetof vmlinux.tcphdr [Fld "source"].
Definition tcp_dest : Z := Eval vm_compute in offsetof vmlinux.tcphdr [Fld "dest"].
Definition tcp_check : Z := Eval vm_compute in offsetof vmlinux.tcphdr [Fld "check"].
Definition udp_source : Z := Eval vm_compute in offsetof vmlinux.udphdr [Fld "source"].
Definition udp_dest : Z := Eval vm_compute in offsetof vmlinux.udphdr [Fld "dest"].
Definition udp_check : Z := Eval vm_compute in offsetof vmlinux.udphdr [Fld "check"].
Definition arp_ar_hrd : Z := Eval vm_compute in offsetof vmlinux.arphdr [Fld "ar_hrd"].
Definition arp_ar_pro : Z := Eval vm_compute in offsetof vmlinux.arphdr [Fld "ar_pro"].
Definition arp_ar_op : Z := Eval vm_compute in offsetof vmlinux.arphdr [Fld "ar_op"].
Definition arp_ar_sha : Z := Eval vm_compute in offsetof arp_eth_ipv4_decl [Fld "ar_sha"].
Definition arp_ar_sip : Z := Eval vm_compute in offsetof arp_eth_ipv4_decl [Fld "ar_sip"].
Definition arp_ar_tha : Z := Eval vm_compute in offsetof arp_eth_ipv4_decl [Fld "ar_tha"].
Definition arp_ar_tip : Z := Eval vm_compute in offsetof arp_eth_ipv4_decl [Fld "ar_tip"].

(** The width of [iphdr.ihl], a bit-field at the low end of its byte. *)
Definition ip_ihl_bits : Z :=
  Eval vm_compute in match resolve vmlinux.iphdr [Fld "ihl"] with Some m => m_width m | None => 0 end.

(** [BPF_CORE_READ(ct, tuplehash[dir].tuple.{src,dst}.{u3.ip,u.all})]: the array
    element, then the member. *)
Definition ct_tuplehash : Z := Eval vm_compute in offsetof vmlinux.nf_conn [Fld "tuplehash"].
Definition sizeof_tuplehash : Z := Eval vm_compute in sizeof vmlinux.nf_conntrack_tuple_hash.
Definition th_src_ip : Z := Eval vm_compute in
  offsetof vmlinux.nf_conntrack_tuple_hash [Fld "tuple"; Fld "src"; Fld "u3"; Fld "ip"].
Definition th_src_port : Z := Eval vm_compute in
  offsetof vmlinux.nf_conntrack_tuple_hash [Fld "tuple"; Fld "src"; Fld "u"; Fld "all"].
Definition th_dst_ip : Z := Eval vm_compute in
  offsetof vmlinux.nf_conntrack_tuple_hash [Fld "tuple"; Fld "dst"; Fld "u3"; Fld "ip"].
Definition th_dst_port : Z := Eval vm_compute in
  offsetof vmlinux.nf_conntrack_tuple_hash [Fld "tuple"; Fld "dst"; Fld "u"; Fld "all"].

Definition ct_src_ip (dir : Z) : Z := ct_tuplehash + sizeof_tuplehash * dir + th_src_ip.
Definition ct_src_port (dir : Z) : Z := ct_tuplehash + sizeof_tuplehash * dir + th_src_port.
Definition ct_dst_ip (dir : Z) : Z := ct_tuplehash + sizeof_tuplehash * dir + th_dst_ip.
Definition ct_dst_port (dir : Z) : Z := ct_tuplehash + sizeof_tuplehash * dir + th_dst_port.

(** The same offsets, by the full access paths from [struct nf_conn]. *)
Lemma ct_offsets_paths :
  Forall (λ dir,
    let at_path e m := offsetof vmlinux.nf_conn
      ([Fld "tuplehash"; Idx dir; Fld "tuple"; Fld e] ++ m) in
    ct_src_ip dir = at_path "src"%string [Fld "u3"; Fld "ip"] ∧
    ct_src_port dir = at_path "src"%string [Fld "u"; Fld "all"] ∧
    ct_dst_ip dir = at_path "dst"%string [Fld "u3"; Fld "ip"] ∧
    ct_dst_port dir = at_path "dst"%string [Fld "u"; Fld "all"])
  [CT_DIR_ORIGINAL; CT_DIR_REPLY].
Proof. repeat constructor; vm_compute; reflexivity. Qed.
