(* ===== verification/Kernel.v ===== *)
(** * The kernel behind the programs

    The BPF helpers and conntrack kfuncs [bpf/nat.c] calls are not part of the
    repository; they are the interface classes of this file.  [BpfHelpers] and
    [Conntrack] list the operations, one per helper or kfunc, with the arguments the
    code passes; [BpfHelpersLaws] and [ConntrackLaws] state the documented behaviour
    the theorems rely on (bpf-helpers(7), and [docs/ebpf-nat-dataplane.md] sections 5
    and 7 for conntrack).  [RefKernel] gives an executable instance.

    The second half is the state a program runs in ([world]) and the primitive
    actions of the program text on it, in the monad of [Prelude]: packet loads that
    fault outside the linear data, helper calls, map accesses, and the reference
    counts a program must balance. *)
From S2P Require Import Prelude CLayout Checksum Vmlinux NatTypes.
#[local] Open Scope Z_scope.

(** ** Helpers *)

(** Results are [(rc, state')]; a negative [rc] is an error. *)
Class BpfHelpers := {
  (** data, offset, bytes, flags *)
  bpf_skb_store_bytes : list Z → Z → list Z → Z → Z * list Z;
  (** data, offset, length *)
  bpf_skb_load_bytes : list Z → Z → Z → Z * list Z;
  (** data, offset of the checksum field, from, to, size *)
  bpf_l3_csum_replace : list Z → Z → Z → Z → Z → Z * list Z;
  (** partial checksum?, data, offset of the checksum field, from, to, flags and size *)
  bpf_l4_csum_replace : bool → list Z → Z → Z → Z → Z → Z * list Z;
  (** [bpf_map_update_elem] on the per-CPU counters: map, key, value, flags *)
  bpf_stats_update_elem : gmap Z nat_stats → Z → nat_stats → Z → Z * gmap Z nat_stats;
  (** [bpf_map_lookup_elem] on a [BPF_MAP_TYPE_LPM_TRIE] *)
  bpf_lpm_lookup_elem : gmap policy_key policy_val → policy_key → option policy_val;
  (** the records in the buffer, the size asked for; the memory handed out holds
      whatever the buffer held before *)
  bpf_ringbuf_reserve : list (list Z) → Z → option (list Z);
  (** ifindex, flags *)
  bpf_redirect : Z → Z → Z;
  bpf_redirect_neigh : Z → Z → Z
}.

(** The 32-bit value of a network-order address. *)
Definition ntohl (v : Z) : Z := be_val (le_bytes 4 v).

(** LPM matching: the first [prefixlen] bits, most significant bit of the first
    byte first, agree. *)
Definition lpm_matches (p k : policy_key) : Prop :=
  0 ≤ pk_prefixlen p ≤ pk_prefixlen k ∧
  Z.shiftr (ntohl (pk_addr p)) (32 - pk_prefixlen p) =
  Z.shiftr (ntohl (pk_addr k)) (32 - pk_prefixlen p).

#[export] Instance lpm_matches_dec p k : Decision (lpm_matches p k).
Proof. unfold lpm_matches. apply _. Defined.

(** The low four bits of the flags are the size of the summed field that changed, 2 or 4
    bytes; the values must fit it. *)
Definition csum_field (size from to : Z) : Prop :=
  (size = 2 ∨ size = 4) ∧ 0 ≤ from < 2 ^ (8 * size) ∧ 0 ≤ to < 2 ^ (8 * size).

(** No flag but the size and [BPF_F_PSEUDO_HDR]. *)
Definition l4_flags (fl : Z) (pseudo : bool) (size : Z) : Prop :=
  fl = Z.lor (if pseudo then BPF_F_PSEUDO_HDR else 0) size.

(** Where the helpers look for a checksum field. *)
Definition csum_place (off : Z) (d : list Z) : Prop :=
  0 ≤ off < 2 ^ 16 ∧ Z.Even off ∧ off + 2 ≤ zlen d.

Class BpfHelpersLaws `{!BpfHelpers} : Prop := {
  store_bytes_spec d off bs fl rc d' :
    bpf_skb_store_bytes d off bs fl = (rc, d') →
    rc < 0 ∨ rc = 0 ∧ 0 ≤ off ∧ off + zlen bs ≤ zlen d ∧ d' = splice off bs d;
  load_bytes_spec d off n :
    0 ≤ off → 0 < n → off + n ≤ zlen d → bpf_skb_load_bytes d off n = (0, slice off n d);
  l3_csum_spec d off from to size rc d' :
    bytes_ok d → csum_field size from to →
    bpf_l3_csum_replace d off from to size = (rc, d') →
    rc < 0 ∨ rc = 0 ∧ csum_updated off from to d d';
  l4_csum_spec partial d off from to fl pseudo size rc d' :
    bytes_ok d → csum_field size from to → l4_flags fl pseudo size →
    bpf_l4_csum_replace partial d off from to fl = (rc, d') →
    rc < 0 ∨ rc = 0 ∧ l4_updated partial pseudo off from to d d';
  stats_update_spec m k v rc m' :
    bpf_stats_update_elem m k v BPF_NOEXIST = (rc, m') →
    rc < 0 ∧ m' = m ∨ rc = 0 ∧ m !! k = None ∧ m' = <[k := v]> m;
  lpm_lookup_some m k v :
    bpf_lpm_lookup_elem m k = Some v →
    ∃ p, m !! p = Some v ∧ lpm_matches p k ∧
         ∀ p' v', m !! p' = Some v' → lpm_matches p' k → pk_prefixlen p' ≤ pk_prefixlen p;
  lpm_lookup_none m k :
    bpf_lpm_lookup_elem m k = None → ∀ p v, m !! p = Some v → ¬ lpm_matches p k;
  ringbuf_reserve_spec evs n mem :
    bpf_ringbuf_reserve evs n = Some mem → zlen mem = n ∧ bytes_ok mem
}.

(** Stores and checksum updates that stay inside the packet succeed: holds for a
    packet the kernel can make writable. *)
Class StoresSucceed `{!BpfHelpers} : Prop := {
  store_bytes_ok d off bs fl :
    0 ≤ off → off + zlen bs ≤ zlen d →
    bpf_skb_store_bytes d off bs fl = (0, splice off bs d);
  l3_csum_replace_ok d off from to size :
    csum_place off d → csum_field size from to → fst (bpf_l3_csum_replace d off from to size) = 0;
  l4_csum_replace_ok partial d off from to fl pseudo size :
    csum_place off d → csum_field size from to → l4_flags fl pseudo size →
    fst (bpf_l4_csum_replace partial d off from to fl) = 0
}.

(** ** Conntrack *)

Class Conntrack := {
  ct_state : Type;
  (** an allocated, not yet inserted entry *)
  ct_init : Type;
  (** table, tuple, tuple size, options, options size; a hit returns the memory
      of the entry, with a reference held *)
  bpf_skb_ct_lookup :
    ct_state → bpf_sock_tuple → Z → bpf_ct_opts → Z → option (list Z) * bpf_ct_opts;
  bpf_skb_ct_alloc :
    ct_state → bpf_sock_tuple → Z → bpf_ct_opts → Z → option ct_init * bpf_ct_opts;
  (** the table is consulted for a unique binding *)
  bpf_ct_set_nat_info : ct_state → ct_init → Z → Z → nf_nat_manip_type → Z * ct_init;
  bpf_ct_set_timeout : ct_init → Z → ct_init;
  bpf_ct_set_status : ct_init → Z → Z * ct_init;
  (** a failed insertion may also find the table changed by another CPU *)
  bpf_ct_insert_entry : ct_state → ct_init → option (list Z) * ct_state
}.

(** Reading a tuple off an entry's memory, as [BPF_CORE_READ] does. *)
Definition core_read_u32 (ct : list Z) (off : Z) : Z := load 4 off ct.
Definition core_read_u16 (ct : list Z) (off : Z) : Z := load 2 off ct.

Definition ct_tuple (ct : list Z) (dir : Z) : bpf_sock_tuple :=
  mkTuple (core_read_u32 ct (ct_src_ip dir)) (core_read_u32 ct (ct_dst_ip dir))
          (core_read_u16 ct (ct_src_port dir)) (core_read_u16 ct (ct_dst_port dir)).

(** The tuple of a packet going the other way. *)
Definition swap_tuple (t : bpf_sock_tuple) : bpf_sock_tuple :=
  mkTuple (tu_daddr t) (tu_saddr t) (tu_dport t) (tu_sport t).

Definition set_dir (o : bpf_ct_opts) (dir : Z) : bpf_ct_opts :=
  mkCtOpts (co_netns_id o) (co_error o) (co_l4proto o) dir (co_ct_zone_id o)
           (co_ct_zone_dir o) (co_reserved o).

(** The members of a tuple fit their types. *)
Definition tuple_ok (t : bpf_sock_tuple) : Prop :=
  0 ≤ tu_saddr t < 2 ^ 32 ∧ 0 ≤ tu_daddr t < 2 ^ 32 ∧
  0 ≤ tu_sport t < 2 ^ 16 ∧ 0 ≤ tu_dport t < 2 ^ 16.

Lemma ct_tuple_ok ct dir : bytes_ok ct → tuple_ok (ct_tuple ct dir).
Proof.
  intros Hb. unfold tuple_ok, ct_tuple, core_read_u32, core_read_u16.
  cbn [tu_saddr tu_daddr tu_sport tu_dport].
  pose proof (load_bound 4 (ct_src_ip dir) ct Hb ltac:(lia)).
  pose proof (load_bound 4 (ct_dst_ip dir) ct Hb ltac:(lia)).
  pose proof (load_bound 2 (ct_src_port dir) ct Hb ltac:(lia)).
  pose proof (load_bound 2 (ct_dst_port dir) ct Hb ltac:(lia)).
  lia.
Qed.

(** The sizes the kfuncs accept for an IPv4 lookup. *)
Definition ct_sizes_ok (tsz osz : Z) : Prop := tsz = sizeof_tuple_ipv4 ∧ osz = sizeof_ct_opts.

Class ConntrackLaws `{!Conntrack} := {
  (** the original and reply tuples and the protocol of an allocated entry *)
  init_orig : ct_init → bpf_sock_tuple;
  init_reply : ct_init → bpf_sock_tuple;
  init_proto : ct_init → Z;
  lookup_hit s t tsz o osz ct o' :
    bpf_skb_ct_lookup s t tsz o osz = (Some ct, o') →
    (co_dir o' = CT_DIR_ORIGINAL ∨ co_dir o' = CT_DIR_REPLY) ∧
    co_l4proto o' = co_l4proto o ∧ co_netns_id o' = co_netns_id o ∧ bytes_ok ct;
  lookup_miss s t tsz o osz o' :
    bpf_skb_ct_lookup s t tsz o osz = (None, o') →
    co_dir o' = co_dir o ∧ co_l4proto o' = co_l4proto o ∧ co_netns_id o' = co_netns_id o;
  alloc_spec s t tsz o osz i o' :
    bpf_skb_ct_alloc s t tsz o osz = (Some i, o') → tuple_ok t →
    init_orig i = t ∧ init_reply i = swap_tuple t ∧ init_proto i = co_l4proto o ∧
    co_dir o' = co_dir o ∧ co_l4proto o' = co_l4proto o ∧ co_netns_id o' = co_netns_id o;
  (** source NAT rewrites where replies go: the reply tuple's destination *)
  nat_src_spec s i addr port i' :
    bpf_ct_set_nat_info s i addr port NF_NAT_MANIP_SRC = (0, i') → 0 ≤ addr < 2 ^ 32 →
    init_orig i' = init_orig i ∧ init_proto i' = init_proto i ∧
    tu_saddr (init_reply i') = tu_saddr (init_reply i) ∧
    tu_sport (init_reply i') = tu_sport (init_reply i) ∧
    tu_daddr (init_reply i') = addr;
  (** destination NAT rewrites where replies come from: its source; port 0 keeps the
      port *)
  nat_dst_spec s i addr port i' :
    bpf_ct_set_nat_info s i addr port NF_NAT_MANIP_DST = (0, i') → 0 ≤ addr < 2 ^ 32 →
    init_orig i' = init_orig i ∧ init_proto i' = init_proto i ∧
    init_reply i' = mkTuple addr (tu_daddr (init_reply i))
                            (if port =? 0 then tu_sport (init_reply i) else bpf_htons port)
                            (tu_dport (init_reply i));
  set_timeout_spec i ms :
    init_orig (bpf_ct_set_timeout i ms) = init_orig i ∧
    init_reply (bpf_ct_set_timeout i ms) = init_reply i ∧
    init_proto (bpf_ct_set_timeout i ms) = init_proto i;
  set_status_spec i st rc i' :
    bpf_ct_set_status i st = (rc, i') →
    init_orig i' = init_orig i ∧ init_reply i' = init_reply i ∧ init_proto i' = init_proto i;
  (** an inserted entry carries both tuples and is found under each of them *)
  insert_spec s i ct s' :
    bpf_ct_insert_entry s i = (Some ct, s') →
    bytes_ok ct ∧ ct_tuple ct CT_DIR_ORIGINAL = init_orig i ∧ ct_tuple ct CT_DIR_REPLY = init_reply i ∧
    (init_orig i ≠ init_reply i → ∀ o tsz osz, ct_sizes_ok tsz osz → co_l4proto o = init_proto i →
       co_netns_id o = BPF_F_CURRENT_NETNS →
       (∃ o', bpf_skb_ct_lookup s' (init_orig i) tsz o osz = (Some ct, o') ∧
              co_dir o' = CT_DIR_ORIGINAL) ∧
       (∃ o', bpf_skb_ct_lookup s' (init_reply i) tsz o osz = (Some ct, o') ∧
              co_dir o' = CT_DIR_REPLY))
}.

(** ** The state of a run *)

(** The packet: its bytes, how many of them are directly accessible
    ([data .. data_end]), the device it arrived on, and whether its L4 checksum is
    left to the device that sends it ([ip_summed] is [CHECKSUM_PARTIAL]). *)
Record skb := mkSkb {
  skb_data : list Z;
  skb_headlen : Z;
  skb_ifindex : Z;
  skb_partial : bool
}.

(** Direct packet access, in any state that holds a packet: the test
    [(void * )(p + 1) <= data_end] for a [p] that ends at offset [off], and a load,
    which faults outside the linear data. *)
Definition within_of {W} (sk : W → skb) (off : Z) : ST W bool :=
  gets (λ w, off <=? skb_headlen (sk w)).

Definition load_of {W} (sk : W → skb) (n off : Z) : ST W Z := λ w,
  if (0 <=? off) && (off + n <=? skb_headlen (sk w))
  then Some (load n off (skb_data (sk w)), w) else None.

Lemma wp_within_of {W} (sk : W → skb) off (Q : bool → W → Prop) w :
  Q (off <=? skb_headlen (sk w)) w → wp (within_of sk off) Q w.
Proof. done. Qed.

Lemma wp_load_of {W} (sk : W → skb) n off (Q : Z → W → Prop) w :
  0 ≤ off → off + n ≤ skb_headlen (sk w) → Q (load n off (skb_data (sk w))) w →
  wp (load_of sk n off) Q w.
Proof.
  intros H1 H2 HQ. unfold wp, load_of.
  by rewrite (proj2 (Z.leb_le _ _) H1), (proj2 (Z.leb_le _ _) H2).
Qed.

(** Where the redirect helpers were told to send the packet. *)
Inductive redirect : Type :=
| ToDevice (ifindex flags : Z)
| ToNeighbour (ifindex flags : Z).

Section world.
Context `{BH : !BpfHelpers, CK : !Conntrack}.

Record world := mkWorld {
  w_skb : skb;
  w_maps : nat_maps;
  w_ct : ct_state;
  (** conntrack references the program holds, and allocated entries it owns *)
  w_refs : Z;
  w_inits : Z;
  w_redirect : option redirect
}.

Definition w_data (w : world) : list Z := skb_data (w_skb w).

Definition set_data (d : list Z) (w : world) : world :=
  mkWorld (mkSkb d (skb_headlen (w_skb w)) (skb_ifindex (w_skb w)) (skb_partial (w_skb w)))
          (w_maps w) (w_ct w) (w_refs w) (w_inits w) (w_redirect w).

Definition set_maps (m : nat_maps) (w : world) : world :=
  mkWorld (w_skb w) m (w_ct w) (w_refs w) (w_inits w) (w_redirect w).

Definition set_stats (s : gmap Z nat_stats) (w : world) : world :=
  set_maps (mkNatMaps (global_config_map (w_maps w)) (vm_config (w_maps w))
    (dnat_rules (w_maps w)) (egress_policy (w_maps w)) (ingress_policy (w_maps w))
    (events (w_maps w)) s) w.

Definition set_events (e : list (list Z)) (w : world) : world :=
  set_maps (mkNatMaps (global_config_map (w_maps w)) (vm_config (w_maps w))
    (dnat_rules (w_maps w)) (egress_policy (w_maps w)) (ingress_policy (w_maps w))
    e (stats (w_maps w))) w.

Definition set_ct (s : ct_state) (w : world) : world :=
  mkWorld (w_skb w) (w_maps w) s (w_refs w) (w_inits w) (w_redirect w).

Definition add_refs (r i : Z) (w : world) : world :=
  mkWorld (w_skb w) (w_maps w) (w_ct w) (w_refs w + r) (w_inits w + i) (w_redirect w).

Definition set_redirect (r : redirect) (w : world) : world :=
  mkWorld (w_skb w) (w_maps w) (w_ct w) (w_refs w) (w_inits w) (Some r).

(** *** Direct packet access *)

Definition within (off : Z) : ST world bool := within_of w_skb off.

Definition pkt_load (n off : Z) : ST world Z := load_of w_skb n off.

(** *** Helper calls *)

Definition skb_store_bytes (off : Z) (bs : list Z) (fl : Z) : ST world Z := λ w,
  let '(rc, d) := bpf_skb_store_bytes (w_data w) off bs fl in Some (rc, set_data d w).

Definition skb_load_bytes (off n : Z) : ST world (list Z) := λ w,
  Some (snd (bpf_skb_load_bytes (w_data w) off n), w).

Definition l3_csum_replace (off from to size : Z) : ST world Z := λ w,
  let '(rc, d) := bpf_l3_csum_replace (w_data w) off from to size in Some (rc, set_data d w).

Definition l4_csum_replace (off from to fl : Z) : ST world Z := λ w,
  let '(rc, d) := bpf_l4_csum_replace (skb_partial (w_skb w)) (w_data w) off from to fl in Some (rc, set_data d w).

Definition redirect_to (ifindex fl : Z) : ST world Z :=
  do* modify (set_redirect (ToDevice ifindex fl)) in ret (bpf_redirect ifindex fl).

Definition redirect_neigh (ifindex fl : Z) : ST world Z :=
  do* modify (set_redirect (ToNeighbour ifindex fl)) in ret (bpf_redirect_neigh ifindex fl).

(** *** Conntrack calls, with the references they take and give back *)

Definition skb_ct_lookup (t : bpf_sock_tuple) (tsz : Z) (o : bpf_ct_opts) (osz : Z)
  : ST world (option (list Z) * bpf_ct_opts) := λ w,
  let r := bpf_skb_ct_lookup (w_ct w) t tsz o osz in
  Some (r, match fst r with Some _ => add_refs 1 0 w | None => w end).

Definition skb_ct_alloc (t : bpf_sock_tuple) (tsz : Z) (o : bpf_ct_opts) (osz : Z)
  : ST world (option ct_init * bpf_ct_opts) := λ w,
  let r := bpf_skb_ct_alloc (w_ct w) t tsz o osz in
  Some (r, match fst r with Some _ => add_refs 0 1 w | None => w end).

Definition ct_set_nat_info (i : ct_init) (addr port : Z) (m : nf_nat_manip_type)
  : ST world (Z * ct_init) := gets (λ w, bpf_ct_set_nat_info (w_ct w) i addr port m).

(** Insertion consumes the allocated entry whether or not it succeeds. *)
Definition ct_insert_entry (i : ct_init) : ST world (option (list Z)) := λ w,
  let '(r, s) := bpf_ct_insert_entry (w_ct w) i in
  Some (r, add_refs (match r with Some _ => 1 | None => 0 end) (-1) (set_ct s w)).

Definition ct_release : ST world unit := modify (add_refs (-1) 0).

End world.

(** ** Stepping through the actions *)

Section actions.
Context `{BH : !BpfHelpers, CK : !Conntrack}.

Lemma wp_within off (Q : bool → world → Prop) w :
  Q (off <=? skb_headlen (w_skb w)) w → wp (within off) Q w.
Proof. done. Qed.

Lemma wp_pkt_load n off (Q : Z → world → Prop) w :
  0 ≤ off → off + n ≤ skb_headlen (w_skb w) → Q (load n off (w_data w)) w →
  wp (pkt_load n off) Q w.
Proof. apply (wp_load_of w_skb). Qed.

Lemma wp_store off bs fl (Q : Z → world → Prop) w :
  (∀ rc d, bpf_skb_store_bytes (w_data w) off bs fl = (rc, d) → Q rc (set_data d w)) →
  wp (skb_store_bytes off bs fl) Q w.
Proof. unfold wp, skb_store_bytes. destruct (bpf_skb_store_bytes _ _ _ _). auto. Qed.

Lemma wp_l3_csum off from to n (Q : Z → world → Prop) w :
  (∀ rc d, bpf_l3_csum_replace (w_data w) off from to n = (rc, d) → Q rc (set_data d w)) →
  wp (l3_csum_replace off from to n) Q w.
Proof. unfold wp, l3_csum_replace. destruct (bpf_l3_csum_replace _ _ _ _ _). auto. Qed.

Lemma wp_l4_csum off from to n (Q : Z → world → Prop) w :
  (∀ rc d, bpf_l4_csum_replace (skb_partial (w_skb w)) (w_data w) off from to n = (rc, d) → Q rc (set_data d w)) →
  wp (l4_csum_replace off from to n) Q w.
Proof. unfold wp, l4_csum_replace. destruct (bpf_l4_csum_replace _ _ _ _ _ _). auto. Qed.

Lemma wp_load_bytes off n (Q : list Z → world → Prop) w :
  (∀ rc bs, bpf_skb_load_bytes (w_data w) off n = (rc, bs) → Q bs w) →
  wp (skb_load_bytes off n) Q w.
Proof. unfold wp, skb_load_bytes. destruct (bpf_skb_load_bytes _ _ _). simpl. eauto. Qed.

Lemma wp_ct_lookup t tsz o osz (Q : option (list Z) * bpf_ct_opts → world → Prop) w :
  (∀ r o', bpf_skb_ct_lookup (w_ct w) t tsz o osz = (r, o') →
           Q (r, o') (match r with Some _ => add_refs 1 0 w | None => w end)) →
  wp (skb_ct_lookup t tsz o osz) Q w.
Proof. unfold wp, skb_ct_lookup. destruct (bpf_skb_ct_lookup _ _ _ _ _). auto. Qed.

Lemma wp_ct_alloc t tsz o osz (Q : option ct_init * bpf_ct_opts → world → Prop) w :
  (∀ r o', bpf_skb_ct_alloc (w_ct w) t tsz o osz = (r, o') →
           Q (r, o') (match r with Some _ => add_refs 0 1 w | None => w end)) →
  wp (skb_ct_alloc t tsz o osz) Q w.
Proof. unfold wp, skb_ct_alloc. destruct (bpf_skb_ct_alloc _ _ _ _ _). auto. Qed.

Lemma wp_ct_nat i addr port m (Q : Z * ct_init → world → Prop) w :
  (∀ rc i', bpf_ct_set_nat_info (w_ct w) i addr port m = (rc, i') → Q (rc, i') w) →
  wp (ct_set_nat_info i addr port m) Q w.
Proof. unfold wp, ct_set_nat_info, gets. destruct (bpf_ct_set_nat_info _ _ _ _ _). auto. Qed.

Lemma wp_ct_insert i (Q : option (list Z) → world → Prop) w :
  (∀ r s, bpf_ct_insert_entry (w_ct w) i = (r, s) →
     Q r (add_refs (match r with Some _ => 1 | None => 0 end) (-1) (set_ct s w))) →
  wp (ct_insert_entry i) Q w.
Proof. unfold wp, ct_insert_entry. destruct (bpf_ct_insert_entry _ _). auto. Qed.

End actions.

(** What a call leaves behind, when it stays inside the packet. *)
Section outcomes.
Context `{BH : !BpfHelpers, BL : !BpfHelpersLaws}.

Lemma store_outcome d off bs fl rc d' :
  bpf_skb_store_bytes d off bs fl = (rc, d') → 0 ≤ off → off + zlen bs ≤ zlen d →
  (rc < 0 ∧ ¬ StoresSucceed) ∨ (rc = 0 ∧ d' = splice off bs d).
Proof.
  intros E Ho Hl. destruct (store_bytes_spec _ _ _ _ _ _ E) as [Hr|(-> & _ & _ & ->)]; [left|by right].
  split; [done|]. intros Hs. rewrite store_bytes_ok in E by done. injection E as <- _. lia.
Qed.

Lemma l3_csum_outcome d off from to n rc d' :
  bpf_l3_csum_replace d off from to n = (rc, d') → bytes_ok d → csum_field n from to → csum_place off d →
  (rc < 0 ∧ ¬ StoresSucceed) ∨ (rc = 0 ∧ csum_updated off from to d d').
Proof.
  intros E Hd Hf Hp. destruct (l3_csum_spec _ _ _ _ _ _ _ Hd Hf E) as [Hr|?]; [left|by right].
  split; [done|]. intros Hs. pose proof (l3_csum_replace_ok d off from to n Hp Hf) as Hz.
  rewrite E in Hz. simpl in Hz. lia.
Qed.

Lemma l4_csum_outcome partial d off from to fl pseudo size rc d' :
  bpf_l4_csum_replace partial d off from to fl = (rc, d') → bytes_ok d → csum_field size from to →
  l4_flags fl pseudo size → csum_place off d →
  (rc < 0 ∧ ¬ StoresSucceed) ∨ (rc = 0 ∧ l4_updated partial pseudo off from to d d').
Proof.
  intros E Hd Hf Hl Hp. destruct (l4_csum_spec _ _ _ _ _ _ _ _ _ _ Hd Hf Hl E) as [Hr|?]; [left|by right].
  split; [done|]. intros Hs. pose proof (l4_csum_replace_ok partial d off from to fl pseudo size Hp Hf Hl) as Hz.
  rewrite E in Hz. simpl in Hz. lia.
Qed.

End outcomes.

(** A conditional of the program. *)
Ltac wp_if H :=
  lazymatch goal with
  | |- wp (if ?b then _ else _) _ _ => destruct b eqn:H; bool_prop
  end.
