(* ===== verification/RefKernel.v ===== *)
(** * A reference kernel

    An executable instance of the interfaces of [Kernel], used to show that the
    documented laws hold together and to run the programs on concrete packets.  It
    is not a model of the Linux sources, which the repository does not contain: it
    is one environment that behaves as documented.  The conntrack table is a list of
    entries; [racer] is an entry another CPU inserts just before the program's own
    insertion, which then fails. *)
From S2P Require Import Prelude CLayout Checksum Vmlinux NatTypes Kernel.
#[local] Open Scope Z_scope.

(** ** Helpers *)

Definition in_packet (d : list Z) (off n : Z) : bool := (0 <=? off) && (off + n <=? zlen d).

Definition ref_store (d : list Z) (off : Z) (bs : list Z) (_ : Z) : Z * list Z :=
  if in_packet d off (zlen bs) then (0, splice off bs d) else (-14, d).

Definition ref_load (d : list Z) (off n : Z) : Z * list Z :=
  if in_packet d off n then (0, slice off n d) else (-14, replicate (Z.to_nat n) 0).

(** [csum_fold] of a sum of a few 32-bit words. *)
Definition fold_carries (s : Z) : Z :=
  let f x := x mod 65536 + x / 65536 in f (f (f s)).

(** [csum_replace4]: complement, subtract, add, fold, complement. *)
Definition ref_csum (c from to : Z) : Z :=
  65535 - fold_carries ((65535 - c) + (2 ^ 32 - 1 - from) + to).

(** The field is at an even offset below 2^16; the values are cut to the size. *)
Definition ref_csum_replace (d : list Z) (off from to size : Z) : Z * list Z :=
  if negb ((size =? 2) || (size =? 4)) then (-22, d)
  else if (2 ^ 16 <=? off) || Z.odd off || negb (in_packet d off 2) then (-14, d)
  else (0, splice off (le_bytes 2 (ref_csum (load 2 off d) (wrap (8 * size) from) (wrap (8 * size) to))) d).

(** A partial checksum is the sum itself, so the update goes the other way. *)
Definition ref_l4_csum_replace (partial : bool) (d : list Z) (off from to fl : Z) : Z * list Z :=
  if negb (Z.land fl (Z.lnot 0x1f) =? 0) then (-22, d)
  else if partial then
    if Z.testbit fl 4 then ref_csum_replace d off to from (Z.land fl 0xf)
    else (fst (ref_csum_replace d off from to (Z.land fl 0xf)), d)
  else ref_csum_replace d off from to (Z.land fl 0xf).

Definition ref_stats_update (m : gmap Z nat_stats) (k : Z) (v : nat_stats) (fl : Z)
  : Z * gmap Z nat_stats :=
  match m !! k with
  | Some _ => (-17, m)
  | None => if Z.of_nat (size m) <? 4096 then (0, <[k := v]> m) else (-7, m)
  end.

(** Longest match by a scan of the entries. *)
Definition lpm_better (k : policy_key) (best : option (policy_key * policy_val))
  (e : policy_key * policy_val) : option (policy_key * policy_val) :=
  if decide (lpm_matches (fst e) k) then
    match best with
    | Some b => if pk_prefixlen (fst b) <? pk_prefixlen (fst e) then Some e else best
    | None => Some e
    end
  else best.

Definition ref_lpm (m : gmap policy_key policy_val) (k : policy_key) : option policy_val :=
  snd <$> fold_left (lpm_better k) (map_to_list m) None.

(** A buffer of 8192 records that hands out memory full of old bytes. *)
Definition ref_reserve (evs : list (list Z)) (n : Z) : option (list Z) :=
  if zlen evs <? 8192 then Some (replicate (Z.to_nat n) 165) else None.

#[export] Instance ref_helpers : BpfHelpers := {
  bpf_skb_store_bytes := ref_store;
  bpf_skb_load_bytes := ref_load;
  bpf_l3_csum_replace := ref_csum_replace;
  bpf_l4_csum_replace := ref_l4_csum_replace;
  bpf_stats_update_elem := ref_stats_update;
  bpf_lpm_lookup_elem := ref_lpm;
  bpf_ringbuf_reserve evs n := if 0 <=? n then ref_reserve evs n else None;
  bpf_redirect _ fl := if fl =? 0 then TC_ACT_REDIRECT else TC_ACT_SHOT;
  bpf_redirect_neigh _ fl := if fl =? 0 then TC_ACT_REDIRECT else TC_ACT_SHOT
}.

(** ** Conntrack *)

Record ref_entry := mkEntry {
  e_orig : bpf_sock_tuple;
  e_reply : bpf_sock_tuple;
  e_proto : Z;
  e_timeout : Z;
  e_status : Z
}.

Record ref_ct := mkRefCt {
  table : list ref_entry;
  racer : option ref_entry;
  nat_ports : list Z
}.

(** A tuple as stored: every member cut to its width. *)
Definition norm (t : bpf_sock_tuple) : bpf_sock_tuple :=
  mkTuple (wrap 32 (tu_saddr t)) (wrap 32 (tu_daddr t))
          (wrap 16 (tu_sport t)) (wrap 16 (tu_dport t)).

(** The memory of a [struct nf_conn] holding an entry. *)
Definition put_tuple (dir : Z) (t : bpf_sock_tuple) (mem : list Z) : list Z :=
  splice (ct_dst_port dir) (le_bytes 2 (tu_dport t))
    (splice (ct_dst_ip dir) (le_bytes 4 (tu_daddr t))
      (splice (ct_src_port dir) (le_bytes 2 (tu_sport t))
        (splice (ct_src_ip dir) (le_bytes 4 (tu_saddr t)) mem))).

Definition sizeof_nf_conn : Z := Eval vm_compute in sizeof vmlinux.nf_conn.

Definition image (e : ref_entry) : list Z :=
  put_tuple CT_DIR_REPLY (e_reply e)
    (put_tuple CT_DIR_ORIGINAL (e_orig e) (replicate (Z.to_nat sizeof_nf_conn) 0)).

(** The direction in which an entry matches a tuple. *)
Definition entry_dir (t : bpf_sock_tuple) (proto : Z) (e : ref_entry) : option Z :=
  if e_proto e =? proto then
    if decide (norm (e_orig e) = t) then Some CT_DIR_ORIGINAL
    else if decide (norm (e_reply e) = t) then Some CT_DIR_REPLY
    else None
  else None.

Fixpoint find_entry (l : list ref_entry) (t : bpf_sock_tuple) (proto : Z)
  : option (ref_entry * Z) :=
  match l with
  | [] => None
  | e :: l =>
      match entry_dir t proto e with
      | Some dir => Some (e, dir)
      | None => find_entry l t proto
      end
  end.

Definition ct_args_ok (tsz : Z) (o : bpf_ct_opts) (osz : Z) : bool :=
  (tsz =? sizeof_tuple_ipv4) && (osz =? sizeof_ct_opts) && (co_netns_id o =? BPF_F_CURRENT_NETNS).

Definition set_error (o : bpf_ct_opts) (e : Z) : bpf_ct_opts :=
  mkCtOpts (co_netns_id o) e (co_l4proto o) (co_dir o) (co_ct_zone_id o)
           (co_ct_zone_dir o) (co_reserved o).

Definition ref_lookup (s : ref_ct) (t : bpf_sock_tuple) (tsz : Z) (o : bpf_ct_opts) (osz : Z)
  : option (list Z) * bpf_ct_opts :=
  if ct_args_ok tsz o osz then
    match find_entry (table s) t (co_l4proto o) with
    | Some (e, dir) => (Some (image e), set_dir o dir)
    | None => (None, set_error o (-2))
    end
  else (None, set_error o (-22)).

Definition ref_alloc (s : ref_ct) (t : bpf_sock_tuple) (tsz : Z) (o : bpf_ct_opts) (osz : Z)
  : option ref_entry * bpf_ct_opts :=
  if ct_args_ok tsz o osz
  then (Some (mkEntry t (swap_tuple t) (co_l4proto o) 0 0), o)
  else (None, set_error o (-22)).

Definition set_reply (e : ref_entry) (t : bpf_sock_tuple) : ref_entry :=
  mkEntry (e_orig e) t (e_proto e) (e_timeout e) (e_status e).

(** Source NAT keeps the port when it is free, else takes the first free one of
    [nat_ports]; with none left it fails. *)
Definition snat_candidates (s : ref_ct) (e : ref_entry) (addr port : Z) : list bpf_sock_tuple :=
  let r := e_reply e in
  map (λ p, mkTuple (tu_saddr r) addr (tu_sport r) p)
      (if port =? 0 then tu_dport r :: map bpf_htons (nat_ports s) else [bpf_htons port]).

Definition tuple_free (s : ref_ct) (proto : Z) (t : bpf_sock_tuple) : bool :=
  match find_entry (table s) (norm t) proto with Some _ => false | None => true end.

Definition ref_set_nat_info (s : ref_ct) (e : ref_entry) (addr port : Z) (m : nf_nat_manip_type)
  : Z * ref_entry :=
  match m with
  | NF_NAT_MANIP_SRC =>
      match find (tuple_free s (e_proto e)) (snat_candidates s e addr port) with
      | Some t => (0, set_reply e t)
      | None => (-12, e)
      end
  | NF_NAT_MANIP_DST =>
      (0, set_reply e (mkTuple addr (tu_daddr (e_reply e))
                        (if port =? 0 then tu_sport (e_reply e) else bpf_htons port)
                        (tu_dport (e_reply e))))
  end.

Definition ref_insert (s : ref_ct) (e : ref_entry) : option (list Z) * ref_ct :=
  match racer s with
  | Some r => (None, mkRefCt (r :: table s) None (nat_ports s))
  | None =>
      if tuple_free s (e_proto e) (e_orig e) && tuple_free s (e_proto e) (e_reply e)
      then (Some (image e), mkRefCt (e :: table s) None (nat_ports s))
      else (None, s)
  end.

#[export] Instance ref_conntrack : Conntrack := {
  ct_state := ref_ct;
  ct_init := ref_entry;
  bpf_skb_ct_lookup := ref_lookup;
  bpf_skb_ct_alloc := ref_alloc;
  bpf_ct_set_nat_info := ref_set_nat_info;
  bpf_ct_set_timeout e ms := mkEntry (e_orig e) (e_reply e) (e_proto e) ms (e_status e);
  bpf_ct_set_status e st := (0, mkEntry (e_orig e) (e_reply e) (e_proto e) (e_timeout e) st);
  bpf_ct_insert_entry := ref_insert
}.

(** ** The laws hold *)

Lemma in_packet_spec d off n : in_packet d off n = true ↔ 0 ≤ off ∧ off + n ≤ zlen d.
Proof. unfold in_packet. by rewrite andb_true_iff, !Z.leb_le. Qed.

Lemma fold_carries_spec s :
  0 ≤ s < 2 ^ 34 → 0 ≤ fold_carries s < 65536 ∧ fold_carries s mod 65535 = s mod 65535.
Proof.
  intros Hs. unfold fold_carries.
  assert (∀ x, (x mod 65536 + x / 65536) mod 65535 = x mod 65535) as Hc.
  { intros x. apply (cong_intro _ _ (- (x / 65536))). Z.to_euclidean_division_equations; lia. }
  split; [|by rewrite !Hc]. Z.to_euclidean_division_equations; lia.
Qed.

Lemma ref_csum_spec c from to :
  0 ≤ c < 65536 → 0 ≤ from < 2 ^ 32 → 0 ≤ to < 2 ^ 32 →
  0 ≤ ref_csum c from to < 65536 ∧
  ref_csum c from to mod 65535 = (c + from - to) mod 65535.
Proof.
  intros Hc Hf Ht. unfold ref_csum.
  destruct (fold_carries_spec (65535 - c + (2 ^ 32 - 1 - from) + to)) as [Hb Hm]; [lia|].
  split; [lia|]. destruct (cong_elim _ _ Hm) as [k Hk].
  apply (cong_intro _ _ (- k - 65537)). lia.
Qed.

Lemma ref_csum_replace_spec d off from to size rc d' :
  bytes_ok d → csum_field size from to → ref_csum_replace d off from to size = (rc, d') →
  rc < 0 ∨ rc = 0 ∧ csum_updated off from to d d'.
Proof.
  intros Hd (Hs & Hf & Ht). unfold ref_csum_replace, wrap. rewrite !(Z.mod_small _ (2 ^ (8 * size))) by done.
  assert (2 ^ (8 * size) ≤ 2 ^ 32) by (destruct Hs as [->| ->]; done).
  destruct (negb _); [intros [= <- <-]; by left|].
  destruct (_ || _ || _) eqn:E; [intros [= <- <-]; by left|]. intros [= <- <-]. right.
  apply orb_false_iff in E as [_ E]. apply negb_false_iff, in_packet_spec in E as [Ho Hl].
  split; [done|]. split_and!; [done..|].
  pose proof (load_bound 2 off d Hd ltac:(lia)) as Hb.
  destruct (ref_csum_spec (load 2 off d) from to) as [Hr Hm]; [lia..|].
  eexists. split_and!; [| |done|done]; lia.
Qed.

Lemma l4_flags_fields fl pseudo size :
  l4_flags fl pseudo size → size = 2 ∨ size = 4 →
  Z.land fl (Z.lnot 0x1f) = 0 ∧ Z.land fl 0xf = size ∧ Z.testbit fl 4 = pseudo.
Proof. intros -> [->| ->]; by destruct pseudo. Qed.

Lemma ref_l4_csum_spec partial d off from to fl pseudo size rc d' :
  bytes_ok d → csum_field size from to → l4_flags fl pseudo size →
  ref_l4_csum_replace partial d off from to fl = (rc, d') →
  rc < 0 ∨ rc = 0 ∧ l4_updated partial pseudo off from to d d'.
Proof.
  intros Hd Hf Hl. pose proof Hf as (Hs & Hff & Hft). unfold ref_l4_csum_replace, l4_updated.
  destruct (l4_flags_fields _ _ _ Hl Hs) as (-> & -> & ->). cbn [Z.eqb negb].
  destruct partial; [destruct pseudo|]; [by apply ref_csum_replace_spec| |by apply ref_csum_replace_spec].
  destruct (ref_csum_replace _ _ _ _ _) as [rc1 d1] eqn:E. intros [= <- <-].
  destruct (ref_csum_replace_spec _ _ _ _ _ _ _ Hd Hf E) as [?|[-> _]]; auto.
Qed.

Lemma ref_csum_replace_ok d off from to size :
  csum_place off d → csum_field size from to → fst (ref_csum_replace d off from to size) = 0.
Proof.
  intros ([Ho H16] & He & Hl) (Hs & _). unfold ref_csum_replace.
  assert ((size =? 2) || (size =? 4) = true) as -> by (destruct Hs as [->| ->]; done).
  rewrite (proj2 (in_packet_spec d off 2)) by done.
  rewrite <- Z.negb_even, (proj2 (Z.even_spec _) He). by rewrite (proj2 (Z.leb_gt _ _) H16).
Qed.

Lemma lpm_fold_spec k l best :
  let r := fold_left (lpm_better k) l best in
  (∀ e, best = Some e → lpm_matches (fst e) k) →
  (∀ e, r = Some e → (e ∈ l ∨ best = Some e) ∧ lpm_matches (fst e) k) ∧
  (∀ e, e ∈ l ∨ best = Some e → lpm_matches (fst e) k →
     ∃ b, r = Some b ∧ pk_prefixlen (fst e) ≤ pk_prefixlen (fst b)).
Proof.
  revert best. induction l as [|e0 l IH]; intros best r Hb; subst r; cbn [fold_left].
  { split; [intros e He; split; [by right|auto]|].
    intros e [[]%not_elem_of_nil|He] _. exists e. split; [done|lia]. }
  destruct (IH (lpm_better k best e0)) as [IH1 IH2].
  { intros e. unfold lpm_better. repeat case_match; intros He; simplify_eq; auto. }
  split.
  - intros e He. destruct (IH1 e He) as [[Hin|Hin] Hm]; (split; [|done]).
    + left. by right.
    + unfold lpm_better in Hin. repeat case_match; simplify_eq; auto; left; left.
  - intros e Hin Hm.
    assert (e ∈ l ∨ ∃ b, lpm_better k best e0 = Some b ∧ lpm_matches (fst b) k ∧
              pk_prefixlen (fst e) ≤ pk_prefixlen (fst b)) as [Hl|(b & Hbb & Hbm & Hle)].
    { destruct Hin as [Hin|Hin]; [apply elem_of_cons in Hin as [->|Hin]; [|by left]|]; right;
        unfold lpm_better; repeat case_match; bool_prop; simplify_eq;
        eexists; (split_and!; [done|by auto|lia]). }
    + by apply IH2; [left|].
    + destruct (IH2 b) as (b' & Hb' & Hle'); [by right|done|]. exists b'. split; [done|lia].
Qed.

#[export] Instance ref_helpers_laws : BpfHelpersLaws.
Proof.
  split; cbn.
  - intros d off bs fl rc d'. unfold ref_store.
    destruct (in_packet d off (zlen bs)) eqn:E; intros [= <- <-]; [right|by left].
    apply in_packet_spec in E as [??]. done.
  - intros d off n Ho Hn Hl. unfold ref_load.
    by rewrite (proj2 (in_packet_spec d off n)).
  - intros d off from to size rc d'. apply ref_csum_replace_spec.
  - intros partial d off from to fl pseudo size rc d'. apply ref_l4_csum_spec.
  - intros m k v rc m'. unfold ref_stats_update.
    repeat case_match; intros [= <- <-]; [by left|by right|by left].
  - intros m k v. unfold ref_lpm.
    destruct (lpm_fold_spec k (map_to_list m) None) as [H1 H2]; [done|].
    destruct (fold_left _ _ _) as [[p v']|]; [|done]. intros [= ->].
    destruct (H1 _ eq_refl) as [[Hin|?] Hm]; [|done]. apply elem_of_map_to_list in Hin.
    exists p. split_and!; [done..|]. intros p' v' Hp' Hm'.
    destruct (H2 (p', v')) as (b & [= <-] & Hle); [|done|done].
    left. by apply elem_of_map_to_list.
  - intros m k. unfold ref_lpm.
    destruct (lpm_fold_spec k (map_to_list m) None) as [_ H2]; [done|].
    destruct (fold_left _ _ _) as [[p v']|]; [done|]. intros _ p v Hp Hm.
    destruct (H2 (p, v)) as (b & ? & _); [|done|done]. left. by apply elem_of_map_to_list.
  - intros evs n mem. unfold ref_reserve. repeat case_match; intros [= <-]; bool_prop.
    split; [unfold zlen; rewrite length_replicate; lia|].
    apply Forall_replicate. unfold byte_ok. lia.
Qed.

#[export] Instance ref_stores_succeed : StoresSucceed.
Proof.
  split; cbn.
  - intros d off bs fl Ho Hl. unfold ref_store. by rewrite (proj2 (in_packet_spec _ _ _)).
  - apply ref_csum_replace_ok.
  - intros partial d off from to fl pseudo size Hp Hf Hl. unfold ref_l4_csum_replace.
    destruct (l4_flags_fields _ _ _ Hl (proj1 Hf)) as (-> & -> & ->). cbn [Z.eqb negb].
    destruct partial; [destruct pseudo|]; try by apply ref_csum_replace_ok.
    apply ref_csum_replace_ok; [done|]. destruct Hf as (? & ? & ?). done.
Qed.

(** *** Conntrack *)

(** Where the tuples of an entry lie in a [struct nf_conn]. *)
Lemma ct_offsets dir :
  dir = CT_DIR_ORIGINAL ∨ dir = CT_DIR_REPLY →
  ct_src_ip dir = 32 + 56 * dir ∧ ct_src_port dir = 48 + 56 * dir ∧
  ct_dst_ip dir = 52 + 56 * dir ∧ ct_dst_port dir = 68 + 56 * dir.
Proof. intros [->| ->]; split_and!; vm_compute; reflexivity. Qed.

Lemma zlen_put_tuple dir t mem :
  dir = CT_DIR_ORIGINAL ∨ dir = CT_DIR_REPLY → sizeof_nf_conn ≤ zlen mem →
  zlen (put_tuple dir t mem) = zlen mem.
Proof.
  intros Hdir Hl. unfold put_tuple. destruct (ct_offsets dir Hdir) as (E1 & E2 & E3 & E4).
  rewrite E1, E2, E3, E4. unfold sizeof_nf_conn in Hl.
  assert (0 ≤ dir ≤ 1) by (unfold CT_DIR_ORIGINAL, CT_DIR_REPLY in *; lia).
  solve_bytes.
Qed.

Lemma ct_tuple_put_eq dir t mem :
  dir = CT_DIR_ORIGINAL ∨ dir = CT_DIR_REPLY → sizeof_nf_conn ≤ zlen mem →
  ct_tuple (put_tuple dir t mem) dir = norm t.
Proof.
  intros Hdir Hl. unfold ct_tuple, put_tuple, core_read_u32, core_read_u16, norm.
  destruct (ct_offsets dir Hdir) as (E1 & E2 & E3 & E4). rewrite E1, E2, E3, E4.
  unfold sizeof_nf_conn in Hl.
  assert (0 ≤ dir ≤ 1) by (unfold CT_DIR_ORIGINAL, CT_DIR_REPLY in *; lia).
  f_equal;
    repeat first
      [ rewrite load_splice_eq by (solve_bytes);
        rewrite le_val_le_bytes; done
      | rewrite load_splice_ne by (solve_bytes) ].
Qed.

Lemma ct_tuple_put_ne dir dir' t mem :
  dir = CT_DIR_ORIGINAL ∨ dir = CT_DIR_REPLY → dir' = CT_DIR_ORIGINAL ∨ dir' = CT_DIR_REPLY →
  dir ≠ dir' → sizeof_nf_conn ≤ zlen mem →
  ct_tuple (put_tuple dir t mem) dir' = ct_tuple mem dir'.
Proof.
  intros Hdir Hdir' Hne Hl. unfold ct_tuple, put_tuple, core_read_u32, core_read_u16.
  destruct (ct_offsets dir Hdir) as (-> & -> & -> & ->).
  destruct (ct_offsets dir' Hdir') as (-> & -> & -> & ->).
  unfold sizeof_nf_conn, CT_DIR_ORIGINAL, CT_DIR_REPLY in *.
  f_equal;
    repeat rewrite load_splice_ne by (solve_bytes); done.
Qed.

Lemma zlen_blank : zlen (replicate (Z.to_nat sizeof_nf_conn) 0) = sizeof_nf_conn.
Proof. reflexivity. Qed.

Lemma image_orig e : ct_tuple (image e) CT_DIR_ORIGINAL = norm (e_orig e).
Proof.
  unfold image. pose proof zlen_blank. rewrite ct_tuple_put_ne, ct_tuple_put_eq;
    rewrite ?zlen_put_tuple; auto; lia || done.
Qed.

Lemma image_reply e : ct_tuple (image e) CT_DIR_REPLY = norm (e_reply e).
Proof.
  unfold image. pose proof zlen_blank. rewrite ct_tuple_put_eq;
    rewrite ?zlen_put_tuple; auto; lia.
Qed.

Lemma image_bytes_ok e : bytes_ok (image e).
Proof.
  unfold image, put_tuple.
  repeat apply bytes_ok_splice; try apply bytes_ok_le_bytes.
  apply Forall_replicate. unfold byte_ok. lia.
Qed.

Lemma norm_id t : tuple_ok t → norm t = t.
Proof.
  destruct t as [a b c d]. unfold tuple_ok, norm, wrap. simpl. intros (?&?&?&?).
  by rewrite !Z.mod_small.
Qed.

Lemma find_entry_dir l t proto e dir :
  find_entry l t proto = Some (e, dir) → dir = CT_DIR_ORIGINAL ∨ dir = CT_DIR_REPLY.
Proof.
  induction l as [|e' l IH]; [done|]. cbn [find_entry]. unfold entry_dir.
  repeat case_match; intros; simplify_eq; auto.
Qed.

Lemma ct_sizes_args tsz o osz :
  ct_sizes_ok tsz osz → co_netns_id o = BPF_F_CURRENT_NETNS → ct_args_ok tsz o osz = true.
Proof. intros [-> ->] E. unfold ct_args_ok. by rewrite E. Qed.

Lemma ref_nat_src_spec s e addr port e' :
  ref_set_nat_info s e addr port NF_NAT_MANIP_SRC = (0, e') →
  e_orig e' = e_orig e ∧ e_proto e' = e_proto e ∧
  tu_saddr (e_reply e') = tu_saddr (e_reply e) ∧ tu_sport (e_reply e') = tu_sport (e_reply e) ∧
  tu_daddr (e_reply e') = addr.
Proof.
  unfold ref_set_nat_info. destruct (find _ _) as [t|] eqn:E; [|done]. intros [= <-].
  apply find_some in E as [Hin _]. unfold snat_candidates in Hin.
  apply in_map_iff in Hin as (p & <- & _). done.
Qed.

Lemma some_pair_inv {A B} (a c : A) (b d : B) : (Some a, b) = (Some c, d) → a = c ∧ b = d.
Proof. by intros [= -> ->]. Qed.

#[export, refine] Instance ref_conntrack_laws : ConntrackLaws := {
  init_orig := λ e : ref_entry, norm (e_orig e);
  init_reply := λ e : ref_entry, norm (e_reply e);
  init_proto := e_proto
}.
Proof.
  - intros s t tsz o osz ct o'. cbn [bpf_skb_ct_lookup ref_conntrack]. unfold ref_lookup.
    destruct (ct_args_ok tsz o osz); [|done].
    destruct (find_entry _ _ _) as [[e dir]|] eqn:E; [|done]. intros [<- <-]%some_pair_inv.
    split; [by eapply find_entry_dir|]. split_and!; [done..|]. apply image_bytes_ok.
  - intros s t tsz o osz o'. cbn [bpf_skb_ct_lookup ref_conntrack]. unfold ref_lookup.
    destruct (ct_args_ok tsz o osz); [|by intros [= <-]].
    destruct (find_entry _ _ _) as [[e dir]|]; [done|by intros [= <-]].
  - intros s t tsz o osz i o'. cbn [bpf_skb_ct_alloc ref_conntrack]. unfold ref_alloc.
    destruct (ct_args_ok tsz o osz); [|done]. intros [= <- <-] Ht.
    split_and!; cbn; rewrite ?norm_id by done; try done.
    apply norm_id. unfold tuple_ok, swap_tuple in *; simpl in *. tauto.
  - intros s i addr port i' H Ha.
    destruct (ref_nat_src_spec _ _ _ _ _ H) as (-> & -> & E1 & E2 & E3).
    unfold norm; simpl. rewrite E1, E2, E3. split_and!; try done.
    by apply Z.mod_small.
  - intros s i addr port i' [= <-] Ha. split_and!; [done..|].
    unfold norm; simpl. f_equal; [by apply Z.mod_small|].
    destruct (port =? 0); [done|]. apply Z.mod_small, bswap16_bound.
  - done.
  - intros i st rc i' [= <- <-]. done.
  - intros s i ct s'. cbn [bpf_ct_insert_entry ref_conntrack]. unfold ref_insert.
    destruct (racer s); [done|]. destruct (_ && _); [|done]. intros [<- <-]%some_pair_inv.
    split; [apply image_bytes_ok|]. split; [apply image_orig|]. split; [apply image_reply|].
    intros Hne o tsz osz Hsz Hp Hn. pose proof (ct_sizes_args _ _ _ Hsz Hn) as Ha.
    cbn [bpf_skb_ct_lookup ref_conntrack]. unfold ref_lookup. rewrite Ha, Hp.
    cbn [table find_entry]. unfold entry_dir.
    rewrite Z.eqb_refl. rewrite (decide_True _ _ (eq_refl (norm (e_orig i)))).
    rewrite (decide_False _ _ Hne), (decide_True _ _ (eq_refl (norm (e_reply i)))).
    split; eexists; split; reflexivity.
Defined.
