(* ===== verification/Samples.v ===== *)
(** * Sample packets and configurations

    Concrete data the witnesses run the programs on: frames built from addresses and
    ports with correct checksums, a host with one published guest, and the reference
    kernel's initial states. *)
From S2P Require Import Prelude CLayout Checksum Vmlinux NatTypes Kernel RefKernel.
#[local] Open Scope Z_scope.

(** The checksum field value that makes a region sum to zero. *)
Definition checksum_of (s : Z) : Z := 65535 - fold_carries s.

Definition be16_bytes (v : Z) : list Z := [v / 256 mod 256; v mod 256].

(** An Ethernet and IPv4 frame around an L4 segment; addresses are 4 bytes. *)
Definition frame (dmac smac src dst : list Z) (proto : Z) (seg : list Z) : list Z :=
  let hdr c := [69; 0] ++ be16_bytes (20 + zlen seg) ++ [18; 52; 64; 0; 64; proto]
                 ++ le_bytes 2 c ++ src ++ dst in
  dmac ++ smac ++ [8; 0] ++ hdr (checksum_of (sum16 (hdr 0))) ++ seg.

Definition pseudo (src dst : list Z) (proto n : Z) : Z :=
  sum16 src + sum16 dst + 256 * proto + bswap16 n.

Definition tcp_frame (dmac smac src dst : list Z) (sport dport : Z) (payload : list Z) : list Z :=
  let seg c := be16_bytes sport ++ be16_bytes dport ++ [0; 0; 0; 1; 0; 0; 0; 0; 80; 16; 255; 255]
                 ++ le_bytes 2 c ++ [0; 0] ++ payload in
  frame dmac smac src dst IPPROTO_TCP
    (seg (checksum_of (pseudo src dst IPPROTO_TCP (20 + zlen payload) + sum16 (seg 0)))).

Definition udp_frame (dmac smac src dst : list Z) (sport dport : Z) (payload : list Z) : list Z :=
  let seg c := be16_bytes sport ++ be16_bytes dport ++ be16_bytes (8 + zlen payload)
                 ++ le_bytes 2 c ++ payload in
  frame dmac smac src dst IPPROTO_UDP
    (seg (checksum_of (pseudo src dst IPPROTO_UDP (8 + zlen payload) + sum16 (seg 0)))).

(** The same with a zero ("no checksum") UDP checksum. *)
Definition udp_frame_nocsum (dmac smac src dst : list Z) (sport dport : Z) (payload : list Z)
  : list Z :=
  frame dmac smac src dst IPPROTO_UDP
    (be16_bytes sport ++ be16_bytes dport ++ be16_bytes (8 + zlen payload) ++ [0; 0] ++ payload).

Definition arp_frame (op : Z) (sha sip tha tip : list Z) : list Z :=
  [255; 255; 255; 255; 255; 255] ++ sha ++ [8; 6] ++ [0; 1; 8; 0; 6; 4] ++ be16_bytes op
    ++ sha ++ sip ++ tha ++ tip.

(** A host 203.0.113.7 with uplink 2 and one guest 10.222.0.2 on TAP 5, whose
    port 25565 is published as host port 30000. *)
Definition host_addr : list Z := [203; 0; 113; 7].
Definition gw_addr : list Z := [10; 222; 0; 1].
Definition vm_addr : list Z := [10; 222; 0; 2].
Definition peer_addr : list Z := [198; 51; 100; 9].
Definition gw_mac : list Z := [2; 0; 10; 222; 0; 1].
Definition vm_mac : list Z := [2; 0; 10; 222; 0; 2].
Definition peer_mac : list Z := [82; 84; 0; 18; 52; 86].

Definition sample_cfg : global_config :=
  mkGlobalConfig (le_val host_addr) 2 (le_val gw_addr) gw_mac 1 1.

Definition sample_vm : vm_entry := mkVmEntry (le_val vm_addr) 5 vm_mac.

Definition sample_dnat_key : dnat_key := mkDnatKey (le_val host_addr) (bpf_htons 30000) 6 0.
Definition sample_dnat_val : dnat_val := mkDnatVal (le_val vm_addr) 5 (bpf_htons 25565) vm_mac.

Definition sample_maps : nat_maps := {|
  global_config_map := {[0 := sample_cfg]};
  vm_config := {[le_val vm_addr := sample_vm]};
  dnat_rules := {[sample_dnat_key := sample_dnat_val]};
  egress_policy := {[mkPolicyKey 24 (le_val [192; 0; 2; 0]) := mkPolicyVal 0 0]};
  ingress_policy := ∅;
  events := [];
  stats := ∅
|}.

Definition sample_ct : ref_ct := mkRefCt [] None [40001; 40002].

Definition sample_world (d : list Z) (ifindex : Z) : world :=
  mkWorld (mkSkb d (zlen d) ifindex false) sample_maps sample_ct 0 0 None.

(** A guest's request and the same packet over UDP; a peer's request to the
    published port; a gateway ARP request. *)
Definition egress_frame : list Z := Eval vm_compute in
  tcp_frame gw_mac vm_mac vm_addr peer_addr 40000 443 [1; 2; 3; 4; 5].
Definition egress_udp_frame : list Z := Eval vm_compute in
  udp_frame gw_mac vm_mac vm_addr peer_addr 40000 53 [1; 2; 3].
Definition inbound_frame : list Z := Eval vm_compute in
  tcp_frame peer_mac peer_mac peer_addr host_addr 51000 30000 [7; 7].
Definition arp_request : list Z := Eval vm_compute in
  arp_frame 1 vm_mac vm_addr [0; 0; 0; 0; 0; 0] gw_addr.
