(* ===== verification/NatParse.v ===== *)
(** * Packet parsing

    [parse] of [bpf/nat.c]: the Ethernet, IPv4 and TCP/UDP headers of a packet, read
    through bounds-checked packet pointers. *)
From S2P Require Import Prelude CLayout Checksum Vmlinux NatTypes Kernel.
#[local] Open Scope Z_scope.

Section parse.
Context `{BH : !BpfHelpers, CK : !Conntrack}.

(** Returns the C result (1 handled, 0 pass, -1 drop) and the filled [*o]. *)
Definition parse (o : l4off) : ST world (Z * l4off) :=
  let* eth_ok := within sizeof_ethhdr in
  if negb eth_ok then ret (0, o) else
  let* h_proto := pkt_load 2 eth_h_proto in
  if negb (h_proto =? bpf_htons ETH_P_IP) then ret (0, o) else
  let ip := sizeof_ethhdr in
  let* ip_ok := within (ip + sizeof_iphdr) in
  if negb ip_ok then ret (0, o) else
  let* proto := pkt_load 1 (ip + ip_protocol) in
  if negb (proto =? IPPROTO_TCP) && negb (proto =? IPPROTO_UDP) then ret (0, o) else
  let* frag_off := pkt_load 2 (ip + ip_frag_off) in
  let frag := bpf_ntohs frag_off in
  if negb (Z.land frag IP_OFFMASK =? 0) then ret (-1, o) else
  let* ihl_byte := pkt_load 1 (ip + ip_ihl) in
  let ihl := ihl_byte mod 2 ^ ip_ihl_bits * 4 in
  if ihl <? sizeof_iphdr then ret (0, o) else
  let l4 := ip + ihl in
  let* saddr := pkt_load 4 (ip + ip_saddr) in
  let* daddr := pkt_load 4 (ip + ip_daddr) in
  let* tot_len := pkt_load 2 (ip + ip_tot_len) in
  let o := mkL4off ETH_HLEN (ETH_HLEN + ihl) proto (l4_sport o) (l4_dport o)
                   saddr daddr (bpf_ntohs tot_len) in
  if proto =? IPPROTO_TCP then
    let* tcp_ok := within (l4 + sizeof_tcphdr) in
    if negb tcp_ok then ret (0, o) else
    let* source := pkt_load 2 (l4 + tcp_source) in
    let* dest := pkt_load 2 (l4 + tcp_dest) in
    ret (1, mkL4off (ip_off o) (l4_off o) proto source dest saddr daddr (l4_tot_len o))
  else
    let* udp_ok := within (l4 + sizeof_udphdr) in
    if negb udp_ok then ret (0, o) else
    let* source := pkt_load 2 (l4 + udp_source) in
    let* dest := pkt_load 2 (l4 + udp_dest) in
    ret (1, mkL4off (ip_off o) (l4_off o) proto source dest saddr daddr (l4_tot_len o)).

End parse.

(** ** What a handled packet looks like on the wire *)

Definition eth_type (d : list Z) : Z := be_val (slice 12 2 d).
Definition ip_header_len (d : list Z) : Z := load 1 14 d mod 16 * 4.
Definition ip_total_len (d : list Z) : Z := be_val (slice 16 2 d).
Definition ip_fragment_offset (d : list Z) : Z := be_val (slice 20 2 d) mod 8192.
Definition ip_proto (d : list Z) : Z := load 1 23 d.

Definition l4_header_len (proto : Z) : Z := if proto =? IPPROTO_TCP then 20 else 8.

(** An IPv4 header with a protocol the dataplane translates is accessible. *)
Definition ipv4_l4 (d : list Z) (h : Z) : Prop :=
  34 ≤ h ∧ eth_type d = 0x0800 ∧ (ip_proto d = IPPROTO_TCP ∨ ip_proto d = IPPROTO_UDP).

Definition later_fragment (d : list Z) (h : Z) : Prop :=
  ipv4_l4 d h ∧ ip_fragment_offset d ≠ 0.

Definition handled (d : list Z) (h : Z) : Prop :=
  ipv4_l4 d h ∧ ip_fragment_offset d = 0 ∧ 20 ≤ ip_header_len d ∧
  14 + ip_header_len d + l4_header_len (ip_proto d) ≤ h.

#[export] Instance ipv4_l4_dec d h : Decision (ipv4_l4 d h).
Proof. unfold ipv4_l4. apply _. Defined.

#[export] Instance later_fragment_dec d h : Decision (later_fragment d h).
Proof. unfold later_fragment. apply _. Defined.

#[export] Instance handled_dec d h : Decision (handled d h).
Proof. unfold handled. apply _. Defined.

(** What [parse] reports of it. *)
Definition headers (d : list Z) : l4off :=
  mkL4off 14 (14 + ip_header_len d) (ip_proto d)
          (load 2 (14 + ip_header_len d) d) (load 2 (16 + ip_header_len d) d)
          (load 4 26 d) (load 4 30 d) (ip_total_len d).

(** The offsets of the C structures are the ones of the wire format. *)
Lemma wire_offsets :
  sizeof_ethhdr = 14 ∧ sizeof_iphdr = 20 ∧ sizeof_tcphdr = 20 ∧ sizeof_udphdr = 8 ∧
  eth_h_proto = 12 ∧ ip_protocol = 9 ∧ ip_frag_off = 6 ∧ ip_ihl = 0 ∧ ip_ihl_bits = 4 ∧
  ip_saddr = 12 ∧ ip_daddr = 16 ∧ ip_tot_len = 2 ∧ tcp_source = 0 ∧ tcp_dest = 2 ∧
  udp_source = 0 ∧ udp_dest = 2.
Proof. done. Qed.

Lemma be_val_pair off d :
  bytes_ok d → 0 ≤ off → off + 2 ≤ zlen d → be_val (slice off 2 d) = bswap16 (load 2 off d).
Proof.
  intros Hd Ho Hl. unfold load.
  pose proof (zlen_slice off 2 d Ho ltac:(lia) Hl) as Hz.
  pose proof (bytes_ok_slice off 2 d Hd) as Hb.
  destruct (slice off 2 d) as [|a [|b [|? ?]]]; unfold zlen in Hz; simpl in Hz; try lia.
  apply Forall_cons_1 in Hb as [Ha Hb]. apply Forall_cons_1 in Hb as [Hb _].
  unfold byte_ok in *. unfold be_val, bswap16. simpl. Z.to_euclidean_division_equations. lia.
Qed.

Lemma ntohs_eq_const off d v :
  bytes_ok d → 0 ≤ off → off + 2 ≤ zlen d → 0 ≤ v < 65536 →
  load 2 off d = bpf_htons v ↔ be_val (slice off 2 d) = v.
Proof.
  intros Hd Ho Hl Hv. rewrite be_val_pair by done. unfold bpf_htons.
  pose proof (load_bound 2 off d Hd ltac:(lia)). split; intros H1.
  - rewrite H1. by apply bswap16_involutive.
  - rewrite <- H1. symmetry. by apply bswap16_involutive.
Qed.

Lemma land_offmask v : Z.land v IP_OFFMASK = v mod 8192.
Proof. unfold IP_OFFMASK. change 0x1fff with (Z.ones 13). by rewrite Z.land_ones. Qed.

Section parse_facts.
Context `{BH : !BpfHelpers, CK : !Conntrack}.

(** The packet of a run is made of bytes, and its linear part is a prefix. *)
Definition packet_ok (w : world) : Prop :=
  bytes_ok (w_data w) ∧ 0 ≤ skb_headlen (w_skb w) ≤ zlen (w_data w).

#[export] Instance packet_ok_dec w : Decision (packet_ok w).
Proof. unfold packet_ok. apply _. Defined.

Definition parse_result (w : world) (p : Z) (o : l4off) : Prop :=
  let d := w_data w in let h := skb_headlen (w_skb w) in
  (p = 1 ∧ handled d h ∧ o = headers d) ∨
  (p = -1 ∧ later_fragment d h ∧ o = l4off_zero) ∨
  (p = 0 ∧ ¬ handled d h ∧ ¬ later_fragment d h).

Ltac offsets :=
  cbv [sizeof_ethhdr sizeof_iphdr sizeof_tcphdr sizeof_udphdr eth_h_proto ip_protocol
       ip_frag_off ip_ihl ip_ihl_bits ip_saddr ip_daddr ip_tot_len tcp_source tcp_dest
       udp_source udp_dest ETH_HLEN].

Ltac parse_load := apply wp_bind, wp_pkt_load; [lia..|].
Ltac parse_within H := apply wp_bind, wp_within; wp_if H.
Ltac parse_pass := apply wp_ret; split; [done|right; right; split; [done|]].

Lemma wp_parse w :
  packet_ok w → wp (parse l4off_zero) (λ '(p, o) w', w' = w ∧ parse_result w p o) w.
Proof.
  intros [Hd Hh]. unfold parse, parse_result. offsets.
  set (d := w_data w) in *. set (h := skb_headlen (w_skb w)) in *.
  parse_within E1; fold h in E1.
  { parse_pass. unfold handled, later_fragment, ipv4_l4. lia. }
  parse_load. fold d.
  pose proof (ntohs_eq_const 12 d 0x800 Hd ltac:(lia) ltac:(lia) ltac:(lia)) as Het.
  fold (eth_type d) in Het. wp_if E2.
  { parse_pass. unfold handled, later_fragment, ipv4_l4. tauto. }
  apply Het in E2. parse_within E3; fold h in E3.
  { parse_pass. unfold handled, later_fragment, ipv4_l4. lia. }
  parse_load. fold d. change (load 1 (14 + 9) d) with (ip_proto d). wp_if E4.
  { parse_pass. unfold handled, later_fragment, ipv4_l4. tauto. }
  assert (ipv4_l4 d h) as Hip.
  { split_and!; [lia|done|]. apply andb_false_iff in E4 as [E4|E4]; bool_prop; tauto. }
  parse_load. fold d. change (14 + 6) with 20. rewrite land_offmask. unfold bpf_ntohs.
  rewrite <- be_val_pair by (done || lia). fold (ip_fragment_offset d). wp_if E5.
  { apply wp_ret. split; [done|]. right; left. done. }
  parse_load. fold d. change (load 1 (14 + 0) d mod 2 ^ 4 * 4) with (ip_header_len d).
  assert (0 ≤ ip_header_len d) by (unfold ip_header_len; Z.to_euclidean_division_equations; lia).
  wp_if E6.
  { parse_pass. unfold handled, later_fragment. lia. }
  do 3 parse_load. fold d. change (14 + 12) with 26. change (14 + 16) with 30.
  change (14 + 2) with 16. rewrite <- be_val_pair by (done || lia). fold (ip_total_len d).
  set (n := ip_header_len d) in *.
  assert (14 + n + 2 = 16 + n) as Hdst by lia.
  wp_if E7; parse_within E8; fold h in E8.
  1, 3: parse_pass; unfold handled, later_fragment, l4_header_len; fold n;
    destruct (Z.eqb_spec (ip_proto d) IPPROTO_TCP); done || lia.
  all: do 2 parse_load; fold d; apply wp_ret; split; [done|]; left; split; [done|].
  all: unfold handled, headers; fold n; rewrite Z.add_0_r, Hdst.
  all: split; [|done]; split_and!; [done..|]; unfold l4_header_len.
  - rewrite E7. simpl. lia.
  - destruct (Z.eqb_spec (ip_proto d) IPPROTO_TCP); [done|lia].
Qed.
End parse_facts.
