(* ===== verification/NatRewrite.v ===== *)
(** * Header rewriting

    [l4_csum_off], [set_addr], [set_port], [sport_off], [dport_off] and
    [set_eth_dst] of [bpf/nat.c]: the in-place rewrites of addresses, ports and the
    destination MAC, with the incremental checksum updates. *)
From S2P Require Import Prelude CLayout Checksum Vmlinux NatTypes Kernel NatParse.
#[local] Open Scope Z_scope.

Definition l4_csum_off (o : l4off) : Z :=
  if l4_proto o =? IPPROTO_TCP then l4_off o + tcp_check else l4_off o + udp_check.

Definition sport_off (o : l4off) : Z := l4_off o + 0.

Definition dport_off (o : l4off) : Z := l4_off o + 2.

Section rewrite.
Context `{BH : !BpfHelpers, CK : !Conntrack}.

Definition set_addr (o : l4off) (off old_ip new_ip : Z) : ST world Z :=
  if old_ip =? new_ip then ret 0 else
  let* rc := skb_store_bytes off (le_bytes 4 new_ip) 0 in
  if rc <? 0 then ret rc else
  let* rc := l3_csum_replace (ip_off o + ip_check) old_ip new_ip 4 in
  if rc <? 0 then ret rc else
  let l4c := l4_csum_off o in
  if l4_proto o =? IPPROTO_UDP then
    let* cur := skb_load_bytes l4c 2 in
    if le_val cur =? 0 then ret 0
    else l4_csum_replace l4c old_ip new_ip (Z.lor BPF_F_PSEUDO_HDR 4)
  else l4_csum_replace l4c old_ip new_ip (Z.lor BPF_F_PSEUDO_HDR 4).

Definition set_port (o : l4off) (off old_port new_port : Z) : ST world Z :=
  if old_port =? new_port then ret 0 else
  let* rc := skb_store_bytes off (le_bytes 2 new_port) 0 in
  if rc <? 0 then ret rc else
  let l4c := l4_csum_off o in
  if l4_proto o =? IPPROTO_UDP then
    let* cur := skb_load_bytes l4c 2 in
    if le_val cur =? 0 then ret 0
    else l4_csum_replace l4c old_port new_port 2
  else l4_csum_replace l4c old_port new_port 2.

Definition set_eth_dst (mac : list Z) : ST world Z := skb_store_bytes eth_h_dest mac 0.

End rewrite.

(** ** What a rewrite must preserve *)

(** The one's-complement sum of an IPv4 header of [n] bytes. *)
Definition ip_sum (n : Z) (d : list Z) : Z := sum16 (slice 14 n d).

(** The sum a TCP or UDP checksum covers: the pseudo header and the segment of
    [len] bytes after an [n]-byte IPv4 header. *)
Definition pseudo_sum (len : Z) (d : list Z) : Z :=
  load 4 26 d + load 4 30 d + 256 * ip_proto d + bswap16 len.

Definition l4_sum (n len : Z) (d : list Z) : Z :=
  pseudo_sum len d + sum16 (slice (14 + n) len d).

Definition l4_len (d : list Z) : Z := ip_total_len d - ip_header_len d.

(** The segment the total length announces is in the packet. *)
Definition segment_ok (d : list Z) : Prop :=
  14 + ip_total_len d ≤ zlen d ∧ l4_header_len (ip_proto d) ≤ l4_len d.

Definition l4_check_off (d : list Z) : Z :=
  14 + ip_header_len d + if ip_proto d =? IPPROTO_TCP then 16 else 6.

Definition ip_csum_ok (d : list Z) : Prop := csum_ok (ip_sum (ip_header_len d) d).

(** A UDP checksum of zero is an absent one; a partial checksum is the sum of the
    pseudo header, which the device completes. *)
Definition l4_csum_ok (partial : bool) (d : list Z) : Prop :=
  (ip_proto d = IPPROTO_UDP ∧ load 2 (l4_check_off d) d = 0) ∨
  if partial then load 2 (l4_check_off d) d mod 65535 = pseudo_sum (l4_len d) d mod 65535
  else csum_ok (l4_sum (ip_header_len d) (l4_len d) d).

#[export] Instance segment_ok_dec d : Decision (segment_ok d).
Proof. unfold segment_ok. apply _. Defined.

#[export] Instance ip_csum_ok_dec d : Decision (ip_csum_ok d).
Proof. unfold ip_csum_ok, csum_ok. apply _. Defined.

#[export] Instance l4_csum_ok_dec partial d : Decision (l4_csum_ok partial d).
Proof. unfold l4_csum_ok, csum_ok. destruct partial; apply _. Defined.

(** [o] describes where the headers of [d] are. *)
Definition geometry (d : list Z) (o : l4off) : Prop :=
  bytes_ok d ∧ ip_off o = 14 ∧ l4_off o = 14 + ip_header_len d ∧ 20 ≤ ip_header_len d ∧
  l4_proto o = ip_proto d ∧ (ip_proto d = IPPROTO_TCP ∨ ip_proto d = IPPROTO_UDP) ∧
  14 + ip_header_len d + l4_header_len (ip_proto d) ≤ zlen d.

(** [d'] differs from [d] only inside the given regions. *)
Definition changed_only (regions : list (Z * Z)) (d d' : list Z) : Prop :=
  zlen d' = zlen d ∧ bytes_ok d' ∧
  ∀ o n, 0 ≤ o → 0 ≤ n → Forall (λ '(a, b), o + n ≤ a ∨ b ≤ o) regions →
         slice o n d' = slice o n d.

(** The bytes an address rewrite and a port rewrite may touch. *)
Definition addr_regions (d : list Z) (off : Z) : list (Z * Z) :=
  [(24, 26); (off, off + 4); (l4_check_off d, l4_check_off d + 2)].
Definition port_regions (d : list Z) (off : Z) : list (Z * Z) :=
  [(off, off + 2); (l4_check_off d, l4_check_off d + 2)].

(** An [n]-byte field at [off] now holds [v], nothing outside the regions
    changed, and checksums that were right still are. *)
Record rewritten (partial : bool) (regions : list (Z * Z)) (off n v : Z) (d d' : list Z) : Prop := {
  rw_only : changed_only regions d d';
  rw_value : load n off d' = v;
  rw_ip_csum : ip_csum_ok d → ip_csum_ok d';
  rw_l4_csum : segment_ok d → l4_csum_ok partial d → l4_csum_ok partial d'
}.

(** ** Regions *)

Ltac sub_regions :=
  let x := fresh in intros x; rewrite ?elem_of_app, ?elem_of_cons, ?elem_of_nil; tauto.

Lemma changed_only_refl r d : bytes_ok d → changed_only r d d.
Proof. intros ?. split_and!; auto. Qed.

Lemma changed_only_trans r1 r2 d1 d2 d3 :
  changed_only r1 d1 d2 → changed_only r2 d2 d3 → changed_only (r1 ++ r2) d1 d3.
Proof.
  intros (Hz1 & _ & H1) (Hz2 & Hb2 & H2). split_and!; [congruence|done|].
  intros o n Ho Hn [Hr1 Hr2]%Forall_app. by rewrite H2, H1.
Qed.

Lemma changed_only_sub r1 r2 d d' : r1 ⊆ r2 → changed_only r1 d d' → changed_only r2 d d'.
Proof.
  intros Hs (Hz & Hb & H). split_and!; [done..|]. intros o n Ho Hn Hr. apply H; [done..|].
  rewrite Forall_forall in *. intros x Hx. by apply Hr, Hs.
Qed.

Lemma changed_only_store off bs d :
  bytes_ok d → bytes_ok bs → 0 ≤ off → off + zlen bs ≤ zlen d →
  changed_only [(off, off + zlen bs)] d (splice off bs d).
Proof.
  intros. split_and!; [by apply zlen_splice|auto with bytes|].
  intros o n Ho Hn [Hr _]%Forall_cons_1. by apply slice_splice_ne.
Qed.

Lemma changed_only_csum off from to d d' :
  bytes_ok d → csum_updated off from to d d' → changed_only [(off, off + 2)] d d'.
Proof.
  intros Hd Hc. split_and!; [by eapply csum_updated_zlen|by eapply csum_updated_bytes_ok|].
  intros o n Ho Hn [Hr _]%Forall_cons_1. by eapply csum_updated_frame.
Qed.

Lemma changed_only_l4 partial pseudo off from to d d' :
  bytes_ok d → l4_updated partial pseudo off from to d d' → changed_only [(off, off + 2)] d d'.
Proof.
  intros Hd. unfold l4_updated. destruct partial; [destruct pseudo; [|intros ->; by apply changed_only_refl]|];
    by apply changed_only_csum.
Qed.

Lemma changed_only_load r d d' n o :
  changed_only r d d' → 0 ≤ o → 0 ≤ n → Forall (λ '(a, b), o + n ≤ a ∨ b ≤ o) r →
  load n o d' = load n o d.
Proof. intros (_ & _ & H) ???. unfold load. by rewrite H. Qed.

(** A region that spares the fixed header fields spares what they say. *)
Definition spares_header (r : list (Z * Z)) : Prop :=
  Forall (λ '(a, b), b ≤ 12 ∨ 24 ≤ a) r.

Lemma spares_weaken r o n :
  spares_header r → 12 ≤ o → o + n ≤ 24 → Forall (λ '(a, b), o + n ≤ a ∨ b ≤ o) r.
Proof. intros H ??. eapply Forall_impl; [exact H|]. intros [a b] ?. lia. Qed.

Lemma changed_only_header r d d' :
  changed_only r d d' → spares_header r →
  ip_header_len d' = ip_header_len d ∧ ip_proto d' = ip_proto d ∧
  ip_total_len d' = ip_total_len d ∧ l4_len d' = l4_len d ∧ l4_check_off d' = l4_check_off d ∧
  eth_type d' = eth_type d ∧ ip_fragment_offset d' = ip_fragment_offset d.
Proof.
  intros Hc Hs.
  assert (∀ o n, 12 ≤ o → 0 ≤ n → o + n ≤ 24 → slice o n d' = slice o n d) as H.
  { intros o n ???. apply Hc; [lia|lia|]. by apply spares_weaken. }
  assert (ip_header_len d' = ip_header_len d) as E1 by (unfold ip_header_len, load; by rewrite H).
  assert (ip_proto d' = ip_proto d) as E2 by (unfold ip_proto, load; by rewrite H).
  assert (ip_total_len d' = ip_total_len d) as E3 by (unfold ip_total_len; by rewrite H).
  unfold l4_len, l4_check_off, eth_type, ip_fragment_offset. rewrite E1, E2, E3, !H by lia. done.
Qed.

Lemma geometry_changed r d d' o :
  geometry d o → changed_only r d d' → spares_header r → geometry d' o.
Proof.
  intros (Hb & H1 & H2 & H3 & H4 & H5 & H6) Hc Hs.
  destruct (changed_only_header _ _ _ Hc Hs) as (E1 & E2 & _). destruct Hc as (Hz & Hb' & _).
  unfold geometry. rewrite E1, E2, Hz. done.
Qed.

(** ** Sums over a region of the packet *)

Lemma region_store o n off bs d :
  0 ≤ o → o ≤ off → off + zlen bs ≤ o + n → o + n ≤ zlen d →
  Z.Even (off - o) → Z.Even (zlen bs) →
  sum16 (slice o n (splice off bs d)) mod 65535 =
    (sum16 (slice o n d) - load (zlen bs) off d + le_val bs) mod 65535.
Proof.
  intros Ho Hoff Hb Hl He1 He2. pose proof (zlen_nonneg bs).
  rewrite slice_splice_inner by done.
  rewrite sum16_store; [|lia|rewrite zlen_slice; lia|done..].
  do 3 f_equal. unfold load. rewrite slice_slice by lia. do 2 f_equal. lia.
Qed.

Lemma region_csum o n off from to d d' :
  0 ≤ o → o ≤ off → off + 2 ≤ o + n → o + n ≤ zlen d → Z.Even (off - o) →
  csum_updated off from to d d' →
  (sum16 (slice o n d') + to) mod 65535 = (sum16 (slice o n d) + from) mod 65535.
Proof.
  intros ????? Hc. eapply csum_absorb; [done|]. by apply csum_updated_slice.
Qed.

Lemma le_val_le_bytes_4 v : 0 ≤ v < 2 ^ 32 → le_val (le_bytes 4 v) = v.
Proof. intros. rewrite le_val_le_bytes. by apply Z.mod_small. Qed.

Lemma le_val_le_bytes_2 v : 0 ≤ v < 2 ^ 16 → le_val (le_bytes 2 v) = v.
Proof. intros. rewrite le_val_le_bytes. by apply Z.mod_small. Qed.

Lemma ip_header_len_even d : Z.Even (ip_header_len d).
Proof. exists (load 1 14 d mod 16 * 2). unfold ip_header_len. lia. Qed.

(** ** The stores of [set_addr] *)

Section addr.
Context (d d1 d2 : list Z) (n off old new : Z).
Hypothesis Hoff : off = 26 ∨ off = 30.
Hypothesis Hold : old = load 4 off d.
Hypothesis Hnew : 0 ≤ new < 2 ^ 32.
Hypothesis Hn : 20 ≤ n.
Hypothesis Hlen : 14 + n ≤ zlen d.
Hypothesis Hd1 : d1 = splice off (le_bytes 4 new) d.
Hypothesis Hd2 : csum_updated 24 old new d1 d2.

Lemma addr_zlen1 : zlen d1 = zlen d.
Proof. rewrite Hd1. destruct Hoff; solve_bytes. Qed.

Lemma addr_ip_sum : ip_sum n d2 mod 65535 = ip_sum n d mod 65535.
Proof.
  unfold ip_sum. pose proof addr_zlen1.
  assert (sum16 (slice 14 n d1) mod 65535 = (sum16 (slice 14 n d) - old + new) mod 65535) as H1.
  { rewrite Hd1, region_store; rewrite ?zlen_le_bytes; [|lia..| |by exists 2].
    - rewrite Hold, le_val_le_bytes_4 by done. done.
    - destruct Hoff as [->| ->]; [by exists 6|by exists 8]. }
  assert ((sum16 (slice 14 n d2) + new) mod 65535 = (sum16 (slice 14 n d1) + old) mod 65535) as H2.
  { apply (region_csum _ _ 24); [lia..|by exists 5|done]. }
  destruct (cong_elim _ _ H1) as [k Hk]. destruct (cong_elim _ _ H2) as [j Hj].
  apply (cong_intro _ _ (k + j)). lia.
Qed.

Lemma addr_pseudo : load 4 26 d2 + load 4 30 d2 = load 4 26 d + load 4 30 d - old + new.
Proof.
  destruct Hd2 as (_ & _ & c & Hc & -> & _). pose proof addr_zlen1.
  rewrite !(load_splice_ne 4) by solve_bytes. rewrite Hd1, Hold.
  destruct Hoff as [->| ->].
  - rewrite load_splice_eq, load_splice_ne by solve_bytes. rewrite le_val_le_bytes_4 by done. lia.
  - rewrite load_splice_ne, load_splice_eq by solve_bytes. rewrite le_val_le_bytes_4 by done. lia.
Qed.

Lemma addr_segment o len : 34 ≤ o → 0 ≤ len → slice o len d2 = slice o len d.
Proof.
  intros. rewrite (csum_updated_frame o len 24 old new d1 d2) by (done || lia).
  rewrite Hd1. apply slice_splice_ne; destruct Hoff; solve_bytes.
Qed.

End addr.

Lemma geometry_check d o :
  geometry d o → 40 ≤ l4_check_off d ∧ 14 + ip_header_len d + 6 ≤ l4_check_off d ∧
  l4_check_off d + 2 ≤ 14 + ip_header_len d + l4_header_len (ip_proto d)
  ∧ Z.Even (l4_check_off d - (14 + ip_header_len d)) ∧ l4_csum_off o = l4_check_off d.
Proof.
  intros (_ & H1 & H2 & H3 & H4 & H5 & H6). unfold l4_check_off, l4_csum_off, l4_header_len.
  rewrite H2, H4.
  destruct (Z.eqb_spec (ip_proto d) IPPROTO_TCP); split_and!; try lia; try done.
  - exists 8. lia.
  - exists 3. lia.
Qed.

Lemma ip_header_len_bound d : bytes_ok d → ip_header_len d ≤ 60.
Proof. intros Hb. unfold ip_header_len. Z.to_euclidean_division_equations; lia. Qed.

(** The helpers accept the place of the checksum. *)
Lemma check_place d o d' : geometry d o → zlen d' = zlen d → csum_place (l4_check_off d) d'.
Proof.
  intros Hg Hz. destruct (geometry_check _ _ Hg) as (H40 & Hlo & Hck & Hev & _).
  pose proof Hg as (Hb & _ & _ & _ & _ & _ & Hl). pose proof (ip_header_len_bound d Hb).
  split_and!; [lia| | |lia].
  - unfold l4_header_len in Hck. case_match; lia.
  - destruct Hev as [k Hk], (ip_header_len_even d) as [j Hj]. exists (k + j + 7). lia.
Qed.

(** The L4 checksum field absorbs a change of the pseudo header or of another
    field of the segment. *)
Lemma l4_sum_absorb n len off from to d d' :
  34 ≤ 14 + n → 14 + n ≤ off → off + 2 ≤ 14 + n + len → 14 + n + len ≤ zlen d →
  Z.Even (off - (14 + n)) → csum_updated off from to d d' →
  (l4_sum n len d' + to) mod 65535 = (l4_sum n len d + from) mod 65535.
Proof.
  intros Hn Ho Hb Hl He Hc. unfold l4_sum, pseudo_sum, ip_proto, load.
  rewrite !(csum_updated_frame _ _ off from to d d') by (done || lia).
  pose proof (region_csum (14 + n) len off from to d d' ltac:(lia) Ho Hb Hl He Hc) as H.
  destruct (cong_elim _ _ H) as [k Hk]. apply (cong_intro _ _ k). lia.
Qed.

(** A partial checksum follows the pseudo header. *)
Lemma pseudo_frame len off d d' :
  40 ≤ off → changed_only [(off, off + 2)] d d' → pseudo_sum len d' = pseudo_sum len d.
Proof.
  intros Ho (_ & _ & Hf). unfold pseudo_sum, ip_proto, load. by rewrite !Hf by (repeat constructor; lia).
Qed.

Lemma partial_follows off old new f s s' d d' :
  csum_updated off new old d d' → f mod 65535 = s mod 65535 → load 2 off d = f → s' = s - old + new →
  load 2 off d' mod 65535 = s' mod 65535.
Proof.
  intros (Ho & Hl & c & Hc & -> & Hm) Hf Hd ->. rewrite load_splice_eq by solve_bytes.
  rewrite le_val_le_bytes_2, Hm, Hd by lia. destruct (cong_elim _ _ Hf) as [k ->].
  apply (cong_intro _ _ k). lia.
Qed.

Lemma addr_spares d o off : geometry d o → off = 26 ∨ off = 30 → spares_header (addr_regions d off).
Proof.
  intros (H & _)%geometry_check Ho. unfold spares_header, addr_regions.
  repeat constructor; lia.
Qed.

Section set_addr_pure.
Context (partial : bool) (d d1 d2 : list Z) (o : l4off) (off old new : Z).
Hypothesis Hg : geometry d o.
Hypothesis Hoff : off = 26 ∨ off = 30.
Hypothesis Hold : old = load 4 off d.
Hypothesis Hnew : 0 ≤ new < 2 ^ 32.
Hypothesis Hd1 : d1 = splice off (le_bytes 4 new) d.
Hypothesis Hd2 : csum_updated 24 old new d1 d2.

Lemma set_addr_frame2 : changed_only [(24, 26); (off, off + 4)] d d2.
Proof.
  destruct Hg as (Hb & _ & _ & Hn & _ & _ & Hl).
  assert (34 ≤ zlen d) by (unfold l4_header_len in Hl; case_match; lia).
  apply (changed_only_sub ([(off, off + 4)] ++ [(24, 26)])); [sub_regions|].
  eapply changed_only_trans; [|eapply (changed_only_csum 24); [|exact Hd2]].
  - rewrite Hd1. apply (changed_only_store off (le_bytes 4 new)); auto with bytes;
      destruct Hoff; solve_bytes.
  - rewrite Hd1. auto with bytes.
Qed.

Lemma set_addr_header2 :
  ip_header_len d2 = ip_header_len d ∧ ip_proto d2 = ip_proto d ∧ ip_total_len d2 = ip_total_len d
  ∧ l4_len d2 = l4_len d ∧ l4_check_off d2 = l4_check_off d.
Proof.
  destruct (changed_only_header _ _ _ set_addr_frame2) as (?&?&?&?&?&_); [|done].
  unfold spares_header. repeat constructor; lia.
Qed.

Lemma set_addr_ip_csum2 : ip_csum_ok d → ip_csum_ok d2.
Proof.
  destruct Hg as (Hb & _ & _ & Hn & _ & _ & Hl). unfold ip_csum_ok.
  destruct set_addr_header2 as (-> & _). apply csum_ok_cong. symmetry.
  eapply addr_ip_sum; [done..| |done|done].
  unfold l4_header_len in Hl; case_match; lia.
Qed.

Lemma set_addr_check2 : load 2 (l4_check_off d) d2 = load 2 (l4_check_off d) d.
Proof.
  destruct (geometry_check _ _ Hg) as (H40 & _).
  eapply changed_only_load; [exact set_addr_frame2|lia..|]. repeat constructor; lia.
Qed.

(** An absent UDP checksum stays absent. *)
Lemma set_addr_done_udp0 :
  ip_proto d = IPPROTO_UDP → load 2 (l4_check_off d) d = 0 →
  rewritten partial (addr_regions d off) off 4 new d d2.
Proof.
  intros Hu H0. destruct Hg as (Hb & _ & _ & Hn & _ & _ & Hl).
  assert (34 ≤ zlen d) by (unfold l4_header_len in Hl; case_match; lia).
  split.
  - eapply changed_only_sub; [|exact set_addr_frame2]. unfold addr_regions. sub_regions.
  - destruct Hd2 as (_ & _ & c & _ & -> & _). rewrite Hd1.
    rewrite load_splice_ne, load_splice_eq by (destruct Hoff; solve_bytes).
    by apply le_val_le_bytes_4.
  - exact set_addr_ip_csum2.
  - intros _ _. left. destruct set_addr_header2 as (_ & -> & _ & _ & ->).
    by rewrite set_addr_check2.
Qed.

(** Otherwise the L4 checksum takes the difference in. *)
Lemma set_addr_done d3 :
  l4_updated partial true (l4_check_off d) old new d2 d3 →
  (ip_proto d = IPPROTO_UDP → load 2 (l4_check_off d) d ≠ 0) →
  rewritten partial (addr_regions d off) off 4 new d d3.
Proof.
  intros Hd3 Hudp. destruct (geometry_check _ _ Hg) as (H40 & Hlo & Hck & Hev & _).
  pose proof set_addr_header2 as (Eh & Ep & Et & El & Ec).
  pose proof set_addr_frame2 as (Hz2 & Hb2 & Hf2).
  pose proof Hg as (Hb & _ & _ & Hn & _ & Hpr & Hl).
  assert (changed_only (addr_regions d off) d d3) as Hco.
  { apply (changed_only_sub ([(24, 26); (off, off + 4)] ++ [(l4_check_off d, l4_check_off d + 2)]));
      [unfold addr_regions; sub_regions|].
    eapply changed_only_trans; [exact set_addr_frame2|by eapply changed_only_l4]. }
  pose proof (changed_only_l4 _ _ _ _ _ _ _ Hb2 Hd3) as Hc3. pose proof Hc3 as (_ & _ & Hf3).
  destruct (changed_only_header _ _ _ Hco (addr_spares _ _ _ Hg Hoff)) as (Eh3 & Ep3 & Et3 & El3 & Ec3 & _).
  split.
  - done.
  - unfold load. rewrite Hf3 by (repeat constructor; lia).
    destruct Hd2 as (_ & _ & c & _ & -> & _). rewrite Hd1.
    rewrite slice_splice_ne, slice_splice_eq by (destruct Hoff; solve_bytes).
    by apply le_val_le_bytes_4.
  - intros Hok%set_addr_ip_csum2. unfold ip_csum_ok, ip_sum in *. rewrite Eh3. rewrite Eh in Hok.
    by rewrite Hf3 by (repeat constructor; lia).
  - intros [Hs1 Hs2] [[Hu H0]|Hok]; [by destruct (Hudp Hu)|]. right.
    pose proof (addr_pseudo d d1 d2 (ip_header_len d) off old new Hoff Hold Hnew Hn ltac:(lia) Hd1 Hd2) as Hps.
    rewrite Ec3, Eh3, El3. destruct partial.
    { rewrite (pseudo_frame (l4_len d) (l4_check_off d) d2 d3 H40 Hc3).
      eapply partial_follows; [exact Hd3|exact Hok|by rewrite set_addr_check2|].
      unfold pseudo_sum. rewrite Ep. lia. }
    revert Hok. apply csum_ok_cong.
    pose proof (l4_sum_absorb (ip_header_len d) (l4_len d) (l4_check_off d) old new d2 d3
      ltac:(lia) ltac:(lia) ltac:(lia) ltac:(unfold l4_len in *; lia) Hev Hd3) as Habs.
    pose proof (addr_segment d d1 d2 (ip_header_len d) off old new Hoff Hn ltac:(lia) Hd1 Hd2
      (14 + ip_header_len d) (l4_len d) ltac:(lia) ltac:(lia)) as Hseg.
    destruct (cong_elim _ _ Habs) as [k Hk]. apply (cong_intro _ _ (- k)).
    unfold l4_sum, pseudo_sum in Hk |- *. rewrite Ep, Hseg in Hk. lia.
Qed.
End set_addr_pure.

Section set_port_pure.
Context (partial : bool) (d d1 : list Z) (o : l4off) (off old new : Z).
Hypothesis Hg : geometry d o.
Hypothesis Hoff : off = 14 + ip_header_len d ∨ off = 16 + ip_header_len d.
Hypothesis Hold : old = load 2 off d.
Hypothesis Hnew : 0 ≤ new < 2 ^ 16.
Hypothesis Hd1 : d1 = splice off (le_bytes 2 new) d.

Lemma set_port_range : 34 ≤ off ∧ off + 2 ≤ l4_check_off d ∧ l4_check_off d + 2 ≤ zlen d.
Proof.
  destruct (geometry_check _ _ Hg) as (H40 & Hlo & Hck & _ & _).
  destruct Hg as (_ & _ & _ & Hn & _ & _ & Hl). lia.
Qed.

Lemma set_port_frame1 : changed_only [(off, off + 2)] d d1.
Proof.
  destruct set_port_range as (?&?&?). destruct Hg as (Hb & _).
  rewrite Hd1. apply (changed_only_store off (le_bytes 2 new)); auto with bytes; solve_bytes.
Qed.

Lemma port_spares : spares_header (port_regions d off).
Proof. destruct set_port_range as (?&?&?). unfold spares_header, port_regions. repeat constructor; lia. Qed.

Lemma set_port_value1 : load 2 off d1 = new.
Proof.
  destruct set_port_range as (?&?&?). rewrite Hd1, load_splice_eq by solve_bytes.
  by apply le_val_le_bytes_2.
Qed.

(** A rewrite that leaves the IPv4 header alone keeps its checksum. *)
Lemma port_ip_csum d' : changed_only (port_regions d off) d d' → ip_csum_ok d → ip_csum_ok d'.
Proof.
  intros Hco. destruct set_port_range as (?&?&?).
  destruct (changed_only_header _ _ _ Hco port_spares) as (Eh & _).
  destruct Hg as (_ & _ & _ & Hn & _). unfold ip_csum_ok, ip_sum. rewrite Eh.
  destruct Hco as (_ & _ & Hf). rewrite Hf; [done|lia..|].
  unfold port_regions. repeat constructor; lia.
Qed.

Lemma set_port_done_udp0 :
  ip_proto d = IPPROTO_UDP → load 2 (l4_check_off d) d = 0 →
  rewritten partial (port_regions d off) off 2 new d d1.
Proof.
  intros Hu Hz0. destruct set_port_range as (?&?&?).
  assert (changed_only (port_regions d off) d d1) as Hco.
  { eapply changed_only_sub; [|exact set_port_frame1]. unfold port_regions. sub_regions. }
  split; [done|exact set_port_value1|by apply port_ip_csum|]. intros _ _. left.
  destruct (changed_only_header _ _ _ Hco port_spares) as (_ & -> & _ & _ & -> & _).
  split; [done|]. rewrite <- Hz0.
  eapply changed_only_load; [exact set_port_frame1|lia..|]. repeat constructor; lia.
Qed.

Lemma set_port_done d2 :
  l4_updated partial false (l4_check_off d) old new d1 d2 →
  (ip_proto d = IPPROTO_UDP → load 2 (l4_check_off d) d ≠ 0) →
  rewritten partial (port_regions d off) off 2 new d d2.
Proof.
  intros Hd2 Hudp. destruct set_port_range as (?&?&?).
  destruct (geometry_check _ _ Hg) as (H40 & Hlo & Hck & Hev & _).
  pose proof set_port_frame1 as (Hz1 & Hb1 & Hf1).
  pose proof Hg as (Hb & _ & _ & Hn & _ & Hpr & Hl).
  assert (changed_only (port_regions d off) d d2) as Hco.
  { apply (changed_only_sub ([(off, off + 2)] ++ [(l4_check_off d, l4_check_off d + 2)]));
      [unfold port_regions; sub_regions|].
    eapply changed_only_trans; [exact set_port_frame1|by eapply changed_only_l4]. }
  pose proof (changed_only_l4 _ _ _ _ _ _ _ Hb1 Hd2) as (_ & _ & Hf2).
  destruct (changed_only_header _ _ _ Hco port_spares) as (Eh & Ep & Et & El & Ec & _).
  split; [done| |by apply port_ip_csum|].
  { unfold load. rewrite Hf2 by (repeat constructor; lia). exact set_port_value1. }
  intros [Hs1 Hs2] [[Hu Hz0]|Hok]; [by destruct (Hudp Hu)|]. right.
  rewrite Ec, Eh, El. destruct partial.
  { rewrite Hd2. unfold pseudo_sum, ip_proto, load in *. by rewrite !Hf1 by (repeat constructor; lia). }
  revert Hok. apply csum_ok_cong.
  pose proof (l4_sum_absorb (ip_header_len d) (l4_len d) (l4_check_off d) old new d1 d2
    ltac:(lia) ltac:(lia) ltac:(lia) ltac:(unfold l4_len in *; lia) Hev Hd2) as Habs.
  pose proof (region_store (14 + ip_header_len d) (l4_len d) off (le_bytes 2 new) d
    ltac:(lia) ltac:(lia) ltac:(rewrite zlen_le_bytes; lia) ltac:(unfold l4_len in *; lia)) as Hrs.
  rewrite zlen_le_bytes, le_val_le_bytes_2, <- Hd1 in Hrs by done.
  assert (Z.Even (off - (14 + ip_header_len d))) as Heo
    by (destruct Hoff as [->| ->]; [exists 0|exists 1]; lia).
  specialize (Hrs Heo ltac:(by exists 1)). change (Z.of_nat 2) with 2 in Hrs. rewrite <- Hold in Hrs.
  destruct (cong_elim _ _ Habs) as [k Hk]. destruct (cong_elim _ _ Hrs) as [j Hj].
  apply (cong_intro _ _ (- k - j)). unfold l4_sum, pseudo_sum in Hk |- *.
  assert (ip_proto d1 = ip_proto d) as Ep1
    by (unfold ip_proto, load; rewrite Hf1; [done|lia..|repeat constructor; lia]).
  assert (load 4 26 d1 = load 4 26 d) as E26 by (unfold load; rewrite Hf1; [done|lia..|repeat constructor; lia]).
  assert (load 4 30 d1 = load 4 30 d) as E30 by (unfold load; rewrite Hf1; [done|lia..|repeat constructor; lia]).
  rewrite Ep1, E26, E30 in Hk. lia.
Qed.
End set_port_pure.

(** ** The rewriting routines *)

Section rewrite_facts.
Context `{BH : !BpfHelpers, CK : !Conntrack, BL : !BpfHelpersLaws}.

Lemma set_data_id w : set_data (w_data w) w = w.
Proof. by destruct w as [[]]. Qed.

Lemma set_data_twice d d' w : set_data d (set_data d' w) = set_data d w.
Proof. done. Qed.

(** Either a store failed (and the packet is dropped by the caller) or the field
    was rewritten; the rest of the state is untouched. *)
Definition rewrite_post (regions : list (Z * Z)) (off n v : Z) (w : world) (rc : Z) (w' : world)
  : Prop :=
  ∃ d', w' = set_data d' w ∧
    ((rc < 0 ∧ ¬ StoresSucceed) ∨
     (rc = 0 ∧ rewritten (skb_partial (w_skb w)) regions off n v (w_data w) d')).

Lemma rewrite_post_fail r off n v w rc d :
  rc < 0 → ¬ StoresSucceed → rewrite_post r off n v w rc (set_data d w).
Proof. intros. exists d. auto. Qed.

Lemma rewrite_post_same r off n w :
  bytes_ok (w_data w) → rewrite_post r off n (load n off (w_data w)) w 0 w.
Proof.
  intros Hb. exists (w_data w). rewrite set_data_id. split; [done|]. right. split; [done|].
  split; auto using changed_only_refl.
Qed.

Lemma rewrite_post_ok r off n v w d :
  rewritten (skb_partial (w_skb w)) r off n v (w_data w) d → rewrite_post r off n v w 0 (set_data d w).
Proof. intros. exists d. auto. Qed.

(** The conditional update of the L4 checksum, which both routines end with. *)
Lemma wp_l4_update o fl pseudo size from to Q w :
  bytes_ok (w_data w) → csum_field size from to → l4_flags fl pseudo size →
  csum_place (l4_csum_off o) (w_data w) →
  (∀ rc d, rc < 0 → ¬ StoresSucceed → Q rc (set_data d w)) →
  (l4_proto o = IPPROTO_UDP → load 2 (l4_csum_off o) (w_data w) = 0 → Q 0 w) →
  (∀ d, (l4_proto o = IPPROTO_UDP → load 2 (l4_csum_off o) (w_data w) ≠ 0) →
        l4_updated (skb_partial (w_skb w)) pseudo (l4_csum_off o) from to (w_data w) d →
        Q 0 (set_data d w)) →
  wp (if l4_proto o =? IPPROTO_UDP then
        let* cur := skb_load_bytes (l4_csum_off o) 2 in
        if le_val cur =? 0 then ret 0 else l4_csum_replace (l4_csum_off o) from to fl
      else l4_csum_replace (l4_csum_off o) from to fl) Q w.
Proof.
  intros Hb Hf Hl Hp Hfail Hzero Hok. pose proof Hp as ([Hc0 _] & _ & Hc2).
  assert ((l4_proto o = IPPROTO_UDP → load 2 (l4_csum_off o) (w_data w) ≠ 0) →
    wp (l4_csum_replace (l4_csum_off o) from to fl) Q w) as Hupd.
  { intros Hne. apply wp_l4_csum. intros rc d Hr.
    destruct (l4_csum_outcome _ _ _ _ _ _ _ _ _ _ Hr Hb Hf Hl Hp) as [[??]|[-> ?]]; auto. }
  wp_if E; [|by apply Hupd].
  apply wp_bind, wp_load_bytes. intros rc bs. rewrite load_bytes_spec by lia. intros [= <- <-].
  fold (load 2 (l4_csum_off o) (w_data w)). wp_if E'; [by apply wp_ret, Hzero|by apply Hupd].
Qed.

Lemma wp_set_addr o off old new w :
  geometry (w_data w) o → off = 26 ∨ off = 30 → old = load 4 off (w_data w) → 0 ≤ new < 2 ^ 32 →
  wp (set_addr o off old new) (rewrite_post (addr_regions (w_data w) off) off 4 new w) w.
Proof.
  intros Hg Hoff Hold Hnew. pose proof Hg as (Hb & Hip & _ & Hn & Hpr & _ & Hl).
  pose proof (load_bound 4 off _ Hb ltac:(lia)) as Hob. rewrite <- Hold in Hob.
  destruct (geometry_check _ _ Hg) as (H40 & Hlo & Hck & _ & Ec).
  unfold set_addr. wp_if E.
  { apply wp_ret. subst new old. by apply rewrite_post_same. }
  assert (zlen (le_bytes 4 new) = 4) as Hz4 by apply zlen_le_bytes.
  apply wp_bind, wp_store.
  intros rc d1 [[Hrc Hs]|[-> Hd1]]%store_outcome; [wp_if E1; [|lia]|wp_if E1; [lia|]|lia..].
  { apply wp_ret. by apply rewrite_post_fail. }
  assert (bytes_ok d1) as Hb1 by (subst d1; auto with bytes).
  assert (zlen d1 = zlen (w_data w)) as Hz1 by (subst d1; apply zlen_splice; lia).
  apply wp_bind, wp_l3_csum. rewrite Hip. change (14 + ip_check) with 24.
  cbn [w_data w_skb set_data skb_data].
  assert (csum_field 4 old new) as Hf4 by (split; [by right|done]).
  assert (csum_place 24 d1) as Hp24 by (split_and!; [lia..|by exists 12|lia]).
  intros rc d2 [[Hrc Hs]|[-> Hd2]]%l3_csum_outcome; [wp_if E2; [|lia]|wp_if E2; [lia|]|done..].
  { apply wp_ret. rewrite set_data_twice. by apply rewrite_post_fail. }
  rewrite set_data_twice. cbv zeta.
  assert (changed_only [(24, 26); (off, off + 4)] (w_data w) d2) as (Hz2 & Hb2 & _)
    by (eapply (set_addr_frame2 _ d1 _ o _ old new); eassumption).
  assert (load 2 (l4_check_off (w_data w)) d2 = load 2 (l4_check_off (w_data w)) (w_data w)) as Hck2
    by (eapply (set_addr_check2 _ d1 _ o _ old new); eassumption).
  apply (wp_l4_update o _ true 4); cbn [w_data w_skb set_data skb_data skb_partial];
    rewrite ?Ec, ?Hpr, ?Hck2; [done|done|done|by apply (check_place _ o); [|rewrite Hz2]|..].
  - intros rc d Hrc Hs. rewrite set_data_twice. by apply rewrite_post_fail.
  - intros Hu Hz. eapply rewrite_post_ok, set_addr_done_udp0; eassumption.
  - intros d Hu Hd. rewrite set_data_twice. eapply rewrite_post_ok, set_addr_done; eassumption.
Qed.

Lemma wp_set_port o off old new w :
  geometry (w_data w) o → off = l4_off o ∨ off = l4_off o + 2 → old = load 2 off (w_data w) →
  0 ≤ new < 2 ^ 16 →
  wp (set_port o off old new) (rewrite_post (port_regions (w_data w) off) off 2 new w) w.
Proof.
  intros Hg Hoff Hold Hnew. pose proof Hg as (Hb & Hip & Hl4 & Hn & Hpr & _ & Hl).
  assert (off = 14 + ip_header_len (w_data w) ∨ off = 16 + ip_header_len (w_data w)) as Hoff' by lia.
  pose proof (load_bound 2 off _ Hb ltac:(lia)) as Hob. rewrite <- Hold in Hob.
  destruct (geometry_check _ _ Hg) as (H40 & Hlo & Hck & _ & Ec).
  unfold set_port. wp_if E.
  { apply wp_ret. subst new old. by apply rewrite_post_same. }
  assert (zlen (le_bytes 2 new) = 2) as Hz2 by apply zlen_le_bytes.
  apply wp_bind, wp_store.
  intros rc d1 [[Hrc Hs]|[-> Hd1]]%store_outcome; [wp_if E1; [|lia]|wp_if E1; [lia|]|lia..].
  { apply wp_ret. by apply rewrite_post_fail. }
  assert (changed_only [(off, off + 2)] (w_data w) d1) as Hf
    by (eapply (set_port_frame1 _ _ o _ new); eassumption).
  assert (load 2 (l4_check_off (w_data w)) d1 = load 2 (l4_check_off (w_data w)) (w_data w)) as Hck1
    by (eapply changed_only_load; [exact Hf|lia..|repeat constructor; lia]).
  destruct Hf as (Hz1 & Hb1 & _). cbv zeta.
  apply (wp_l4_update o _ false 2); cbn [w_data w_skb set_data skb_data skb_partial];
    rewrite ?Ec, ?Hpr, ?Hck1;
    [done|split; [by left|done]|done|by apply (check_place _ o); [|rewrite Hz1]|..].
  - intros rc d Hrc Hs. rewrite set_data_twice. by apply rewrite_post_fail.
  - intros Hu Hz. eapply rewrite_post_ok, set_port_done_udp0; eassumption.
  - intros d Hu Hd. rewrite set_data_twice. eapply rewrite_post_ok, set_port_done; eassumption.
Qed.

End rewrite_facts.

(** ** Both halves of an endpoint *)

Definition endpoint_regions (d : list Z) (a p : Z) : list (Z * Z) :=
  [(24, 26); (a, a + 4); (p, p + 2); (l4_check_off d, l4_check_off d + 2)].

(** Address field [a] and port field [p] hold the given endpoint, nothing else
    changed but [extra] and the checksums, which stay right. *)
Record endpoint_set (partial : bool) (extra : list (Z * Z)) (a p addr port : Z) (d d' : list Z) : Prop := {
  es_only : changed_only (endpoint_regions d a p ++ extra) d d';
  es_addr : load 4 a d' = addr;
  es_port : load 2 p d' = port;
  es_ip_csum : ip_csum_ok d → ip_csum_ok d';
  es_l4_csum : segment_ok d → l4_csum_ok partial d → l4_csum_ok partial d'
}.

Section endpoint.
Context (partial : bool) (d d1 d2 : list Z) (o : l4off) (a p addr port : Z).
Hypothesis Hg : geometry d o.
Hypothesis Ha : a = 26 ∨ a = 30.
Hypothesis Hp : p = l4_off o ∨ p = l4_off o + 2.
Hypothesis H1 : rewritten partial (addr_regions d a) a 4 addr d d1.
Hypothesis H2 : rewritten partial (port_regions d1 p) p 2 port d1 d2.

Lemma endpoint_range :
  34 ≤ p ∧ p + 2 ≤ l4_check_off d ∧ l4_check_off d + 2 ≤ zlen d.
Proof.
  destruct (geometry_check _ _ Hg) as (_ & Hlo & Hck & _).
  pose proof Hg as (_ & _ & Hl4 & Hn & _ & _ & Hl). lia.
Qed.

Lemma addr_keeps_check : l4_check_off d1 = l4_check_off d.
Proof.
  destruct (changed_only_header _ _ _ (rw_only _ _ _ _ _ _ _ H1) (addr_spares _ _ _ Hg Ha))
    as (_ & _ & _ & _ & E & _). done.
Qed.

Lemma addr_keeps_geometry : geometry d1 o.
Proof. eapply geometry_changed; [done|apply H1|by eapply addr_spares]. Qed.

Lemma addr_keeps_segment : segment_ok d → segment_ok d1.
Proof.
  destruct (changed_only_header _ _ _ (rw_only _ _ _ _ _ _ _ H1) (addr_spares _ _ _ Hg Ha))
    as (Eh & Ep & Et & El & _). pose proof (rw_only _ _ _ _ _ _ _ H1) as (Hz & _).
  unfold segment_ok. by rewrite Ep, Et, El, Hz.
Qed.

Lemma endpoint_both : endpoint_set partial [] a p addr port d d2.
Proof.
  destruct endpoint_range as (Hp1 & Hp2 & Hp3).
  split.
  - eapply changed_only_sub; [|eapply changed_only_trans; [apply H1|apply H2]].
    unfold addr_regions, port_regions, endpoint_regions. rewrite addr_keeps_check. sub_regions.
  - rewrite <- (rw_value _ _ _ _ _ _ _ H1).
    eapply changed_only_load; [apply H2|lia..|].
    unfold port_regions. rewrite addr_keeps_check. repeat constructor; lia.
  - apply H2.
  - intros Hc. by apply H2, H1.
  - intros Hs Hc. apply H2; [by apply addr_keeps_segment|by apply H1].
Qed.
End endpoint.

Lemma endpoint_spares d o a p extra :
  geometry d o → a = 26 ∨ a = 30 → p = l4_off o ∨ p = l4_off o + 2 →
  spares_header extra → spares_header (endpoint_regions d a p ++ extra).
Proof.
  intros Hg Ha Hp He. pose proof (endpoint_range _ _ _ Hg Hp).
  apply Forall_app. split; [|done]. unfold endpoint_regions. repeat constructor; lia.
Qed.

(** A new destination MAC leaves the rest of the frame alone. *)
Lemma endpoint_mac partial d d' o a p addr port mac :
  geometry d o → a = 26 ∨ a = 30 → p = l4_off o ∨ p = l4_off o + 2 →
  zlen mac = 6 → bytes_ok mac → endpoint_set partial [] a p addr port d d' →
  endpoint_set partial [(0, 6)] a p addr port d (splice 0 mac d') ∧ slice 0 6 (splice 0 mac d') = mac.
Proof.
  intros Hg Ha Hp Hm Hmb [Ho Haddr Hport Hic Hlc].
  pose proof Hg as (Hb & _ & Hl4 & Hn & _ & _ & Hl).
  pose proof (endpoint_range _ _ _ Hg Hp) as (Hp1 & Hp2 & Hp3).
  destruct (changed_only_header _ _ _ Ho) as (Eh & Ep & Et & El & Ec & _).
  { eapply endpoint_spares; [exact Hg|done..|constructor]. }
  assert (∀ o n, 6 ≤ o → 0 ≤ n → slice o n (splice 0 mac d') = slice o n d') as Hs.
  { pose proof Ho as (Hz & _ & _). intros. apply slice_splice_ne; lia. }
  assert (changed_only [(0, 6)] d' (splice 0 mac d')) as Hm6.
  { pose proof Ho as (Hz & Hb' & _). rewrite <- Hm.
    apply (changed_only_store 0 mac); [done..|lia]. }
  destruct (changed_only_header _ _ _ Hm6) as (Fh & Fp & Ft & Fl & Fc & _).
  { repeat constructor; lia. }
  split; [split|].
  - eapply changed_only_sub; [|eapply changed_only_trans; [exact Ho|exact Hm6]]. sub_regions.
  - unfold load. by rewrite Hs by lia.
  - unfold load. by rewrite Hs by lia.
  - intros Hc%Hic. unfold ip_csum_ok, ip_sum. rewrite Fh, Hs by lia. done.
  - intros Hsg Hc. pose proof Hsg as [Hs1 Hs2]. specialize (Hlc Hsg Hc).
    unfold l4_csum_ok, l4_sum, pseudo_sum, load in *. rewrite El in *. rewrite Fh, Fl, Fc, Fp.
    rewrite !Hs; [exact Hlc|unfold l4_header_len in *; case_match; lia..].
  - destruct Ho as (Hz & _). apply slice_splice_eq; lia.
Qed.

(** What [parse] reports of a handled packet places its fields. *)
Section handled.
Context `{BH : !BpfHelpers, CK : !Conntrack}.

Lemma handled_geometry w :
  packet_ok w → handled (w_data w) (skb_headlen (w_skb w)) → geometry (w_data w) (headers (w_data w)).
Proof.
  intros [Hb Hh] ((_ & _ & Hp) & _ & Hn & Hl). unfold geometry, headers. simpl.
  split_and!; try done. lia.
Qed.

Lemma headers_ranges w :
  packet_ok w →
  0 ≤ l4_saddr (headers (w_data w)) < 2 ^ 32 ∧ 0 ≤ l4_daddr (headers (w_data w)) < 2 ^ 32 ∧
  0 ≤ l4_sport (headers (w_data w)) < 2 ^ 16 ∧ 0 ≤ l4_dport (headers (w_data w)) < 2 ^ 16.
Proof.
  intros [Hb _]. unfold headers. simpl.
  split_and!; (apply (load_bound 4) || apply (load_bound 2)); done.
Qed.
End handled.
