(* ===== verification/NatState.v ===== *)
(** * Configuration, counters, events and policy

    The map-facing helpers of [bpf/nat.c]: [get_cfg], [stat_for] and the counter
    updates, [emit], [policy_check] and [mk_tuple]. *)
From S2P Require Import Prelude CLayout Checksum Vmlinux NatTypes Kernel NatParse NatRewrite.
#[local] Open Scope Z_scope.

(** ** Counters (64-bit, wrapping) *)

Definition count (v n : Z) : Z := wrap 64 (v + n).

Definition inc_drops (s : nat_stats) : nat_stats :=
  mkNatStats (rx_pkts s) (rx_bytes s) (tx_pkts s) (tx_bytes s) (count (drops s) 1) (conns s).

Definition inc_conns (s : nat_stats) : nat_stats :=
  mkNatStats (rx_pkts s) (rx_bytes s) (tx_pkts s) (tx_bytes s) (drops s) (count (conns s) 1).

Definition inc_tx (len : Z) (s : nat_stats) : nat_stats :=
  mkNatStats (rx_pkts s) (rx_bytes s) (count (tx_pkts s) 1) (count (tx_bytes s) len)
             (drops s) (conns s).

Definition inc_rx (len : Z) (s : nat_stats) : nat_stats :=
  mkNatStats (count (rx_pkts s) 1) (count (rx_bytes s) len) (tx_pkts s) (tx_bytes s)
             (drops s) (conns s).

(** ** Lookup keys *)

Definition mk_tuple (saddr daddr sport dport : Z) : bpf_sock_tuple :=
  mkTuple saddr daddr sport dport.

(** [struct bpf_ct_opts opts = {.netns_id = ..., .l4proto = ...};] *)
Definition mk_opts (proto : Z) : bpf_ct_opts :=
  mkCtOpts BPF_F_CURRENT_NETNS 0 proto 0 0 0 [0; 0; 0].

(** ** Event records: the stores into the reserved memory, in program order *)

Definition put_field (path : list accessor) (v : Z) (mem : list Z) : list Z :=
  splice (offsetof nat_event_decl path)
         (le_bytes (Z.to_nat (sizeof_path nat_event_decl path)) v) mem.

Definition fill_event (o : l4off) (vm_ip dir verdict new_saddr new_daddr new_sport new_dport : Z)
  (mem : list Z) : list Z :=
  let mem := put_field [Fld "orig_saddr"] (l4_saddr o) mem in
  let mem := put_field [Fld "orig_daddr"] (l4_daddr o) mem in
  let mem := put_field [Fld "new_saddr"] new_saddr mem in
  let mem := put_field [Fld "new_daddr"] new_daddr mem in
  let mem := put_field [Fld "vm_ip"] vm_ip mem in
  let mem := put_field [Fld "orig_sport"] (l4_sport o) mem in
  let mem := put_field [Fld "orig_dport"] (l4_dport o) mem in
  let mem := put_field [Fld "new_sport"] new_sport mem in
  let mem := put_field [Fld "new_dport"] new_dport mem in
  let mem := put_field [Fld "len"] (l4_tot_len o) mem in
  let mem := put_field [Fld "proto"] (l4_proto o) mem in
  let mem := put_field [Fld "dir"] dir mem in
  let mem := put_field [Fld "verdict"] verdict mem in
  let mem := put_field [Fld "_pad"; Idx 2] 0 mem in
  let mem := put_field [Fld "_pad"; Idx 1] 0 mem in
  put_field [Fld "_pad"; Idx 0] 0 mem.

Section state.
Context `{BH : !BpfHelpers, CK : !Conntrack}.

Definition get_cfg : ST world (option global_config) :=
  gets (λ w, global_config_map (w_maps w) !! 0).

(** [stat_for] gives [true] when its pointer is not null. *)
Definition stat_for (vm_ip : Z) : ST world bool := λ w,
  match stats (w_maps w) !! vm_ip with
  | Some _ => Some (true, w)
  | None =>
      let '(_, m) := bpf_stats_update_elem (stats (w_maps w)) vm_ip nat_stats_zero BPF_NOEXIST in
      Some (match m !! vm_ip with Some _ => true | None => false end, set_stats m w)
  end.

(** An update through the pointer [stat_for] returned: [if (st) ...]. *)
Definition stat_update (st : bool) (vm_ip : Z) (f : nat_stats → nat_stats) : ST world unit :=
  when st (modify (λ w, set_stats (alter f vm_ip (stats (w_maps w))) w)).

Definition emit (o : l4off) (vm_ip dir verdict new_saddr new_daddr new_sport new_dport : Z)
  : ST world unit := λ w,
  match bpf_ringbuf_reserve (events (w_maps w)) sizeof_nat_event with
  | None => Some (tt, w)
  | Some mem =>
      Some (tt, set_events (events (w_maps w) ++
        [fill_event o vm_ip dir verdict new_saddr new_daddr new_sport new_dport mem]) w)
  end.

Definition policy_check (trie : gmap policy_key policy_val) (addr dport_host def_allow : Z) : Z :=
  match bpf_lpm_lookup_elem trie (mkPolicyKey 32 addr) with
  | None => def_allow
  | Some v =>
      if negb (pv_port v =? 0) && negb (pv_port v =? dport_host) then def_allow
      else if negb (pv_verdict v =? 0) then 1 else 0
  end.

End state.

(** ** Counters *)

(** The counters of [vm_ip] went through [f], a missing slot starting at zero;
    or there was no slot and none could be made. *)
Definition bumped (f : nat_stats → nat_stats) (vm_ip : Z) (m m' : gmap Z nat_stats) : Prop :=
  m' = <[vm_ip := f (default nat_stats_zero (m !! vm_ip))]> m ∨ (m !! vm_ip = None ∧ m' = m).

(** What [stat_for] leaves in the map, and the pointer's later uses. *)
Definition slot (st : bool) (vm_ip : Z) (m0 m : gmap Z nat_stats) : Prop :=
  if st then m = <[vm_ip := default nat_stats_zero (m0 !! vm_ip)]> m0
  else m0 !! vm_ip = None ∧ m = m0.

Definition stat_after (st : bool) (vm_ip : Z) (f : nat_stats → nat_stats) (m : gmap Z nat_stats)
  : gmap Z nat_stats := if st then alter f vm_ip m else m.

Lemma slot_bumped st vm_ip f m0 m :
  slot st vm_ip m0 m → bumped f vm_ip m0 (stat_after st vm_ip f m).
Proof.
  unfold slot, bumped, stat_after. destruct st; [intros ->; left|by right].
  by rewrite alter_insert_eq.
Qed.

Lemma stat_after_compose st vm_ip f g m :
  stat_after st vm_ip g (stat_after st vm_ip f m) = stat_after st vm_ip (λ s, g (f s)) m.
Proof.
  destruct st; [|done]. apply map_eq. intros i. simpl. rewrite !lookup_alter.
  repeat case_decide; subst; try done; by destruct (m !! _).
Qed.

Lemma stat_after_id st vm_ip m : stat_after st vm_ip (λ s, s) m = m.
Proof.
  destruct st; [|done]. apply map_eq. intros i. simpl. rewrite lookup_alter.
  repeat case_decide; subst; try done; by destruct (m !! _).
Qed.

(** ** Events *)

(** The record as a consumer of the ring buffer sees it. *)
Definition event_record (o : l4off) (vm_ip dir verdict new_saddr new_daddr new_sport new_dport : Z)
  : list Z :=
  le_bytes 4 (l4_saddr o) ++ le_bytes 4 (l4_daddr o) ++ le_bytes 4 new_saddr ++
  le_bytes 4 new_daddr ++ le_bytes 4 vm_ip ++ le_bytes 2 (l4_sport o) ++
  le_bytes 2 (l4_dport o) ++ le_bytes 2 new_sport ++ le_bytes 2 new_dport ++
  le_bytes 2 (l4_tot_len o) ++ le_bytes 1 (l4_proto o) ++ le_bytes 1 dir ++
  le_bytes 1 verdict ++ [0; 0; 0].

(** The record of a dropped packet. *)
Definition denied_record (o : l4off) (vm_ip : Z) : list Z := event_record o vm_ip EV_DENY 1 0 0 0 0.

(** The buffer took the record, or was full. *)
Definition logged (rec : list Z) (evs evs' : list (list Z)) : Prop :=
  evs' = evs ∨ evs' = evs ++ [rec].

(** Every byte of the reserved memory is overwritten. *)
Lemma fill_event_record o vm_ip dir verdict nsa nda nsp ndp mem :
  zlen mem = sizeof_nat_event →
  fill_event o vm_ip dir verdict nsa nda nsp ndp mem =
  event_record o vm_ip dir verdict nsa nda nsp ndp.
Proof.
  change sizeof_nat_event with 36. intros Hz. unfold zlen in Hz.
  do 36 (destruct mem as [|? mem]; [simpl in Hz; lia|]).
  destruct mem; [reflexivity|simpl in Hz; lia].
Qed.

(** The tuple [nat_tap] and [nat_uplink] look up. *)
Definition flow_key (d : list Z) : bpf_sock_tuple :=
  mk_tuple (l4_saddr (headers d)) (l4_daddr (headers d)) (l4_sport (headers d))
           (l4_dport (headers d)).

(** ** The longest-prefix policy *)

(** Entry [p] decides for [k]: it matches, and no matching prefix is longer. *)
Definition longest_match (trie : gmap policy_key policy_val) (k p : policy_key) : Prop :=
  lpm_matches p k ∧
  ∀ p' v', trie !! p' = Some v' → lpm_matches p' k → pk_prefixlen p' ≤ pk_prefixlen p.

(** The verdict of one entry for a destination port. *)
Definition entry_verdict (v : policy_val) (dport_host def_allow : Z) : Z :=
  if decide (pv_port v = 0 ∨ pv_port v = dport_host)
  then (if decide (pv_verdict v = 0) then 0 else 1) else def_allow.

Definition policy_spec (trie : gmap policy_key policy_val) (addr dport_host def_allow r : Z)
  : Prop :=
  (∃ p v, trie !! p = Some v ∧ longest_match trie (mkPolicyKey 32 addr) p ∧
          r = entry_verdict v dport_host def_allow) ∨
  ((∀ p v, trie !! p = Some v → ¬ lpm_matches p (mkPolicyKey 32 addr)) ∧ r = def_allow).

(** Keys as the management side writes them: no bits beyond the prefix. *)
Definition trie_canonical (trie : gmap policy_key policy_val) : Prop :=
  ∀ p v, trie !! p = Some v →
    0 ≤ pk_addr p < 2 ^ 32 ∧ 0 ≤ pk_prefixlen p ≤ 32 ∧
    Z.shiftl (Z.shiftr (ntohl (pk_addr p)) (32 - pk_prefixlen p)) (32 - pk_prefixlen p) =
    ntohl (pk_addr p).

Lemma ntohl_inj a b : 0 ≤ a < 2 ^ 32 → 0 ≤ b < 2 ^ 32 → ntohl a = ntohl b → a = b.
Proof.
  intros Ha Hb E. unfold ntohl, be_val in E. apply le_val_inj in E.
  - apply rev_inj in E. apply (f_equal le_val) in E. rewrite !le_val_le_bytes in E.
    by rewrite !Z.mod_small in E.
  - apply Forall_rev, bytes_ok_le_bytes.
  - apply Forall_rev, bytes_ok_le_bytes.
  - done.
Qed.

(** In such a trie a longest match is unique, so the verdict is determined. *)
Lemma longest_match_unique trie k p q v u :
  trie_canonical trie → trie !! p = Some v → trie !! q = Some u →
  longest_match trie k p → longest_match trie k q → p = q.
Proof.
  intros Hc Hp Hq [Mp Lp] [Mq Lq].
  assert (pk_prefixlen p = pk_prefixlen q) as El.
  { apply Z.le_antisymm; [by eapply Lq|by eapply Lp]. }
  destruct (Hc _ _ Hp) as (Ha & _ & Ep). destruct (Hc _ _ Hq) as (Hb & _ & Eq).
  destruct Mp as [_ Mp], Mq as [_ Mq]. rewrite Mp in Ep. rewrite Mq, <- El in Eq.
  assert (pk_addr p = pk_addr q) by (apply ntohl_inj; [done..|congruence]).
  destruct p, q; simpl in *; congruence.
Qed.

Section state_facts.
Context `{BH : !BpfHelpers, CK : !Conntrack, BL : !BpfHelpersLaws}.

Lemma policy_check_longest trie addr dport_host def_allow :
  policy_spec trie addr dport_host def_allow (policy_check trie addr dport_host def_allow).
Proof.
  unfold policy_check, policy_spec, entry_verdict.
  destruct (bpf_lpm_lookup_elem _ _) as [v|] eqn:E.
  - apply lpm_lookup_some in E as (p & Hp & Hm & Hmax). left. exists p, v.
    split_and!; [done|done|]. repeat case_decide; repeat case_match; bool_prop; lia.
  - right. split; [|done]. eapply lpm_lookup_none. exact E.
Qed.

(** *** Stepping through the map operations *)

Lemma wp_stat_for vm_ip (Q : bool → world → Prop) w :
  (∀ st m, slot st vm_ip (stats (w_maps w)) m → Q st (set_stats m w)) → wp (stat_for vm_ip) Q w.
Proof.
  intros HQ. unfold wp, stat_for. destruct (stats (w_maps w) !! vm_ip) as [s|] eqn:E.
  - specialize (HQ true (stats (w_maps w))). simpl in HQ. rewrite E in HQ. simpl in HQ.
    rewrite insert_id in HQ by done. destruct w as [sk mp c r i rd]. destruct mp. by apply HQ.
  - destruct (bpf_stats_update_elem _ _ _ _) as [rc m] eqn:Eu.
    apply stats_update_spec in Eu as [[_ ->]|(_ & _ & ->)].
    + rewrite E. by apply HQ.
    + rewrite lookup_insert_eq. apply HQ. simpl. by rewrite E.
Qed.

Lemma wp_stat_update st vm_ip f (Q : unit → world → Prop) w :
  Q tt (set_stats (stat_after st vm_ip f (stats (w_maps w))) w) → wp (stat_update st vm_ip f) Q w.
Proof.
  intros HQ. unfold stat_update, stat_after in *. destruct st; [done|].
  destruct w as [sk mp c r i rd]. by destruct mp.
Qed.

Lemma wp_emit o vm_ip dir verdict nsa nda nsp ndp (Q : unit → world → Prop) w :
  (∀ evs, logged (event_record o vm_ip dir verdict nsa nda nsp ndp) (events (w_maps w)) evs →
          Q tt (set_events evs w)) →
  wp (emit o vm_ip dir verdict nsa nda nsp ndp) Q w.
Proof.
  intros HQ. unfold wp, emit. destruct (bpf_ringbuf_reserve _ _) as [mem|] eqn:E.
  - apply ringbuf_reserve_spec in E as [Hz _]. rewrite fill_event_record by done.
    apply HQ. by right.
  - specialize (HQ (events (w_maps w)) (or_introl eq_refl)).
    destruct w as [sk mp c r i rd]. by destruct mp.
Qed.

(** The effect of a whole run: new packet bytes, counters, events, conntrack
    state and redirect; configuration and references as before. *)
Definition effect (d : list Z) (m : gmap Z nat_stats) (evs : list (list Z)) (s : ct_state)
  (r : option redirect) (w : world) : world :=
  mkWorld (mkSkb d (skb_headlen (w_skb w)) (skb_ifindex (w_skb w)) (skb_partial (w_skb w)))
    (mkNatMaps (global_config_map (w_maps w)) (vm_config (w_maps w)) (dnat_rules (w_maps w))
       (egress_policy (w_maps w)) (ingress_policy (w_maps w)) evs m)
    s (w_refs w) (w_inits w) r.

Lemma flow_key_ok w : packet_ok w → tuple_ok (flow_key (w_data w)).
Proof. intros (?&?&?&?)%headers_ranges. done. Qed.

Lemma effect_id w :
  effect (w_data w) (stats (w_maps w)) (events (w_maps w)) (w_ct w) (w_redirect w) w = w.
Proof. destruct w as [[] [] ????]. done. Qed.

End state_facts.

(** Normalise a world given by updates of an explicit record. *)
Ltac world_norm :=
  cbv [effect set_stats set_events set_maps set_data set_ct add_refs set_redirect w_data
       w_skb w_maps w_ct w_refs w_inits w_redirect skb_data skb_headlen skb_ifindex
       global_config_map vm_config dnat_rules egress_policy ingress_policy events stats].
