(* ===== verification/NatArp.v ===== *)
(** * The ARP responder

    [handle_arp] of [bpf/nat.c]: requests for the virtual gateway are answered in
    place and bounced back out of the TAP they arrived on. *)
From S2P Require Import Prelude CLayout Checksum Vmlinux NatTypes Kernel NatParse NatState.
#[local] Open Scope Z_scope.

Section arp.
Context `{BH : !BpfHelpers, CK : !Conntrack}.

Definition handle_arp (cfg : global_config) : ST world Z :=
  let arp := sizeof_ethhdr in
  let* arp_ok := within (arp + sizeof_arphdr) in
  if negb arp_ok then ret TC_ACT_OK else
  let* ar_op := pkt_load 2 (arp + arp_ar_op) in
  let* ar_hrd := pkt_load 2 (arp + arp_ar_hrd) in
  let* ar_pro := pkt_load 2 (arp + arp_ar_pro) in
  if negb (ar_op =? bpf_htons ARPOP_REQUEST) || negb (ar_hrd =? bpf_htons ARPHRD_ETHER)
     || negb (ar_pro =? bpf_htons ETH_P_IP) then ret TC_ACT_OK else
  let a := arp + sizeof_arphdr in
  let* a_ok := within (a + sizeof_arp_eth_ipv4) in
  if negb a_ok then ret TC_ACT_OK else
  let* target := pkt_load 4 (a + arp_ar_tip) in
  if negb (target =? gc_gw_ip cfg) then ret TC_ACT_OK else
  let reply_op := bpf_htons ARPOP_REPLY in
  do* skb_store_bytes (ETH_HLEN + arp_ar_op) (le_bytes 2 reply_op) 0 in
  let arp_payload := ETH_HLEN + sizeof_arphdr in
  let* req_sha := skb_load_bytes (arp_payload + arp_ar_sha) ETH_ALEN in
  let* req_sip := skb_load_bytes (arp_payload + arp_ar_sip) 4 in
  do* skb_store_bytes (arp_payload + arp_ar_tha) req_sha 0 in
  do* skb_store_bytes (arp_payload + arp_ar_tip) req_sip 0 in
  do* skb_store_bytes (arp_payload + arp_ar_sha) (gc_gw_mac cfg) 0 in
  do* skb_store_bytes (arp_payload + arp_ar_sip) (le_bytes 4 (gc_gw_ip cfg)) 0 in
  do* skb_store_bytes eth_h_dest req_sha 0 in
  do* skb_store_bytes eth_h_source (gc_gw_mac cfg) 0 in
  let* ifindex := gets (λ w, skb_ifindex (w_skb w)) in
  redirect_to ifindex 0.

End arp.

(** ** What is answered, and with what *)

(** A complete Ethernet/IPv4 ARP request for the gateway address. *)
Definition gateway_query (cfg : global_config) (d : list Z) (h : Z) : Prop :=
  42 ≤ h ∧ be_val (slice 14 2 d) = 1 ∧ be_val (slice 16 2 d) = 0x0800 ∧
  be_val (slice 20 2 d) = 1 ∧ load 4 38 d = gc_gw_ip cfg.

#[export] Instance gateway_query_dec cfg d h : Decision (gateway_query cfg d h).
Proof. unfold gateway_query. apply _. Defined.

(** The reply: the gateway is at its MAC, sent to the requester. *)
Definition gateway_reply (cfg : global_config) (d : list Z) : list Z :=
  slice 22 6 d ++ gc_gw_mac cfg ++ slice 12 8 d ++ [0; 2] ++ gc_gw_mac cfg ++
  le_bytes 4 (gc_gw_ip cfg) ++ slice 22 6 d ++ slice 28 4 d ++ slice 42 (zlen d - 42) d.

Lemma arp_offsets :
  sizeof_ethhdr = 14 ∧ sizeof_arphdr = 8 ∧ sizeof_arp_eth_ipv4 = 20 ∧ arp_ar_hrd = 0 ∧
  arp_ar_pro = 2 ∧ arp_ar_op = 6 ∧ arp_ar_sha = 0 ∧ arp_ar_sip = 6 ∧ arp_ar_tha = 10 ∧
  arp_ar_tip = 16 ∧ eth_h_dest = 0 ∧ eth_h_source = 6.
Proof. done. Qed.

(** The frame in the pieces the stores touch. *)
Lemma arp_pieces d :
  42 ≤ zlen d →
  d = slice 0 6 d ++ slice 6 6 d ++ slice 12 8 d ++ slice 20 2 d ++ slice 22 6 d ++
      slice 28 4 d ++ slice 32 6 d ++ slice 38 4 d ++ slice 42 (zlen d - 42) d.
Proof.
  intros Hl. rewrite <- (slice_all d) at 1.
  replace (zlen d) with (6 + (6 + (8 + (2 + (6 + (4 + (6 + (4 + (zlen d - 42))))))))) at 1 by lia.
  do 8 rewrite slice_split by lia. done.
Qed.

(** The stores of [handle_arp], in program order, on the pieces. *)
Lemma arp_stores_pieces m ip a0 a1 a2 a3 a4 a5 a6 a7 a8 :
  zlen a0 = 6 → zlen a1 = 6 → zlen a2 = 8 → zlen a3 = 2 → zlen a4 = 6 → zlen a5 = 4 →
  zlen a6 = 6 → zlen a7 = 4 → zlen m = 6 → zlen ip = 4 →
  splice 6 m (splice 0 a4 (splice 28 ip (splice 22 m (splice 38 a5 (splice 32 a4
    (splice 20 [0; 2] (a0 ++ a1 ++ a2 ++ a3 ++ a4 ++ a5 ++ a6 ++ a7 ++ a8)))))))
  = a4 ++ m ++ a2 ++ [0; 2] ++ m ++ ip ++ a4 ++ a5 ++ a8.
Proof.
  intros. assert (zlen [0; 2] = 2) by done.
  repeat first [ rewrite splice_here by lia | rewrite splice_skip by lia ]. done.
Qed.

(** They build the reply. *)
Lemma arp_stores cfg d d1 :
  42 ≤ zlen d → zlen (gc_gw_mac cfg) = 6 → d1 = splice 20 [0; 2] d →
  splice 6 (gc_gw_mac cfg) (splice 0 (slice 22 6 d1) (splice 28 (le_bytes 4 (gc_gw_ip cfg))
    (splice 22 (gc_gw_mac cfg) (splice 38 (slice 28 4 d1) (splice 32 (slice 22 6 d1) d1)))))
  = gateway_reply cfg d.
Proof.
  intros Hl Hm ->. rewrite !(slice_splice_ne _ _ 20) by (change (zlen [0; 2]) with 2; lia).
  unfold gateway_reply.
  rewrite <- (arp_stores_pieces (gc_gw_mac cfg) (le_bytes 4 (gc_gw_ip cfg))
    (slice 0 6 d) (slice 6 6 d) (slice 12 8 d) (slice 20 2 d) (slice 22 6 d) (slice 28 4 d)
    (slice 32 6 d) (slice 38 4 d)) by (rewrite ?zlen_slice, ?zlen_le_bytes; lia).
  by rewrite <- arp_pieces.
Qed.

Section arp_facts.
Context `{BH : !BpfHelpers, CK : !Conntrack, BL : !BpfHelpersLaws}.

(** Stores whose result the code ignores. *)
Lemma wp_blind_store off bs fl (Q : Z → world → Prop) w :
  (∀ rc d, (StoresSucceed → 0 ≤ off → off + zlen bs ≤ zlen (w_data w) →
            d = splice off bs (w_data w)) → Q rc (set_data d w)) →
  wp (skb_store_bytes off bs fl) Q w.
Proof.
  intros HQ. apply wp_store. intros rc d E. apply HQ. intros Hs ??.
  rewrite store_bytes_ok in E by done. congruence.
Qed.

(** A query is answered and bounced, anything else is passed on untouched. *)
Definition arp_post (cfg : global_config) (w : world) (rc : Z) (w' : world) : Prop :=
  (gateway_query cfg (w_data w) (skb_headlen (w_skb w)) ∧
   rc = bpf_redirect (skb_ifindex (w_skb w)) 0 ∧
   ∃ d, w' = set_redirect (ToDevice (skb_ifindex (w_skb w)) 0) (set_data d w) ∧
        (StoresSucceed → zlen (gc_gw_mac cfg) = 6 → d = gateway_reply cfg (w_data w))) ∨
  (¬ gateway_query cfg (w_data w) (skb_headlen (w_skb w)) ∧ rc = TC_ACT_OK ∧ w' = w).

Lemma wp_handle_arp cfg w :
  packet_ok w → wp (handle_arp cfg) (arp_post cfg w) w.
Proof.
  intros [Hb Hh]. unfold handle_arp, arp_post.
  cbv [sizeof_ethhdr sizeof_arphdr sizeof_arp_eth_ipv4 arp_ar_hrd arp_ar_pro arp_ar_op arp_ar_sha
       arp_ar_sip arp_ar_tha arp_ar_tip eth_h_dest eth_h_source ETH_HLEN ETH_ALEN].
  set (h := skb_headlen (w_skb w)) in *. set (d := w_data w) in *.
  apply wp_bind, wp_within. wp_if E1; fold h in E1.
  { apply wp_ret. right. unfold gateway_query. split_and!; [lia|done|done]. }
  do 3 (apply wp_bind, wp_pkt_load; [lia..|]). fold d.
  change (14 + 6) with 20. change (14 + 0) with 14. change (14 + 2) with 16.
  pose proof (ntohs_eq_const 20 d ARPOP_REQUEST Hb ltac:(lia) ltac:(lia) ltac:(done)) as Hop.
  pose proof (ntohs_eq_const 14 d ARPHRD_ETHER Hb ltac:(lia) ltac:(lia) ltac:(done)) as Hhrd.
  pose proof (ntohs_eq_const 16 d ETH_P_IP Hb ltac:(lia) ltac:(lia) ltac:(done)) as Hpro.
  destruct (_ || _ || _) eqn:E2.
  { apply wp_ret. right. split_and!; [|done|done]. intros (_ & Q1 & Q2 & Q3 & _).
    apply Hop in Q3. apply Hhrd in Q1. apply Hpro in Q2. rewrite Q1, Q2, Q3 in E2.
    by rewrite !Z.eqb_refl in E2. }
  rewrite !orb_false_iff, !negb_false_iff, !Z.eqb_eq, Hop, Hhrd, Hpro in E2.
  destruct E2 as [[E2 E3] E4].
  apply wp_bind, wp_within. wp_if E5; fold h in E5.
  { apply wp_ret. right. unfold gateway_query. split_and!; [lia|done|done]. }
  apply wp_bind, wp_pkt_load; [lia..|]. fold d. change (14 + 8 + 16) with 38. wp_if E6.
  { apply wp_ret. right. split_and!; [|done|done]. by intros (_ & _ & _ & _ & ?). }
  apply wp_bind, wp_blind_store. intros rc1 d1 Hd1.
  apply wp_bind, wp_load_bytes. intros rs sha Hsha.
  apply wp_bind, wp_load_bytes. intros ri sip Hsip.
  apply wp_bind, wp_blind_store. intros rc2 d2 Hd2.
  apply wp_bind, wp_blind_store. intros rc3 d3 Hd3.
  apply wp_bind, wp_blind_store. intros rc4 d4 Hd4.
  apply wp_bind, wp_blind_store. intros rc5 d5 Hd5.
  apply wp_bind, wp_blind_store. intros rc6 d6 Hd6.
  apply wp_bind, wp_blind_store. intros rc7 d7 Hd7.
  unfold redirect_to. wp_steps. left. split; [done|]. split; [done|].
  exists d7. split; [reflexivity|]. intros Hs Hm.
  cbn [w_data w_skb set_data skb_data] in *. fold d in Hd1.
  assert (zlen (le_bytes 2 (bpf_htons ARPOP_REPLY)) = 2) as Hz2 by done.
  specialize (Hd1 Hs ltac:(lia) ltac:(lia)).
  assert (zlen d1 = zlen d) as Hz1 by (subst d1; apply zlen_splice; lia).
  rewrite load_bytes_spec in Hsha by lia. injection Hsha as _ <-.
  rewrite load_bytes_spec in Hsip by lia. injection Hsip as _ <-.
  repeat match goal with
  | E : StoresSucceed → _ → _ → ?x = splice _ _ ?y |- _ =>
      let Hz := fresh "Hz" in
      specialize (E Hs ltac:(lia) ltac:(rewrite ?zlen_slice, ?zlen_le_bytes; lia));
      assert (zlen x = zlen y) as Hz
        by (subst x; apply zlen_splice; rewrite ?zlen_slice, ?zlen_le_bytes; lia)
  end.
  rewrite Hd7, Hd6, Hd5, Hd4, Hd3, Hd2. apply arp_stores; [lia|done|done].
Qed.
End arp_facts.
