(* ===== verification/NatTap.v ===== *)
(** * [nat_tap]: packets a guest sends

    The TCX ingress program of every TAP: gateway ARP, egress policy, SNAT of new and
    established egress flows, and un-DNAT of replies to inbound flows. *)
From S2P Require Import Prelude CLayout Checksum Vmlinux NatTypes Kernel.
From S2P Require Import NatParse NatRewrite NatState NatArp.
#[local] Open Scope Z_scope.

Section tap.
Context `{BH : !BpfHelpers, CK : !Conntrack}.

(** The conntrack block: the entry of the packet's flow, created when there is
    none, and the options as the kfuncs left them; [None] is a drop. *)
Definition tap_flow (cfg : global_config) (o : l4off) (st : bool) (vm_ip : Z)
  : ST world (option (list Z) * bpf_ct_opts) :=
  let tup := mk_tuple (l4_saddr o) (l4_daddr o) (l4_sport o) (l4_dport o) in
  let opts := mk_opts (l4_proto o) in
  let* (ct, opts) := skb_ct_lookup tup sizeof_tuple_ipv4 opts sizeof_ct_opts in
  match ct with
  | Some ct => ret (Some ct, opts)
  | None =>
      let* (nfct, opts) := skb_ct_alloc tup sizeof_tuple_ipv4 opts sizeof_ct_opts in
      match nfct with
      | None =>
          do* stat_update st vm_ip inc_drops in
          ret (None, opts)
      | Some nfct =>
          let* (_, nfct) := ct_set_nat_info nfct (gc_host_ip cfg) 0 NF_NAT_MANIP_SRC in
          let nfct := bpf_ct_set_timeout nfct (CT_TIMEOUT * 1000) in
          let '(_, nfct) := bpf_ct_set_status nfct IPS_CONFIRMED in
          let* ct := ct_insert_entry nfct in
          match ct with
          | Some ct =>
              do* stat_update st vm_ip inc_conns in
              ret (Some ct, opts)
          | None =>
              let* (ct, opts) := skb_ct_lookup tup sizeof_tuple_ipv4 opts sizeof_ct_opts in
              match ct with
              | Some ct => ret (Some ct, opts)
              | None =>
                  do* stat_update st vm_ip inc_drops in
                  ret (None, opts)
              end
          end
      end
  end.

(** The rewrite of the source endpoint, with its event; [false] is [goto drop]. *)
Definition tap_rewrite (o : l4off) (vm_ip ev addr port : Z) : ST world bool :=
  let* rc := set_addr o (ip_off o + ip_saddr) (l4_saddr o) addr in
  if rc <? 0 then ret false else
  let* rc := set_port o (sport_off o) (l4_sport o) port in
  if rc <? 0 then ret false else
  do* emit o vm_ip ev 0 addr (l4_daddr o) port (l4_dport o) in
  ret true.

(** From the entry on: the endpoint to write, by the direction of the packet; the
    rewrite; counters and redirect, or [drop:]. *)
Definition tap_forward (cfg : global_config) (o : l4off) (st : bool) (vm_ip : Z) (ct : list Z)
  (dir : Z) : ST world Z :=
  let snat_addr := core_read_u32 ct (ct_dst_ip CT_DIR_REPLY) in
  let snat_port := core_read_u16 ct (ct_dst_port CT_DIR_REPLY) in
  let undnat_addr := core_read_u32 ct (ct_dst_ip CT_DIR_ORIGINAL) in
  let undnat_port := core_read_u16 ct (ct_dst_port CT_DIR_ORIGINAL) in
  do* ct_release in
  let* ok :=
    if dir =? CT_DIR_ORIGINAL
    then tap_rewrite o vm_ip EV_EGRESS snat_addr snat_port
    else tap_rewrite o vm_ip EV_INBOUND_REPLY undnat_addr undnat_port in
  if ok then
    do* stat_update st vm_ip (inc_tx (l4_tot_len o)) in
    redirect_neigh (gc_uplink_ifindex cfg) 0
  else
    do* stat_update st vm_ip inc_drops in
    ret TC_ACT_SHOT.

(** From a parsed packet on: counters slot, egress policy, flow. *)
Definition tap_handled (cfg : global_config) (o : l4off) : ST world Z :=
  let vm_ip := l4_saddr o in
  let* st := stat_for vm_ip in
  let* trie := gets (λ w, egress_policy (w_maps w)) in
  if policy_check trie (l4_daddr o) (bpf_ntohs (l4_dport o))
                  (gc_default_egress_allow cfg) =? 0 then
    do* stat_update st vm_ip inc_drops in
    do* emit o vm_ip EV_DENY 1 0 0 0 0 in
    ret TC_ACT_SHOT
  else
  let* (ct, opts) := tap_flow cfg o st vm_ip in
  match ct with
  | None => ret TC_ACT_SHOT
  | Some ct => tap_forward cfg o st vm_ip ct (co_dir opts)
  end.

Definition nat_tap : ST world Z :=
  let* cfg := get_cfg in
  match cfg with
  | None => ret TC_ACT_OK
  | Some cfg =>
      let* eth_ok := within sizeof_ethhdr in
      let* is_arp :=
        if eth_ok then
          let* h_proto := pkt_load 2 eth_h_proto in
          ret (h_proto =? bpf_htons ETH_P_ARP)
        else ret false in
      if is_arp then handle_arp cfg else
      let* (p, o) := parse l4off_zero in
      if p =? 0 then ret TC_ACT_OK else
      if p <? 0 then
        do* emit o (l4_saddr o) EV_DENY 1 0 0 0 0 in
        ret TC_ACT_SHOT
      else tap_handled cfg o
  end.

End tap.

(** ** What the program does, branch by branch *)

Section tap_spec.
Context `{BH : !BpfHelpers, CK : !Conntrack}.

(** The outcomes of the conntrack block from table [s]: the flow with its
    direction or none, the counter update, and the table left behind. *)
Inductive flow_step (cfg : global_config) (t : bpf_sock_tuple) (proto : Z) (s : ct_state)
  : option (list Z * Z) → (nat_stats → nat_stats) → ct_state → Prop :=
| flow_known ct opts :
    bpf_skb_ct_lookup s t sizeof_tuple_ipv4 (mk_opts proto) sizeof_ct_opts = (Some ct, opts) →
    flow_step cfg t proto s (Some (ct, co_dir opts)) (λ c, c) s
| flow_no_memory opts opts' :
    bpf_skb_ct_lookup s t sizeof_tuple_ipv4 (mk_opts proto) sizeof_ct_opts = (None, opts) →
    bpf_skb_ct_alloc s t sizeof_tuple_ipv4 opts sizeof_ct_opts = (None, opts') →
    flow_step cfg t proto s None inc_drops s
| flow_created opts i opts' rc i1 rc' i2 ct s' :
    bpf_skb_ct_lookup s t sizeof_tuple_ipv4 (mk_opts proto) sizeof_ct_opts = (None, opts) →
    bpf_skb_ct_alloc s t sizeof_tuple_ipv4 opts sizeof_ct_opts = (Some i, opts') →
    bpf_ct_set_nat_info s i (gc_host_ip cfg) 0 NF_NAT_MANIP_SRC = (rc, i1) →
    bpf_ct_set_status (bpf_ct_set_timeout i1 (CT_TIMEOUT * 1000)) IPS_CONFIRMED = (rc', i2) →
    bpf_ct_insert_entry s i2 = (Some ct, s') →
    flow_step cfg t proto s (Some (ct, co_dir opts')) inc_conns s'
| flow_lost_race opts i opts' rc i1 rc' i2 s' ct opts2 :
    bpf_skb_ct_lookup s t sizeof_tuple_ipv4 (mk_opts proto) sizeof_ct_opts = (None, opts) →
    bpf_skb_ct_alloc s t sizeof_tuple_ipv4 opts sizeof_ct_opts = (Some i, opts') →
    bpf_ct_set_nat_info s i (gc_host_ip cfg) 0 NF_NAT_MANIP_SRC = (rc, i1) →
    bpf_ct_set_status (bpf_ct_set_timeout i1 (CT_TIMEOUT * 1000)) IPS_CONFIRMED = (rc', i2) →
    bpf_ct_insert_entry s i2 = (None, s') →
    bpf_skb_ct_lookup s' t sizeof_tuple_ipv4 opts' sizeof_ct_opts = (Some ct, opts2) →
    flow_step cfg t proto s (Some (ct, co_dir opts2)) (λ c, c) s'
| flow_vanished opts i opts' rc i1 rc' i2 s' opts2 :
    bpf_skb_ct_lookup s t sizeof_tuple_ipv4 (mk_opts proto) sizeof_ct_opts = (None, opts) →
    bpf_skb_ct_alloc s t sizeof_tuple_ipv4 opts sizeof_ct_opts = (Some i, opts') →
    bpf_ct_set_nat_info s i (gc_host_ip cfg) 0 NF_NAT_MANIP_SRC = (rc, i1) →
    bpf_ct_set_status (bpf_ct_set_timeout i1 (CT_TIMEOUT * 1000)) IPS_CONFIRMED = (rc', i2) →
    bpf_ct_insert_entry s i2 = (None, s') →
    bpf_skb_ct_lookup s' t sizeof_tuple_ipv4 opts' sizeof_ct_opts = (None, opts2) →
    flow_step cfg t proto s None inc_drops s'.

(** The public endpoint a guest's packet leaves with. *)
Definition tap_source (ct : list Z) (dir : Z) : Z * Z :=
  if dir =? CT_DIR_ORIGINAL
  then (tu_daddr (ct_tuple ct CT_DIR_REPLY), tu_dport (ct_tuple ct CT_DIR_REPLY))
  else (tu_daddr (ct_tuple ct CT_DIR_ORIGINAL), tu_dport (ct_tuple ct CT_DIR_ORIGINAL)).

Definition tap_event_dir (dir : Z) : Z :=
  if dir =? CT_DIR_ORIGINAL then EV_EGRESS else EV_INBOUND_REPLY.

(** The egress policy's answer for a packet. *)
Definition egress_verdict (cfg : global_config) (w : world) : Z :=
  policy_check (egress_policy (w_maps w)) (l4_daddr (headers (w_data w)))
    (bpf_ntohs (l4_dport (headers (w_data w)))) (gc_default_egress_allow cfg).

Definition is_arp (d : list Z) (h : Z) : Prop := 14 ≤ h ∧ eth_type d = 0x0806.

#[export] Instance is_arp_dec d h : Decision (is_arp d h).
Proof. unfold is_arp. apply _. Defined.

Inductive tap_step (w : world) : Z → world → Prop :=
| tap_unconfigured :
    global_config_map (w_maps w) !! 0 = None → tap_step w TC_ACT_OK w
| tap_arp cfg rc w' :
    global_config_map (w_maps w) !! 0 = Some cfg → is_arp (w_data w) (skb_headlen (w_skb w)) →
    arp_post cfg w rc w' → tap_step w rc w'
| tap_unhandled cfg :
    global_config_map (w_maps w) !! 0 = Some cfg → ¬ is_arp (w_data w) (skb_headlen (w_skb w)) →
    ¬ handled (w_data w) (skb_headlen (w_skb w)) →
    ¬ later_fragment (w_data w) (skb_headlen (w_skb w)) → tap_step w TC_ACT_OK w
| tap_fragment cfg evs :
    global_config_map (w_maps w) !! 0 = Some cfg →
    later_fragment (w_data w) (skb_headlen (w_skb w)) →
    logged (denied_record l4off_zero 0) (events (w_maps w)) evs →
    tap_step w TC_ACT_SHOT
      (effect (w_data w) (stats (w_maps w)) evs (w_ct w) (w_redirect w) w)
| tap_denied cfg m evs :
    global_config_map (w_maps w) !! 0 = Some cfg → handled (w_data w) (skb_headlen (w_skb w)) →
    egress_verdict cfg w = 0 →
    bumped inc_drops (l4_saddr (headers (w_data w))) (stats (w_maps w)) m →
    logged (denied_record (headers (w_data w)) (l4_saddr (headers (w_data w))))
           (events (w_maps w)) evs →
    tap_step w TC_ACT_SHOT (effect (w_data w) m evs (w_ct w) (w_redirect w) w)
| tap_no_flow cfg f s m :
    global_config_map (w_maps w) !! 0 = Some cfg → handled (w_data w) (skb_headlen (w_skb w)) →
    egress_verdict cfg w ≠ 0 →
    flow_step cfg (flow_key (w_data w)) (ip_proto (w_data w)) (w_ct w) None f s →
    bumped f (l4_saddr (headers (w_data w))) (stats (w_maps w)) m →
    tap_step w TC_ACT_SHOT (effect (w_data w) m (events (w_maps w)) s (w_redirect w) w)
| tap_store_failed cfg ct dir f s d m :
    global_config_map (w_maps w) !! 0 = Some cfg → handled (w_data w) (skb_headlen (w_skb w)) →
    egress_verdict cfg w ≠ 0 →
    flow_step cfg (flow_key (w_data w)) (ip_proto (w_data w)) (w_ct w) (Some (ct, dir)) f s →
    ¬ StoresSucceed →
    bumped (λ c, inc_drops (f c)) (l4_saddr (headers (w_data w))) (stats (w_maps w)) m →
    tap_step w TC_ACT_SHOT (effect d m (events (w_maps w)) s (w_redirect w) w)
| tap_forwarded cfg ct dir f s addr port d m evs :
    global_config_map (w_maps w) !! 0 = Some cfg → handled (w_data w) (skb_headlen (w_skb w)) →
    egress_verdict cfg w ≠ 0 →
    flow_step cfg (flow_key (w_data w)) (ip_proto (w_data w)) (w_ct w) (Some (ct, dir)) f s →
    tap_source ct dir = (addr, port) →
    endpoint_set (skb_partial (w_skb w)) [] 26 (14 + ip_header_len (w_data w)) addr port (w_data w) d →
    bumped (λ c, inc_tx (ip_total_len (w_data w)) (f c)) (l4_saddr (headers (w_data w)))
           (stats (w_maps w)) m →
    logged (event_record (headers (w_data w)) (l4_saddr (headers (w_data w))) (tap_event_dir dir) 0
              addr (l4_daddr (headers (w_data w))) port (l4_dport (headers (w_data w))))
           (events (w_maps w)) evs →
    tap_step w (bpf_redirect_neigh (gc_uplink_ifindex cfg) 0)
      (effect d m evs s (Some (ToNeighbour (gc_uplink_ifindex cfg) 0)) w).

End tap_spec.

Section tap_facts.
Context `{BH : !BpfHelpers, CK : !Conntrack, BL : !BpfHelpersLaws, CL : !ConntrackLaws}.

(** The world after the conntrack block: counters, table, one reference held for
    a flow that was found. *)
Definition flow_world (st : bool) (vm_ip : Z) (f : nat_stats → nat_stats) (s : ct_state)
  (held : bool) (w : world) : world :=
  add_refs (if held then 1 else 0) 0
    (set_stats (stat_after st vm_ip f (stats (w_maps w))) (set_ct s w)).

Definition flow_post (cfg : global_config) (o : l4off) (st : bool) (vm_ip : Z) (w : world)
  (r : option (list Z) * bpf_ct_opts) (w' : world) : Prop :=
  ∃ f s,
    flow_step cfg (mk_tuple (l4_saddr o) (l4_daddr o) (l4_sport o) (l4_dport o)) (l4_proto o)
      (w_ct w) ((λ ct, (ct, co_dir (snd r))) <$> fst r) f s ∧
    w' = flow_world st vm_ip f s (match fst r with Some _ => true | None => false end) w.

(** Two descriptions of the same final world. *)
Ltac same_world := unfold flow_world; rewrite ?stat_after_id; world_norm; cbv [fst]; f_equal; lia.

Lemma wp_tap_flow cfg o st vm_ip w :
  wp (tap_flow cfg o st vm_ip) (flow_post cfg o st vm_ip w) w.
Proof.
  destruct w as [sk mp c r i rd]. destruct mp as [gm vc dr ep ip ev sm].
  unfold tap_flow, flow_post. cbv zeta.
  apply wp_bind, wp_ct_lookup. intros ct opts El. simpl in El. destruct ct as [ct|]; cbn beta iota.
  { apply wp_ret. exists (λ s, s), c. split; [by constructor|same_world]. }
  apply wp_bind, wp_ct_alloc. intros nf opts' Ea. simpl in Ea. destruct nf as [nf|]; cbn beta iota.
  2: { apply wp_bind, wp_stat_update, wp_ret. exists inc_drops, c.
       split; [eapply flow_no_memory; eassumption|same_world]. }
  apply wp_bind, wp_ct_nat. intros rc i1 En. simpl in En.
  destruct (bpf_ct_set_status _ _) as [rc' i2] eqn:Es.
  apply wp_bind, wp_ct_insert. intros ct s' Ei. simpl in Ei. destruct ct as [ct|].
  { apply wp_bind, wp_stat_update, wp_ret. exists inc_conns, s'.
    split; [eapply flow_created; eassumption|same_world]. }
  apply wp_bind, wp_ct_lookup. intros ct opts2 El2. simpl in El2. destruct ct as [ct|]; cbn beta iota.
  - apply wp_ret. exists (λ s, s), s'. split; [eapply flow_lost_race; eassumption|same_world].
  - apply wp_bind, wp_stat_update, wp_ret. exists inc_drops, s'.
    split; [eapply flow_vanished; eassumption|same_world].
Qed.

(** The rewrite of the source endpoint. *)
Lemma wp_tap_rewrite vm_ip ev addr port w :
  packet_ok w → handled (w_data w) (skb_headlen (w_skb w)) →
  0 ≤ addr < 2 ^ 32 → 0 ≤ port < 2 ^ 16 →
  let o := headers (w_data w) in
  wp (tap_rewrite o vm_ip ev addr port) (λ ok w',
    ∃ d, (ok = false ∧ ¬ StoresSucceed ∧ w' = set_data d w) ∨
      (ok = true ∧ endpoint_set (skb_partial (w_skb w)) [] 26 (14 + ip_header_len (w_data w)) addr port (w_data w) d ∧
       ∃ evs, logged (event_record o vm_ip ev 0 addr (l4_daddr o) port (l4_dport o))
                     (events (w_maps w)) evs ∧ w' = set_events evs (set_data d w))) w.
Proof.
  intros Hw Hh Ha Hp o. pose proof (handled_geometry w Hw Hh) as Hg.
  unfold tap_rewrite. change (ip_off o + ip_saddr) with 26.
  apply wp_bind. eapply wp_mono; [apply wp_set_addr; [done|by left|done|done]|].
  intros rc w1 (d1 & -> & [[Hr Hs]|[-> H1]]); wp_if E1; try lia.
  { apply wp_ret. exists d1. by left. }
  pose proof Hg as (_ & _ & Hl4 & _).
  assert (sport_off o = 14 + ip_header_len (w_data w)) as Hso by (unfold o, sport_off, headers; simpl; lia).
  assert (geometry d1 o) as Hg1 by (eapply addr_keeps_geometry; [done|by left|done]).
  assert (l4_sport o = load 2 (sport_off o) d1) as Hsp.
  { destruct (geometry_check _ _ Hg) as (H40 & Hlo & _). pose proof Hg as (_ & _ & _ & Hn & _).
    rewrite Hso. symmetry. eapply changed_only_load; [apply H1|lia..|].
    unfold addr_regions. repeat constructor; lia. }
  apply wp_bind. eapply wp_mono; [apply wp_set_port; [done|left; unfold sport_off; lia|done|done]|].
  intros rc w2 (d2 & -> & [[Hr Hs]|[-> H2]]); wp_if E2; try lia.
  { apply wp_ret. exists d2. by left. }
  apply wp_bind, wp_emit. intros evs Hev. apply wp_ret. exists d2. right.
  split; [done|]. split.
  - rewrite Hso in H2. eapply endpoint_both; [exact Hg|by left|by left|exact H1|exact H2].
  - exists evs. split; [exact Hev|done].
Qed.

(** A flow the block found is a readable entry; a flow it created is in its
    original direction. *)
Lemma flow_step_found cfg t proto s ct dir f s' :
  tuple_ok t → flow_step cfg t proto s (Some (ct, dir)) f s' →
  bytes_ok ct ∧ (dir = CT_DIR_ORIGINAL ∨ dir = CT_DIR_REPLY).
Proof.
  intros Ht. inversion 1 as [? ? El| |? ? ? ? ? ? ? ? ? El Ea En Es Ei|? ? ? ? ? ? ? ? ? ? _ _ _ _ _ El|]; subst.
  - apply lookup_hit in El. tauto.
  - apply insert_spec in Ei as (Hb & _). apply lookup_miss in El as (Ed & _).
    apply alloc_spec in Ea as (_ & _ & _ & Ed' & _); [|done].
    split; [done|]. left. by rewrite Ed', Ed.
  - apply lookup_hit in El. tauto.
Qed.

Lemma tap_source_range ct dir addr port :
  bytes_ok ct → tap_source ct dir = (addr, port) → 0 ≤ addr < 2 ^ 32 ∧ 0 ≤ port < 2 ^ 16.
Proof.
  intros Hb. unfold tap_source.
  destruct (ct_tuple_ok ct CT_DIR_REPLY Hb) as (_ & ? & _ & ?).
  destruct (ct_tuple_ok ct CT_DIR_ORIGINAL Hb) as (_ & ? & _ & ?).
  case_match; intros E; injection E as <- <-; done.
Qed.

(** The world a forwarded packet leaves, counters folded together. *)
Lemma flow_effect st vm_ip f g s d m0 evs w :
  let w1 := add_refs (-1) 0 (flow_world st vm_ip f s true (set_stats m0 w)) in
  let w2 := set_events evs (set_data d w1) in
  set_stats (stat_after st vm_ip g (stats (w_maps w2))) w2 =
  effect d (stat_after st vm_ip (λ c, g (f c)) m0) evs s (w_redirect w) w.
Proof.
  destruct w as [[] [] ????]. cbv zeta. unfold flow_world. world_norm.
  f_equal; [by rewrite stat_after_compose|lia..].
Qed.

(** The forwarding half of the program, from the conntrack entry on. *)
Lemma wp_tap_forward cfg ct dir f s st m0 w :
  global_config_map (w_maps w) !! 0 = Some cfg → packet_ok w →
  handled (w_data w) (skb_headlen (w_skb w)) → egress_verdict cfg w ≠ 0 →
  flow_step cfg (flow_key (w_data w)) (ip_proto (w_data w)) (w_ct w) (Some (ct, dir)) f s →
  let o := headers (w_data w) in
  slot st (l4_saddr o) (stats (w_maps w)) m0 →
  wp (tap_forward cfg o st (l4_saddr o) ct dir)
     (tap_step w) (flow_world st (l4_saddr o) f s true (set_stats m0 w)).
Proof.
  intros Hc Hw Hh Hv Hf o Hst. destruct (flow_step_found _ _ _ _ _ _ _ _ (flow_key_ok _ Hw) Hf) as [Hb _].
  destruct (tap_source ct dir) as [addr port] eqn:Et.
  destruct (tap_source_range _ _ _ _ Hb Et) as [Ha Hp].
  unfold tap_forward. apply wp_bind, wp_modify, wp_bind.
  set (w1 := add_refs (-1) 0 _).
  assert (wp (tap_rewrite o (l4_saddr o) (tap_event_dir dir) addr port) (λ ok w',
     ∃ d, (ok = false ∧ ¬ StoresSucceed ∧ w' = set_data d w1) ∨
      (ok = true ∧ endpoint_set (skb_partial (w_skb w)) [] 26 (14 + ip_header_len (w_data w)) addr port (w_data w) d ∧
       ∃ evs, logged (event_record o (l4_saddr o) (tap_event_dir dir) 0 addr (l4_daddr o) port
                        (l4_dport o)) (events (w_maps w)) evs ∧
              w' = set_events evs (set_data d w1))) w1) as Hr.
  { by apply (wp_tap_rewrite (l4_saddr o) (tap_event_dir dir) addr port w1). }
  assert (∀ P : ST world bool → Prop,
    P (tap_rewrite o (l4_saddr o) (tap_event_dir dir) addr port) →
    P (if dir =? CT_DIR_ORIGINAL
        then tap_rewrite o (l4_saddr o) EV_EGRESS
               (core_read_u32 ct (ct_dst_ip CT_DIR_REPLY)) (core_read_u16 ct (ct_dst_port CT_DIR_REPLY))
        else tap_rewrite o (l4_saddr o) EV_INBOUND_REPLY
               (core_read_u32 ct (ct_dst_ip CT_DIR_ORIGINAL))
               (core_read_u16 ct (ct_dst_port CT_DIR_ORIGINAL)))) as Hsel.
  { intros P. unfold tap_source in Et. unfold tap_event_dir. case_match; by simplify_eq. }
  apply Hsel. eapply wp_mono; [exact Hr|]. clear Hr Hsel.
  intros ok w2 [d [(-> & Hs & ->)|(-> & He & evs & Hl & ->)]].
  - apply wp_bind, wp_stat_update, wp_ret.
    change (set_data d w1) with (set_events (events (w_maps w)) (set_data d w1)).
    unfold w1. rewrite flow_effect.
    eapply tap_store_failed; try done. by apply slot_bumped.
  - apply wp_bind, wp_stat_update. unfold redirect_neigh. wp_steps.
    unfold w1. rewrite flow_effect.
    eapply (tap_forwarded w cfg ct dir f s addr port d); try done. by apply slot_bumped.
Qed.

(** The filtering half, from a handled packet on. *)
Lemma wp_tap_handled cfg w :
  global_config_map (w_maps w) !! 0 = Some cfg → packet_ok w →
  handled (w_data w) (skb_headlen (w_skb w)) →
  wp (tap_handled cfg (headers (w_data w))) (tap_step w) w.
Proof.
  intros Hc Hw Hh. unfold tap_handled. set (o := headers (w_data w)). apply wp_bind, wp_stat_for. intros st m Hst. apply wp_bind, wp_gets.
  change (egress_policy (w_maps (set_stats m w))) with (egress_policy (w_maps w)).
  change (policy_check _ _ _ _) with (egress_verdict cfg w). wp_if Ev.
  - apply wp_bind, wp_stat_update, wp_bind, wp_emit. intros evs Hl. apply wp_ret.
    replace (set_events _ _) with
      (effect (w_data w) (stat_after st (l4_saddr o) inc_drops m) evs (w_ct w) (w_redirect w) w)
      by (destruct w as [[] [] ????]; reflexivity).
    eapply tap_denied; try done. by apply slot_bumped.
  - apply wp_bind. eapply wp_mono; [apply wp_tap_flow|].
    intros [r opts] w1 (f & s & Hf & ->). cbn [fst snd] in Hf |- *.
    destruct r as [ct|]; simpl in Hf.
    + by apply wp_tap_forward.
    + apply wp_ret.
      replace (flow_world _ _ _ _ _ _) with
        (effect (w_data w) (stat_after st (l4_saddr o) f m) (events (w_maps w)) s (w_redirect w) w)
        by (destruct w as [[] [] ????]; unfold flow_world; world_norm; f_equal; lia).
      eapply tap_no_flow; try done. by apply slot_bumped.
Qed.

Lemma wp_nat_tap w : packet_ok w → wp nat_tap (tap_step w) w.
Proof.
  intros Hw. pose proof Hw as [Hb Hh]. unfold nat_tap. apply wp_bind, wp_gets.
  destruct (global_config_map (w_maps w) !! 0) as [cfg|] eqn:Hc; [|by apply wp_ret, tap_unconfigured].
  apply wp_bind, wp_within. change sizeof_ethhdr with 14. change eth_h_proto with 12.
  apply wp_bind, (wp_mono _ (λ b w', w' = w ∧
    (b = true ↔ is_arp (w_data w) (skb_headlen (w_skb w))))).
  { unfold is_arp. wp_if E.
    - apply wp_bind, wp_pkt_load; [done|lia|]. apply wp_ret. split; [done|].
      rewrite Z.eqb_eq, ntohs_eq_const by (done || lia). tauto.
    - apply wp_ret. split; [done|]. split; [done|lia]. }
  intros b w' [-> Hb']. destruct b.
  { eapply wp_mono; [by apply wp_handle_arp|]. intros rc w' Ha. eapply tap_arp; [done|by apply Hb'|done]. }
  assert (¬ is_arp (w_data w) (skb_headlen (w_skb w))) as Hna by (intros ?%Hb'; done).
  apply wp_bind. eapply wp_mono; [by apply wp_parse|]. intros [p o] w' [-> Hp].
  destruct Hp as [(-> & Hp & ->)|[(-> & Hp & ->)|(-> & Hp1 & Hp2)]]; cbn -[tap_handled].
  - by apply wp_tap_handled.
  - apply wp_bind, wp_emit. intros evs Hl. apply wp_ret.
    replace (set_events evs w) with
      (effect (w_data w) (stats (w_maps w)) evs (w_ct w) (w_redirect w) w)
      by (destruct w as [[] [] ????]; reflexivity).
    by eapply tap_fragment.
  - apply wp_ret. by eapply tap_unhandled.
Qed.
End tap_facts.
