(* ===== verification/NatUplink.v ===== *)
(** * [nat_uplink]: packets from the internet

    The TCX ingress program of the uplink: un-SNAT of replies to egress flows, DNAT of
    traffic to published ports, and everything else left to the host. *)
From S2P Require Import Prelude CLayout Checksum Vmlinux NatTypes Kernel.
From S2P Require Import NatParse NatRewrite NatState.
#[local] Open Scope Z_scope.

Section uplink.
Context `{BH : !BpfHelpers, CK : !Conntrack}.

(** The rewrite of the destination endpoint and MAC; [false] is a drop. *)
Definition uplink_rewrite (o : l4off) (addr port : Z) (mac : list Z) : ST world bool :=
  let* rc := set_addr o (ip_off o + ip_daddr) (l4_daddr o) addr in
  if rc <? 0 then ret false else
  let* rc := set_port o (dport_off o) (l4_dport o) port in
  if rc <? 0 then ret false else
  let* rc := set_eth_dst mac in
  if rc <? 0 then ret false else
  ret true.

(** The reply branch: a packet of a flow a guest opened. *)
Definition uplink_reply (o : l4off) (ct : list Z) : ST world Z :=
  let vm_ip := core_read_u32 ct (ct_src_ip CT_DIR_ORIGINAL) in
  let vm_port := core_read_u16 ct (ct_src_port CT_DIR_ORIGINAL) in
  do* ct_release in
  let* vm := gets (λ w, vm_config (w_maps w) !! vm_ip) in
  match vm with
  | None => ret TC_ACT_OK
  | Some vm =>
      let* ok := uplink_rewrite o vm_ip vm_port (ve_vm_mac vm) in
      if negb ok then ret TC_ACT_SHOT else
      let* st := stat_for vm_ip in
      do* stat_update st vm_ip (inc_rx (l4_tot_len o)) in
      do* emit o vm_ip EV_EGRESS_REPLY 0 (l4_saddr o) vm_ip (l4_sport o) vm_port in
      redirect_to (ve_tap_ifindex vm) 0
  end.

(** The inbound branch: published ports. *)
Definition uplink_inbound (cfg : global_config) (o : l4off) (tup : bpf_sock_tuple)
  (opts : bpf_ct_opts) : ST world Z :=
  let dk := mkDnatKey (l4_daddr o) (l4_dport o) (l4_proto o) 0 in
  let* dn := gets (λ w, dnat_rules (w_maps w) !! dk) in
  match dn with
  | None => ret TC_ACT_OK
  | Some dn =>
      let* trie := gets (λ w, ingress_policy (w_maps w)) in
      if policy_check trie (l4_saddr o) (bpf_ntohs (l4_dport o))
                      (gc_default_ingress_allow cfg) =? 0 then
        let* st := stat_for (dv_vm_ip dn) in
        do* stat_update st (dv_vm_ip dn) inc_drops in
        do* emit o (dv_vm_ip dn) EV_DENY 1 0 0 0 0 in
        ret TC_ACT_SHOT
      else
      let* (nfct, opts) := skb_ct_alloc tup sizeof_tuple_ipv4 opts sizeof_ct_opts in
      match nfct with
      | None => ret TC_ACT_SHOT
      | Some nfct =>
          let* (_, nfct) :=
            ct_set_nat_info nfct (dv_vm_ip dn) (bpf_ntohs (dv_vm_port dn)) NF_NAT_MANIP_DST in
          let nfct := bpf_ct_set_timeout nfct (CT_TIMEOUT * 1000) in
          let '(_, nfct) := bpf_ct_set_status nfct IPS_CONFIRMED in
          let* ins := ct_insert_entry nfct in
          do* match ins with Some _ => ct_release | None => ret tt end in
          let* ok := uplink_rewrite o (dv_vm_ip dn) (dv_vm_port dn) (dv_vm_mac dn) in
          if negb ok then ret TC_ACT_SHOT else
          let* st := stat_for (dv_vm_ip dn) in
          do* stat_update st (dv_vm_ip dn) (λ s, inc_conns (inc_rx (l4_tot_len o) s)) in
          do* emit o (dv_vm_ip dn) EV_INBOUND 0 (l4_saddr o) (dv_vm_ip dn)
                   (l4_sport o) (dv_vm_port dn) in
          redirect_to (dv_tap_ifindex dn) 0
      end
  end.

Definition nat_uplink : ST world Z :=
  let* cfg := get_cfg in
  match cfg with
  | None => ret TC_ACT_OK
  | Some cfg =>
      let* (p, o) := parse l4off_zero in
      if p =? 0 then ret TC_ACT_OK else
      if p <? 0 then ret TC_ACT_SHOT else
      let tup := mk_tuple (l4_saddr o) (l4_daddr o) (l4_sport o) (l4_dport o) in
      let opts := mk_opts (l4_proto o) in
      let* (ct, opts) := skb_ct_lookup tup sizeof_tuple_ipv4 opts sizeof_ct_opts in
      match ct with
      | Some ct =>
          if co_dir opts =? CT_DIR_REPLY then uplink_reply o ct
          else do* ct_release in uplink_inbound cfg o tup opts
      | None => uplink_inbound cfg o tup opts
      end
  end.

End uplink.

(** ** What the program does, branch by branch *)

Section uplink_spec.
Context `{BH : !BpfHelpers, CK : !Conntrack}.

(** The packet belongs to a flow of a guest, on its way back. *)
Definition reply_of (s : ct_state) (t : bpf_sock_tuple) (proto : Z) (ct : list Z) : Prop :=
  ∃ opts, bpf_skb_ct_lookup s t sizeof_tuple_ipv4 (mk_opts proto) sizeof_ct_opts = (Some ct, opts) ∧
          co_dir opts = CT_DIR_REPLY.

(** It does not; [opts] is what the lookup left. *)
Definition no_reply (s : ct_state) (t : bpf_sock_tuple) (proto : Z) (opts : bpf_ct_opts) : Prop :=
  ∃ r, bpf_skb_ct_lookup s t sizeof_tuple_ipv4 (mk_opts proto) sizeof_ct_opts = (r, opts) ∧
       (r = None ∨ co_dir opts ≠ CT_DIR_REPLY).

(** The guest endpoint of a flow a guest opened. *)
Definition guest_of (ct : list Z) : Z * Z :=
  (tu_saddr (ct_tuple ct CT_DIR_ORIGINAL), tu_sport (ct_tuple ct CT_DIR_ORIGINAL)).

Definition published (w : world) : option dnat_val :=
  let o := headers (w_data w) in
  dnat_rules (w_maps w) !! mkDnatKey (l4_daddr o) (l4_dport o) (l4_proto o) 0.

Definition ingress_verdict (cfg : global_config) (w : world) : Z :=
  policy_check (ingress_policy (w_maps w)) (l4_saddr (headers (w_data w)))
    (bpf_ntohs (l4_dport (headers (w_data w)))) (gc_default_ingress_allow cfg).

(** The entry made for a packet to a published port, and the table after the
    attempt to insert it. *)
Inductive inbound_entry (dn : dnat_val) (t : bpf_sock_tuple) (opts : bpf_ct_opts) (s : ct_state)
  : option (list Z) → ct_state → Prop :=
| inbound_entry_made i opts' rc i1 rc' i2 r s' :
    bpf_skb_ct_alloc s t sizeof_tuple_ipv4 opts sizeof_ct_opts = (Some i, opts') →
    bpf_ct_set_nat_info s i (dv_vm_ip dn) (bpf_ntohs (dv_vm_port dn)) NF_NAT_MANIP_DST = (rc, i1) →
    bpf_ct_set_status (bpf_ct_set_timeout i1 (CT_TIMEOUT * 1000)) IPS_CONFIRMED = (rc', i2) →
    bpf_ct_insert_entry s i2 = (r, s') →
    inbound_entry dn t opts s r s'.

(** The packet was readdressed to a guest: destination endpoint and MAC. *)
Definition delivered (partial : bool) (addr port : Z) (mac d d' : list Z) : Prop :=
  endpoint_set partial [(0, 6)] 30 (16 + ip_header_len d) addr port d d' ∧ slice 0 6 d' = mac.

Definition inbound_counts (len : Z) (s : nat_stats) : nat_stats := inc_conns (inc_rx len s).

(** The branches of a handled packet. *)
Inductive uplink_handled_step (cfg : global_config) (w : world) : Z → world → Prop :=
| up_reply_unknown ct :
    reply_of (w_ct w) (flow_key (w_data w)) (ip_proto (w_data w)) ct →
    vm_config (w_maps w) !! fst (guest_of ct) = None →
    uplink_handled_step cfg w TC_ACT_OK w
| up_reply_failed ct vm d :
    reply_of (w_ct w) (flow_key (w_data w)) (ip_proto (w_data w)) ct →
    vm_config (w_maps w) !! fst (guest_of ct) = Some vm → ¬ StoresSucceed →
    uplink_handled_step cfg w TC_ACT_SHOT
      (effect d (stats (w_maps w)) (events (w_maps w)) (w_ct w) (w_redirect w) w)
| up_reply ct vm addr port d m evs :
    reply_of (w_ct w) (flow_key (w_data w)) (ip_proto (w_data w)) ct →
    guest_of ct = (addr, port) → vm_config (w_maps w) !! addr = Some vm →
    delivered (skb_partial (w_skb w)) addr port (ve_vm_mac vm) (w_data w) d →
    bumped (inc_rx (ip_total_len (w_data w))) addr (stats (w_maps w)) m →
    logged (event_record (headers (w_data w)) addr EV_EGRESS_REPLY 0
              (l4_saddr (headers (w_data w))) addr (l4_sport (headers (w_data w))) port)
           (events (w_maps w)) evs →
    uplink_handled_step cfg w (bpf_redirect (ve_tap_ifindex vm) 0)
      (effect d m evs (w_ct w) (Some (ToDevice (ve_tap_ifindex vm) 0)) w)
| up_unpublished opts :
    no_reply (w_ct w) (flow_key (w_data w)) (ip_proto (w_data w)) opts →
    published w = None → uplink_handled_step cfg w TC_ACT_OK w
| up_denied opts dn m evs :
    no_reply (w_ct w) (flow_key (w_data w)) (ip_proto (w_data w)) opts →
    published w = Some dn → ingress_verdict cfg w = 0 →
    bumped inc_drops (dv_vm_ip dn) (stats (w_maps w)) m →
    logged (denied_record (headers (w_data w)) (dv_vm_ip dn)) (events (w_maps w)) evs →
    uplink_handled_step cfg w TC_ACT_SHOT
      (effect (w_data w) m evs (w_ct w) (w_redirect w) w)
| up_no_memory opts opts' dn :
    no_reply (w_ct w) (flow_key (w_data w)) (ip_proto (w_data w)) opts →
    published w = Some dn → ingress_verdict cfg w ≠ 0 →
    bpf_skb_ct_alloc (w_ct w) (flow_key (w_data w)) sizeof_tuple_ipv4 opts sizeof_ct_opts
      = (None, opts') →
    uplink_handled_step cfg w TC_ACT_SHOT w
| up_inbound_failed opts dn r s d :
    no_reply (w_ct w) (flow_key (w_data w)) (ip_proto (w_data w)) opts →
    published w = Some dn → ingress_verdict cfg w ≠ 0 →
    inbound_entry dn (flow_key (w_data w)) opts (w_ct w) r s → ¬ StoresSucceed →
    uplink_handled_step cfg w TC_ACT_SHOT
      (effect d (stats (w_maps w)) (events (w_maps w)) s (w_redirect w) w)
| up_inbound opts dn r s d m evs :
    no_reply (w_ct w) (flow_key (w_data w)) (ip_proto (w_data w)) opts →
    published w = Some dn → ingress_verdict cfg w ≠ 0 →
    inbound_entry dn (flow_key (w_data w)) opts (w_ct w) r s →
    delivered (skb_partial (w_skb w)) (dv_vm_ip dn) (dv_vm_port dn) (dv_vm_mac dn) (w_data w) d →
    bumped (inbound_counts (ip_total_len (w_data w))) (dv_vm_ip dn) (stats (w_maps w)) m →
    logged (event_record (headers (w_data w)) (dv_vm_ip dn) EV_INBOUND 0
              (l4_saddr (headers (w_data w))) (dv_vm_ip dn) (l4_sport (headers (w_data w)))
              (dv_vm_port dn)) (events (w_maps w)) evs →
    uplink_handled_step cfg w (bpf_redirect (dv_tap_ifindex dn) 0)
      (effect d m evs s (Some (ToDevice (dv_tap_ifindex dn) 0)) w).

Inductive uplink_step (w : world) : Z → world → Prop :=
| up_unconfigured :
    global_config_map (w_maps w) !! 0 = None → uplink_step w TC_ACT_OK w
| up_unhandled cfg :
    global_config_map (w_maps w) !! 0 = Some cfg → ¬ handled (w_data w) (skb_headlen (w_skb w)) →
    ¬ later_fragment (w_data w) (skb_headlen (w_skb w)) → uplink_step w TC_ACT_OK w
| up_fragment cfg :
    global_config_map (w_maps w) !! 0 = Some cfg →
    later_fragment (w_data w) (skb_headlen (w_skb w)) → uplink_step w TC_ACT_SHOT w
| up_handled cfg rc w' :
    global_config_map (w_maps w) !! 0 = Some cfg → handled (w_data w) (skb_headlen (w_skb w)) →
    uplink_handled_step cfg w rc w' → uplink_step w rc w'.

End uplink_spec.

Section uplink_facts.
Context `{BH : !BpfHelpers, CK : !Conntrack, BL : !BpfHelpersLaws, CL : !ConntrackLaws}.

(** References taken and given back cancel out. *)
Lemma add_refs_0 w : add_refs 0 0 w = w.
Proof. destruct w. world_norm. f_equal; lia. Qed.

Lemma refs_lookup_release w : add_refs (-1) 0 (add_refs 1 0 w) = w.
Proof. destruct w. world_norm. f_equal; lia. Qed.

Lemma refs_insert_release s w :
  add_refs (-1) 0 (add_refs 1 (-1) (set_ct s (add_refs 0 1 w))) = set_ct s w.
Proof. destruct w. world_norm. f_equal; lia. Qed.

Lemma refs_insert_failed s w : add_refs 0 (-1) (set_ct s (add_refs 0 1 w)) = set_ct s w.
Proof. destruct w. world_norm. f_equal; lia. Qed.

Lemma wp_uplink_rewrite addr port mac w :
  packet_ok w → handled (w_data w) (skb_headlen (w_skb w)) →
  0 ≤ addr < 2 ^ 32 → 0 ≤ port < 2 ^ 16 → mac_ok mac →
  wp (uplink_rewrite (headers (w_data w)) addr port mac) (λ ok w',
    ∃ d, w' = set_data d w ∧
      ((ok = false ∧ ¬ StoresSucceed) ∨ (ok = true ∧ delivered (skb_partial (w_skb w)) addr port mac (w_data w) d))) w.
Proof.
  intros Hw Hh Ha Hp [Hm Hmb]. pose proof (handled_geometry w Hw Hh) as Hg.
  unfold uplink_rewrite. set (o := headers (w_data w)) in *. change (ip_off o + ip_daddr) with 30.
  apply wp_bind. eapply wp_mono; [apply wp_set_addr; [done|by right|done|done]|].
  intros rc w1 (d1 & -> & [[Hr Hs]|[-> H1]]); wp_if E1; try lia.
  { apply wp_ret. exists d1. auto. }
  assert (dport_off o = 16 + ip_header_len (w_data w)) as Hdo
    by (unfold o, dport_off, headers; simpl; lia).
  assert (geometry d1 o) as Hg1 by (eapply addr_keeps_geometry; [done|by right|done]).
  assert (l4_dport o = load 2 (dport_off o) d1) as Hdp.
  { destruct (geometry_check _ _ Hg) as (H40 & Hlo & _). pose proof Hg as (_ & _ & _ & Hn & _).
    rewrite Hdo. symmetry. eapply changed_only_load; [apply H1|lia..|].
    unfold addr_regions. repeat constructor; lia. }
  apply wp_bind. eapply wp_mono; [apply wp_set_port; [done|by right|done|done]|].
  intros rc w2 (d2 & -> & [[Hr Hs]|[-> H2]]); wp_if E2; try lia.
  { apply wp_ret. exists d2. auto. }
  rewrite Hdo in H2. change (w_data (set_data d1 w)) with d1 in H2.
  assert (endpoint_set (skb_partial (w_skb w)) [] 30 (16 + ip_header_len (w_data w)) addr port (w_data w) d2) as He.
  { eapply endpoint_both; [exact Hg|by right|right; unfold o, headers; simpl; lia|done|done]. }
  assert (zlen d2 = zlen (w_data w)) as Hz by apply He.
  change ETH_ALEN with 6 in Hm. pose proof Hg as (_ & _ & _ & Hn & _ & _ & Hl).
  apply wp_bind, wp_store.
  assert (14 ≤ zlen (w_data w)) by (unfold l4_header_len in Hl; case_match; lia).
  intros rc d3 [[Hr Hs]|[-> Hd3]]%store_outcome; [wp_if E3; [|lia]|wp_if E3; [lia|]|done|].
  - apply wp_ret. exists d3. auto.
  - apply wp_ret. exists d3. split; [done|]. right. split; [done|]. rewrite Hd3.
    eapply endpoint_mac; [exact Hg|by right|right; unfold o, headers; simpl; lia|done..].
  - rewrite Hm. change (0 + 6 ≤ zlen d2). lia.
Qed.

Lemma wp_uplink_reply cfg ct w :
  packet_ok w → maps_ok (w_maps w) → handled (w_data w) (skb_headlen (w_skb w)) →
  reply_of (w_ct w) (flow_key (w_data w)) (ip_proto (w_data w)) ct →
  wp (uplink_reply (headers (w_data w)) ct) (uplink_handled_step cfg w) (add_refs 1 0 w).
Proof.
  intros Hw (_ & Hvm & _) Hh Hr. pose proof Hr as (opts & Hlk & _).
  destruct (lookup_hit _ _ _ _ _ _ _ Hlk) as (_ & _ & _ & Hb).
  destruct (ct_tuple_ok ct CT_DIR_ORIGINAL Hb) as (Ha & _ & Hp & _).
  destruct (guest_of ct) as [addr port] eqn:Hgu.
  assert (tu_saddr (ct_tuple ct CT_DIR_ORIGINAL) = addr) as Ea
    by (change (fst (guest_of ct) = addr); by rewrite Hgu).
  assert (tu_sport (ct_tuple ct CT_DIR_ORIGINAL) = port) as Ep
    by (change (snd (guest_of ct) = port); by rewrite Hgu).
  rewrite Ea in Ha. rewrite Ep in Hp.
  unfold uplink_reply.
  change (core_read_u32 ct (ct_src_ip CT_DIR_ORIGINAL)) with (tu_saddr (ct_tuple ct CT_DIR_ORIGINAL)).
  change (core_read_u16 ct (ct_src_port CT_DIR_ORIGINAL)) with (tu_sport (ct_tuple ct CT_DIR_ORIGINAL)).
  rewrite Ea, Ep. apply wp_bind, wp_modify. rewrite refs_lookup_release. apply wp_bind, wp_gets.
  destruct (vm_config (w_maps w) !! addr) as [vm|] eqn:Hv.
  2: { apply wp_ret. eapply up_reply_unknown; [done|]. by rewrite Hgu. }
  pose proof (map_Forall_lookup_1 _ _ _ _ Hvm Hv) as Hm. cbv beta in Hm.
  apply wp_bind. eapply wp_mono; [by apply wp_uplink_rewrite|].
  intros ok w1 (d & -> & [[-> Hs]|[-> Hd]]); cbn [negb].
  { apply wp_ret.
    replace (set_data d w) with
      (effect d (stats (w_maps w)) (events (w_maps w)) (w_ct w) (w_redirect w) w)
      by (by destruct w as [[] [] ????]).
    eapply up_reply_failed; try done. by rewrite Hgu. }
  apply wp_bind, wp_stat_for. intros st m Hst.
  apply wp_bind, wp_stat_update, wp_bind, wp_emit. intros evs Hl. unfold redirect_to. wp_steps.
  replace (set_redirect _ _) with
    (effect d (stat_after st addr (inc_rx (ip_total_len (w_data w))) m) evs (w_ct w)
       (Some (ToDevice (ve_tap_ifindex vm) 0)) w)
    by (by destruct w as [[] [] ????]).
  eapply up_reply; try done. by apply slot_bumped.
Qed.

Lemma wp_uplink_inbound cfg opts w :
  packet_ok w → maps_ok (w_maps w) → handled (w_data w) (skb_headlen (w_skb w)) →
  no_reply (w_ct w) (flow_key (w_data w)) (ip_proto (w_data w)) opts →
  wp (uplink_inbound cfg (headers (w_data w)) (flow_key (w_data w)) opts)
     (uplink_handled_step cfg w) w.
Proof.
  intros Hw (_ & _ & Hdn) Hh Hr. unfold uplink_inbound. apply wp_bind, wp_gets.
  fold (published w). destruct (published w) as [dn|] eqn:Hpub;
    [|apply wp_ret; by eapply up_unpublished].
  pose proof (map_Forall_lookup_1 _ _ _ _ Hdn Hpub) as (Ha & Hp & Hm).
  apply wp_bind, wp_gets.
  change (policy_check _ _ _ _) with (ingress_verdict cfg w). wp_if Ev.
  { apply wp_bind, wp_stat_for. intros st m Hst.
    apply wp_bind, wp_stat_update, wp_bind, wp_emit. intros evs Hl. apply wp_ret.
    replace (set_events _ _) with
      (effect (w_data w) (stat_after st (dv_vm_ip dn) inc_drops m) evs (w_ct w) (w_redirect w) w)
      by (by destruct w as [[] [] ????]).
    eapply up_denied; try done. by apply slot_bumped. }
  apply wp_bind, wp_ct_alloc. intros [i|] opts' Ea; cbn beta iota;
    [|apply wp_ret; by eapply up_no_memory].
  apply wp_bind, wp_ct_nat. intros rc i1 En. change (w_ct (add_refs 0 1 w)) with (w_ct w) in En.
  destruct (bpf_ct_set_status _ _) as [rc' i2] eqn:Es.
  apply wp_bind, wp_ct_insert. intros r s Ei. change (w_ct (add_refs 0 1 w)) with (w_ct w) in Ei.
  apply wp_bind, (wp_mono _ (λ _ w', w' = set_ct s w)).
  { destruct r; [apply wp_modify, refs_insert_release|apply wp_ret, refs_insert_failed]. }
  intros _ w1 ->.
  assert (inbound_entry dn (flow_key (w_data w)) opts (w_ct w) r s) as Hin by (by econstructor).
  apply wp_bind. eapply wp_mono; [by apply (wp_uplink_rewrite _ _ _ (set_ct s w))|].
  intros ok w1 (d & -> & [[-> Hs]|[-> Hd]]); cbn [negb].
  { apply wp_ret.
    replace (set_data d _) with
      (effect d (stats (w_maps w)) (events (w_maps w)) s (w_redirect w) w)
      by (by destruct w as [[] [] ????]).
    by eapply up_inbound_failed. }
  apply wp_bind, wp_stat_for. intros st m Hst.
  apply wp_bind, wp_stat_update, wp_bind, wp_emit. intros evs Hl. unfold redirect_to. wp_steps.
  replace (set_redirect _ _) with
    (effect d (stat_after st (dv_vm_ip dn) (inbound_counts (ip_total_len (w_data w))) m) evs s
       (Some (ToDevice (dv_tap_ifindex dn) 0)) w)
    by (by destruct w as [[] [] ????]).
  eapply up_inbound; try done. by apply slot_bumped.
Qed.

Lemma wp_nat_uplink w :
  packet_ok w → maps_ok (w_maps w) → wp nat_uplink (uplink_step w) w.
Proof.
  intros Hw Hm. unfold nat_uplink. apply wp_bind, wp_gets.
  destruct (global_config_map (w_maps w) !! 0) as [cfg|] eqn:Hc; [|by apply wp_ret, up_unconfigured].
  apply wp_bind. eapply wp_mono; [by apply wp_parse|]. intros [p o] w' [-> Hp].
  destruct Hp as [(-> & Hp & ->)|[(-> & Hp & ->)|(-> & Hp1 & Hp2)]]; cbn -[headers flow_key].
  2: by apply wp_ret; eapply up_fragment.
  2: by apply wp_ret; eapply up_unhandled.
  apply wp_bind, wp_ct_lookup. intros r opts Hlk. fold (flow_key (w_data w)) in Hlk.
  change (l4_proto (headers (w_data w))) with (ip_proto (w_data w)) in Hlk.
  destruct r as [ct|]; cbn beta iota.
  - wp_if Ed.
    + eapply wp_mono; [apply (wp_uplink_reply cfg); [done..|by exists opts]|].
      intros rc w'. by apply up_handled.
    + apply wp_bind, wp_modify. rewrite refs_lookup_release.
      eapply wp_mono; [apply (wp_uplink_inbound cfg); [done..|]|].
      * exists (Some ct). auto.
      * intros rc w'. by apply up_handled.
  - eapply wp_mono; [apply (wp_uplink_inbound cfg); [done..|]|].
    + exists None. auto.
    + intros rc w'. by apply up_handled.
Qed.
End uplink_facts.
