(* ===== verification/NatFlows.v ===== *)
(** * Properties of the NAT dataplane as a whole

    What the two programs promise to guests, peers and the host: every packet is
    processed without faulting and takes one of the documented branches; translation
    is undone for the packets of the other direction; policy is enforced before
    anything changes; the host's own traffic is left alone; checksums, payloads,
    counters and conntrack references are kept in order. *)
From S2P Require Import Prelude CLayout Checksum Vmlinux NatTypes Kernel RefKernel Samples.
From S2P Require Import NatParse NatRewrite NatState NatArp NatTap NatUplink.
#[local] Open Scope Z_scope.

(** ** Reading the tuple back from a translated packet *)

Section tuples.
Context `{BH : !BpfHelpers, CK : !Conntrack}.
Context (w : world) (d : list Z) (extra : list (Z * Z)).
Hypothesis Hw : packet_ok w.
Hypothesis Hh : handled (w_data w) (skb_headlen (w_skb w)).
Hypothesis He : Forall (λ '(a, b), b ≤ 12) extra.

Lemma translated_headers a p addr port :
  a = 26 ∨ a = 30 → p = l4_off (headers (w_data w)) ∨ p = l4_off (headers (w_data w)) + 2 →
  endpoint_set (skb_partial (w_skb w)) extra a p addr port (w_data w) d →
  ip_header_len d = ip_header_len (w_data w) ∧ ip_proto d = ip_proto (w_data w) ∧
  (∀ n o, 26 ≤ o → 0 ≤ n → o + n ≤ l4_check_off (w_data w) → (o + n ≤ a ∨ a + 4 ≤ o) →
          (o + n ≤ p ∨ p + 2 ≤ o) → load n o d = load n o (w_data w)).
Proof.
  intros Ha Hp Hs. pose proof (handled_geometry w Hw Hh) as Hg.
  destruct (changed_only_header _ _ _ (es_only _ _ _ _ _ _ _ _ Hs)) as (Eh & Ep & _).
  { eapply endpoint_spares; [exact Hg|done..|].
    eapply Forall_impl; [exact He|]. intros [x y] ?. by left. }
  split_and!; [done..|]. intros n o Ho Hn Hck Hoa Hop. pose proof (endpoint_range _ _ _ Hg Hp).
  eapply changed_only_load; [apply Hs|lia..|]. rewrite Forall_app. split.
  - unfold endpoint_regions. repeat (apply Forall_cons_2; [lia|]); apply Forall_nil_2.
  - eapply Forall_impl; [exact He|]. intros [x y] ?. simpl in *. lia.
Qed.

Lemma source_translated addr port :
  endpoint_set (skb_partial (w_skb w)) extra 26 (14 + ip_header_len (w_data w)) addr port (w_data w) d →
  flow_key d = mkTuple addr (tu_daddr (flow_key (w_data w))) port (tu_dport (flow_key (w_data w))) ∧
  ip_proto d = ip_proto (w_data w).
Proof.
  intros Hs. pose proof (handled_geometry w Hw Hh) as Hg.
  destruct (translated_headers 26 (14 + ip_header_len (w_data w)) addr port) as (Eh & Ep & Hl);
    [by left|by left|done|].
  destruct (geometry_check _ _ Hg) as (_ & Hck & _). pose proof Hg as (_ & _ & _ & Hn & _).
  split; [|done]. unfold flow_key, mk_tuple, headers.
  cbn [l4_saddr l4_daddr l4_sport l4_dport tu_daddr tu_dport]. rewrite Eh.
  rewrite (es_addr _ _ _ _ _ _ _ _ Hs), (es_port _ _ _ _ _ _ _ _ Hs). f_equal; apply Hl; lia.
Qed.

Lemma dest_translated addr port :
  endpoint_set (skb_partial (w_skb w)) extra 30 (16 + ip_header_len (w_data w)) addr port (w_data w) d →
  flow_key d = mkTuple (tu_saddr (flow_key (w_data w))) addr (tu_sport (flow_key (w_data w))) port ∧
  ip_proto d = ip_proto (w_data w).
Proof.
  intros Hs. pose proof (handled_geometry w Hw Hh) as Hg.
  destruct (translated_headers 30 (16 + ip_header_len (w_data w)) addr port) as (Eh & Ep & Hl);
    [by right|right; unfold headers; cbn [l4_off]; lia|done|].
  destruct (geometry_check _ _ Hg) as (_ & Hck & _). pose proof Hg as (_ & _ & _ & Hn & _).
  split; [|done]. unfold flow_key, mk_tuple, headers.
  cbn [l4_saddr l4_daddr l4_sport l4_dport tu_saddr tu_sport]. rewrite Eh.
  rewrite (es_addr _ _ _ _ _ _ _ _ Hs), (es_port _ _ _ _ _ _ _ _ Hs). f_equal; apply Hl; lia.
Qed.
End tuples.

(** ** The branches exclude each other *)

Lemma handled_not_arp d h : handled d h → is_arp d h → False.
Proof. intros ((_ & E & _) & _) (_ & E'). by rewrite E in E'. Qed.

Lemma handled_not_fragment d h : handled d h → later_fragment d h → False.
Proof. intros (_ & E & _) (_ & E'). done. Qed.

(** The branches of [tap_step] a handled packet can take. *)
Ltac tap_cases H :=
  inversion H; subst; simplify_eq;
  try (exfalso; by eauto using handled_not_arp, handled_not_fragment).

Section flows.
Context `{BH : !BpfHelpers, CK : !Conntrack, BL : !BpfHelpersLaws, CL : !ConntrackLaws}.

(** *** New and known egress flows *)

(** Conntrack has no entry for the packet and makes one, source NAT included. *)
Inductive fresh_egress (cfg : global_config) (t : bpf_sock_tuple) (proto : Z) (s : ct_state)
  : list Z → ct_state → Prop :=
| fresh_egress_intro opts i opts' i1 rc' i2 ct s' :
    bpf_skb_ct_lookup s t sizeof_tuple_ipv4 (mk_opts proto) sizeof_ct_opts = (None, opts) →
    bpf_skb_ct_alloc s t sizeof_tuple_ipv4 opts sizeof_ct_opts = (Some i, opts') →
    bpf_ct_set_nat_info s i (gc_host_ip cfg) 0 NF_NAT_MANIP_SRC = (0, i1) →
    bpf_ct_set_status (bpf_ct_set_timeout i1 (CT_TIMEOUT * 1000)) IPS_CONFIRMED = (rc', i2) →
    bpf_ct_insert_entry s i2 = (Some ct, s') →
    fresh_egress cfg t proto s ct s'.

Lemma fresh_egress_step cfg t proto s ct s' r f s'' :
  tuple_ok t → fresh_egress cfg t proto s ct s' → flow_step cfg t proto s r f s'' →
  r = Some (ct, CT_DIR_ORIGINAL) ∧ f = inc_conns ∧ s'' = s'.
Proof.
  intros Ht Hf Hs. destruct Hf as [opts i opts' i1 rc' i2 ct s' El Ea En Es Ei].
  inversion Hs; subst; merge_calls.
  apply lookup_miss in El as (Ed & _). apply alloc_spec in Ea as (_ & _ & _ & Ed' & _); [|done].
  split_and!; try done. by rewrite Ed', Ed.
Qed.

(** What conntrack then holds: the guest's tuple one way, the host's the other. *)
Lemma fresh_egress_tuples cfg t proto s ct s' :
  tuple_ok t → 0 ≤ gc_host_ip cfg < 2 ^ 32 → fresh_egress cfg t proto s ct s' →
  bytes_ok ct ∧ ct_tuple ct CT_DIR_ORIGINAL = t ∧
  tu_saddr (ct_tuple ct CT_DIR_REPLY) = tu_daddr t ∧
  tu_sport (ct_tuple ct CT_DIR_REPLY) = tu_dport t ∧
  tu_daddr (ct_tuple ct CT_DIR_REPLY) = gc_host_ip cfg ∧
  (tu_saddr t ≠ gc_host_ip cfg →
   (∃ o, bpf_skb_ct_lookup s' t sizeof_tuple_ipv4 (mk_opts proto) sizeof_ct_opts = (Some ct, o) ∧
         co_dir o = CT_DIR_ORIGINAL) ∧
   reply_of s' (ct_tuple ct CT_DIR_REPLY) proto ct).
Proof.
  intros Ht Hh [opts i opts' i1 rc' i2 ct' s'' El Ea En Es Ei].
  apply lookup_miss in El as (_ & Elp & Eln).
  apply alloc_spec in Ea as (Eo & Er & Epr & _); [|done].
  apply nat_src_spec in En as (Eo1 & Ep1 & Es1 & Esp1 & Ed1); [|done].
  apply set_status_spec in Es as (Eo2 & Er2 & Ep2).
  destruct (set_timeout_spec i1 (CT_TIMEOUT * 1000)) as (Eo3 & Er3 & Ep3).
  apply insert_spec in Ei as (Hb & Ho & Hr & Hlk).
  assert (init_orig i2 = t) as Eorig by congruence.
  assert (init_proto i2 = proto) as Eproto by (rewrite Ep2, Ep3, Ep1, Epr, Elp; done).
  assert (init_reply i2 = init_reply i1) as Ereply by congruence.
  assert (tu_daddr (init_reply i2) = gc_host_ip cfg) as Edst by congruence.
  assert (tu_saddr (init_reply i2) = tu_daddr t) as Esrc by (rewrite Ereply, Es1, Er; done).
  assert (tu_sport (init_reply i2) = tu_dport t) as Esp by (rewrite Ereply, Esp1, Er; done).
  rewrite Hr, Ho, Eorig. split_and!; try done. intros Hne.
  destruct (Hlk) with (o := mk_opts proto) (tsz := sizeof_tuple_ipv4) (osz := sizeof_ct_opts)
    as [(o1 & L1 & D1) (o2 & L2 & D2)]; try done.
  - intros E. apply Hne. rewrite Eorig in E. rewrite <- Edst, <- E in *. congruence.
  - rewrite Eorig in L1. split; [by exists o1|by exists o2].
Qed.

(** A packet of a flow with entry [ct] leaves through the uplink with the source
    [tap_source] gives. *)
Definition tap_forwards (cfg : global_config) (ct : list Z) (dir : Z) (f : nat_stats → nat_stats)
  (s : ct_state) (w : world) (rc : Z) (w' : world) : Prop :=
  rc = bpf_redirect_neigh (gc_uplink_ifindex cfg) 0 ∧
  w_redirect w' = Some (ToNeighbour (gc_uplink_ifindex cfg) 0) ∧
  w_ct w' = s ∧
  endpoint_set (skb_partial (w_skb w)) [] 26 (14 + ip_header_len (w_data w)) (fst (tap_source ct dir))
    (snd (tap_source ct dir)) (w_data w) (w_data w') ∧
  bumped (λ c, inc_tx (ip_total_len (w_data w)) (f c)) (l4_saddr (headers (w_data w)))
    (stats (w_maps w)) (stats (w_maps w')).

Lemma wp_tap_forwards cfg ct dir f s w :
  packet_ok w → global_config_map (w_maps w) !! 0 = Some cfg →
  handled (w_data w) (skb_headlen (w_skb w)) → egress_verdict cfg w ≠ 0 → StoresSucceed →
  (∀ r f' s', flow_step cfg (flow_key (w_data w)) (ip_proto (w_data w)) (w_ct w) r f' s' →
              r = Some (ct, dir) ∧ f' = f ∧ s' = s) →
  wp nat_tap (tap_forwards cfg ct dir f s w) w.
Proof.
  intros Hw Hc Hh Hv Hs Hf. eapply wp_mono; [by apply wp_nat_tap|]. intros rc w' Hstep.
  tap_cases Hstep.
  - match goal with H : flow_step _ _ _ _ _ _ _ |- _ => by apply Hf in H as (? & _) end.
  - match goal with H : flow_step _ _ _ _ _ _ _ |- _ => apply Hf in H as (? & -> & ->) end.
    simplify_eq. match goal with H : tap_source _ _ = _ |- _ => rename H into Ets end.
    unfold tap_forwards. rewrite Ets. done.
Qed.

(** A known flow in direction [dir]. *)
Lemma known_flow_step cfg t proto s ct o r f s' :
  bpf_skb_ct_lookup s t sizeof_tuple_ipv4 (mk_opts proto) sizeof_ct_opts = (Some ct, o) →
  flow_step cfg t proto s r f s' → r = Some (ct, co_dir o) ∧ f = (λ c, c) ∧ s' = s.
Proof. intros E. inversion 1; subst; by merge_calls. Qed.

(** *** Replies to guests *)

Definition uplink_delivers (tap : Z) (addr port : Z) (mac : list Z) (s : ct_state) (w : world)
  (rc : Z) (w' : world) : Prop :=
  rc = bpf_redirect tap 0 ∧ w_redirect w' = Some (ToDevice tap 0) ∧ w_ct w' = s ∧
  delivered (skb_partial (w_skb w)) addr port mac (w_data w) (w_data w').

Lemma reply_no_reply s t proto ct opts :
  reply_of s t proto ct → no_reply s t proto opts → False.
Proof. intros (o & E & D) (r & E' & [Hn|Hn]); subst; merge_calls; done. Qed.

Lemma reply_of_unique s t proto c ct : reply_of s t proto c → reply_of s t proto ct → c = ct.
Proof. intros (? & ? & _) (? & ? & _). congruence. Qed.

Lemma wp_uplink_delivers_reply cfg ct vm w :
  packet_ok w → maps_ok (w_maps w) → global_config_map (w_maps w) !! 0 = Some cfg →
  handled (w_data w) (skb_headlen (w_skb w)) → StoresSucceed →
  reply_of (w_ct w) (flow_key (w_data w)) (ip_proto (w_data w)) ct →
  vm_config (w_maps w) !! fst (guest_of ct) = Some vm →
  wp nat_uplink (uplink_delivers (ve_tap_ifindex vm) (fst (guest_of ct)) (snd (guest_of ct))
                   (ve_vm_mac vm) (w_ct w) w) w.
Proof.
  intros Hw Hm Hc Hh Hs Hr Hv. eapply wp_mono; [by apply wp_nat_uplink|]. intros rc w' Hstep.
  tap_cases Hstep. match goal with H : uplink_handled_step _ _ _ _ |- _ => inversion H; subst end;
    try (exfalso; by eauto using reply_no_reply); try done.
  all: match goal with H : reply_of _ _ _ ?c |- _ =>
         assert (c = ct) as -> by (destruct H as (? & ? & _), Hr as (? & ? & _); congruence) end.
  all: try congruence.
  match goal with H : guest_of ct = _ |- _ => rename H into Eg end. rewrite Eg in *. simpl in *.
  simplify_eq. done.
Qed.

(** *** Inbound flows *)

(** Conntrack makes the entry of a packet to a published port. *)
Inductive fresh_inbound (dn : dnat_val) (t : bpf_sock_tuple) (opts : bpf_ct_opts) (s : ct_state)
  : list Z → ct_state → Prop :=
| fresh_inbound_intro i opts' i1 rc' i2 ct s' :
    bpf_skb_ct_alloc s t sizeof_tuple_ipv4 opts sizeof_ct_opts = (Some i, opts') →
    bpf_ct_set_nat_info s i (dv_vm_ip dn) (bpf_ntohs (dv_vm_port dn)) NF_NAT_MANIP_DST = (0, i1) →
    bpf_ct_set_status (bpf_ct_set_timeout i1 (CT_TIMEOUT * 1000)) IPS_CONFIRMED = (rc', i2) →
    bpf_ct_insert_entry s i2 = (Some ct, s') →
    fresh_inbound dn t opts s ct s'.

Lemma fresh_inbound_entry dn t opts s ct s' r s'' :
  fresh_inbound dn t opts s ct s' → inbound_entry dn t opts s r s'' → r = Some ct ∧ s'' = s'.
Proof. intros [] []. by merge_calls. Qed.

(** What conntrack then holds: the peer's tuple, and the guest's answer to it. *)
Lemma fresh_inbound_tuples dn t opts s ct s' proto :
  tuple_ok t → 0 ≤ dv_vm_ip dn < 2 ^ 32 → 0 ≤ dv_vm_port dn < 2 ^ 16 → dv_vm_port dn ≠ 0 →
  no_reply s t proto opts → fresh_inbound dn t opts s ct s' →
  ct_tuple ct CT_DIR_ORIGINAL = t ∧
  ct_tuple ct CT_DIR_REPLY = mkTuple (dv_vm_ip dn) (tu_saddr t) (dv_vm_port dn) (tu_sport t) ∧
  (dv_vm_ip dn ≠ tu_daddr t → reply_of s' (ct_tuple ct CT_DIR_REPLY) proto ct).
Proof.
  intros Ht Hv Hp Hp0 (r & El & _) [i opts' i1 rc' i2 ct' s'' Ea En Es Ei].
  assert (co_l4proto opts = proto ∧ co_netns_id opts = BPF_F_CURRENT_NETNS) as [Elp Eln].
  { destruct r; [apply lookup_hit in El|apply lookup_miss in El]; split; by apply El. }
  apply alloc_spec in Ea as (Eo & Er & Epr & _); [|done].
  apply nat_dst_spec in En as (Eo1 & Ep1 & Er1); [|done].
  apply set_status_spec in Es as (Eo2 & Er2 & Ep2).
  destruct (set_timeout_spec i1 (CT_TIMEOUT * 1000)) as (Eo3 & Er3 & Ep3).
  apply insert_spec in Ei as (Hb & Ho & Hr & Hlk).
  assert (init_orig i2 = t) as Eorig by congruence.
  assert (init_proto i2 = proto) as Eproto by congruence.
  assert (init_reply i2 = mkTuple (dv_vm_ip dn) (tu_saddr t) (dv_vm_port dn) (tu_sport t)) as Erep.
  { rewrite Er2, Er3, Er1, Er. unfold bpf_htons, bpf_ntohs. destruct (Z.eqb_spec (bswap16 (dv_vm_port dn)) 0) as [E0|_].
    - destruct Hp0. by apply (bswap16_inj _ 0).
    - by rewrite bswap16_involutive. }
  rewrite Hr, Ho. split_and!; [done..|]. intros Hne.
  destruct (Hlk) with (o := mk_opts proto) (tsz := sizeof_tuple_ipv4) (osz := sizeof_ct_opts)
    as [_ (o2 & L2 & D2)]; try done.
  - intros E. apply Hne. rewrite Eorig, Erep in E. rewrite E. simpl. by rewrite E.
  - by exists o2.
Qed.

Lemma wp_uplink_delivers_inbound cfg dn opts ct s w :
  packet_ok w → maps_ok (w_maps w) → global_config_map (w_maps w) !! 0 = Some cfg →
  handled (w_data w) (skb_headlen (w_skb w)) → StoresSucceed →
  no_reply (w_ct w) (flow_key (w_data w)) (ip_proto (w_data w)) opts →
  published w = Some dn → ingress_verdict cfg w ≠ 0 →
  fresh_inbound dn (flow_key (w_data w)) opts (w_ct w) ct s →
  wp nat_uplink (uplink_delivers (dv_tap_ifindex dn) (dv_vm_ip dn) (dv_vm_port dn)
                   (dv_vm_mac dn) s w) w.
Proof.
  intros Hw Hm Hc Hh Hs Hr Hd Hv Hf. eapply wp_mono; [by apply wp_nat_uplink|]. intros rc w' Hstep.
  tap_cases Hstep. match goal with H : uplink_handled_step _ _ _ _ |- _ => inversion H; subst end;
    try (exfalso; by eauto using reply_no_reply); try congruence; try done.
  all: match goal with H : no_reply _ _ _ ?o |- _ =>
         assert (o = opts) as -> by (destruct H as (? & ? & _), Hr as (? & ? & _); congruence) end.
  - destruct Hf. by merge_calls.
  - simplify_eq.
    match goal with H : inbound_entry _ _ _ _ _ _ |- _ =>
      destruct (fresh_inbound_entry _ _ _ _ _ _ _ _ Hf H) as [-> ->] end.
    done.
Qed.
End flows.
