(* ===== verification/NatTheorems.v ===== *)
(** * The properties of the NAT dataplane

    The theorems about [nat_tap] and [nat_uplink], each with a run on a concrete packet
    that meets its hypotheses. *)
From S2P Require Import Prelude CLayout Checksum Vmlinux NatTypes Kernel RefKernel Samples.
From S2P Require Import NatParse NatRewrite NatState NatArp NatTap NatUplink NatFlows.
#[local] Open Scope Z_scope.

(** ** Sample runs *)

Definition egress_world : world := sample_world egress_frame 5.

Definition inbound_world : world := sample_world inbound_frame 2.

(** The entries conntrack makes for their flows. *)
Definition egress_ct_entry : ref_entry :=
  mkEntry (mkTuple (le_val vm_addr) (le_val peer_addr) (bpf_htons 40000) (bpf_htons 443))
    (mkTuple (le_val peer_addr) (le_val host_addr) (bpf_htons 443) (bpf_htons 40000)) 6 120000 8.

Definition inbound_ct_entry : ref_entry :=
  mkEntry (mkTuple (le_val peer_addr) (le_val host_addr) (bpf_htons 51000) (bpf_htons 30000))
    (mkTuple (le_val vm_addr) (le_val peer_addr) (bpf_htons 25565) (bpf_htons 51000)) 6 120000 8.

Definition ct_with (e : ref_entry) : ref_ct := mkRefCt [e] None [40001; 40002].

(** The peer's answer to the guest, the guest's answer to the peer, and the guest's
    second packet, arriving at the host with the given conntrack table. *)
Definition answer_frame : list Z := Eval vm_compute in
  tcp_frame peer_mac peer_mac peer_addr host_addr 443 40000 [9; 9; 9].
Definition guest_answer_frame : list Z := Eval vm_compute in
  tcp_frame gw_mac vm_mac vm_addr peer_addr 25565 51000 [8; 8].
Definition second_frame : list Z := Eval vm_compute in
  tcp_frame gw_mac vm_mac vm_addr peer_addr 40000 443 [6].

Definition world_at (d : list Z) (ifindex : Z) (s : ref_ct) : world :=
  mkWorld (mkSkb d (zlen d) ifindex false) sample_maps s 0 0 None.

(** A destination the egress policy denies, a port nobody publishes, a later
    fragment. *)
Definition denied_frame : list Z := Eval vm_compute in
  tcp_frame gw_mac vm_mac vm_addr [192; 0; 2; 5] 40000 443 [1].
Definition ssh_frame : list Z := Eval vm_compute in
  tcp_frame peer_mac peer_mac peer_addr host_addr 51000 22 [1].
Definition fragment_frame : list Z := Eval vm_compute in splice 20 [0; 185] egress_frame.

Definition denied_world : world := sample_world denied_frame 5.
Definition ssh_world : world := sample_world ssh_frame 2.
Definition fragment_world : world := sample_world fragment_frame 5.

(** The inbound packet at a host whose ingress policy denies the peer. *)
Definition ingress_denied_world : world :=
  set_maps (mkNatMaps (global_config_map sample_maps) (vm_config sample_maps)
    (dnat_rules sample_maps) (egress_policy sample_maps)
    {[mkPolicyKey 32 (le_val peer_addr) := mkPolicyVal 0 0]} [] ∅) inbound_world.

(** The guest's packet when another CPU wins the insertion, and when the port it
    would keep is taken and no other is free. *)
Definition race_world : world := world_at egress_frame 5 (mkRefCt [] (Some egress_ct_entry) []).
Definition taken_entry : ref_entry :=
  mkEntry (mkTuple (le_val [10; 222; 0; 3]) (le_val peer_addr) (bpf_htons 40000) (bpf_htons 443))
    (mkTuple (le_val peer_addr) (le_val host_addr) (bpf_htons 443) (bpf_htons 40000)) 6 120000 8.
Definition exhausted_world : world := world_at egress_frame 5 (mkRefCt [taken_entry] None []).

Lemma egress_fresh :
  fresh_egress sample_cfg (flow_key (w_data egress_world)) (ip_proto (w_data egress_world))
    (w_ct egress_world) (image egress_ct_entry) (ct_with egress_ct_entry).
Proof. eapply fresh_egress_intro; reflexivity. Qed.

Lemma inbound_no_reply :
  no_reply (w_ct inbound_world) (flow_key (w_data inbound_world)) (ip_proto (w_data inbound_world))
    (set_error (mk_opts 6) (-2)).
Proof. exists None. split; [reflexivity|by left]. Qed.

Lemma inbound_fresh :
  fresh_inbound sample_dnat_val (flow_key (w_data inbound_world)) (set_error (mk_opts 6) (-2))
    (w_ct inbound_world) (image inbound_ct_entry) (ct_with inbound_ct_entry).
Proof. eapply fresh_inbound_intro; reflexivity. Qed.

(** Counters that were bumped, spelled out. *)
Lemma bumped_exactly f vm m m' :
  bumped f vm m m' →
  (∀ c, m !! vm = Some c → m' !! vm = Some (f c)) ∧
  (m !! vm = None → m' !! vm = None ∨ m' !! vm = Some (f nat_stats_zero)) ∧
  (∀ k, k ≠ vm → m' !! k = m !! k).
Proof.
  intros [->|[Hn ->]].
  - rewrite lookup_insert_eq. split_and!; [by intros c ->|intros ->; by right|]. intros k Hk. by rewrite lookup_insert_ne.
  - split_and!; [congruence|by left|done].
Qed.

Section theorems.
Context `{BH : !BpfHelpers, CK : !Conntrack, BL : !BpfHelpersLaws, CL : !ConntrackLaws}.

(** C1: [nat_tap] processes every packet: it never reads outside the packet, always
    returns, and its verdict and effects are one of the branches of [tap_step]
    (unconfigured, ARP, not handled, later fragment, denied, no flow, store failed,
    forwarded). *)
Theorem nat_tap_refines w :
  packet_ok w → ∃ rc w', nat_tap w = Some (rc, w') ∧ tap_step w rc w'.
Proof. intros Hw. by apply wp_run, wp_nat_tap. Qed.

(** C2: [nat_uplink] processes every packet: it never reads outside the packet, always
    returns, and its verdict and effects are one of the branches of [uplink_step]. *)
Theorem nat_uplink_refines w :
  packet_ok w → maps_ok (w_maps w) → ∃ rc w', nat_uplink w = Some (rc, w') ∧ uplink_step w rc w'.
Proof. intros Hw Hm. by apply wp_run, wp_nat_uplink. Qed.

(** C3: Egress round trip.  When a guest's first packet was translated and sent, a
    packet of the peer that answers it (its tuple is the mirror of the packet that
    left) is delivered to the guest's TAP with the guest's MAC, and its tuple is the
    mirror of what the guest sent. *)
Theorem egress_round_trip cfg w ct s rc w1 cfg' wr vm :
  StoresSucceed → packet_ok w → maps_ok (w_maps w) →
  global_config_map (w_maps w) !! 0 = Some cfg →
  handled (w_data w) (skb_headlen (w_skb w)) → egress_verdict cfg w ≠ 0 →
  fresh_egress cfg (flow_key (w_data w)) (ip_proto (w_data w)) (w_ct w) ct s →
  tu_saddr (flow_key (w_data w)) ≠ gc_host_ip cfg →
  nat_tap w = Some (rc, w1) →
  packet_ok wr → maps_ok (w_maps wr) → global_config_map (w_maps wr) !! 0 = Some cfg' →
  handled (w_data wr) (skb_headlen (w_skb wr)) → w_ct wr = w_ct w1 →
  flow_key (w_data wr) = swap_tuple (flow_key (w_data w1)) →
  ip_proto (w_data wr) = ip_proto (w_data w1) →
  vm_config (w_maps wr) !! tu_saddr (flow_key (w_data w)) = Some vm →
  wp nat_uplink (λ rc' w2,
    rc' = bpf_redirect (ve_tap_ifindex vm) 0 ∧
    w_redirect w2 = Some (ToDevice (ve_tap_ifindex vm) 0) ∧
    flow_key (w_data w2) = swap_tuple (flow_key (w_data w)) ∧
    slice 0 6 (w_data w2) = ve_vm_mac vm) wr.
Proof.
  intros Hs Hw Hm Hc Hh Hv Hf Hne Hrun Hwr Hmr Hcr Hhr Hct Hk Hp Hvm.
  pose proof (flow_key_ok w Hw) as Ht.
  pose proof (map_Forall_lookup_1 _ _ _ _ (proj1 Hm) Hc) as (Hip & _).
  destruct (fresh_egress_tuples _ _ _ _ _ _ Ht Hip Hf) as (_ & Eo & Es & Esp & Ed & Hlk).
  destruct (Hlk Hne) as [_ Hr].
  assert (tap_forwards cfg ct CT_DIR_ORIGINAL inc_conns s w rc w1) as (_ & _ & Ect & He & _).
  { assert (wp nat_tap (tap_forwards cfg ct CT_DIR_ORIGINAL inc_conns s w) w) as Hwp.
    { apply wp_tap_forwards; auto. intros r f s'. by apply fresh_egress_step. }
    unfold wp in Hwp. by rewrite Hrun in Hwp. }
  destruct (source_translated w _ [] Hw Hh ltac:(constructor) _ _ He) as [Ek Ep].
  assert (flow_key (w_data wr) = ct_tuple ct CT_DIR_REPLY) as Ekr.
  { rewrite Hk, Ek, <- Es, <- Esp. unfold tap_source, swap_tuple.
    change (CT_DIR_ORIGINAL =? CT_DIR_ORIGINAL) with true.
    generalize (ct_tuple ct CT_DIR_REPLY). by intros []. }
  rewrite <- Ekr in Hr. rewrite <- Ect, <- Ep, <- Hp, <- Hct in Hr.
  assert (guest_of ct = (tu_saddr (flow_key (w_data w)), tu_sport (flow_key (w_data w)))) as Eg
    by (unfold guest_of; by rewrite Eo).
  eapply wp_mono; [eapply (wp_uplink_delivers_reply cfg' ct vm); try done; by rewrite Eg|].
  intros rc2 w2 (-> & Hrd & _ & Hd & Hmac). split_and!; [done..| |done].
  rewrite Eg in Hd. destruct (dest_translated wr _ [(0, 6)] Hwr Hhr ltac:(repeat constructor; lia) _ _ Hd) as [-> _].
  rewrite Ekr, Es, Esp. done.
Qed.

(** C4: Inbound round trip.  When a peer's packet to a published port was translated
    and delivered, the guest's answer leaves through the uplink, and its tuple is the
    mirror of what the peer sent: the peer sees the published endpoint. *)
Theorem inbound_round_trip cfg w dn opts ct s rc w1 cfg' wr :
  StoresSucceed → packet_ok w → maps_ok (w_maps w) →
  global_config_map (w_maps w) !! 0 = Some cfg →
  handled (w_data w) (skb_headlen (w_skb w)) →
  no_reply (w_ct w) (flow_key (w_data w)) (ip_proto (w_data w)) opts →
  published w = Some dn → ingress_verdict cfg w ≠ 0 →
  fresh_inbound dn (flow_key (w_data w)) opts (w_ct w) ct s →
  dv_vm_ip dn ≠ tu_daddr (flow_key (w_data w)) → dv_vm_port dn ≠ 0 →
  nat_uplink w = Some (rc, w1) →
  packet_ok wr → global_config_map (w_maps wr) !! 0 = Some cfg' →
  handled (w_data wr) (skb_headlen (w_skb wr)) → w_ct wr = w_ct w1 →
  flow_key (w_data wr) = swap_tuple (flow_key (w_data w1)) →
  ip_proto (w_data wr) = ip_proto (w_data w1) → egress_verdict cfg' wr ≠ 0 →
  wp nat_tap (λ rc' w2,
    rc' = bpf_redirect_neigh (gc_uplink_ifindex cfg') 0 ∧
    w_redirect w2 = Some (ToNeighbour (gc_uplink_ifindex cfg') 0) ∧
    flow_key (w_data w2) = swap_tuple (flow_key (w_data w))) wr.
Proof.
  intros Hs Hw Hm Hc Hh Hr Hpub Hv Hf Hne Hp0 Hrun Hwr Hcr Hhr Hct Hk Hp Hvr.
  pose proof (flow_key_ok w Hw) as Ht.
  pose proof (map_Forall_lookup_1 _ _ _ _ (proj2 (proj2 Hm)) Hpub) as (Hip & Hpo & _).
  destruct (fresh_inbound_tuples _ _ _ _ _ _ _ Ht Hip Hpo Hp0 Hr Hf) as (Eo & Er & Hlk).
  specialize (Hlk Hne).
  assert (uplink_delivers (dv_tap_ifindex dn) (dv_vm_ip dn) (dv_vm_port dn) (dv_vm_mac dn) s w rc w1)
    as (_ & _ & Ect & He & _).
  { assert (wp nat_uplink (uplink_delivers (dv_tap_ifindex dn) (dv_vm_ip dn) (dv_vm_port dn)
      (dv_vm_mac dn) s w) w) as Hwp by (by eapply wp_uplink_delivers_inbound).
    unfold wp in Hwp. by rewrite Hrun in Hwp. }
  destruct (dest_translated w _ [(0, 6)] Hw Hh ltac:(repeat constructor; lia) _ _ He) as [Ek Ep].
  assert (flow_key (w_data wr) = ct_tuple ct CT_DIR_REPLY) as Ekr by (by rewrite Hk, Ek, Er).
  rewrite <- Ekr in Hlk. rewrite <- Ect, <- Ep, <- Hp, <- Hct in Hlk.
  destruct Hlk as (o & Hlk & Hdir).
  eapply wp_mono; [apply (wp_tap_forwards cfg' ct CT_DIR_REPLY (λ c, c) (w_ct wr)); try done|].
  { intros r f s' Hfs. rewrite <- Hdir. by eapply known_flow_step. }
  intros rc2 w2 (-> & Hrd & _ & Hd & _). split_and!; [done..|].
  destruct (source_translated wr _ [] Hwr Hhr ltac:(constructor) _ _ Hd) as [-> _].
  unfold tap_source. cbn [fst snd]. rewrite Ekr, Eo, Er. done.
Qed.

(** C7: A new egress flow is source-translated to the host, provided that conntrack accepts
    the translation.  The conditions on the calls are spelled out: conntrack does not know
    the flow, allocates an entry, [bpf_ct_set_nat_info] returns 0 (the program ignores its
    result, and a failure lets the packet out untranslated: [snat_failure_leaks]) and the
    entry is inserted; the packet can be made writable ([StoresSucceed]).  Then the packet
    leaves through the uplink with the host's address as its source and the destination it
    had, only the source endpoint and the checksums differ from what the guest sent, and
    right checksums stay right.  The guest's counters get one packet with its length and
    one connection, exactly, from zero if it had no slot; only a guest without a slot can
    go uncounted, when the map has no room for one; no other guest's counters change. *)
Theorem egress_snat cfg w opts i opts' i1 rc' i2 ct s :
  StoresSucceed → packet_ok w → maps_ok (w_maps w) →
  global_config_map (w_maps w) !! 0 = Some cfg →
  handled (w_data w) (skb_headlen (w_skb w)) → egress_verdict cfg w ≠ 0 →
  bpf_skb_ct_lookup (w_ct w) (flow_key (w_data w)) sizeof_tuple_ipv4
    (mk_opts (ip_proto (w_data w))) sizeof_ct_opts = (None, opts) →
  bpf_skb_ct_alloc (w_ct w) (flow_key (w_data w)) sizeof_tuple_ipv4 opts sizeof_ct_opts
    = (Some i, opts') →
  bpf_ct_set_nat_info (w_ct w) i (gc_host_ip cfg) 0 NF_NAT_MANIP_SRC = (0, i1) →
  bpf_ct_set_status (bpf_ct_set_timeout i1 (CT_TIMEOUT * 1000)) IPS_CONFIRMED = (rc', i2) →
  bpf_ct_insert_entry (w_ct w) i2 = (Some ct, s) →
  wp nat_tap (λ rc w',
    rc = bpf_redirect_neigh (gc_uplink_ifindex cfg) 0 ∧
    w_redirect w' = Some (ToNeighbour (gc_uplink_ifindex cfg) 0) ∧
    tu_saddr (flow_key (w_data w')) = gc_host_ip cfg ∧
    tu_daddr (flow_key (w_data w')) = tu_daddr (flow_key (w_data w)) ∧
    tu_dport (flow_key (w_data w')) = tu_dport (flow_key (w_data w)) ∧
    changed_only (endpoint_regions (w_data w) 26 (14 + ip_header_len (w_data w)))
      (w_data w) (w_data w') ∧
    (ip_csum_ok (w_data w) → ip_csum_ok (w_data w')) ∧
    (segment_ok (w_data w) → l4_csum_ok (skb_partial (w_skb w)) (w_data w) →
     l4_csum_ok (skb_partial (w_skb w)) (w_data w')) ∧
    (let vm := tu_saddr (flow_key (w_data w)) in
     let counted c := inc_tx (ip_total_len (w_data w)) (inc_conns c) in
     (∀ c, stats (w_maps w) !! vm = Some c → stats (w_maps w') !! vm = Some (counted c)) ∧
     (stats (w_maps w) !! vm = None →
      stats (w_maps w') !! vm = None ∨ stats (w_maps w') !! vm = Some (counted nat_stats_zero)) ∧
     (∀ k, k ≠ vm → stats (w_maps w') !! k = stats (w_maps w) !! k))) w.
Proof.
  intros Hs Hw Hm Hc Hh Hv El Ea En Es Ei. pose proof (flow_key_ok w Hw) as Ht.
  pose proof (map_Forall_lookup_1 _ _ _ _ (proj1 Hm) Hc) as (Hip & _).
  pose proof (fresh_egress_intro _ _ _ _ _ _ _ _ _ _ _ _ El Ea En Es Ei) as Hf.
  destruct (fresh_egress_tuples _ _ _ _ _ _ Ht Hip Hf) as (_ & _ & _ & _ & Ed & _).
  eapply wp_mono.
  { apply (wp_tap_forwards cfg ct CT_DIR_ORIGINAL inc_conns s); try done.
    intros r f s'. by apply fresh_egress_step. }
  intros rc w' (-> & Hrd & _ & He & Hb).
  destruct (source_translated w _ [] Hw Hh ltac:(constructor) _ _ He) as [-> _].
  do 5 (split; [done|]). destruct He as [Ho _ _ Hi Hl]. do 3 (split; [done|]).
  by apply bumped_exactly.
Qed.

(** C13: The translation of a flow is stable: a later packet of a flow that was created
    for an earlier one leaves with the same source endpoint as the first. *)
Theorem egress_stable cfg w ct s cfg' w2 :
  StoresSucceed → packet_ok w → maps_ok (w_maps w) →
  global_config_map (w_maps w) !! 0 = Some cfg →
  handled (w_data w) (skb_headlen (w_skb w)) → egress_verdict cfg w ≠ 0 →
  fresh_egress cfg (flow_key (w_data w)) (ip_proto (w_data w)) (w_ct w) ct s →
  tu_saddr (flow_key (w_data w)) ≠ gc_host_ip cfg →
  packet_ok w2 → global_config_map (w_maps w2) !! 0 = Some cfg' →
  handled (w_data w2) (skb_headlen (w_skb w2)) → egress_verdict cfg' w2 ≠ 0 →
  w_ct w2 = s → flow_key (w_data w2) = flow_key (w_data w) →
  ip_proto (w_data w2) = ip_proto (w_data w) →
  wp nat_tap (λ _ w', wp nat_tap (λ _ w2',
    flow_key (w_data w2') = flow_key (w_data w') ∧ w_ct w2' = w_ct w') w2) w.
Proof.
  intros Hs Hw Hm Hc Hh Hv Hf Hne Hw2 Hc2 Hh2 Hv2 Hct Hk Hp.
  pose proof (flow_key_ok w Hw) as Ht.
  pose proof (map_Forall_lookup_1 _ _ _ _ (proj1 Hm) Hc) as (Hip & _).
  destruct (fresh_egress_tuples _ _ _ _ _ _ Ht Hip Hf) as (_ & _ & _ & _ & _ & Hlk).
  destruct (Hlk Hne) as [(o & Hl & Hd) _].
  eapply wp_mono.
  { apply (wp_tap_forwards cfg ct CT_DIR_ORIGINAL inc_conns s); try done.
    intros r f s'. by apply fresh_egress_step. }
  intros rc w' (_ & _ & Ect & He & _).
  destruct (source_translated w _ [] Hw Hh ltac:(constructor) _ _ He) as [-> _].
  eapply wp_mono.
  { apply (wp_tap_forwards cfg' ct CT_DIR_ORIGINAL (λ c, c) s); try done.
    rewrite Hct, Hk, Hp. intros r f s' Hfs. rewrite <- Hd. by eapply known_flow_step. }
  intros rc2 w2' (_ & _ & Ect2 & He2 & _).
  destruct (source_translated w2 _ [] Hw2 Hh2 ltac:(constructor) _ _ He2) as [-> _].
  rewrite Hk. by rewrite Ect, Ect2.
Qed.

(** C14: A lost insertion race is won back: when the kernel refuses the new entry because
    another CPU inserted one for the flow, and the second lookup finds that one, an
    allowed packet is translated with that entry and sent instead of being dropped, and no
    new flow is counted, provided the stores succeed. *)
Theorem race_uses_winner cfg w opts i opts' rc i1 rc' i2 s ct opts2 :
  StoresSucceed → packet_ok w → global_config_map (w_maps w) !! 0 = Some cfg →
  handled (w_data w) (skb_headlen (w_skb w)) → egress_verdict cfg w ≠ 0 →
  bpf_skb_ct_lookup (w_ct w) (flow_key (w_data w)) sizeof_tuple_ipv4
    (mk_opts (ip_proto (w_data w))) sizeof_ct_opts = (None, opts) →
  bpf_skb_ct_alloc (w_ct w) (flow_key (w_data w)) sizeof_tuple_ipv4 opts sizeof_ct_opts
    = (Some i, opts') →
  bpf_ct_set_nat_info (w_ct w) i (gc_host_ip cfg) 0 NF_NAT_MANIP_SRC = (rc, i1) →
  bpf_ct_set_status (bpf_ct_set_timeout i1 (CT_TIMEOUT * 1000)) IPS_CONFIRMED = (rc', i2) →
  bpf_ct_insert_entry (w_ct w) i2 = (None, s) →
  bpf_skb_ct_lookup s (flow_key (w_data w)) sizeof_tuple_ipv4 opts' sizeof_ct_opts
    = (Some ct, opts2) →
  wp nat_tap (tap_forwards cfg ct (co_dir opts2) (λ c, c) s w) w.
Proof.
  intros Hs Hw Hc Hh Hv El Ea En Es Ei El2. apply wp_tap_forwards; try done.
  intros r f s'. inversion 1; subst; by merge_calls.
Qed.

(** C5: The egress policy is enforced before anything is touched: a denied packet is
    dropped, its bytes, the conntrack table and the redirect target stay as they were,
    and the drop is counted against the guest alone. *)
Theorem egress_deny_enforced cfg w :
  packet_ok w → global_config_map (w_maps w) !! 0 = Some cfg →
  handled (w_data w) (skb_headlen (w_skb w)) → egress_verdict cfg w = 0 →
  wp nat_tap (λ rc w', rc = TC_ACT_SHOT ∧ w_data w' = w_data w ∧ w_ct w' = w_ct w ∧
    w_redirect w' = w_redirect w ∧
    bumped inc_drops (tu_saddr (flow_key (w_data w))) (stats (w_maps w)) (stats (w_maps w')) ∧
    logged (denied_record (headers (w_data w)) (tu_saddr (flow_key (w_data w))))
      (events (w_maps w)) (events (w_maps w'))) w.
Proof.
  intros Hw Hc Hh Hv. eapply wp_mono; [by apply wp_nat_tap|]. intros rc w' Hstep.
  tap_cases Hstep. done.
Qed.

(** C6: The ingress policy is enforced on published ports: a denied packet is dropped
    before a conntrack entry is made, and its bytes, the table and the redirect target
    stay as they were. *)
Theorem ingress_deny_enforced cfg w opts dn :
  packet_ok w → maps_ok (w_maps w) → global_config_map (w_maps w) !! 0 = Some cfg →
  handled (w_data w) (skb_headlen (w_skb w)) →
  no_reply (w_ct w) (flow_key (w_data w)) (ip_proto (w_data w)) opts →
  published w = Some dn → ingress_verdict cfg w = 0 →
  wp nat_uplink (λ rc w', rc = TC_ACT_SHOT ∧ w_data w' = w_data w ∧ w_ct w' = w_ct w ∧
    w_redirect w' = w_redirect w ∧
    bumped inc_drops (dv_vm_ip dn) (stats (w_maps w)) (stats (w_maps w')) ∧
    logged (denied_record (headers (w_data w)) (dv_vm_ip dn))
      (events (w_maps w)) (events (w_maps w'))) w.
Proof.
  intros Hw Hm Hc Hh Hr Hp Hv. eapply wp_mono; [by apply wp_nat_uplink|]. intros rc w' Hstep.
  tap_cases Hstep. match goal with H : uplink_handled_step _ _ _ _ |- _ => inversion H; subst end;
    try (exfalso; by eauto using reply_no_reply); simplify_eq; done.
Qed.

(** What the uplink has no business with: a packet that is not TCP or UDP over IPv4 with
    accessible headers, one that answers no guest's flow and is not for a published port,
    or one that answers a flow of an address that is no guest's. *)
Definition host_own (w : world) : Prop :=
  ¬ handled (w_data w) (skb_headlen (w_skb w)) ∨
  (∃ opts, no_reply (w_ct w) (flow_key (w_data w)) (ip_proto (w_data w)) opts ∧ published w = None) ∨
  (∃ ct, reply_of (w_ct w) (flow_key (w_data w)) (ip_proto (w_data w)) ct ∧
     vm_config (w_maps w) !! fst (guest_of ct) = None).

(** C12: The host's own traffic is left alone, unless it is a later fragment.  A packet on
    the uplink that is not a later fragment and that the dataplane has no business with
    (it is not TCP or UDP over IPv4, or it answers no guest's flow and is not for a
    published port, or it answers a flow of no configured guest) is passed to the host
    stack with the packet, the maps and the conntrack table exactly as they were.  A later
    fragment of a TCP or UDP packet is dropped as soon as the dataplane is configured,
    whoever it is for, with everything else as it was. *)
Theorem host_traffic_untouched w :
  packet_ok w → maps_ok (w_maps w) →
  (¬ later_fragment (w_data w) (skb_headlen (w_skb w)) → host_own w →
   nat_uplink w = Some (TC_ACT_OK, w)) ∧
  (later_fragment (w_data w) (skb_headlen (w_skb w)) →
   is_Some (global_config_map (w_maps w) !! 0) → nat_uplink w = Some (TC_ACT_SHOT, w)).
Proof.
  intros Hw Hm. pose proof (wp_nat_uplink w Hw Hm) as Hwp.
  apply wp_run in Hwp as (rc & w' & -> & Hstep). split.
  - intros Hf Ho. destruct Hstep as [|cfg| |cfg rc w' Hc Hh Hstep]; try done.
    destruct Ho as [?|[(opts & Hr & Hp)|(ct & Hr & Hv)]]; [done|..].
    + inversion Hstep; subst; try (exfalso; by eauto using reply_no_reply); simplify_eq; done.
    + inversion Hstep; subst; try (exfalso; by eauto using reply_no_reply); try done.
      all: match goal with H : reply_of _ _ _ ?c, H' : guest_of ?c = _ |- _ =>
        rewrite <- (reply_of_unique _ _ _ _ _ H Hr), H' in Hv | H : reply_of _ _ _ ?c, H' : context [guest_of ?c] |- _ =>
        rewrite <- (reply_of_unique _ _ _ _ _ H Hr) in Hv end; simpl in *; congruence.
  - intros Hf [cfg Hc]. inversion Hstep; subst; simplify_eq; try (exfalso; by eauto using handled_not_fragment).
    done.
Qed.

(** [nat_tap] gives back what it takes from conntrack: on every path, the failing
    ones included, it ends with the references and the unconfirmed entries it started
    with. *)
Lemma nat_tap_balanced w :
  packet_ok w → wp nat_tap (λ _ w', w_refs w' = w_refs w ∧ w_inits w' = w_inits w) w.
Proof.
  intros Hw. eapply wp_mono; [by apply wp_nat_tap|]. intros rc w' []; try done.
  match goal with H : arp_post _ _ _ _ |- _ =>
    destruct H as [(_ & _ & ? & -> & _)|(_ & _ & ->)] end; done.
Qed.

(** [nat_uplink] gives back what it takes from conntrack, on every path. *)
Lemma nat_uplink_balanced w :
  packet_ok w → maps_ok (w_maps w) →
  wp nat_uplink (λ _ w', w_refs w' = w_refs w ∧ w_inits w' = w_inits w) w.
Proof.
  intros Hw Hm. eapply wp_mono; [by apply wp_nat_uplink|]. intros rc w' []; try done.
  match goal with H : uplink_handled_step _ _ _ _ |- _ => by destruct H end.
Qed.

(** C9: Both programs give back what they take from conntrack: on every path, the failing
    ones included, they end with the references and the unconfirmed entries they
    started with. *)
Theorem conntrack_balanced w :
  packet_ok w → maps_ok (w_maps w) →
  wp nat_tap (λ _ w', w_refs w' = w_refs w ∧ w_inits w' = w_inits w) w ∧
  wp nat_uplink (λ _ w', w_refs w' = w_refs w ∧ w_inits w' = w_inits w) w.
Proof. intros Hw Hm. split; [by apply nat_tap_balanced|by apply nat_uplink_balanced]. Qed.

(** C11: A translated packet keeps everything but its translated endpoint: whatever a
    program lets through has the length it had, and differs from what arrived at most
    in the endpoint it translates (source on the TAP, destination and destination MAC
    on the uplink) and the two checksums; the payload is never touched. *)
Theorem forwarded_frame w :
  packet_ok w → maps_ok (w_maps w) → handled (w_data w) (skb_headlen (w_skb w)) →
  wp nat_tap (λ rc w', rc = TC_ACT_SHOT ∨
    changed_only (endpoint_regions (w_data w) 26 (14 + ip_header_len (w_data w)))
      (w_data w) (w_data w')) w ∧
  wp nat_uplink (λ rc w', rc = TC_ACT_SHOT ∨
    changed_only (endpoint_regions (w_data w) 30 (16 + ip_header_len (w_data w)) ++ [(0, 6)])
      (w_data w) (w_data w')) w.
Proof.
  intros Hw Hm Hh. pose proof Hw as [Hb _]. split.
  - eapply wp_mono; [by apply wp_nat_tap|]. intros rc w' Hstep.
    tap_cases Hstep; auto using changed_only_refl. right.
    match goal with H : endpoint_set _ _ _ _ _ _ _ _ |- _ => apply H end.
  - eapply wp_mono; [by apply wp_nat_uplink|]. intros rc w' Hstep.
    tap_cases Hstep; auto using changed_only_refl.
    match goal with H : uplink_handled_step _ _ _ _ |- _ => destruct H end;
      auto using changed_only_refl; right;
      match goal with H : delivered _ _ _ _ _ _ |- _ => apply H end.
Qed.

(** C8: Checksums survive both programs: a packet whose IPv4 and TCP/UDP checksums
    are right either is dropped or has right checksums afterwards.  The TCP/UDP checksum is
    right when it is complete and sums up, when it is partial (left to the device that
    sends the packet) and is the sum of the pseudo header, or when it is UDP's zero. *)
Theorem checksums_survive w :
  packet_ok w → maps_ok (w_maps w) → handled (w_data w) (skb_headlen (w_skb w)) →
  segment_ok (w_data w) → ip_csum_ok (w_data w) → l4_csum_ok (skb_partial (w_skb w)) (w_data w) →
  wp nat_tap (λ rc w', rc = TC_ACT_SHOT ∨
    (ip_csum_ok (w_data w') ∧ l4_csum_ok (skb_partial (w_skb w')) (w_data w'))) w ∧
  wp nat_uplink (λ rc w', rc = TC_ACT_SHOT ∨
    (ip_csum_ok (w_data w') ∧ l4_csum_ok (skb_partial (w_skb w')) (w_data w'))) w.
Proof.
  intros Hw Hm Hh Hs Hi Hl. split.
  - eapply wp_mono; [by apply wp_nat_tap|]. intros rc w' Hstep.
    tap_cases Hstep; auto. right.
    match goal with H : endpoint_set _ _ _ _ _ _ _ _ |- _ => destruct H end. simpl. auto.
  - eapply wp_mono; [by apply wp_nat_uplink|]. intros rc w' Hstep.
    tap_cases Hstep; auto.
    match goal with H : uplink_handled_step _ _ _ _ |- _ => destruct H end; auto; right;
      match goal with H : delivered _ _ _ _ _ _ |- _ => destruct H as [[] _] end; simpl; auto.
Qed.

(** C32: Gateway ARP: a request for the gateway's address is answered in place with the
    gateway's MAC, addressed to the requester, and sent back out of the TAP it came
    from, when the helper's stores succeed; any other ARP packet is passed on untouched. *)
Theorem gateway_arp_answered cfg w :
  StoresSucceed → packet_ok w → maps_ok (w_maps w) →
  global_config_map (w_maps w) !! 0 = Some cfg → is_arp (w_data w) (skb_headlen (w_skb w)) →
  wp nat_tap (λ rc w',
    if decide (gateway_query cfg (w_data w) (skb_headlen (w_skb w))) then
      rc = bpf_redirect (skb_ifindex (w_skb w)) 0 ∧
      w_redirect w' = Some (ToDevice (skb_ifindex (w_skb w)) 0) ∧
      w_data w' = gateway_reply cfg (w_data w) ∧ w_maps w' = w_maps w ∧ w_ct w' = w_ct w
    else rc = TC_ACT_OK ∧ w' = w) w.
Proof.
  intros Hs Hw Hm Hc Ha. eapply wp_mono; [by apply wp_nat_tap|]. intros rc w' Hstep.
  inversion Hstep; subst; simplify_eq; try (exfalso; by eauto using handled_not_arp).
  - destruct (map_Forall_lookup_1 _ _ _ _ (proj1 Hm) Hc) as (_ & _ & Hmac & _).
    match goal with H : arp_post _ _ _ _ |- _ =>
      destruct H as [(Hq & -> & d & -> & Hd)|(Hq & -> & ->)] end.
    + rewrite decide_True by done. split_and!; try done. by apply Hd.
    + by rewrite decide_False.
  - match goal with H : later_fragment _ _ |- _ => destruct H as ((_ & E & _) & _) end.
    destruct Ha as [_ E']. by rewrite E in E'.
Qed.

(** Counters are kept per guest: a packet on a TAP changes at most the counters
    of the guest that sent it, and a forwarded packet adds exactly one packet and its
    IPv4 length (modulo 2^64) to that guest's transmit counters when it has a slot. *)
Theorem tap_counters_local w vm :
  packet_ok w → handled (w_data w) (skb_headlen (w_skb w)) →
  wp nat_tap (λ rc w',
    (vm ≠ tu_saddr (flow_key (w_data w)) → stats (w_maps w') !! vm = stats (w_maps w) !! vm) ∧
    (∀ old, stats (w_maps w) !! tu_saddr (flow_key (w_data w)) = Some old →
     w_redirect w = None → w_redirect w' ≠ None →
     ∃ new, stats (w_maps w') !! tu_saddr (flow_key (w_data w)) = Some new ∧
       tx_pkts new = wrap 64 (tx_pkts old + 1) ∧
       tx_bytes new = wrap 64 (tx_bytes old + ip_total_len (w_data w)) ∧
       rx_pkts new = rx_pkts old ∧ rx_bytes new = rx_bytes old ∧ drops new = drops old)) w.
Proof.
  intros Hw Hh. eapply wp_mono; [by apply wp_nat_tap|]. intros rc w' Hstep.
  assert (∀ f m m', bumped f (l4_saddr (headers (w_data w))) m m' →
    vm ≠ tu_saddr (flow_key (w_data w)) → m' !! vm = m !! vm) as Hloc.
  { intros f m m' [->|[_ ->]] Hne; [|done]. by apply lookup_insert_ne. }
  tap_cases Hstep; split; cbn [effect w_maps stats w_redirect]; eauto; try congruence.
  change (tu_saddr (flow_key (w_data w))) with (l4_saddr (headers (w_data w))).
  intros old Hold _ _.
  match goal with H : bumped _ _ _ _ |- _ => destruct H as [->|[E _]] end; [|congruence].
  eexists. rewrite lookup_insert_eq, Hold. split; [done|]. simpl.
  match goal with H : flow_step _ _ _ _ _ _ _ |- _ => inversion H; subst end; done.
Qed.

(** Every inbound packet counts as a new connection: a packet of an inbound flow
    that conntrack already knows (in its original direction) still increments [conns]
    of the guest when it is delivered, although the counter is documented as the
    number of new flows. *)
Theorem inbound_conns_every_packet cfg w ct opts dn :
  packet_ok w → maps_ok (w_maps w) → global_config_map (w_maps w) !! 0 = Some cfg →
  handled (w_data w) (skb_headlen (w_skb w)) →
  bpf_skb_ct_lookup (w_ct w) (flow_key (w_data w)) sizeof_tuple_ipv4
    (mk_opts (ip_proto (w_data w))) sizeof_ct_opts = (Some ct, opts) →
  co_dir opts = CT_DIR_ORIGINAL → published w = Some dn →
  wp nat_uplink (λ rc w', rc = TC_ACT_SHOT ∨
    bumped (λ c, inc_conns (inc_rx (ip_total_len (w_data w)) c)) (dv_vm_ip dn)
      (stats (w_maps w)) (stats (w_maps w'))) w.
Proof.
  intros Hw Hm Hc Hh El Ed Hp. eapply wp_mono; [by apply wp_nat_uplink|]. intros rc w' Hstep.
  tap_cases Hstep. match goal with H : uplink_handled_step _ _ _ _ |- _ => destruct H end;
    auto; try congruence.
  1, 2: match goal with H : reply_of _ _ _ _ |- _ => destruct H as (? & ? & ?) end; merge_calls;
    exfalso; by rewrite Ed in *.
  simplify_eq. by right.
Qed.

(** A failed source NAT goes unnoticed: when [bpf_ct_set_nat_info] fails and leaves
    the entry as it was allocated, the packet is still sent through the uplink, with
    the guest's private address as its source. *)
Theorem snat_failure_leaks cfg w opts i opts' rc i1 rc' i2 ct s :
  StoresSucceed → packet_ok w → global_config_map (w_maps w) !! 0 = Some cfg →
  handled (w_data w) (skb_headlen (w_skb w)) → egress_verdict cfg w ≠ 0 →
  bpf_skb_ct_lookup (w_ct w) (flow_key (w_data w)) sizeof_tuple_ipv4
    (mk_opts (ip_proto (w_data w))) sizeof_ct_opts = (None, opts) →
  bpf_skb_ct_alloc (w_ct w) (flow_key (w_data w)) sizeof_tuple_ipv4 opts sizeof_ct_opts
    = (Some i, opts') →
  bpf_ct_set_nat_info (w_ct w) i (gc_host_ip cfg) 0 NF_NAT_MANIP_SRC = (rc, i1) → rc < 0 → i1 = i →
  bpf_ct_set_status (bpf_ct_set_timeout i1 (CT_TIMEOUT * 1000)) IPS_CONFIRMED = (rc', i2) →
  bpf_ct_insert_entry (w_ct w) i2 = (Some ct, s) →
  wp nat_tap (λ r w', r = bpf_redirect_neigh (gc_uplink_ifindex cfg) 0 ∧
    w_redirect w' = Some (ToNeighbour (gc_uplink_ifindex cfg) 0) ∧
    flow_key (w_data w') = flow_key (w_data w)) w.
Proof.
  intros Hs Hw Hc Hh Hv El Ea En _ -> Es Ei. pose proof (flow_key_ok w Hw) as Ht.
  pose proof El as (Ed & _)%lookup_miss.
  pose proof Ea as (Eo & Er & _ & Ed' & _)%alloc_spec; [|done].
  pose proof Es as (_ & Er2 & _)%set_status_spec.
  destruct (set_timeout_spec i (CT_TIMEOUT * 1000)) as (_ & Er3 & _).
  pose proof Ei as (_ & _ & Hr & _)%insert_spec.
  eapply wp_mono.
  { apply (wp_tap_forwards cfg ct CT_DIR_ORIGINAL inc_conns s); try done.
    intros r f s'. inversion 1; subst; merge_calls. by rewrite Ed', Ed. }
  intros r w' (-> & Hrd & _ & He & _). split_and!; [done..|].
  destruct (source_translated w _ [] Hw Hh ltac:(constructor) _ _ He) as [-> _].
  unfold tap_source. change (CT_DIR_ORIGINAL =? CT_DIR_ORIGINAL) with true. cbn [fst snd].
  rewrite Hr, Er2, Er3, Er. by destruct (flow_key (w_data w)).
Qed.

(** Later fragments are dropped: on a TAP with an event that names no address,
    port or protocol (the parser returns before it fills them in), on the uplink
    without any event. *)
Theorem fragments_dropped cfg w :
  packet_ok w → maps_ok (w_maps w) → global_config_map (w_maps w) !! 0 = Some cfg →
  later_fragment (w_data w) (skb_headlen (w_skb w)) →
  wp nat_tap (λ rc w', rc = TC_ACT_SHOT ∧ w_data w' = w_data w ∧
    logged (replicate 31 0 ++ [EV_DENY; 1; 0; 0; 0]) (events (w_maps w)) (events (w_maps w'))) w ∧
  nat_uplink w = Some (TC_ACT_SHOT, w).
Proof.
  intros Hw Hm Hc Hf. split.
  - eapply wp_mono; [by apply wp_nat_tap|]. intros rc w' Hstep. inversion Hstep; subst; simplify_eq;
      try (exfalso; by eauto using handled_not_fragment).
    + match goal with H : is_arp _ _ |- _ => destruct H as [_ E] end.
      destruct Hf as ((_ & E' & _) & _). by rewrite E in E'.
    + done.
  - pose proof (wp_nat_uplink w Hw Hm) as (rc & w' & -> & Hstep)%wp_run.
    inversion Hstep; subst; simplify_eq; try (exfalso; by eauto using handled_not_fragment). done.
Qed.

(** C28: [parse] decides exactly what the wire format says: it answers 1 for a TCP or
    UDP packet over IPv4 whose headers are accessible and which is not a later
    fragment, with the fields read from the right places; -1 for a later fragment; 0
    for everything else; it changes nothing and never reads past [data_end]. *)
Theorem parse_decides w :
  packet_ok w →
  let d := w_data w in let h := skb_headlen (w_skb w) in
  ∃ p o, parse l4off_zero w = Some ((p, o), w) ∧
    (p = 1 ↔ handled d h) ∧ (p = -1 ↔ later_fragment d h) ∧ (p = 1 ∨ p = -1 ∨ p = 0) ∧
    (p = 1 → o = headers d).
Proof.
  intros Hw d h. pose proof (wp_parse w Hw) as ([p o] & w' & E & -> & Hp)%wp_run.
  exists p, o. split; [done|]. fold d h in Hp.
  assert (handled d h → later_fragment d h → False) by apply handled_not_fragment.
  destruct Hp as [(-> & Hh & ->)|[(-> & Hf & ->)|(-> & Hh & Hf)]];
    split_and!; auto; try (intros; done); split; intros; try done; exfalso; by auto.
Qed.

(** [set_addr] on the source or destination address of a parsed packet writes the
    new address, touches nothing but that field and the two checksums, keeps right
    checksums right (a zero UDP checksum stays zero), and reports every failed store. *)
Lemma set_addr_correct w o off new :
  geometry (w_data w) o → off = 26 ∨ off = 30 → 0 ≤ new < 2 ^ 32 →
  wp (set_addr o off (load 4 off (w_data w)) new) (λ rc w', ∃ d, w' = set_data d w ∧
    ((rc < 0 ∧ ¬ StoresSucceed) ∨
     (rc = 0 ∧ rewritten (skb_partial (w_skb w)) (addr_regions (w_data w) off) off 4 new (w_data w) d))) w.
Proof. intros Hg Ho Hn. by apply wp_set_addr. Qed.

(** [set_port] on the source or destination port of a parsed packet writes the new
    port, touches nothing but that field and the TCP/UDP checksum, keeps a right
    checksum right, and reports every failed store. *)
Lemma set_port_correct w o off new :
  geometry (w_data w) o → off = sport_off o ∨ off = dport_off o → 0 ≤ new < 2 ^ 16 →
  wp (set_port o off (load 2 off (w_data w)) new) (λ rc w', ∃ d, w' = set_data d w ∧
    ((rc < 0 ∧ ¬ StoresSucceed) ∨
     (rc = 0 ∧ rewritten (skb_partial (w_skb w)) (port_regions (w_data w) off) off 2 new (w_data w) d))) w.
Proof.
  intros Hg Ho Hn. apply wp_set_port; try done. unfold sport_off, dport_off in Ho. lia.
Qed.

(** C30: Header rewriting on a parsed packet: [set_addr] on the source or destination address
    and [set_port] on the source or destination port write the new value, touch nothing
    but that field and the checksums that cover it, keep right checksums right (complete
    and partial ones, and a zero UDP checksum stays zero), and report every failed store. *)
Theorem rewrites_correct w o :
  geometry (w_data w) o →
  (∀ off new, off = 26 ∨ off = 30 → 0 ≤ new < 2 ^ 32 →
    wp (set_addr o off (load 4 off (w_data w)) new) (λ rc w', ∃ d, w' = set_data d w ∧
      ((rc < 0 ∧ ¬ StoresSucceed) ∨
       (rc = 0 ∧ rewritten (skb_partial (w_skb w)) (addr_regions (w_data w) off) off 4 new (w_data w) d))) w) ∧
  (∀ off new, off = sport_off o ∨ off = dport_off o → 0 ≤ new < 2 ^ 16 →
    wp (set_port o off (load 2 off (w_data w)) new) (λ rc w', ∃ d, w' = set_data d w ∧
      ((rc < 0 ∧ ¬ StoresSucceed) ∨
       (rc = 0 ∧ rewritten (skb_partial (w_skb w)) (port_regions (w_data w) off) off 2 new (w_data w) d))) w).
Proof. intros Hg. split; intros; [by apply set_addr_correct|by apply set_port_correct]. Qed.

(** C29: [policy_check] implements longest-prefix policy: the verdict is that of a
    matching entry no other matching entry is more specific than, or the default when
    that entry names another port or nothing matches; and in a trie whose keys carry
    no bits beyond their prefix no other verdict satisfies this. *)
Theorem policy_check_correct trie addr dport_host def_allow :
  policy_spec trie addr dport_host def_allow (policy_check trie addr dport_host def_allow) ∧
  (trie_canonical trie → ∀ r, policy_spec trie addr dport_host def_allow r →
     r = policy_check trie addr dport_host def_allow).
Proof.
  pose proof (policy_check_longest trie addr dport_host def_allow) as Hp.
  split; [done|]. intros Hc r Hr.
  destruct Hp as [(p & v & Lp & Mp & ->)|[Np ->]], Hr as [(q & u & Lq & Mq & ->)|[Nq ->]].
  - pose proof (longest_match_unique _ _ _ _ _ _ Hc Lp Lq Mp Mq) as <-. by simplify_eq.
  - by destruct (Nq _ _ Lp), Mp.
  - by destruct (Np _ _ Lq), Mq.
  - done.
Qed.

(** A port-specific entry hides shorter prefixes: when the longest match names another
    port, the packet gets the default verdict, whatever a shorter prefix says for every
    port. *)
Lemma port_entry_masks_shorter trie p v addr dport_host def_allow :
  trie_canonical trie → trie !! p = Some v → longest_match trie (mkPolicyKey 32 addr) p →
  pv_port v ≠ 0 → pv_port v ≠ dport_host →
  policy_check trie addr dport_host def_allow = def_allow.
Proof.
  intros Hc Hp Hm Hz Hn. pose proof (policy_check_longest trie addr dport_host def_allow) as Hs.
  destruct Hs as [(q & u & Hq & Mq & ->)|[_ ->]]; [|done].
  pose proof (longest_match_unique _ _ _ _ _ _ Hc Hp Hq Hm Mq) as <-. simplify_eq.
  unfold entry_verdict. rewrite decide_False; [done|tauto].
Qed.

(** [emit] publishes a fully initialised record: whatever the reserved memory held
    before, the 36 bytes submitted are the fields in the layout of [struct nat_event]
    with a zero padding, so no kernel memory is disclosed; when the buffer is full
    nothing happens. *)
Theorem emit_exact o vm_ip dir verdict nsa nda nsp ndp w :
  wp (emit o vm_ip dir verdict nsa nda nsp ndp) (λ _ w',
    w' = set_events (events (w_maps w')) w ∧
    match bpf_ringbuf_reserve (events (w_maps w)) sizeof_nat_event with
    | None => events (w_maps w') = events (w_maps w)
    | Some _ => events (w_maps w') =
        events (w_maps w) ++ [event_record o vm_ip dir verdict nsa nda nsp ndp]
    end) w.
Proof.
  unfold wp, emit. destruct (bpf_ringbuf_reserve _ _) as [mem|] eqn:E.
  - apply ringbuf_reserve_spec in E as [Hz _]. by rewrite fill_event_record.
  - split; [|done]. by destruct w as [? [] ????].
Qed.
End theorems.

(** ** Runs that meet the hypotheses *)

Lemma nat_tap_refines_witness :
  ∃ rc w', nat_tap egress_world = Some (rc, w') ∧ tap_step egress_world rc w'.
Proof. apply nat_tap_refines. by_eval. Defined.

Lemma nat_uplink_refines_witness :
  ∃ rc w', nat_uplink inbound_world = Some (rc, w') ∧ uplink_step inbound_world rc w'.
Proof. apply nat_uplink_refines; by_eval. Defined.


Lemma egress_round_trip_witness :
  ∃ rc w1, nat_tap egress_world = Some (rc, w1) ∧
  wp nat_uplink (λ rc' w2,
    rc' = bpf_redirect (ve_tap_ifindex sample_vm) 0 ∧
    w_redirect w2 = Some (ToDevice (ve_tap_ifindex sample_vm) 0) ∧
    flow_key (w_data w2) = swap_tuple (flow_key (w_data egress_world)) ∧
    slice 0 6 (w_data w2) = ve_vm_mac sample_vm) (world_at answer_frame 2 (w_ct w1)).
Proof.
  assert (packet_ok egress_world) as Hw by by_eval.
  assert (handled (w_data egress_world) (skb_headlen (w_skb egress_world))) as Hh by by_eval.
  assert (egress_verdict sample_cfg egress_world ≠ 0) as Hv by by_eval.
  assert (tuple_ok (flow_key (w_data egress_world))) as Ht by (by apply flow_key_ok).
  assert (wp nat_tap (tap_forwards sample_cfg (image egress_ct_entry) CT_DIR_ORIGINAL inc_conns
            (ct_with egress_ct_entry) egress_world) egress_world) as Hf.
  { apply wp_tap_forwards; [done|reflexivity|done|done|apply _|].
    intros r f s. apply fresh_egress_step; [done|exact egress_fresh]. }
  destruct (proj1 (wp_run _ _ _) Hf) as (rc & w1 & Hrun & Hfw). clear Hf.
  destruct Hfw as (_ & _ & _ & He & _).
  destruct (source_translated egress_world _ [] Hw Hh ltac:(constructor) _ _ He) as [Ek Ep].
  exists rc, w1. split; [exact Hrun|].
  apply (egress_round_trip sample_cfg egress_world (image egress_ct_entry)
    (ct_with egress_ct_entry) rc w1 sample_cfg (world_at answer_frame 2 (w_ct w1)) sample_vm);
    [apply _|exact Hw|by_eval|reflexivity|exact Hh|exact Hv|exact egress_fresh|by_eval|exact Hrun
    |by_eval|by_eval|reflexivity|by_eval|reflexivity| | |reflexivity].
  - rewrite Ek. unfold tap_source. change (CT_DIR_ORIGINAL =? CT_DIR_ORIGINAL) with true.
    cbn [fst snd]. rewrite image_reply. reflexivity.
  - rewrite Ep. reflexivity.
Defined.

Lemma inbound_round_trip_witness :
  ∃ rc w1, nat_uplink inbound_world = Some (rc, w1) ∧
  wp nat_tap (λ rc' w2,
    rc' = bpf_redirect_neigh (gc_uplink_ifindex sample_cfg) 0 ∧
    w_redirect w2 = Some (ToNeighbour (gc_uplink_ifindex sample_cfg) 0) ∧
    flow_key (w_data w2) = swap_tuple (flow_key (w_data inbound_world)))
  (world_at guest_answer_frame 5 (w_ct w1)).
Proof.
  assert (packet_ok inbound_world) as Hw by by_eval.
  assert (maps_ok (w_maps inbound_world)) as Hm by by_eval.
  assert (handled (w_data inbound_world) (skb_headlen (w_skb inbound_world))) as Hh by by_eval.
  assert (ingress_verdict sample_cfg inbound_world ≠ 0) as Hv by by_eval.
  assert (wp nat_uplink (uplink_delivers (dv_tap_ifindex sample_dnat_val) (dv_vm_ip sample_dnat_val)
    (dv_vm_port sample_dnat_val) (dv_vm_mac sample_dnat_val) (ct_with inbound_ct_entry)
    inbound_world) inbound_world) as Hf.
  { eapply wp_uplink_delivers_inbound;
      [done|done|reflexivity|done|apply _|exact inbound_no_reply|reflexivity|exact Hv
      |exact inbound_fresh]. }
  destruct (proj1 (wp_run _ _ _) Hf) as (rc & w1 & Hrun & Hfw). clear Hf.
  destruct Hfw as (_ & _ & _ & He & _).
  destruct (dest_translated inbound_world _ [(0, 6)] Hw Hh ltac:(repeat constructor; lia) _ _ He)
    as [Ek Ep].
  exists rc, w1. split; [exact Hrun|].
  apply (inbound_round_trip sample_cfg inbound_world sample_dnat_val (set_error (mk_opts 6) (-2))
    (image inbound_ct_entry) (ct_with inbound_ct_entry) rc w1 sample_cfg
    (world_at guest_answer_frame 5 (w_ct w1)));
    [apply _|exact Hw|exact Hm|reflexivity|exact Hh|exact inbound_no_reply|reflexivity|exact Hv
    |exact inbound_fresh|by_eval|by_eval|exact Hrun|by_eval|reflexivity|by_eval|reflexivity| | |by_eval].
  - rewrite Ek. reflexivity.
  - rewrite Ep. reflexivity.
Defined.

Lemma egress_stable_witness :
  wp nat_tap (λ _ w', wp nat_tap (λ _ w2',
    flow_key (w_data w2') = flow_key (w_data w') ∧ w_ct w2' = w_ct w')
    (world_at second_frame 5 (ct_with egress_ct_entry))) egress_world.
Proof.
  apply (egress_stable sample_cfg egress_world (image egress_ct_entry) (ct_with egress_ct_entry)
    sample_cfg (world_at second_frame 5 (ct_with egress_ct_entry)));
    [apply _|by_eval|by_eval|reflexivity|by_eval|by_eval|exact egress_fresh|by_eval|by_eval
    |reflexivity|by_eval|by_eval|reflexivity|reflexivity|reflexivity].
Defined.

(** The options and entries conntrack passes back in these runs. *)
Definition missed_opts : bpf_ct_opts := set_error (mk_opts 6) (-2).
Definition allocated : ref_entry :=
  mkEntry (e_orig egress_ct_entry) (swap_tuple (e_orig egress_ct_entry)) 6 0 0.
Definition bound : ref_entry := set_reply allocated (e_reply egress_ct_entry).

Lemma egress_snat_witness :
  wp nat_tap (λ rc w', w_redirect w' = Some (ToNeighbour 2 0) ∧
    tu_saddr (flow_key (w_data w')) = le_val host_addr) egress_world.
Proof.
  eapply wp_mono.
  - apply (egress_snat sample_cfg egress_world missed_opts allocated missed_opts bound 0 egress_ct_entry
      (image egress_ct_entry) (ct_with egress_ct_entry));
      [apply _|by_eval|by_eval|reflexivity|by_eval|by_eval|reflexivity..].
  - intros rc w' (_ & Hr & Ha & _). exact (conj Hr Ha).
Defined.

Lemma race_uses_winner_witness :
  wp nat_tap (tap_forwards sample_cfg (image egress_ct_entry)
    (co_dir (set_dir missed_opts CT_DIR_ORIGINAL)) (λ c, c)
    (mkRefCt [egress_ct_entry] None []) race_world) race_world.
Proof.
  apply (race_uses_winner sample_cfg race_world missed_opts allocated missed_opts 0 bound 0
           egress_ct_entry (mkRefCt [egress_ct_entry] None []) (image egress_ct_entry)
           (set_dir missed_opts CT_DIR_ORIGINAL));
    [apply _|by_eval|reflexivity|by_eval|by_eval|reflexivity..].
Defined.

Lemma egress_deny_enforced_witness :
  wp nat_tap (λ rc w', rc = TC_ACT_SHOT ∧ w_data w' = w_data denied_world) denied_world.
Proof.
  eapply wp_mono; [apply (egress_deny_enforced sample_cfg); [by_eval|reflexivity|by_eval|by_eval]|].
  intros rc w' (Hr & Hd & _). exact (conj Hr Hd).
Defined.

Lemma ingress_deny_enforced_witness :
  wp nat_uplink (λ rc w', rc = TC_ACT_SHOT ∧ w_ct w' = w_ct ingress_denied_world)
    ingress_denied_world.
Proof.
  eapply wp_mono.
  - apply (ingress_deny_enforced sample_cfg ingress_denied_world missed_opts sample_dnat_val);
      [by_eval|by_eval|reflexivity|by_eval|exact inbound_no_reply|reflexivity|by_eval].
  - intros rc w' (Hr & _ & Hc & _). exact (conj Hr Hc).
Defined.

Lemma host_traffic_untouched_witness :
  nat_uplink ssh_world = Some (TC_ACT_OK, ssh_world) ∧
  nat_uplink fragment_world = Some (TC_ACT_SHOT, fragment_world).
Proof.
  split.
  - apply (host_traffic_untouched ssh_world); [by_eval|by_eval|by_eval|]. right. left. exists missed_opts.
    split; [|reflexivity]. exists None. split; [reflexivity|by left].
  - apply (host_traffic_untouched fragment_world); [by_eval|by_eval|by_eval|by eexists].
Defined.

Lemma conntrack_balanced_witness :
  wp nat_tap (λ _ w', w_refs w' = w_refs race_world ∧ w_inits w' = w_inits race_world) race_world ∧
  wp nat_uplink (λ _ w', w_refs w' = w_refs race_world ∧ w_inits w' = w_inits race_world) race_world.
Proof. apply conntrack_balanced; by_eval. Defined.

Lemma forwarded_frame_witness :
  wp nat_tap (λ rc w', rc = TC_ACT_SHOT ∨
    changed_only (endpoint_regions (w_data egress_world) 26 (14 + ip_header_len (w_data egress_world)))
      (w_data egress_world) (w_data w')) egress_world ∧
  wp nat_uplink (λ rc w', rc = TC_ACT_SHOT ∨
    changed_only (endpoint_regions (w_data egress_world) 30 (16 + ip_header_len (w_data egress_world))
                    ++ [(0, 6)]) (w_data egress_world) (w_data w')) egress_world.
Proof. apply forwarded_frame; by_eval. Defined.

(** The guest's packet with its checksum left to the device, as a virtio guest sends it:
    the field holds the sum of the pseudo header. *)
Definition partial_frame : list Z := Eval vm_compute in
  splice (l4_check_off egress_frame)
    (le_bytes 2 (pseudo_sum (l4_len egress_frame) egress_frame mod 65535)) egress_frame.
Definition partial_world : world :=
  mkWorld (mkSkb partial_frame (zlen partial_frame) 5 true) sample_maps sample_ct 0 0 None.

Lemma checksums_survive_witness :
  wp nat_tap (λ rc w', rc = TC_ACT_SHOT ∨
    (ip_csum_ok (w_data w') ∧ l4_csum_ok (skb_partial (w_skb w')) (w_data w'))) egress_world ∧
  wp nat_tap (λ rc w', rc = TC_ACT_SHOT ∨
    (ip_csum_ok (w_data w') ∧ l4_csum_ok (skb_partial (w_skb w')) (w_data w'))) partial_world.
Proof.
  split.
  - apply (proj1 (checksums_survive egress_world ltac:(by_eval) ltac:(by_eval) ltac:(by_eval) ltac:(by_eval)
      ltac:(by_eval) ltac:(by_eval))).
  - apply (proj1 (checksums_survive partial_world ltac:(by_eval) ltac:(by_eval) ltac:(by_eval) ltac:(by_eval)
      ltac:(by_eval) ltac:(by_eval))).
Defined.

Lemma gateway_arp_answered_witness :
  wp nat_tap (λ rc w', w_redirect w' = Some (ToDevice 5 0) ∧
    w_data w' = gateway_reply sample_cfg arp_request) (sample_world arp_request 5).
Proof.
  eapply wp_mono.
  - apply (gateway_arp_answered sample_cfg); [apply _|by_eval|by_eval|reflexivity|by_eval].
  - intros rc w'. cbv beta. rewrite decide_True by by_eval. intros (_ & Hr & Hd & _). exact (conj Hr Hd).
Defined.

Lemma tap_counters_local_witness :
  wp nat_tap (λ rc w',
    (7 ≠ tu_saddr (flow_key (w_data egress_world)) →
     stats (w_maps w') !! 7 = stats (w_maps egress_world) !! 7)) egress_world.
Proof.
  eapply wp_mono; [apply (tap_counters_local egress_world 7); by_eval|].
  intros rc w' [Hl _]. exact Hl.
Defined.

Lemma inbound_conns_every_packet_witness :
  wp nat_uplink (λ rc w', rc = TC_ACT_SHOT ∨
    bumped (λ c, inc_conns (inc_rx (ip_total_len inbound_frame) c)) (dv_vm_ip sample_dnat_val)
      (stats sample_maps) (stats (w_maps w'))) (world_at inbound_frame 2 (ct_with inbound_ct_entry)).
Proof.
  apply (inbound_conns_every_packet sample_cfg
    (world_at inbound_frame 2 (ct_with inbound_ct_entry)) (image inbound_ct_entry)
    (set_dir (mk_opts 6) CT_DIR_ORIGINAL) sample_dnat_val);
    [by_eval|by_eval|reflexivity|by_eval|reflexivity|reflexivity|reflexivity].
Defined.

Lemma snat_failure_leaks_witness :
  wp nat_tap (λ r w', r = bpf_redirect_neigh (gc_uplink_ifindex sample_cfg) 0 ∧
    w_redirect w' = Some (ToNeighbour (gc_uplink_ifindex sample_cfg) 0) ∧
    flow_key (w_data w') = flow_key (w_data exhausted_world)) exhausted_world.
Proof.
  apply (snat_failure_leaks sample_cfg exhausted_world missed_opts allocated missed_opts (-12)
    allocated 0 (mkEntry (e_orig allocated) (e_reply allocated) 6 120000 8)
    (image (mkEntry (e_orig allocated) (e_reply allocated) 6 120000 8))
    (mkRefCt [mkEntry (e_orig allocated) (e_reply allocated) 6 120000 8; taken_entry] None []));
    [apply _|by_eval|reflexivity|by_eval|by_eval|reflexivity|reflexivity|reflexivity|by_eval
    |reflexivity|reflexivity|reflexivity].
Defined.

Lemma fragments_dropped_witness : nat_uplink fragment_world = Some (TC_ACT_SHOT, fragment_world).
Proof. apply (fragments_dropped sample_cfg); [by_eval|by_eval|reflexivity|by_eval]. Defined.

Lemma parse_decides_witness :
  ∃ p o, parse l4off_zero egress_world = Some ((p, o), egress_world) ∧ (p = 1 → o = headers egress_frame).
Proof.
  destruct (parse_decides egress_world) as (p & o & Hr & _ & _ & _ & Ho); [by_eval|].
  exists p, o. exact (conj Hr Ho).
Defined.

Lemma egress_geometry : geometry (w_data egress_world) (headers (w_data egress_world)).
Proof. apply handled_geometry; by_eval. Qed.

Lemma rewrites_correct_witness :
  wp (set_addr (headers (w_data egress_world)) 26 (load 4 26 (w_data egress_world))
        (le_val host_addr)) (λ rc w', ∃ d, w' = set_data d egress_world ∧
    ((rc < 0 ∧ ¬ StoresSucceed) ∨
     (rc = 0 ∧ rewritten false (addr_regions (w_data egress_world) 26) 26 4 (le_val host_addr)
        (w_data egress_world) d))) egress_world ∧
  wp (set_port (headers (w_data egress_world)) 34 (load 2 34 (w_data egress_world)) 17)
     (λ rc w', ∃ d, w' = set_data d egress_world ∧
    ((rc < 0 ∧ ¬ StoresSucceed) ∨
     (rc = 0 ∧ rewritten false (port_regions (w_data egress_world) 34) 34 2 17
        (w_data egress_world) d))) egress_world.
Proof.
  destruct (rewrites_correct egress_world (headers (w_data egress_world)) egress_geometry) as [Ha Hp].
  split; [apply Ha; [by left|by_eval]|apply Hp; [by left|by_eval]].
Defined.

(** A denied network, and the only verdict its policy allows. *)
Lemma policy_check_correct_witness :
  policy_spec (egress_policy sample_maps) (le_val [192; 0; 2; 5]) 443 1 0 ∧
  ∀ r, policy_spec (egress_policy sample_maps) (le_val [192; 0; 2; 5]) 443 1 r → r = 0.
Proof.
  destruct (policy_check_correct (egress_policy sample_maps) (le_val [192; 0; 2; 5]) 443 1) as [Hs Hu].
  split; [exact Hs|]. apply Hu. by_eval.
Defined.

Lemma emit_exact_witness :
  wp (emit (headers egress_frame) 1 EV_EGRESS 0 2 3 4 5) (λ _ w',
    events (w_maps w') = [event_record (headers egress_frame) 1 EV_EGRESS 0 2 3 4 5]) egress_world.
Proof.
  eapply wp_mono; [apply emit_exact|]. intros _ w' [_ He]. exact He.
Defined.
