(* ===== verification/NatSystem.v ===== *)
(** * Runs of the dataplane

    The host as a state machine: packets arrive on TAPs and on the uplink in any
    order, and each is processed by the program attached there on the shared maps and
    the shared conntrack table.  Invariants are proved by induction over runs. *)
From S2P Require Import Prelude CLayout Checksum Vmlinux NatTypes Kernel RefKernel Samples.
From S2P Require Import NatParse NatRewrite NatState NatArp NatTap NatUplink NatFlows.
From stdpp Require Import relations.
#[local] Open Scope Z_scope.

(** Where a packet arrives: which program runs. *)
Inductive port_kind : Type :=
| Tap
| Uplink.

Section system.
Context `{BH : !BpfHelpers, CK : !Conntrack}.

(** What survives from packet to packet. *)
Record node := mkNode {
  n_maps : nat_maps;
  n_ct : ct_state
}.

Definition arrive (sk : skb) (n : node) : world := mkWorld sk (n_maps n) (n_ct n) 0 0 None.

Definition attached (k : port_kind) : ST world Z :=
  match k with Tap => nat_tap | Uplink => nat_uplink end.

Definition leave (w : world) : node := mkNode (w_maps w) (w_ct w).

Definition skb_ok (sk : skb) : Prop :=
  bytes_ok (skb_data sk) ∧ 0 ≤ skb_headlen sk ≤ zlen (skb_data sk).

Inductive node_step (n : node) : node → Prop :=
| node_packet k sk rc w :
    skb_ok sk → attached k (arrive sk n) = Some (rc, w) → node_step n (leave w).

(** ** What a step may change *)

(** The maps only the management side writes. *)
Definition same_config (m m' : nat_maps) : Prop :=
  global_config_map m' = global_config_map m ∧ vm_config m' = vm_config m ∧
  dnat_rules m' = dnat_rules m ∧ egress_policy m' = egress_policy m ∧
  ingress_policy m' = ingress_policy m.

(** Event records have the size of [struct nat_event], counters 64 bits. *)
Definition counter_ok (c : Z) : Prop := 0 ≤ c < 2 ^ 64.

Definition stats_ok (s : nat_stats) : Prop :=
  counter_ok (rx_pkts s) ∧ counter_ok (rx_bytes s) ∧ counter_ok (tx_pkts s) ∧
  counter_ok (tx_bytes s) ∧ counter_ok (drops s) ∧ counter_ok (conns s).

Definition node_ok (n : node) : Prop :=
  maps_ok (n_maps n) ∧ map_Forall (λ _, stats_ok) (stats (n_maps n)) ∧
  Forall (λ e, zlen e = sizeof_nat_event ∧ bytes_ok e) (events (n_maps n)).

#[export] Instance stats_ok_dec s : Decision (stats_ok s).
Proof. unfold stats_ok, counter_ok. apply _. Defined.

#[export] Instance node_ok_dec n : Decision (node_ok n).
Proof. unfold node_ok. apply _. Defined.

#[export] Instance skb_ok_dec sk : Decision (skb_ok sk).
Proof. unfold skb_ok. apply _. Defined.

(** New counters from old ones: one guest's, through one of the updates. *)
Definition counts (m m' : gmap Z nat_stats) : Prop :=
  m' = m ∨ ∃ vm f, bumped f vm m m' ∧ ∀ s, stats_ok s → stats_ok (f s).

(** New events: at most one more. *)
Definition logs (e e' : list (list Z)) : Prop :=
  e' = e ∨ ∃ r, logged r e e' ∧ zlen r = sizeof_nat_event ∧ bytes_ok r.

Definition map_step (m m' : nat_maps) : Prop :=
  same_config m m' ∧ counts (stats m) (stats m') ∧ logs (events m) (events m').
End system.

(** ** Counter updates keep counters in range *)

Lemma count_ok v n : counter_ok (count v n).
Proof. unfold counter_ok, count, wrap. apply Z.mod_pos_bound. lia. Qed.

Lemma inc_drops_ok s : stats_ok s → stats_ok (inc_drops s).
Proof. unfold stats_ok, inc_drops. simpl. pose proof (count_ok (drops s) 1). tauto. Qed.

Lemma inc_conns_ok s : stats_ok s → stats_ok (inc_conns s).
Proof. unfold stats_ok, inc_conns. simpl. pose proof (count_ok (conns s) 1). tauto. Qed.

Lemma inc_tx_ok n s : stats_ok s → stats_ok (inc_tx n s).
Proof.
  unfold stats_ok, inc_tx. simpl. pose proof (count_ok (tx_pkts s) 1).
  pose proof (count_ok (tx_bytes s) n). tauto.
Qed.

Lemma inc_rx_ok n s : stats_ok s → stats_ok (inc_rx n s).
Proof.
  unfold stats_ok, inc_rx. simpl. pose proof (count_ok (rx_pkts s) 1).
  pose proof (count_ok (rx_bytes s) n). tauto.
Qed.

Create HintDb counters.
#[export] Hint Resolve inc_drops_ok inc_conns_ok inc_tx_ok inc_rx_ok : counters.

Lemma event_record_ok o vm dir v nsa nda nsp ndp :
  zlen (event_record o vm dir v nsa nda nsp ndp) = sizeof_nat_event ∧
  bytes_ok (event_record o vm dir v nsa nda nsp ndp).
Proof.
  unfold event_record. split; [by rewrite ?zlen_app, ?zlen_le_bytes|].
  unfold bytes_ok. rewrite !Forall_app. split_and!; try apply bytes_ok_le_bytes.
  repeat constructor; done.
Qed.

Section system_facts.
Context `{BH : !BpfHelpers, CK : !Conntrack, BL : !BpfHelpersLaws, CL : !ConntrackLaws}.

Lemma same_config_refl m : same_config m m.
Proof. done. Qed.

Lemma map_step_refl m : map_step m m.
Proof. split_and!; [done|by left|by left]. Qed.

Lemma logged_logs o vm dir v nsa nda nsp ndp e e' :
  logged (event_record o vm dir v nsa nda nsp ndp) e e' → logs e e'.
Proof. intros H. right. eexists. split; [exact H|apply event_record_ok]. Qed.

Lemma bumped_counts f vm m m' :
  bumped f vm m m' → (∀ s, stats_ok s → stats_ok (f s)) → counts m m'.
Proof. intros H Hf. right. eauto. Qed.

Lemma flow_counter cfg t proto s r f s' :
  flow_step cfg t proto s r f s' → ∀ c, stats_ok c → stats_ok (f c).
Proof. destruct 1; auto with counters. Qed.

Lemma effect_map_step d m evs s r w :
  counts (stats (w_maps w)) m → logs (events (w_maps w)) evs →
  map_step (w_maps w) (w_maps (effect d m evs s r w)).
Proof. done. Qed.

Lemma tap_map_step w rc w' : tap_step w rc w' → map_step (w_maps w) (w_maps w').
Proof.
  destruct 1 as [|cfg rc w' _ _ Ha| | | |cfg f s m _ _ _ Hf|cfg ct dir f s d m _ _ _ Hf
                 |cfg ct dir f s addr port d m evs _ _ _ Hf];
    try apply map_step_refl.
  - destruct Ha as [(_ & _ & ? & -> & _)|(_ & _ & ->)]; apply map_step_refl.
  - apply effect_map_step; [by left|by eapply logged_logs].
  - apply effect_map_step; [by eapply bumped_counts, inc_drops_ok|by eapply logged_logs].
  - apply effect_map_step; [|by left]. eapply bumped_counts; [done|by eapply flow_counter].
  - apply effect_map_step; [|by left]. eapply bumped_counts; [done|].
    intros c Hc. by eapply inc_drops_ok, flow_counter.
  - apply effect_map_step; [|by eapply logged_logs]. eapply bumped_counts; [done|].
    intros c Hc. by eapply inc_tx_ok, flow_counter.
Qed.

Lemma uplink_map_step w rc w' : uplink_step w rc w' → map_step (w_maps w) (w_maps w').
Proof.
  destruct 1 as [| | |cfg rc w' _ _ Hs]; try apply map_step_refl.
  destruct Hs; try apply map_step_refl; apply effect_map_step;
    try (by left); try (by eapply logged_logs); eapply bumped_counts; try done;
    intros; unfold inbound_counts; auto with counters.
Qed.

(** Every packet is processed, and changes only counters and events. *)
Lemma node_progress k sk n :
  skb_ok sk → maps_ok (n_maps n) →
  ∃ rc w, attached k (arrive sk n) = Some (rc, w) ∧ map_step (n_maps n) (w_maps w).
Proof.
  intros Hsk Hm. destruct k; simpl.
  - pose proof (wp_nat_tap (arrive sk n) Hsk) as (rc & w & E & Hs)%wp_run.
    exists rc, w. split; [done|]. by apply tap_map_step in Hs.
  - pose proof (wp_nat_uplink (arrive sk n) Hsk Hm) as (rc & w & E & Hs)%wp_run.
    exists rc, w. split; [done|]. by apply uplink_map_step in Hs.
Qed.

Lemma node_map_step n n' :
  maps_ok (n_maps n) → node_step n n' → map_step (n_maps n) (n_maps n').
Proof.
  intros Hm [k sk rc w Hsk Hrun]. destruct (node_progress k sk n Hsk Hm) as (rc' & w' & E & Hs).
  rewrite Hrun in E. by simplify_eq.
Qed.

Lemma map_step_ok m m' :
  map_step m m' →
  (maps_ok m → maps_ok m') ∧
  (map_Forall (λ _, stats_ok) (stats m) → map_Forall (λ _, stats_ok) (stats m')) ∧
  (Forall (λ e, zlen e = sizeof_nat_event ∧ bytes_ok e) (events m) →
   Forall (λ e, zlen e = sizeof_nat_event ∧ bytes_ok e) (events m')).
Proof.
  intros ((E1 & E2 & E3 & _) & Hc & Hl). split_and!.
  - unfold maps_ok. by rewrite E1, E2, E3.
  - intros H. destruct Hc as [->|(vm & f & [->|[_ ->]] & Hf)]; [done| |done].
    apply map_Forall_insert_2; [|done]. apply Hf.
    destruct (stats m !! vm) eqn:E; simpl; [by apply (map_Forall_lookup_1 _ _ _ _ H E)|].
    repeat split; simpl; lia.
  - intros H. destruct Hl as [->|(r & [->| ->] & Hr)]; [done..|].
    apply Forall_app. split; [done|by apply Forall_singleton].
Qed.

Lemma node_step_ok n n' : node_ok n → node_step n n' → node_ok n'.
Proof.
  intros (Hm & Hs & He) Hstep. apply node_map_step in Hstep; [|done].
  apply map_step_ok in Hstep as (?&?&?). split_and!; auto.
Qed.

(** No run of packets changes the configuration: the global configuration, the
    guests, the published ports and both policies are what management wrote. *)
Theorem run_keeps_config n n' :
  node_ok n → rtc node_step n n' → same_config (n_maps n) (n_maps n').
Proof.
  intros Hn Hr. induction Hr as [n|n n1 n2 Hs _ IH]; [done|].
  specialize (IH (node_step_ok _ _ Hn Hs)). destruct Hn as (Hm & _).
  destruct (node_map_step _ _ Hm Hs) as ((?&?&?&?&?) & _).
  destruct IH as (?&?&?&?&?). split_and!; congruence.
Qed.

(** The event log of a run is append-only: no record is lost or rewritten by later
    packets, and each packet adds at most one. *)
Theorem run_log_grows n n' k :
  node_ok n → nsteps node_step k n n' →
  ∃ new, events (n_maps n') = events (n_maps n) ++ new ∧ (length new ≤ k)%nat.
Proof.
  intros Hn Hr. induction Hr as [n|k n n1 n2 Hs _ IH].
  - exists []. rewrite app_nil_r. split; [done|simpl; lia].
  - destruct (IH (node_step_ok _ _ Hn Hs)) as (new & E & Hl). destruct Hn as (Hm & _).
    destruct (node_map_step _ _ Hm Hs) as (_ & _ & [E1|(r & [E1|E1] & _)]); rewrite E1 in E.
    + exists new. split; [done|lia].
    + exists new. split; [done|lia].
    + exists (r :: new). rewrite <- app_assoc in E. split; [done|simpl; lia].
Qed.
End system_facts.

(** ** A run of two packets *)

Definition sample_node : node := mkNode sample_maps sample_ct.
Definition egress_skb : skb := mkSkb egress_frame (zlen egress_frame) 5 false.
Definition inbound_skb : skb := mkSkb inbound_frame (zlen inbound_frame) 2 false.

Lemma sample_node_ok : node_ok sample_node.
Proof. by_eval. Qed.

(** A guest's packet, then a peer's, in one run. *)
Lemma sample_run : ∃ n, nsteps node_step 2 sample_node n.
Proof.
  assert (skb_ok egress_skb) as H1 by by_eval. assert (skb_ok inbound_skb) as H2 by by_eval.
  destruct (node_progress Tap egress_skb sample_node H1 (proj1 sample_node_ok)) as (rc & w & E & _).
  pose proof (node_packet sample_node Tap egress_skb rc w H1 E) as S1.
  destruct (node_progress Uplink inbound_skb (leave w) H2
    (proj1 (node_step_ok _ _ sample_node_ok S1))) as (rc' & w' & E' & _).
  pose proof (node_packet (leave w) Uplink inbound_skb rc' w' H2 E') as S2.
  exists (leave w'). eapply nsteps_l; [exact S1|]. eapply nsteps_l; [exact S2|]. constructor.
Qed.

Lemma sample_rtc : ∃ n, rtc node_step sample_node n.
Proof. destruct sample_run as [n Hn]. exists n. by eapply rtc_nsteps_2. Qed.

Lemma run_keeps_config_witness :
  ∃ n, rtc node_step sample_node n ∧ same_config sample_maps (n_maps n).
Proof.
  destruct sample_rtc as [n Hn]. exists n. split; [exact Hn|].
  exact (run_keeps_config sample_node n sample_node_ok Hn).
Defined.

Lemma run_log_grows_witness :
  ∃ n new, nsteps node_step 2 sample_node n ∧ events (n_maps n) = [] ++ new ∧ (length new ≤ 2)%nat.
Proof.
  destruct sample_run as [n Hn].
  destruct (run_log_grows sample_node n 2 sample_node_ok Hn) as (new & E & Hl).
  exists n, new. exact (conj Hn (conj E Hl)).
Defined.
