(* ===== verification/Layouts.v ===== *)
(** * Layouts the dataplane relies on

    The programs address packet headers, kernel objects, map values and event records
    by the offsets their C declarations give, and the Go agent reads and writes the
    same bytes with its own declarations.  This file shows that the transcribed
    declarations are sound layouts, that the programs' constants are the kernel's, and
    that the two sides agree byte for byte. *)
From S2P Require Import Prelude CLayout Vmlinux VmlinuxNet VmlinuxBpf NatTypes.
From Stdlib Require Import String.
#[local] Open Scope string_scope.
#[local] Open Scope list_scope.
#[local] Open Scope Z_scope.

Definition kernel_declarations : list (string * ctype) :=
  vmlinux.declarations ++ vmnet.declarations ++ vmbpf.declarations.

Definition nat_declarations : list (string * ctype) :=
  [ ("struct global_config", global_config_decl);
    ("struct vm_entry", vm_entry_decl);
    ("struct dnat_key", dnat_key_decl);
    ("struct dnat_val", dnat_val_decl);
    ("struct policy_key", policy_key_decl);
    ("struct policy_val", policy_val_decl);
    ("struct nat_event", nat_event_decl);
    ("struct nat_stats", nat_stats_decl);
    ("struct bpf_ct_opts", bpf_ct_opts_decl);
    ("struct arp_eth_ipv4", arp_eth_ipv4_decl) ].

(** ** The Go side: the map value structures of [nat_linux.go] *)

Definition go_uint8 : ctype := CInt false 1.
Definition go_uint16 : ctype := CInt false 2.
Definition go_uint32 : ctype := CInt false 4.
Definition go_uint64 : ctype := CInt false 8.
Definition go_bytes (n : Z) : ctype := CArr n go_uint8.

Definition natGlobalConfig : ctype := cstruct
  [ F "HostIP" (go_bytes 4);
    F "UplinkIfindex" go_uint32;
    F "GwIP" (go_bytes 4);
    F "GwMAC" (go_bytes 6);
    F "DefEgress" go_uint8;
    F "DefIngress" go_uint8 ].

Definition natVMEntry : ctype := cstruct
  [ F "VMIP" (go_bytes 4);
    F "TapIfindex" go_uint32;
    F "VMMAC" (go_bytes 6);
    F "_" (go_bytes 2) ].

Definition natDNATKey : ctype := cstruct
  [ F "HostIP" (go_bytes 4);
    F "HostPort" (go_bytes 2);
    F "Proto" go_uint8;
    F "_" go_uint8 ].

Definition natDNATVal : ctype := cstruct
  [ F "VMIP" (go_bytes 4);
    F "TapIfindex" go_uint32;
    F "VMPort" (go_bytes 2);
    F "VMMAC" (go_bytes 6) ].

Definition natStats : ctype := cstruct
  [ F "RxPkts" go_uint64;
    F "RxBytes" go_uint64;
    F "TxPkts" go_uint64;
    F "TxBytes" go_uint64;
    F "Drops" go_uint64;
    F "Conns" go_uint64 ].

(** ** Checks *)

(** The extents of the direct members, in bits, in declaration order. *)
Definition extents (t : ctype) : list (Z * Z) :=
  match t with
  | CStruct p _ fs => placements p fs 0
  | _ => []
  end.

(** Members follow each other without a gap up to the size of the object. *)
Fixpoint contiguous (lo : Z) (l : list (Z * Z)) (hi : Z) : bool :=
  match l with
  | [] => lo =? hi
  | (a, b) :: l => (a =? lo) && contiguous b l hi
  end.

Definition no_padding (t : ctype) : bool := contiguous 0 (extents t) (8 * sizeof t).

Lemma declarations_wf :
  forallb (λ d, wfb (snd d)) (kernel_declarations ++ nat_declarations) = true.
Proof. vm_compute. reflexivity. Qed.

Lemma declared_wf n t : (n, t) ∈ kernel_declarations ++ nat_declarations → wfb t = true.
Proof.
  intros Hin. pose proof (proj1 (forallb_forall _ _) declarations_wf (n, t)) as H.
  apply H. by apply list_elem_of_In.
Qed.

(** A structure without gaps is covered by its members: every byte of it belongs to
    one. *)
Lemma contiguous_covers lo l hi x :
  contiguous lo l hi = true → lo ≤ x < hi → ∃ a b, (a, b) ∈ l ∧ a ≤ x < b.
Proof.
  revert lo. induction l as [|[a b] l IH]; intros lo Hc Hx; simpl in Hc; bool_prop; [lia|].
  subst a. destruct (decide (x < b)) as [Hb|Hb].
  - exists lo, b. split; [left|lia].
  - destruct (IH b) as (a' & b' & Hin & Hx'); [done|lia|]. exists a', b'. split; [by right|done].
Qed.

(** The layouts computed from the transcribed declarations of vmlinux.h and nat.c
    are sound: every size is a multiple of a power-of-two alignment; every member a
    path reaches lies inside the object; without packed structures it is aligned for
    its type; and the members of a structure are laid out in order without overlap. *)
Theorem layouts_sound n t :
  (n, t) ∈ kernel_declarations ++ nat_declarations →
  layout_ok t ∧
  (∀ path m, resolve t path = Some m →
     inside m 0 (8 * sizeof t) ∧ (unpackedb t = true → aligned_in m (alignof t))) ∧
  (∀ i j a b c d, (i < j)%nat → extents t !! i = Some (a, b) → extents t !! j = Some (c, d) → b ≤ c).
Proof.
  intros Hw%declared_wf. split_and!.
  - by apply wf_layout_ok.
  - intros path m Hr. split; [by eapply resolve_inside|]. intros Hu. by eapply resolve_aligned.
  - intros i j a b c d Hij. unfold extents. destruct t as [| | | |p al fs|]; try done.
    simpl in Hw. bool_prop. eapply ordered_lookup; [by apply placements_ordered|done].
Qed.

Lemma layouts_sound_witness :
  ∃ m, resolve vmlinux.nf_conn [Fld "tuplehash"; Idx 1; Fld "tuple"; Fld "dst"] = Some m ∧
       inside m 0 (8 * sizeof vmlinux.nf_conn).
Proof.
  destruct (layouts_sound "struct nf_conn" vmlinux.nf_conn) as (_ & H & _).
  - apply (list_elem_of_lookup_2 _ 46). reflexivity.
  - destruct (resolve vmlinux.nf_conn [Fld "tuplehash"; Idx 1; Fld "tuple"; Fld "dst"]) as [m|] eqn:E.
    + exists m. exact (conj eq_refl (proj1 (H _ _ E))).
    + exfalso. vm_compute in E. discriminate E.
Defined.

(** Every byte of a map key, a map value, an event record and the conntrack options
    belongs to a declared member. *)
Theorem structs_have_no_padding :
  (∀ n t x, (n, t) ∈ nat_declarations → 0 ≤ x < 8 * sizeof t →
     ∃ a b, (a, b) ∈ extents t ∧ a ≤ x < b) ∧
  sizeof_ct_opts = 16 ∧ sizeof_tuple_ipv4 = 12 ∧ sizeof_nat_event = 36.
Proof.
  split; [|done]. intros n t x Hin Hx.
  assert (forallb (λ d, no_padding (snd d)) nat_declarations = true) as H by (vm_compute; reflexivity).
  pose proof (proj1 (forallb_forall _ _) H (n, t) (proj1 (list_elem_of_In _ _) Hin)) as Hp.
  by apply (contiguous_covers 0 _ (8 * sizeof t)).
Qed.

(** The constants nat.c defines for itself are the enumerators of vmlinux.h: the
    conntrack status bits and directions, and the verdicts of a TCX program. *)
Theorem constants_match_kernel :
  enumerator vmlinux.ip_conntrack_status "IPS_CONFIRMED" = Some IPS_CONFIRMED ∧
  enumerator vmlinux.ip_conntrack_status "IPS_SEEN_REPLY" = Some IPS_SEEN_REPLY ∧
  enumerator vmlinux.ip_conntrack_status "IPS_ASSURED" = Some IPS_ASSURED ∧
  enumerator vmlinux.ip_conntrack_dir "IP_CT_DIR_ORIGINAL" = Some CT_DIR_ORIGINAL ∧
  enumerator vmlinux.ip_conntrack_dir "IP_CT_DIR_REPLY" = Some CT_DIR_REPLY ∧
  enumerator vmlinux.tcx_action_base "TCX_PASS" = Some TC_ACT_OK ∧
  enumerator vmlinux.tcx_action_base "TCX_DROP" = Some TC_ACT_SHOT ∧
  enumerator vmlinux.tcx_action_base "TCX_REDIRECT" = Some TC_ACT_REDIRECT.
Proof. vm_compute. done. Qed.

(** ** The formats on the wire *)

(** The headers as RFC 894 (Ethernet), 791 (IPv4), 793 (TCP), 768 (UDP) and 826 (ARP, its
    IPv4 body apart) define them: the size, and the position and length in bytes of the
    members the programs use. *)
Definition wire_formats : list (ctype * Z * list (string * Z * Z)) :=
  [ (vmlinux.ethhdr, 14, [("h_dest", 0, 6); ("h_source", 6, 6); ("h_proto", 12, 2)]);
    (vmlinux.iphdr, 20, [("tot_len", 2, 2); ("frag_off", 6, 2); ("protocol", 9, 1); ("check", 10, 2);
                         ("saddr", 12, 4); ("daddr", 16, 4)]);
    (vmlinux.tcphdr, 20, [("source", 0, 2); ("dest", 2, 2); ("check", 16, 2)]);
    (vmlinux.udphdr, 8, [("source", 0, 2); ("dest", 2, 2); ("check", 6, 2)]);
    (vmlinux.arphdr, 8, [("ar_hrd", 0, 2); ("ar_pro", 2, 2); ("ar_hln", 4, 1); ("ar_pln", 5, 1);
                         ("ar_op", 6, 2)]);
    (arp_eth_ipv4_decl, 20, [("ar_sha", 0, 6); ("ar_sip", 6, 4); ("ar_tha", 10, 6); ("ar_tip", 16, 4)]) ].

(** The map values of the two sides. *)
Definition shared_values : list (ctype * ctype) :=
  [ (global_config_decl, natGlobalConfig); (vm_entry_decl, natVMEntry);
    (dnat_key_decl, natDNATKey); (dnat_val_decl, natDNATVal); (nat_stats_decl, natStats) ].

(** C37: The byte layouts the parts of the dataplane exchange agree.  The header structures
    of vmlinux.h (and the ARP body of nat.c) have the sizes the protocols define, and each
    member the programs use lies where the protocol puts it; the Go agent's map keys and
    values have the size of the C ones, and the i-th member of one occupies the bytes of
    the i-th member of the other; no map key, map value, event or option block of either
    side has implicit padding, whose content would decide a key comparison or disclose
    kernel memory; and the options, the tuple and the event have the sizes the conntrack
    kfuncs (16 and 12) and the agent's decoder (36) take. *)
Theorem layouts_agree :
  Forall (λ '(t, size, members), sizeof t = size ∧
    Forall (λ '(f, off, len), offsetof t [Fld f] = off ∧ sizeof_path t [Fld f] = len) members) wire_formats ∧
  Forall (λ '(c, g), sizeof c = sizeof g ∧ extents c = extents g ∧ no_padding g = true) shared_values ∧
  Forall (λ '(_, t), no_padding t = true) nat_declarations ∧
  sizeof bpf_ct_opts_decl = 16 ∧ sizeof_path vmlinux.bpf_sock_tuple [Fld "ipv4"] = 12 ∧
  sizeof nat_event_decl = 36.
Proof.
  unfold wire_formats, shared_values, nat_declarations.
  repeat (apply Forall_nil_2 || apply Forall_cons_2 || apply conj); vm_compute; reflexivity.
Qed.
