(* ===== verification/Tapfilter.v ===== *)
(** * The TAP port filter

    [bpf/tapfilter.c]: [bump], [handle], [tap_ingress] and [tap_egress], with the
    structures and maps it declares.  It watches one TCP/UDP port of a TAP: matching
    packets are counted, reported and, when configured so, dropped. *)
From S2P Require Import Prelude CLayout Checksum Vmlinux NatTypes Kernel RefKernel Samples.
From S2P Require Import NatParse NatState.
#[local] Open Scope Z_scope.

(** ** Data *)

Record config := mkConfig {
  cf_port : Z;
  cf_drop : Z;
  cf_pad : Z
}.

Definition config_decl : ctype := cstruct
  [ F "port" vmlinux.__u16;
    F "drop" vmlinux.__u8;
    F "_pad" vmlinux.__u8 ].

(** [struct event] exists only as the bytes written to the ring buffer. *)
Definition event_decl : ctype := cstruct
  [ F "saddr" vmlinux.__u32;
    F "daddr" vmlinux.__u32;
    F "sport" vmlinux.__u16;
    F "dport" vmlinux.__u16;
    F "len" vmlinux.__u16;
    F "ingress" vmlinux.__u8;
    F "dropped" vmlinux.__u8;
    F "proto" vmlinux.__u8;
    F "_pad" (CArr 3 vmlinux.__u8) ].

Definition sizeof_event : Z := Eval vm_compute in sizeof event_decl.

(** The maps: arrays of 1 and 4 entries, and the ring buffer. *)
Record tap_world := mkTapWorld {
  tf_skb : skb;
  config_map : list config;
  tf_stats : list Z;
  tf_events : list (list Z)
}.

Definition tf_set_stats (s : list Z) (w : tap_world) : tap_world :=
  mkTapWorld (tf_skb w) (config_map w) s (tf_events w).

Definition tf_set_events (e : list (list Z)) (w : tap_world) : tap_world :=
  mkTapWorld (tf_skb w) (config_map w) (tf_stats w) e.

(** An array map entry, when the index is in range. *)
Definition array_lookup {A} (l : list A) (i : Z) : option A :=
  if 0 <=? i then l !! Z.to_nat i else None.

Definition tf_put (path : list accessor) (v : Z) (mem : list Z) : list Z :=
  splice (offsetof event_decl path)
         (le_bytes (Z.to_nat (sizeof_path event_decl path)) v) mem.

Definition tf_fill (saddr daddr sport dport len ingress drop proto : Z) (mem : list Z) : list Z :=
  let mem := tf_put [Fld "saddr"] saddr mem in
  let mem := tf_put [Fld "daddr"] daddr mem in
  let mem := tf_put [Fld "sport"] sport mem in
  let mem := tf_put [Fld "dport"] dport mem in
  let mem := tf_put [Fld "len"] len mem in
  let mem := tf_put [Fld "ingress"] ingress mem in
  let mem := tf_put [Fld "dropped"] drop mem in
  let mem := tf_put [Fld "proto"] proto mem in
  let mem := tf_put [Fld "_pad"; Idx 2] 0 mem in
  let mem := tf_put [Fld "_pad"; Idx 1] 0 mem in
  tf_put [Fld "_pad"; Idx 0] 0 mem.

Section tapfilter.
Context `{BH : !BpfHelpers}.

Definition bump (idx : Z) : ST tap_world unit := λ w,
  match array_lookup (tf_stats w) idx with
  | Some c => Some (tt, tf_set_stats (<[Z.to_nat idx := wrap 64 (c + 1)]> (tf_stats w)) w)
  | None => Some (tt, w)
  end.

(** The rest of [handle], for a packet of the watched port: counters, event,
    verdict. *)
Definition observe (ingress : Z) (cfg : config) (proto sport dport : Z) : ST tap_world Z :=
  let drop := if negb (cf_drop cfg =? 0) then 1 else 0 in
  do* bump (if negb (ingress =? 0) then 0 else 1) in
  do* when (negb (drop =? 0)) (bump 2) in
  let* e := gets (λ w, bpf_ringbuf_reserve (tf_events w) sizeof_event) in
  do* match e with
      | None => ret tt
      | Some mem =>
          let* saddr := load_of tf_skb 4 (sizeof_ethhdr + ip_saddr) in
          let* daddr := load_of tf_skb 4 (sizeof_ethhdr + ip_daddr) in
          let* tot_len := load_of tf_skb 2 (sizeof_ethhdr + ip_tot_len) in
          modify (λ w, tf_set_events (tf_events w ++
            [tf_fill saddr daddr sport dport (bpf_ntohs tot_len) ingress drop proto mem]) w)
      end in
  ret (if negb (drop =? 0) then TC_ACT_SHOT else TC_ACT_OK).

Definition handle (ingress : Z) : ST tap_world Z :=
  let* eth_ok := within_of tf_skb sizeof_ethhdr in
  if negb eth_ok then ret TC_ACT_OK else
  let* h_proto := load_of tf_skb 2 eth_h_proto in
  if negb (h_proto =? bpf_htons ETH_P_IP) then ret TC_ACT_OK else
  let ip := sizeof_ethhdr in
  let* ip_ok := within_of tf_skb (ip + sizeof_iphdr) in
  if negb ip_ok then ret TC_ACT_OK else
  let* proto := load_of tf_skb 1 (ip + ip_protocol) in
  if negb (proto =? IPPROTO_TCP) && negb (proto =? IPPROTO_UDP) then ret TC_ACT_OK else
  let* ihl_byte := load_of tf_skb 1 (ip + ip_ihl) in
  let ihl := ihl_byte mod 2 ^ ip_ihl_bits * 4 in
  if ihl <? sizeof_iphdr then ret TC_ACT_OK else
  let l4 := ip + ihl in
  let* ports :=
    if proto =? IPPROTO_TCP then
      let* tcp_ok := within_of tf_skb (l4 + sizeof_tcphdr) in
      if negb tcp_ok then ret None else
      let* source := load_of tf_skb 2 (l4 + tcp_source) in
      let* dest := load_of tf_skb 2 (l4 + tcp_dest) in
      ret (Some (bpf_ntohs source, bpf_ntohs dest))
    else
      let* udp_ok := within_of tf_skb (l4 + sizeof_udphdr) in
      if negb udp_ok then ret None else
      let* source := load_of tf_skb 2 (l4 + udp_source) in
      let* dest := load_of tf_skb 2 (l4 + udp_dest) in
      ret (Some (bpf_ntohs source, bpf_ntohs dest)) in
  match ports with
  | None => ret TC_ACT_OK
  | Some (sport, dport) =>
    let* cfg := gets (λ w, array_lookup (config_map w) 0) in
    match cfg with
    | None => ret TC_ACT_OK
    | Some cfg =>
        if cf_port cfg =? 0 then ret TC_ACT_OK else
        if negb (sport =? cf_port cfg) && negb (dport =? cf_port cfg) then ret TC_ACT_OK else
        observe ingress cfg proto sport dport
    end
  end.


End tapfilter.

(** ** What it promises *)

(** The bytes where the ports of a TCP or UDP packet are can be read. *)
Definition ports_readable (d : list Z) (h : Z) : Prop :=
  ipv4_l4 d h ∧ 20 ≤ ip_header_len d ∧ 14 + ip_header_len d + l4_header_len (ip_proto d) ≤ h.

Definition src_port (d : list Z) : Z := be_val (slice (14 + ip_header_len d) 2 d).
Definition dst_port (d : list Z) : Z := be_val (slice (16 + ip_header_len d) 2 d).


(** The filter finds the port it was given there. *)
Definition matched (cfg : config) (d : list Z) (h : Z) : Prop :=
  ports_readable d h ∧ cf_port cfg ≠ 0 ∧ (src_port d = cf_port cfg ∨ dst_port d = cf_port cfg).

(** The packet is one the configuration watches: a TCP or UDP packet of the port.  A later
    fragment has no ports. *)
Definition watched (cfg : config) (d : list Z) (h : Z) : Prop :=
  handled d h ∧ cf_port cfg ≠ 0 ∧ (src_port d = cf_port cfg ∨ dst_port d = cf_port cfg).

#[export] Instance ports_readable_dec d h : Decision (ports_readable d h).
Proof. unfold ports_readable. apply _. Defined.

#[export] Instance matched_dec cfg d h : Decision (matched cfg d h).
Proof. unfold matched. apply _. Defined.

#[export] Instance watched_dec cfg d h : Decision (watched cfg d h).
Proof. unfold watched. apply _. Defined.

Definition drops_matching (cfg : config) : Z := if decide (cf_drop cfg = 0) then 0 else 1.

(** The counters after a matching packet: ingress, egress, dropped, unused. *)
Definition counted (ingress drop : Z) (s s' : list Z) : Prop :=
  ∃ a b c u, s = [a; b; c; u] ∧
    s' = [if decide (ingress = 0) then a else wrap 64 (a + 1);
          if decide (ingress = 0) then wrap 64 (b + 1) else b;
          if decide (drop = 0) then c else wrap 64 (c + 1); u].

Definition flow_record (d : list Z) (ingress drop : Z) : list Z :=
  slice 26 4 d ++ slice 30 4 d ++ le_bytes 2 (src_port d) ++ le_bytes 2 (dst_port d) ++
  le_bytes 2 (ip_total_len d) ++ le_bytes 1 ingress ++ le_bytes 1 drop ++
  le_bytes 1 (ip_proto d) ++ [0; 0; 0].

Definition tap_world_ok (w : tap_world) : Prop :=
  bytes_ok (skb_data (tf_skb w)) ∧ 0 ≤ skb_headlen (tf_skb w) ≤ zlen (skb_data (tf_skb w)) ∧
  length (config_map w) = 1%nat ∧ length (tf_stats w) = 4%nat.

#[export] Instance tap_world_ok_dec w : Decision (tap_world_ok w).
Proof. unfold tap_world_ok. apply _. Defined.

(** One packet through the filter, which it concerns or not. *)
Definition filter_post (hit : bool) (cfg : config) (ingress : Z) (w : tap_world) (rc : Z) (w' : tap_world) : Prop :=
  let d := skb_data (tf_skb w) in
  if hit then
    rc = (if decide (cf_drop cfg = 0) then TC_ACT_OK else TC_ACT_SHOT) ∧
    tf_skb w' = tf_skb w ∧ config_map w' = config_map w ∧
    counted ingress (drops_matching cfg) (tf_stats w) (tf_stats w') ∧
    logged (flow_record d ingress (drops_matching cfg)) (tf_events w) (tf_events w')
  else rc = TC_ACT_OK ∧ w' = w.

Section tapfilter_facts.
Context `{BH : !BpfHelpers, BL : !BpfHelpersLaws}.

Lemma tf_fill_record saddr daddr sport dport len ingress drop proto mem :
  zlen mem = sizeof_event →
  tf_fill saddr daddr sport dport len ingress drop proto mem =
  le_bytes 4 saddr ++ le_bytes 4 daddr ++ le_bytes 2 sport ++ le_bytes 2 dport ++
  le_bytes 2 len ++ le_bytes 1 ingress ++ le_bytes 1 drop ++ le_bytes 1 proto ++ [0; 0; 0].
Proof.
  change sizeof_event with 20. intros Hz. unfold zlen in Hz.
  do 20 (destruct mem as [|? mem]; [simpl in Hz; lia|]).
  destruct mem; [reflexivity|simpl in Hz; lia].
Qed.

Lemma le_bytes_load off d :
  bytes_ok d → 0 ≤ off → off + 4 ≤ zlen d → le_bytes 4 (load 4 off d) = slice off 4 d.
Proof.
  intros Hb Ho Hl. unfold load.
  replace 4%nat with (length (slice off 4 d)); [by apply le_bytes_le_val, bytes_ok_slice|].
  pose proof (zlen_slice off 4 d Ho ltac:(lia) Hl). unfold zlen in *. lia.
Qed.

(** The counters [observe] touches. *)
Lemma wp_bumps {A} ingress drop (k : ST tap_world A) (Q : A → tap_world → Prop) w :
  length (tf_stats w) = 4%nat →
  (∀ s, counted ingress drop (tf_stats w) s → wp k Q (tf_set_stats s w)) →
  wp (do* bump (if negb (ingress =? 0) then 0 else 1) in
      do* when (negb (drop =? 0)) (bump 2) in k) Q w.
Proof.
  intros Hl HQ. destruct w as [sk cm st ev]. simpl in *.
  destruct st as [|a [|b [|c [|u []]]]]; try done.
  assert (counted ingress drop [a; b; c; u]
    [if decide (ingress = 0) then a else wrap 64 (a + 1);
     if decide (ingress = 0) then wrap 64 (b + 1) else b;
     if decide (drop = 0) then c else wrap 64 (c + 1); u]) as Hc by (by exists a, b, c, u).
  apply HQ in Hc. clear HQ. revert Hc.
  destruct (Z.eqb_spec ingress 0), (decide (ingress = 0)); try done;
    destruct (Z.eqb_spec drop 0), (decide (drop = 0)); done.
Qed.

Lemma filter_skips cfg ingress w :
  ¬ matched cfg (skb_data (tf_skb w)) (skb_headlen (tf_skb w)) →
  filter_post (bool_decide (matched cfg (skb_data (tf_skb w)) (skb_headlen (tf_skb w)))) cfg ingress w TC_ACT_OK w.
Proof. intros Hn. by rewrite bool_decide_eq_false_2. Qed.

Lemma wp_observe cfg ingress w :
  tap_world_ok w → matched cfg (skb_data (tf_skb w)) (skb_headlen (tf_skb w)) →
  let d := skb_data (tf_skb w) in
  wp (observe ingress cfg (ip_proto d) (src_port d) (dst_port d))
    (filter_post (bool_decide (matched cfg d (skb_headlen (tf_skb w)))) cfg ingress w) w.
Proof.
  intros (Hb & Hh & _ & Hs) Hw d.
  unfold observe.
  pose proof Hw as [((H34 & _) & _) _].
  assert ((if negb (cf_drop cfg =? 0) then 1 else 0) = drops_matching cfg) as ->.
  { unfold drops_matching. case_decide; case_match; bool_prop; done || lia. }
  set (drop := drops_matching cfg).
  apply wp_bumps; [done|]. intros s Hc. apply wp_bind, wp_gets.
  apply wp_bind, (wp_mono _ (λ _ w', ∃ evs,
    logged (flow_record d ingress drop) (tf_events w) evs ∧
    w' = tf_set_events evs (tf_set_stats s w))).
  - destruct (bpf_ringbuf_reserve _ _) as [mem|] eqn:Er.
    + apply ringbuf_reserve_spec in Er as [Hz _].
      do 3 (apply wp_bind, wp_load_of; [done|cbv [sizeof_ethhdr ip_saddr ip_daddr ip_tot_len]; simpl; lia|]).
      apply wp_modify. eexists. split; [by right|]. rewrite tf_fill_record by done.
      cbv [sizeof_ethhdr ip_saddr ip_daddr ip_tot_len].
      change (14 + 12) with 26. change (14 + 16) with 30. change (14 + 2) with 16.
      change (skb_data (tf_skb (tf_set_stats s w))) with d.
      rewrite !le_bytes_load by (done || (fold d in Hh; lia)).
      unfold flow_record, ip_total_len. rewrite be_val_pair by (done || (fold d in Hh; lia)). done.
    + apply wp_ret. exists (tf_events w). split; [by left|done].
  - intros _ w' (evs & Hl & ->). apply wp_ret. rewrite bool_decide_eq_true_2 by done. unfold filter_post.
    split_and!; try done.
    unfold drop, drops_matching. by case_decide.
Qed.

(** Reading the ports of a header of [k] bytes. *)
Lemma wp_ports k w :
  let d := skb_data (tf_skb w) in let h := skb_headlen (tf_skb w) in
  bytes_ok d → 0 ≤ h ≤ zlen d → ipv4_l4 d h → 20 ≤ ip_header_len d →
  k = l4_header_len (ip_proto d) → 4 ≤ k →
  wp (let* ok := within_of tf_skb (14 + ip_header_len d + k) in
      if negb ok then ret None else
      let* source := load_of tf_skb 2 (14 + ip_header_len d + 0) in
      let* dest := load_of tf_skb 2 (14 + ip_header_len d + 2) in
      ret (Some (bpf_ntohs source, bpf_ntohs dest))) (λ r w', w' = w ∧
    ((r = None ∧ ¬ ports_readable d h) ∨ (r = Some (src_port d, dst_port d) ∧ ports_readable d h))) w.
Proof.
  intros d h Hb Hh Hip Hn Hk H4. set (n := ip_header_len d) in *.
  apply wp_bind, wp_within_of. wp_if E6; fold h in E6.
  { apply wp_ret. split; [done|]. left. unfold ports_readable. fold n. rewrite <- Hk. split; [done|lia]. }
  do 2 (apply wp_bind, wp_load_of; [lia|fold h; lia|]). apply wp_ret. split; [done|]. right.
  unfold src_port, dst_port. fold d n. split; [|unfold ports_readable; fold n; rewrite <- Hk; done].
  replace (14 + n + 0) with (14 + n) by lia. replace (14 + n + 2) with (16 + n) by lia.
  by rewrite !be_val_pair by (done || lia).
Qed.

Lemma wp_handle cfg ingress w :
  tap_world_ok w → array_lookup (config_map w) 0 = Some cfg →
  wp (handle ingress)
    (filter_post (bool_decide (matched cfg (skb_data (tf_skb w)) (skb_headlen (tf_skb w)))) cfg ingress w) w.
Proof.
  intros Hw Hcfg. pose proof Hw as (Hb & Hh & _ & Hs). unfold handle.
  cbv [sizeof_ethhdr sizeof_iphdr sizeof_tcphdr sizeof_udphdr eth_h_proto ip_protocol
       ip_ihl ip_ihl_bits tcp_source tcp_dest udp_source udp_dest].
  set (d := skb_data (tf_skb w)) in *. set (h := skb_headlen (tf_skb w)) in *.
  assert (¬ ports_readable d h → wp (ret TC_ACT_OK) (filter_post (bool_decide (matched cfg d h)) cfg ingress w) w) as Hpass.
  { intros Hn. apply wp_ret, filter_skips. by intros [? _]. }
  apply wp_bind, wp_within_of. wp_if E1; fold h in E1.
  { apply Hpass. unfold ports_readable, ipv4_l4. lia. }
  apply wp_bind, wp_load_of; [done|done|]. fold d.
  pose proof (ntohs_eq_const 12 d 0x800 Hb ltac:(lia) ltac:(lia) ltac:(lia)) as Het.
  fold (eth_type d) in Het. wp_if E2.
  { apply Hpass. unfold ports_readable, ipv4_l4. tauto. }
  apply Het in E2. apply wp_bind, wp_within_of. wp_if E3; fold h in E3.
  { apply Hpass. unfold ports_readable, ipv4_l4. lia. }
  apply wp_bind, wp_load_of; [done|fold h; lia|]. fold d.
  change (load 1 (14 + 9) d) with (ip_proto d). wp_if E4.
  { apply Hpass. unfold ports_readable, ipv4_l4. tauto. }
  assert (ipv4_l4 d h) as Hip.
  { split_and!; [lia|done|]. apply andb_false_iff in E4 as [E4|E4]; bool_prop; tauto. }
  apply wp_bind, wp_load_of; [done|fold h; lia|]. fold d.
  change (load 1 (14 + 0) d mod 2 ^ 4 * 4) with (ip_header_len d). wp_if E5.
  { apply Hpass. unfold ports_readable. lia. }
  set (n := ip_header_len d) in *.
  apply wp_bind, (wp_mono _ (λ r w', w' = w ∧
    ((r = None ∧ ¬ ports_readable d h) ∨ (r = Some (src_port d, dst_port d) ∧ ports_readable d h)))).
  { pose proof (wp_ports (l4_header_len (ip_proto d)) w Hb Hh Hip E5 eq_refl) as Hk.
    unfold l4_header_len in Hk. destruct (ip_proto d =? IPPROTO_TCP); apply Hk; done. }
  intros r w' [-> [[-> Hn]|[-> Hp]]]; [by apply Hpass|].
  apply wp_bind, wp_gets. rewrite Hcfg. wp_if E7.
  { apply wp_ret, filter_skips. fold d h. by intros (_ & ? & _). }
  wp_if E8.
  - apply wp_ret, filter_skips. fold d h. intros (_ & _ & [?|?]); done.
  - apply wp_observe; [done|]. split_and!; [done..|].
    apply andb_false_iff in E8 as [E8|E8]; bool_prop; auto.
Qed.



(** The filter drops nothing it was not told to drop: a dropped packet has the
    configured, non-zero port as its source or destination port and the configuration
    asks for drops. *)
Theorem tapfilter_drops_only_watched cfg ingress w :
  tap_world_ok w → array_lookup (config_map w) 0 = Some cfg →
  wp (handle ingress) (λ rc _, rc = TC_ACT_SHOT →
    cf_drop cfg ≠ 0 ∧ cf_port cfg ≠ 0 ∧
    (src_port (skb_data (tf_skb w)) = cf_port cfg ∨ dst_port (skb_data (tf_skb w)) = cf_port cfg)) w.
Proof.
  intros Hw Hc. eapply wp_mono; [by apply wp_handle|]. intros rc w'. unfold filter_post.
  case_bool_decide as Hm; [|by intros [-> _]]. intros (-> & _). case_decide; [done|].
  destruct Hm as (_ & ? & ?). done.
Qed.

(** The filter does not look at the fragment offset: a later fragment, which has
    no TCP or UDP header, is matched on the payload bytes found where the ports would
    be, and dropped. *)
Theorem tapfilter_matches_fragment_payload cfg ingress w :
  tap_world_ok w → array_lookup (config_map w) 0 = Some cfg → cf_drop cfg ≠ 0 →
  later_fragment (skb_data (tf_skb w)) (skb_headlen (tf_skb w)) →
  matched cfg (skb_data (tf_skb w)) (skb_headlen (tf_skb w)) →
  wp (handle ingress) (λ rc _, rc = TC_ACT_SHOT) w.
Proof.
  intros Hw Hc Hd _ Hm. eapply wp_mono; [by apply wp_handle|]. intros rc w'. unfold filter_post.
  rewrite bool_decide_eq_true_2 by done. intros (-> & _). by rewrite decide_False.
Qed.
End tapfilter_facts.

(** ** A filter on port 443 *)

Definition watch_443 : config := mkConfig 443 1 0.

Definition filter_world (d : list Z) : tap_world :=
  mkTapWorld (mkSkb d (zlen d) 5 false) [watch_443] [0; 0; 0; 0] [].

Definition fragment_443 : list Z := Eval vm_compute in splice 20 [0; 185] egress_frame.


Lemma tapfilter_drops_only_watched_witness :
  wp (handle 1) (λ rc _, rc = TC_ACT_SHOT →
    cf_drop watch_443 ≠ 0 ∧ cf_port watch_443 ≠ 0 ∧
    (src_port (skb_data (tf_skb (filter_world egress_frame))) = cf_port watch_443 ∨
     dst_port (skb_data (tf_skb (filter_world egress_frame))) = cf_port watch_443))
    (filter_world egress_frame).
Proof. apply tapfilter_drops_only_watched; [by_eval|reflexivity]. Defined.

Lemma tapfilter_matches_fragment_payload_witness :
  wp (handle 1) (λ rc _, rc = TC_ACT_SHOT) (filter_world fragment_443).
Proof.
  apply (tapfilter_matches_fragment_payload watch_443); [by_eval|reflexivity|by_eval|by_eval|by_eval].
Defined.
