(* ===== verification/Decode.v ===== *)
(** * The agent's decoders

    [decodeNatEvent] of [nat_linux.go] and [decodeFlowEvent] of [tapfilter_linux.go],
    against the records the programs write. *)
From S2P Require Import Prelude CLayout Checksum Vmlinux NatTypes Kernel RefKernel Samples.
From S2P Require Import NatParse NatState Tapfilter.
#[local] Open Scope Z_scope.

(** [binary.BigEndian.Uint16] and [binary.LittleEndian.Uint16]. *)
Definition be_uint16 (b : list Z) : Z := be_val b.
Definition le_uint16 (b : list Z) : Z := le_val b.

(** A [net.IP] is its four bytes. *)
Record NatFlowEvent := mkNatFlowEvent {
  VMIP : list Z;
  OrigSrc : list Z;
  OrigDst : list Z;
  NewSrc : list Z;
  NewDst : list Z;
  OrigSP : Z;
  OrigDP : Z;
  NewSP : Z;
  NewDP : Z;
  Length : Z;
  Proto : Z;
  Dir : Z;
  Verdict : Z
}.

(** [raw[a:b]] *)
Definition range (raw : list Z) (a b : Z) : list Z := slice a (b - a) raw.

(** [raw[i]] *)
Definition byte_at (raw : list Z) (i : Z) : Z := load 1 i raw.

Definition decodeNatEvent (raw : list Z) : option NatFlowEvent :=
  if zlen raw <? 33 then None else
  let ip off := range raw off (off + 4) in
  Some {|
    OrigSrc := ip 0;
    OrigDst := ip 4;
    NewSrc := ip 8;
    NewDst := ip 12;
    VMIP := ip 16;
    OrigSP := be_uint16 (range raw 20 22);
    OrigDP := be_uint16 (range raw 22 24);
    NewSP := be_uint16 (range raw 24 26);
    NewDP := be_uint16 (range raw 26 28);
    Length := be_uint16 (range raw 28 30);
    Proto := byte_at raw 30;
    Dir := byte_at raw 31;
    Verdict := byte_at raw 32
  |}.

Record TapFlowEvent := mkTapFlowEvent {
  TapName : string;
  SrcIP : list Z;
  DstIP : list Z;
  SrcPort : Z;
  DstPort : Z;
  TapLength : Z;
  TapProto : Z;
  Ingress : bool;
  Dropped : bool
}.

Definition decodeFlowEvent (tap : string) (raw : list Z) : option TapFlowEvent :=
  if zlen raw <? 18 then None else
  Some {|
    TapName := tap;
    SrcIP := range raw 0 4;
    DstIP := range raw 4 8;
    SrcPort := le_uint16 (range raw 8 10);
    DstPort := le_uint16 (range raw 10 12);
    TapLength := le_uint16 (range raw 12 14);
    Ingress := negb (byte_at raw 14 =? 0);
    Dropped := negb (byte_at raw 15 =? 0);
    TapProto := byte_at raw 16
  |}.

(** ** Reading a record piece by piece *)

Lemma slice_skip off n l k :
  0 ≤ off - zlen l → slice off n (l ++ k) = slice (off - zlen l) n k.
Proof.
  unfold slice, zlen. intros H. rewrite drop_app_ge by lia. do 2 f_equal. lia.
Qed.

Lemma slice_here off n l k : off = 0 → n = zlen l → slice off n (l ++ k) = l.
Proof.
  unfold slice, zlen. intros -> ->. simpl. rewrite Nat2Z.id. apply take_app_length.
Qed.

(** Walk to the piece a slice asks for. *)
Ltac piece :=
  repeat first [ rewrite slice_here by (autorewrite with bytes; lia)
               | rewrite slice_skip by (autorewrite with bytes; lia) ].

Lemma be_val_le_bytes_2 v : 0 ≤ v < 65536 → be_val (le_bytes 2 v) = bswap16 v.
Proof. intros. unfold be_val, bswap16. simpl. Z.to_euclidean_division_equations. lia. Qed.

Lemma le_val_le_bytes_1 v : 0 ≤ v < 256 → le_val (le_bytes 1 v) = v.
Proof. intros. rewrite le_val_le_bytes. by apply Z.mod_small. Qed.

Lemma decode_record o vm dir verdict nsa nda nsp ndp :
  0 ≤ l4_sport o < 65536 → 0 ≤ l4_dport o < 65536 → 0 ≤ nsp < 65536 → 0 ≤ ndp < 65536 →
  0 ≤ l4_tot_len o < 65536 → 0 ≤ l4_proto o < 256 → 0 ≤ dir < 256 → 0 ≤ verdict < 256 →
  decodeNatEvent (event_record o vm dir verdict nsa nda nsp ndp) = Some {|
    OrigSrc := le_bytes 4 (l4_saddr o);
    OrigDst := le_bytes 4 (l4_daddr o);
    NewSrc := le_bytes 4 nsa;
    NewDst := le_bytes 4 nda;
    VMIP := le_bytes 4 vm;
    OrigSP := bpf_ntohs (l4_sport o);
    OrigDP := bpf_ntohs (l4_dport o);
    NewSP := bpf_ntohs nsp;
    NewDP := bpf_ntohs ndp;
    Length := bpf_ntohs (l4_tot_len o);
    Proto := l4_proto o;
    Dir := dir;
    Verdict := verdict
  |}.
Proof.
  intros. unfold decodeNatEvent, event_record, range, byte_at, load, be_uint16, bpf_ntohs.
  destruct (Z.ltb_spec (zlen (event_record o vm dir verdict nsa nda nsp ndp)) 33) as [Hl|Hl];
    unfold event_record in Hl; autorewrite with bytes in Hl; [change (zlen []) with 0 in Hl; lia|].
  rewrite (proj2 (Z.ltb_ge _ _)) by (autorewrite with bytes; change (zlen []) with 0; lia).
  f_equal. f_equal; piece; try done;
    first [by apply be_val_le_bytes_2|by apply le_val_le_bytes_1].
Qed.

Section decode.
Context `{BH : !BpfHelpers, CK : !Conntrack, BL : !BpfHelpersLaws}.

Lemma header_ranges w :
  packet_ok w → handled (w_data w) (skb_headlen (w_skb w)) →
  let o := headers (w_data w) in
  0 ≤ l4_sport o < 65536 ∧ 0 ≤ l4_dport o < 65536 ∧ 0 ≤ l4_tot_len o < 65536 ∧
  0 ≤ l4_proto o < 256 ∧ 34 ≤ zlen (w_data w) ∧
  16 + ip_header_len (w_data w) + 2 ≤ zlen (w_data w) ∧ 20 ≤ ip_header_len (w_data w).
Proof.
  intros [Hb Hh] ((H34 & _) & _ & Hn & Hl) o. unfold o, headers. cbn [l4_sport l4_dport l4_tot_len l4_proto].
  pose proof (load_bound 2 (14 + ip_header_len (w_data w)) _ Hb ltac:(lia)).
  pose proof (load_bound 2 (16 + ip_header_len (w_data w)) _ Hb ltac:(lia)).
  pose proof (load_bound 1 23 _ Hb ltac:(lia)). unfold ip_proto, ip_total_len.
  rewrite be_val_pair by (done || lia). pose proof (bswap16_bound (load 2 16 (w_data w))).
  unfold l4_header_len in Hl. case_match; lia.
Qed.

(** Decoding the record of a packet gives the addresses as they are on the wire, the ports
    in host order, the protocol, the direction and the verdict; the translated endpoint
    likewise; but the length with its bytes swapped. *)
Lemma nat_event_decoded w vm dir verdict nsa nda nsp ndp :
  packet_ok w → handled (w_data w) (skb_headlen (w_skb w)) →
  0 ≤ nsp < 65536 → 0 ≤ ndp < 65536 → 0 ≤ dir < 256 → 0 ≤ verdict < 256 →
  let d := w_data w in
  ∃ ev, decodeNatEvent (event_record (headers d) vm dir verdict nsa nda nsp ndp) = Some ev ∧
    OrigSrc ev = slice 26 4 d ∧ OrigDst ev = slice 30 4 d ∧
    OrigSP ev = src_port d ∧ OrigDP ev = dst_port d ∧
    NewSrc ev = le_bytes 4 nsa ∧ NewDst ev = le_bytes 4 nda ∧
    NewSP ev = bpf_ntohs nsp ∧ NewDP ev = bpf_ntohs ndp ∧ VMIP ev = le_bytes 4 vm ∧
    Proto ev = ip_proto d ∧ Dir ev = dir ∧ Verdict ev = verdict ∧ Length ev = bswap16 (ip_total_len d).
Proof.
  intros Hw Hh Hsp Hdp Hd Hv d. pose proof Hw as [Hb _].
  destruct (header_ranges w Hw Hh) as (R1 & R2 & R3 & R4 & R5 & R6 & R7).
  subst d. rewrite decode_record by done. eexists. split; [done|].
  cbn [OrigSrc OrigDst OrigSP OrigDP NewSrc NewDst NewSP NewDP VMIP Proto Dir Verdict Length
       headers l4_saddr l4_daddr l4_sport l4_dport l4_proto l4_tot_len].
  unfold src_port, dst_port. rewrite !be_val_pair, !le_bytes_load by (done || lia). done.
Qed.

(** The length of a NAT event is read with the wrong byte order: [emit] stores it
    in host order and [decodeNatEvent] reads it as big-endian, so the agent sees the
    IPv4 total length with its bytes swapped, which is the length only when its two
    bytes are equal. *)
Theorem nat_event_length_swapped w vm dir verdict nsa nda nsp ndp :
  packet_ok w → handled (w_data w) (skb_headlen (w_skb w)) →
  0 ≤ nsp < 65536 → 0 ≤ ndp < 65536 → 0 ≤ dir < 256 → 0 ≤ verdict < 256 →
  let d := w_data w in
  ∃ ev, decodeNatEvent (event_record (headers d) vm dir verdict nsa nda nsp ndp) = Some ev ∧
    Length ev = bswap16 (ip_total_len d) ∧
    (Length ev = ip_total_len d ↔ ip_total_len d / 256 = ip_total_len d mod 256).
Proof.
  intros Hw Hh Hsp Hdp Hd Hv d.
  destruct (header_ranges w Hw Hh) as (R1 & R2 & R3 & R4 & R5 & R6 & R7).
  rewrite decode_record by done. eexists. split; [done|]. cbn [Length l4_tot_len headers] in R3 |- *.
  split; [done|]. unfold bpf_ntohs, bswap16. fold d in R3. clear -R3.
  Z.to_euclidean_division_equations. lia.
Qed.

(** Filter events round trip: decoding the record the filter writes for a packet
    gives back the packet's addresses, ports, length and protocol, its direction and
    whether it was dropped. *)
Lemma flow_event_round_trip tap d h ingress drop :
  bytes_ok d → ports_readable d h → h ≤ zlen d → 0 ≤ ingress < 256 → 0 ≤ drop < 256 →
  decodeFlowEvent tap (flow_record d ingress drop) = Some {|
    TapName := tap;
    SrcIP := slice 26 4 d;
    DstIP := slice 30 4 d;
    SrcPort := src_port d;
    DstPort := dst_port d;
    TapLength := ip_total_len d;
    TapProto := ip_proto d;
    Ingress := negb (ingress =? 0);
    Dropped := negb (drop =? 0)
  |}.
Proof.
  intros Hb ((H34 & _) & Hn & Hl) Hh Hi Hd.
  assert (∀ off, 0 ≤ off → off + 2 ≤ zlen d → le_val (le_bytes 2 (be_val (slice off 2 d))) =
    be_val (slice off 2 d)) as H2.
  { intros off Ho Hz. rewrite le_val_le_bytes, be_val_pair by done. apply Z.mod_small.
    apply bswap16_bound. }
  pose proof (load_bound 1 23 d Hb ltac:(lia)) as Hp. fold (ip_proto d) in Hp.
  assert (14 + ip_header_len d + 8 ≤ zlen d) by (unfold l4_header_len in Hl; case_match; lia).
  pose proof (zlen_slice 26 4 d ltac:(lia) ltac:(lia) ltac:(lia)).
  pose proof (zlen_slice 30 4 d ltac:(lia) ltac:(lia) ltac:(lia)).
  unfold decodeFlowEvent, flow_record, range, byte_at, load, le_uint16.
  rewrite (proj2 (Z.ltb_ge _ _)) by (autorewrite with bytes; change (zlen []) with 0; lia).
  f_equal. f_equal; piece; try done; unfold src_port, dst_port, ip_total_len;
    first [apply H2; lia|by rewrite le_val_le_bytes_1|idtac].
Qed.

(** C33: What the agent makes of the events the programs emit.  When [emit] publishes a
    record for a packet, [decodeNatEvent] of it gives the packet's addresses as they are on
    the wire, its ports in host order, the translated endpoint, protocol, direction and
    verdict, as meant, but the packet's length with its two bytes swapped.  When the TAP
    filter publishes a record, [decodeFlowEvent] of it gives the packet's addresses, ports,
    length and protocol, its direction and whether the filter dropped it.  Either program
    may find the buffer full, and then publishes nothing. *)
Theorem events_decoded w vm dir verdict nsa nda nsp ndp cfg tap ingress (wt : tap_world) :
  packet_ok w → handled (w_data w) (skb_headlen (w_skb w)) →
  0 ≤ nsp < 65536 → 0 ≤ ndp < 65536 → 0 ≤ dir < 256 → 0 ≤ verdict < 256 →
  tap_world_ok wt → array_lookup (config_map wt) 0 = Some cfg → 0 ≤ ingress < 256 →
  let d := w_data w in let dt := skb_data (tf_skb wt) in
  wp (emit (headers d) vm dir verdict nsa nda nsp ndp) (λ _ w',
    events (w_maps w') = events (w_maps w) ∨
    ∃ raw ev, events (w_maps w') = events (w_maps w) ++ [raw] ∧ decodeNatEvent raw = Some ev ∧
      OrigSrc ev = slice 26 4 d ∧ OrigDst ev = slice 30 4 d ∧
      OrigSP ev = src_port d ∧ OrigDP ev = dst_port d ∧
      NewSrc ev = le_bytes 4 nsa ∧ NewDst ev = le_bytes 4 nda ∧
      NewSP ev = bpf_ntohs nsp ∧ NewDP ev = bpf_ntohs ndp ∧ VMIP ev = le_bytes 4 vm ∧
      Proto ev = ip_proto d ∧ Dir ev = dir ∧ Verdict ev = verdict ∧
      Length ev = bswap16 (ip_total_len d)) w ∧
  wp (handle ingress) (λ rc w',
    tf_events w' = tf_events wt ∨
    ∃ raw, tf_events w' = tf_events wt ++ [raw] ∧
      decodeFlowEvent tap raw = Some {|
        TapName := tap;
        SrcIP := slice 26 4 dt;
        DstIP := slice 30 4 dt;
        SrcPort := src_port dt;
        DstPort := dst_port dt;
        TapLength := ip_total_len dt;
        TapProto := ip_proto dt;
        Ingress := negb (ingress =? 0);
        Dropped := bool_decide (rc = TC_ACT_SHOT)
      |}) wt.
Proof.
  intros Hw Hh Hsp Hdp Hd Hv Ht Hc Hi d dt. split.
  - apply wp_emit. intros evs [->| ->]; [by left|]. right.
    destruct (nat_event_decoded w vm dir verdict nsa nda nsp ndp) as (ev & He); [done..|].
    eexists _, ev. split; [done|exact He].
  - eapply wp_mono; [by apply wp_handle|]. intros rc w'. unfold filter_post. case_bool_decide as Hm; [|by intros [_ ->]; left].
    intros (-> & _ & _ & _ & [->| ->]); [by left|]. right. eexists. split; [done|].
    destruct Ht as (Hb & Hh' & _), Hm as (Hp & _).
    rewrite (flow_event_round_trip tap dt (skb_headlen (tf_skb wt))); try done;
      [|by subst dt; lia|]; unfold drops_matching; by case_decide.
Qed.
End decode.

Definition sample_event_world : world := sample_world egress_frame 5.

Lemma events_decoded_witness :
  wp (emit (headers (w_data sample_event_world)) 1 EV_EGRESS 0 2 3 4 5) (λ _ w',
    events (w_maps w') = [] ∨ ∃ raw ev, events (w_maps w') = [] ++ [raw] ∧ decodeNatEvent raw = Some ev ∧
      OrigSrc ev = vm_addr ∧ OrigDst ev = peer_addr) sample_event_world ∧
  wp (handle 1) (λ rc w', tf_events w' = [] ∨ ∃ raw ev, tf_events w' = [] ++ [raw] ∧
    decodeFlowEvent "tap0" raw = Some ev ∧ SrcPort ev = 40000 ∧ TapLength ev = 45) (filter_world egress_frame).
Proof.
  destruct (events_decoded sample_event_world 1 EV_EGRESS 0 2 3 4 5 watch_443
              "tap0" 1 (filter_world egress_frame)) as [He Hf]; [by_eval..|reflexivity|by_eval|].
  split.
  - eapply wp_mono; [exact He|]. intros _ w' [E|(raw & ev & E & Hd & Hs & Ht & _)]; [by left|]. right.
    exists raw, ev. exact (conj E (conj Hd (conj Hs Ht))).
  - eapply wp_mono; [exact Hf|]. intros rc w' [E|(raw & E & Hd)]; [by left|]. right.
    eexists raw, _. split; [exact E|]. split; [exact Hd|]. split; reflexivity.
Defined.

Lemma nat_event_length_swapped_witness :
  ∃ ev, decodeNatEvent (event_record (headers (w_data sample_event_world)) 1 EV_EGRESS 0 2 3 4 5)
          = Some ev ∧ ip_total_len egress_frame = 45 ∧ Length ev = 11520.
Proof.
  destruct (nat_event_length_swapped sample_event_world 1 EV_EGRESS 0 2 3 4 5)
    as (ev & He & Hl & _); [by_eval..|].
  exists ev. exact (conj He (conj eq_refl Hl)).
Defined.
