(* ===== verification/Ipam.v ===== *)
(** * The address and port allocator

    [netalloc.go]: [newIPAM], [allocate], [release], [takeIP], [takePort] and
    [deterministicMAC].  The allocator gives every guest an address of the guest
    subnet and a public host port, which the agent then writes into the maps of the
    NAT dataplane.  Every method holds the mutex for its whole body, so the methods
    are atomic steps on the record. *)
From S2P Require Import Prelude.
From stdpp Require Import relations.
#[local] Set Warnings "-clear-no-such-hyp".
#[local] Open Scope Z_scope.

(** ** Data *)

(** Addresses are 32-bit values in host order.  A subnet is its address, [None] when
    it has no IPv4 form, and its mask, four bytes as a 32-bit value. *)
Record IPNet := mkIPNet {
  sn_ip : option Z;
  sn_mask : Z
}.

Record vmNet := mkVmNet {
  vn_ip : option Z;
  vn_mac : list Z;
  vn_port : Z;
  vn_gateway : Z;
  vn_gateway_mac : list Z;
  vn_prefix : Z
}.

Record ipam := mkIpam {
  prefix : Z;
  first : Z;
  last : Z;
  gatewayIP : Z;
  gatewayMAC : list Z;
  usedIPs : gset Z;
  nextIP : Z;
  portMin : Z;
  portMax : Z;
  usedPorts : gset Z;
  nextPort : Z
}.

Inductive ipam_error : Type :=
| NotIPv4Subnet
| NotIPv4Gateway
| GatewayOutside
| BadGatewayMAC
| BadPortRange
| BadMask
| EmptyRange
| AddressesExhausted
| PortsExhausted.

(** ** Operations *)

Definition mask32 (ones : Z) : Z := 2 ^ 32 - 2 ^ (32 - ones).

(** [Mask.Size()]: the number of leading ones of a prefix mask; other masks have no
    size ([bits] is then 0, not 32). *)
Definition mask_size (m : Z) : option Z := find (λ n, m =? mask32 n) (seqZ 0 33).

(** [subnet.Contains(gw)] *)
Definition contains (net mask gw : Z) : bool := Z.land net mask =? Z.land gw mask.

Definition newIPAM (subnet : IPNet) (gateway : option Z) (mac : list Z) (pmin pmax : Z)
  : ipam_error + ipam :=
  match sn_ip subnet, gateway with
  | None, _ => inl NotIPv4Subnet
  | Some _, None => inl NotIPv4Gateway
  | Some v4, Some gw =>
      if negb (contains v4 (sn_mask subnet) gw) then inl GatewayOutside else
      if negb (zlen mac =? 6) then inl BadGatewayMAC else
      if (pmin =? 0) || (pmax <? pmin) then inl BadPortRange else
      match mask_size (sn_mask subnet) with
      | None => inl BadMask
      | Some ones =>
          let netAddr := Z.land v4 (sn_mask subnet) in
          let first := netAddr in
          let last := Z.lor netAddr (Z.shiftr 0xffffffff ones) in
          let first' := if ones <? 31 then wrap 32 (first + 1) else first in
          let last' := if ones <? 31 then wrap 32 (last - 1) else last in
          if last' <? first' then inl EmptyRange else
          inr (mkIpam ones first' last' gw mac {[gw]} first' pmin pmax ∅ pmin)
      end
  end.

(** One round of the scan of [takeIP]: the candidate and the next position. *)
Definition advanceIP (a : ipam) (cand : Z) : Z :=
  let n := wrap 32 (cand + 1) in
  if last a <? n then first a else n.

Definition set_ips (used : gset Z) (next : Z) (a : ipam) : ipam :=
  mkIpam (prefix a) (first a) (last a) (gatewayIP a) (gatewayMAC a) used next
         (portMin a) (portMax a) (usedPorts a) (nextPort a).

Definition set_ports (used : gset Z) (next : Z) (a : ipam) : ipam :=
  mkIpam (prefix a) (first a) (last a) (gatewayIP a) (gatewayMAC a) (usedIPs a) (nextIP a)
         (portMin a) (portMax a) used next.

(** [for i := 0; i < span; i++]: the address taken or none, and the allocator with
    its scan position moved. *)
Fixpoint scanIP (rounds : nat) (a : ipam) : option Z * ipam :=
  match rounds with
  | O => (None, a)
  | S rounds =>
      let cand := nextIP a in
      let next := advanceIP a cand in
      if decide (cand ∈ usedIPs a) then scanIP rounds (set_ips (usedIPs a) next a)
      else (Some cand, set_ips ({[cand]} ∪ usedIPs a) next a)
  end.

Definition takeIP (a : ipam) : option Z * ipam :=
  let span := wrap 32 (last a - first a + 1) in
  scanIP (Z.to_nat span) a.

Definition advancePort (a : ipam) (cand : Z) : Z :=
  if cand =? portMax a then portMin a else wrap 16 (cand + 1).

Fixpoint scanPort (rounds : nat) (a : ipam) : option Z * ipam :=
  match rounds with
  | O => (None, a)
  | S rounds =>
      let cand := nextPort a in
      let next := advancePort a cand in
      if decide (cand ∈ usedPorts a) then scanPort rounds (set_ports (usedPorts a) next a)
      else (Some cand, set_ports ({[cand]} ∪ usedPorts a) next a)
  end.

Definition takePort (a : ipam) : option Z * ipam :=
  let span := portMax a - portMin a + 1 in
  scanPort (Z.to_nat span) a.

(** [binary.BigEndian.PutUint32] *)
Definition be_bytes4 (v : Z) : list Z := rev (le_bytes 4 v).

Definition deterministicMAC (ip : Z) : list Z := [0x02; 0x00] ++ be_bytes4 ip.

Definition allocate (a : ipam) : (ipam_error + vmNet) * ipam :=
  match takeIP a with
  | (None, a) => (inl AddressesExhausted, a)
  | (Some ip, a) =>
      match takePort a with
      | (None, a) => (inl PortsExhausted, set_ips (usedIPs a ∖ {[ip]}) (nextIP a) a)
      | (Some port, a) =>
          (inr (mkVmNet (Some ip) (deterministicMAC ip) port (gatewayIP a) (gatewayMAC a)
                        (prefix a)), a)
      end
  end.

Definition release (n : vmNet) (a : ipam) : ipam :=
  let a := match vn_ip n with
           | Some v4 => set_ips (usedIPs a ∖ {[v4]}) (nextIP a) a
           | None => a
           end in
  if negb (vn_port n =? 0) then set_ports (usedPorts a ∖ {[vn_port n]}) (nextPort a) a else a.

(** ** Invariant *)

(** The ranges are proper, the scan positions are inside them, and everything in use
    is inside them too (the gateway apart). *)
Record ipam_ok (a : ipam) : Prop := {
  io_ips : 0 ≤ first a ≤ last a ∧ last a < 2 ^ 32 - 1;
  io_next : first a ≤ nextIP a ≤ last a;
  io_ports : 1 ≤ portMin a ≤ portMax a ∧ portMax a < 2 ^ 16;
  io_nextp : portMin a ≤ nextPort a ≤ portMax a;
  io_used : ∀ i, i ∈ usedIPs a → i = gatewayIP a ∨ first a ≤ i ≤ last a;
  io_usedp : ∀ p, p ∈ usedPorts a → portMin a ≤ p ≤ portMax a
}.

(** *** The scans *)

Lemma advanceIP_range a cand :
  ipam_ok a → first a ≤ cand ≤ last a →
  advanceIP a cand = if decide (cand = last a) then first a else cand + 1.
Proof.
  intros [? _ _ _ _ _] Hc. unfold advanceIP, wrap. rewrite Z.mod_small by lia.
  case_decide; case_match; bool_prop; lia.
Qed.

Lemma advancePort_range a cand :
  ipam_ok a → portMin a ≤ cand ≤ portMax a →
  advancePort a cand = if decide (cand = portMax a) then portMin a else cand + 1.
Proof.
  intros [_ _ ? _ _ _] Hc. unfold advancePort, wrap.
  destruct (Z.eqb_spec cand (portMax a)), (decide (cand = portMax a)); try done.
  apply Z.mod_small. lia.
Qed.

(** Both scans are a walk around a ring of positions. *)
Definition ring_next (lo hi p : Z) : Z := if decide (p = hi) then lo else p + 1.

Fixpoint ring_scan (rounds : nat) (lo hi : Z) (used : gset Z) (p : Z) : option Z * Z :=
  match rounds with
  | O => (None, p)
  | S rounds =>
      if decide (p ∈ used) then ring_scan rounds lo hi used (ring_next lo hi p)
      else (Some p, ring_next lo hi p)
  end.

Definition mark (r : option Z) (used : gset Z) : gset Z :=
  match r with Some x => {[x]} ∪ used | None => used end.

Lemma ring_next_range lo hi p : lo ≤ p ≤ hi → lo ≤ ring_next lo hi p ≤ hi.
Proof. unfold ring_next. case_decide; lia. Qed.

(** A walk stays on the ring and stops at a free position. *)
Lemma ring_scan_range k lo hi used p r q :
  lo ≤ p ≤ hi → ring_scan k lo hi used p = (r, q) →
  lo ≤ q ≤ hi ∧ match r with Some x => lo ≤ x ≤ hi ∧ x ∉ used | None => True end.
Proof.
  revert p. induction k as [|k IH]; intros p Hp; cbn [ring_scan]; [by intros [= <- <-]|].
  pose proof (ring_next_range lo hi p Hp). case_decide; [by apply IH|]. by intros [= <- <-].
Qed.

(** A whole round finds a free position when there is one. *)
Lemma ring_scan_finds k lo hi used p x :
  lo ≤ p ≤ hi → lo ≤ x ≤ hi → x ∉ used → (x - p) mod (hi - lo + 1) < Z.of_nat k →
  fst (ring_scan k lo hi used p) ≠ None.
Proof.
  revert p. induction k as [|k IH]; intros p Hp Hx Hf Hd.
  - pose proof (Z.mod_pos_bound (x - p) (hi - lo + 1)). lia.
  - cbn [ring_scan]. case_decide as Hu; [|done]. assert (x ≠ p) as Hne by congruence.
    apply IH; [by apply ring_next_range|done..|]. unfold ring_next.
    destruct (decide (p < x)) as [Hlt|Hge].
    + rewrite Z.mod_small in Hd by lia. rewrite decide_False by lia.
      rewrite Z.mod_small by lia. lia.
    + rewrite <- (Z.mod_add _ 1), Z.mod_small in Hd by lia. case_decide.
      * rewrite Z.mod_small by lia. lia.
      * rewrite <- (Z.mod_add _ 1), Z.mod_small by lia. lia.
Qed.

Lemma ring_scan_complete lo hi used p x :
  lo ≤ p ≤ hi → lo ≤ x ≤ hi → x ∉ used →
  fst (ring_scan (Z.to_nat (hi - lo + 1)) lo hi used p) ≠ None.
Proof.
  intros Hp Hx Hf. eapply ring_scan_finds; [done|exact Hx|done|].
  pose proof (Z.mod_pos_bound (x - p) (hi - lo + 1)). lia.
Qed.

(** *** The invariant through the updates *)

Lemma set_ips_ok used next a :
  ipam_ok a → first a ≤ next ≤ last a →
  (∀ i, i ∈ used → i = gatewayIP a ∨ first a ≤ i ≤ last a) → ipam_ok (set_ips used next a).
Proof. intros [] ??. split; simpl; auto. Qed.

Lemma set_ports_ok used next a :
  ipam_ok a → portMin a ≤ next ≤ portMax a →
  (∀ p, p ∈ used → portMin a ≤ p ≤ portMax a) → ipam_ok (set_ports used next a).
Proof. intros [] ??. split; simpl; auto. Qed.

Lemma scanIP_ring k a :
  ipam_ok a →
  scanIP k a =
    let '(r, q) := ring_scan k (first a) (last a) (usedIPs a) (nextIP a) in
    (r, set_ips (mark r (usedIPs a)) q a).
Proof.
  revert a. induction k as [|k IH]; intros a Ha; cbn [scanIP ring_scan]; [by destruct a|].
  pose proof (io_next _ Ha) as Hn. rewrite advanceIP_range by done.
  change (if decide (nextIP a = last a) then first a else nextIP a + 1) with
    (ring_next (first a) (last a) (nextIP a)).
  case_decide; [|done]. rewrite IH; [by simpl; case_match|].
  apply set_ips_ok; [done|by apply ring_next_range|apply Ha].
Qed.

Lemma scanPort_ring k a :
  ipam_ok a →
  scanPort k a =
    let '(r, q) := ring_scan k (portMin a) (portMax a) (usedPorts a) (nextPort a) in
    (r, set_ports (mark r (usedPorts a)) q a).
Proof.
  revert a. induction k as [|k IH]; intros a Ha; cbn [scanPort ring_scan]; [by destruct a|].
  pose proof (io_nextp _ Ha) as Hn. rewrite advancePort_range by done.
  change (if decide (nextPort a = portMax a) then portMin a else nextPort a + 1) with
    (ring_next (portMin a) (portMax a) (nextPort a)).
  case_decide; [|done]. rewrite IH; [by simpl; case_match|].
  apply set_ports_ok; [done|by apply ring_next_range|apply Ha].
Qed.

(** What taking an address does: it is free and in range, and marked; or every
    address of the range is in use. *)
Lemma takeIP_spec a r a' :
  ipam_ok a → takeIP a = (r, a') →
  ∃ q, a' = set_ips (mark r (usedIPs a)) q a ∧ first a ≤ q ≤ last a ∧
  match r with
  | Some ip => first a ≤ ip ≤ last a ∧ (ip ∉ usedIPs a)
  | None => ∀ ip, first a ≤ ip ≤ last a → ip ∈ usedIPs a
  end.
Proof.
  intros Ha. pose proof (io_ips _ Ha) as Hr. pose proof (io_next _ Ha) as Hn. unfold takeIP, wrap.
  rewrite Z.mod_small, scanIP_ring by (done || lia).
  destruct (ring_scan _ _ _ _ _) as [r0 q] eqn:E. intros [= <- <-].
  destruct (ring_scan_range _ _ _ _ _ _ _ Hn E) as [Hq Hx]. exists q. split_and!; [done|lia|lia|].
  destruct r0; [done|]. intros ip Hip. destruct (decide (ip ∈ usedIPs a)) as [|Hf]; [done|].
  pose proof (ring_scan_complete _ _ _ _ _ Hn Hip Hf) as Hc. by rewrite E in Hc.
Qed.

Lemma takePort_spec a r a' :
  ipam_ok a → takePort a = (r, a') →
  ∃ q, a' = set_ports (mark r (usedPorts a)) q a ∧ portMin a ≤ q ≤ portMax a ∧
  match r with
  | Some p => portMin a ≤ p ≤ portMax a ∧ (p ∉ usedPorts a)
  | None => ∀ p, portMin a ≤ p ≤ portMax a → p ∈ usedPorts a
  end.
Proof.
  intros Ha. pose proof (io_ports _ Ha) as Hr. pose proof (io_nextp _ Ha) as Hn. unfold takePort.
  rewrite scanPort_ring by done.
  destruct (ring_scan _ _ _ _ _) as [r0 q] eqn:E. intros [= <- <-].
  destruct (ring_scan_range _ _ _ _ _ _ _ Hn E) as [Hq Hx]. exists q. split_and!; [done|lia|lia|].
  destruct r0; [done|]. intros p Hp. destruct (decide (p ∈ usedPorts a)) as [|Hf]; [done|].
  pose proof (ring_scan_complete _ _ _ _ _ Hn Hp Hf) as Hc. by rewrite E in Hc.
Qed.

Lemma mark_ips_ok r a :
  ipam_ok a → match r with Some ip => first a ≤ ip ≤ last a | None => True end →
  ∀ i, i ∈ mark r (usedIPs a) → i = gatewayIP a ∨ first a ≤ i ≤ last a.
Proof.
  intros Ha Hr i. destruct r as [ip|]; simpl; [|apply Ha].
  intros [->%elem_of_singleton|Hi]%elem_of_union; [by right|by apply Ha].
Qed.

Lemma mark_ports_ok r a :
  ipam_ok a → match r with Some p => portMin a ≤ p ≤ portMax a | None => True end →
  ∀ p, p ∈ mark r (usedPorts a) → portMin a ≤ p ≤ portMax a.
Proof.
  intros Ha Hr i. destruct r as [p|]; simpl; [|apply Ha].
  intros [->%elem_of_singleton|Hi]%elem_of_union; [done|by apply Ha].
Qed.

Lemma takeIP_ok a r a' : ipam_ok a → takeIP a = (r, a') → ipam_ok a'.
Proof.
  intros Ha E. destruct (takeIP_spec a r a' Ha E) as (q & -> & Hq & Hr).
  apply set_ips_ok; [done|done|]. apply mark_ips_ok; [done|]. destruct r; [apply Hr|done].
Qed.

Lemma takePort_ok a r a' : ipam_ok a → takePort a = (r, a') → ipam_ok a'.
Proof.
  intros Ha E. destruct (takePort_spec a r a' Ha E) as (q & -> & Hq & Hr).
  apply set_ports_ok; [done|done|]. apply mark_ports_ok; [done|]. destruct r; [apply Hr|done].
Qed.

(** ** What the methods do *)

(** The fixed part of an allocator. *)
Definition same_pools (a a' : ipam) : Prop :=
  prefix a' = prefix a ∧ first a' = first a ∧ last a' = last a ∧ gatewayIP a' = gatewayIP a ∧
  gatewayMAC a' = gatewayMAC a ∧ portMin a' = portMin a ∧ portMax a' = portMax a.

(** The outcomes of [allocate]. *)
Inductive allocate_step (a : ipam) : (ipam_error + vmNet) → ipam → Prop :=
| alloc_granted ip port a' :
    first a ≤ ip ≤ last a → (ip ∉ usedIPs a) →
    portMin a ≤ port ≤ portMax a → (port ∉ usedPorts a) →
    usedIPs a' = {[ip]} ∪ usedIPs a → usedPorts a' = {[port]} ∪ usedPorts a →
    same_pools a a' → ipam_ok a' →
    allocate_step a
      (inr (mkVmNet (Some ip) (deterministicMAC ip) port (gatewayIP a) (gatewayMAC a) (prefix a))) a'
| alloc_no_address a' :
    (∀ ip, first a ≤ ip ≤ last a → ip ∈ usedIPs a) →
    usedIPs a' = usedIPs a → usedPorts a' = usedPorts a → same_pools a a' → ipam_ok a' →
    allocate_step a (inl AddressesExhausted) a'
| alloc_no_port a' :
    (∀ p, portMin a ≤ p ≤ portMax a → p ∈ usedPorts a) →
    usedIPs a' = usedIPs a → usedPorts a' = usedPorts a → same_pools a a' → ipam_ok a' →
    allocate_step a (inl PortsExhausted) a'.

Lemma allocate_spec a : ipam_ok a → allocate_step a (fst (allocate a)) (snd (allocate a)).
Proof.
  intros Ha. unfold allocate. destruct (takeIP a) as [[ip|] a1] eqn:E1.
  - pose proof (takeIP_ok _ _ _ Ha E1) as Ha1.
    destruct (takeIP_spec _ _ _ Ha E1) as (q & -> & Hq & Hip & Hfree).
    destruct (takePort _) as [[port|] a2] eqn:E2;
      pose proof (takePort_ok _ _ _ Ha1 E2) as Ha2;
      destruct (takePort_spec _ _ _ Ha1 E2) as (q2 & -> & Hq2 & Hp); simpl in *.
    + destruct Hp as [Hp Hpf]. by apply alloc_granted.
    + apply alloc_no_port; simpl; try done; [set_solver|].
      apply set_ips_ok; simpl; [done|done|]. intros i Hi. apply Ha. set_solver.
  - pose proof (takeIP_ok _ _ _ Ha E1) as Ha1.
    destruct (takeIP_spec _ _ _ Ha E1) as (q & -> & Hq & Hall). by apply alloc_no_address.
Qed.

Lemma release_spec n a :
  usedIPs (release n a) = match vn_ip n with Some v4 => usedIPs a ∖ {[v4]} | None => usedIPs a end ∧
  usedPorts (release n a) = (if decide (vn_port n = 0) then usedPorts a
                             else usedPorts a ∖ {[vn_port n]}) ∧
  same_pools a (release n a).
Proof.
  unfold release. destruct (vn_ip n), (Z.eqb_spec (vn_port n) 0), (decide (vn_port n = 0)); done.
Qed.

Lemma release_ok n a : ipam_ok a → ipam_ok (release n a).
Proof.
  intros [H1 H2 H3 H4 H5 H6]. unfold release.
  destruct (vn_ip n), (Z.eqb_spec (vn_port n) 0); split; simpl; try done;
    intros i Hi; (apply H5 || apply H6); set_solver.
Qed.

(** ** Runs: leases and the allocator *)

(** The allocator with the leases it has granted and not taken back. *)
Inductive lease_step : ipam * list vmNet → ipam * list vmNet → Prop :=
| lease_grant a live n a' :
    allocate a = (inr n, a') → lease_step (a, live) (a', n :: live)
| lease_refuse a live e a' :
    allocate a = (inl e, a') → lease_step (a, live) (a', live)
| lease_release a live live' n :
    live ≡ₚ n :: live' → lease_step (a, live) (release n a, live').

Definition lease_ips (live : list vmNet) : list Z := omap vn_ip live.

(** Abstractly the allocator is the set of leases: what is in use is what is
    leased, each address and port at most once. *)
Record leases_ok (a : ipam) (live : list vmNet) : Prop := {
  lo_ipam : ipam_ok a;
  lo_shape : Forall (λ n, is_Some (vn_ip n) ∧ (∀ ip, vn_ip n = Some ip →
               first a ≤ ip ≤ last a ∧ ip ≠ gatewayIP a ∧ vn_mac n = deterministicMAC ip) ∧
               portMin a ≤ vn_port n ≤ portMax a) live;
  lo_ips : usedIPs a = {[gatewayIP a]} ∪ list_to_set (lease_ips live);
  lo_ports : usedPorts a = list_to_set (map vn_port live);
  lo_ips_nodup : NoDup (lease_ips live);
  lo_ports_nodup : NoDup (map vn_port live)
}.

Lemma lease_ips_cons n live ip :
  vn_ip n = Some ip → lease_ips (n :: live) = ip :: lease_ips live.
Proof. intros E. unfold lease_ips. cbn. by rewrite E. Qed.

Lemma leases_permute a live live' : live ≡ₚ live' → leases_ok a live → leases_ok a live'.
Proof.
  intros Hp [H1 H2 H3 H4 H5 H6].
  assert (lease_ips live ≡ₚ lease_ips live') as Hi by (unfold lease_ips; by rewrite Hp).
  assert (map vn_port live ≡ₚ map vn_port live') as Hq by (by apply Permutation_map).
  split; [done|by rewrite <- Hp| | |by rewrite <- Hi|by rewrite <- Hq].
  - rewrite H3. apply set_eq. intros x. by rewrite !elem_of_union, !elem_of_list_to_set, Hi.
  - rewrite H4. apply set_eq. intros x. by rewrite !elem_of_list_to_set, Hq.
Qed.

(** The pools being the same, what holds of the leases still does. *)
Lemma lease_shape_pools a a' live :
  same_pools a a' →
  Forall (λ n, is_Some (vn_ip n) ∧ (∀ ip, vn_ip n = Some ip →
    first a ≤ ip ≤ last a ∧ ip ≠ gatewayIP a ∧ vn_mac n = deterministicMAC ip) ∧
    portMin a ≤ vn_port n ≤ portMax a) live →
  Forall (λ n, is_Some (vn_ip n) ∧ (∀ ip, vn_ip n = Some ip →
    first a' ≤ ip ≤ last a' ∧ ip ≠ gatewayIP a' ∧ vn_mac n = deterministicMAC ip) ∧
    portMin a' ≤ vn_port n ≤ portMax a') live.
Proof. intros (_ & -> & -> & -> & _ & -> & ->). done. Qed.

Lemma leases_grant a live ip port a' :
  leases_ok a live → first a ≤ ip ≤ last a → (ip ∉ usedIPs a) →
  portMin a ≤ port ≤ portMax a → (port ∉ usedPorts a) →
  usedIPs a' = {[ip]} ∪ usedIPs a → usedPorts a' = {[port]} ∪ usedPorts a →
  same_pools a a' → ipam_ok a' →
  leases_ok a' (mkVmNet (Some ip) (deterministicMAC ip) port (gatewayIP a) (gatewayMAC a) (prefix a)
                :: live).
Proof.
  intros [H1 H2 H3 H4 H5 H6] Hip Hif Hp Hpf Eu Eup Hs Ha'.
  pose proof Hs as (_ & _ & _ & Eg & _). rewrite H3 in Hif. rewrite H4 in Hpf.
  split; [done| | | | |].
  - apply (lease_shape_pools a a'); [done|]. constructor; [|done]. simpl.
    split_and!; [done| |lia|lia]. intros ? [= <-]. split_and!; [lia|lia|set_solver|done].
  - rewrite (lease_ips_cons _ _ ip) by done. rewrite Eu, H3, Eg. set_solver.
  - rewrite Eup, H4. set_solver.
  - rewrite (lease_ips_cons _ _ ip) by done. constructor; [set_solver|done].
  - simpl. constructor; [set_solver|done].
Qed.

Lemma leases_release a n live :
  leases_ok a (n :: live) → leases_ok (release n a) live.
Proof.
  intros [H1 H2 H3 H4 H5 H6]. destruct (release_spec n a) as (Ei & Ep & Hs).
  pose proof Hs as (_ & _ & _ & Eg & _).
  apply Forall_cons_1 in H2 as [([ip Hip] & Hr & Hp) H2]. destruct (Hr ip Hip) as (_ & Hg & _).
  rewrite (lease_ips_cons _ _ ip) in H3, H5 by done. cbn [map] in H4, H6.
  apply NoDup_cons in H5 as [H5 H5']. apply NoDup_cons in H6 as [H6 H6'].
  rewrite Hip in Ei. pose proof (io_ports _ H1).
  split; [by apply release_ok|by eapply lease_shape_pools| | |done|done].
  - rewrite Ei, H3, Eg. set_solver.
  - rewrite Ep, decide_False, H4 by lia. set_solver.
Qed.

Lemma lease_step_ok s s' :
  lease_step s s' → leases_ok (fst s) (snd s) → leases_ok (fst s') (snd s').
Proof.
  intros Hstep Hok. destruct Hstep as [a live n a' E|a live e a' E|a live live' n Hp]; simpl in *.
  - pose proof (allocate_spec a (lo_ipam _ _ Hok)) as Hs. rewrite E in Hs. simpl in Hs.
    inversion Hs; subst. by eapply leases_grant.
  - pose proof (allocate_spec a (lo_ipam _ _ Hok)) as Hs. rewrite E in Hs. simpl in Hs.
    destruct Hok as [H1 H2 H3 H4 H5 H6].
    inversion Hs as [|? _ Eu Eup Hsp|? _ Eu Eup Hsp]; subst;
      pose proof Hsp as (_ & _ & _ & Eg & _);
      (split; [done|by eapply lease_shape_pools|by rewrite Eu, Eg|by rewrite Eup|done|done]).
  - apply leases_release. by eapply leases_permute.
Qed.

Lemma leases_run s s' :
  rtc lease_step s s' → leases_ok (fst s) (snd s) → leases_ok (fst s') (snd s').
Proof. induction 1 as [|s1 s2 s3 Hs _ IH]; [done|]. intros Hok. apply IH. by eapply lease_step_ok. Qed.

(** C15: Leases never collide: in every run of grants, refusals and releases, the guests
    that hold a lease have pairwise distinct addresses of the subnet, none of them the
    gateway's, and pairwise distinct host ports of the configured range; and what the
    allocator counts as in use is exactly what is leased (and the gateway).  As for every
    theorem about the allocator, its range must not end at 255.255.255.255 ([ipam_ok]). *)
Theorem leases_never_collide a a' live' :
  ipam_ok a → usedIPs a = {[gatewayIP a]} → usedPorts a = ∅ →
  rtc lease_step (a, []) (a', live') → leases_ok a' live'.
Proof.
  intros Ha Hi Hp Hr.
  apply (leases_run (a, []) (a', live') Hr).
  split; simpl; [done|constructor| |done|constructor|constructor].
  rewrite Hi. unfold lease_ips. set_solver.
Qed.

(** C16: [allocate] succeeds exactly when it can: it fails for addresses only when every
    address of the subnet is in use, and for ports only when every host port is; a
    failed call leaves the addresses and ports in use as they were (the address taken
    before the port is given back); a granted lease is new in both pools.  The range must
    not end at 255.255.255.255, where the scan for an address wraps ([ipam_ok]). *)
Theorem allocate_complete a :
  ipam_ok a → allocate_step a (fst (allocate a)) (snd (allocate a)).
Proof. apply allocate_spec. Qed.

(** [release] undoes [allocate]: after a lease is granted and released, the
    addresses and the ports in use are what they were. *)
Lemma release_undoes_allocate a n a' :
  ipam_ok a → allocate a = (inr n, a') →
  usedIPs (release n a') = usedIPs a ∧ usedPorts (release n a') = usedPorts a ∧
  same_pools a (release n a') ∧ ipam_ok (release n a').
Proof.
  intros Ha E. pose proof (allocate_spec a Ha) as Hs. rewrite E in Hs. simpl in Hs.
  inversion Hs as [ip port ? Hip Hif Hp Hpf Eu Eup Hsp Ha'| |]; subst.
  pose proof (io_ports _ Ha). match goal with |- context [release ?m a'] =>
    destruct (release_spec m a') as (Ei & Ep & Hsp'); pose proof (release_ok m a' Ha') end.
  rewrite Ei, Ep. simpl. rewrite decide_False, Eu, Eup by lia.
  split_and!; [set_solver|set_solver| |done].
  destruct Hsp as (?&?&?&?&?&?&?), Hsp' as (?&?&?&?&?&?&?). split_and!; congruence.
Qed.

(** Guest MACs are usable and unique: [deterministicMAC] gives six bytes whose
    first has the locally-administered bit set and the multicast bit clear, and
    different addresses get different MACs. *)
Theorem deterministicMAC_unique ip ip' :
  0 ≤ ip < 2 ^ 32 → 0 ≤ ip' < 2 ^ 32 →
  zlen (deterministicMAC ip) = 6 ∧ bytes_ok (deterministicMAC ip) ∧
  Z.testbit (load 1 0 (deterministicMAC ip)) 1 = true ∧
  Z.testbit (load 1 0 (deterministicMAC ip)) 0 = false ∧
  (deterministicMAC ip = deterministicMAC ip' → ip = ip').
Proof.
  intros H H'. split_and!; [done| |done|done|].
  - repeat constructor; unfold byte_ok; try lia; apply Z.mod_pos_bound; lia.
  - unfold deterministicMAC, be_bytes4. intros E. apply app_inv_head in E.
    apply rev_inj, (f_equal le_val) in E. rewrite !le_val_le_bytes in E.
    by rewrite !Z.mod_small in E.
Qed.

(** ** Building an allocator *)

Lemma mask32_shift ones :
  0 ≤ ones ≤ 32 → mask32 ones = Z.shiftl (Z.ones ones) (32 - ones).
Proof.
  intros H. unfold mask32. rewrite Z.shiftl_mul_pow2, Z.ones_equiv by lia.
  rewrite <- Z.sub_1_r, Z.mul_sub_distr_r, <- Z.pow_add_r by lia.
  replace (ones + (32 - ones)) with 32 by lia. lia.
Qed.

(** Masking rounds down to a multiple of the subnet size. *)
Lemma land_mask32 v ones :
  0 ≤ ones ≤ 32 → 0 ≤ v < 2 ^ 32 →
  Z.land v (mask32 ones) = v / 2 ^ (32 - ones) * 2 ^ (32 - ones).
Proof.
  intros Ho Hv. rewrite mask32_shift by done. set (k := 32 - ones).
  assert (Z.land v (Z.shiftl (Z.ones ones) k) = Z.shiftl (Z.land (Z.shiftr v k) (Z.ones ones)) k) as ->.
  { apply Z.bits_inj'. intros n Hn. rewrite Z.land_spec, !Z.shiftl_spec by lia.
    destruct (decide (n < k)).
    - rewrite !(Z.testbit_neg_r _ (n - k)) by lia. by rewrite andb_false_r.
    - rewrite Z.land_spec, Z.shiftr_spec by lia. do 2 f_equal. lia. }
  rewrite Z.land_ones, Z.shiftr_div_pow2, Z.shiftl_mul_pow2 by lia.
  rewrite Z.mod_small; [done|]. split; [apply Z.div_pos; lia|].
  apply Z.div_lt_upper_bound; [lia|]. rewrite <- Z.pow_add_r by lia.
  replace (k + ones) with 32 by lia. lia.
Qed.

Lemma shiftr_ones32 ones : 0 ≤ ones ≤ 32 → Z.shiftr 0xffffffff ones = 2 ^ (32 - ones) - 1.
Proof.
  intros H. change 0xffffffff with (Z.ones 32). rewrite Z.shiftr_div_pow2, Z.ones_div_pow2 by lia.
  rewrite Z.ones_equiv. lia.
Qed.

(** The last address is the first plus the size of the subnet. *)
Lemma lor_hosts m k : 0 ≤ k → Z.lor (m * 2 ^ k) (2 ^ k - 1) = m * 2 ^ k + (2 ^ k - 1).
Proof.
  intros Hk. assert (Z.land (m * 2 ^ k) (2 ^ k - 1) = 0) as H0.
  { replace (2 ^ k - 1) with (Z.ones k) by (rewrite Z.ones_equiv; lia).
    rewrite Z.land_ones by done. apply Z.mod_mul. lia. }
  rewrite Z.add_nocarry_lxor by done. symmetry. by apply Z.lxor_lor.
Qed.

Lemma mask_size_some m ones : mask_size m = Some ones → 0 ≤ ones ≤ 32 ∧ m = mask32 ones.
Proof.
  unfold mask_size. intros [Hin E]%find_some. bool_prop. split; [|done].
  apply list_elem_of_In, elem_of_seqZ in Hin. lia.
Qed.

(** The addresses of a subnet a guest may get. *)
Definition assignable (v4 ones ip : Z) : Prop :=
  ip / 2 ^ (32 - ones) = v4 / 2 ^ (32 - ones) ∧
  (ones < 31 → ip mod 2 ^ (32 - ones) ≠ 0 ∧ ip mod 2 ^ (32 - ones) ≠ 2 ^ (32 - ones) - 1).

Lemma newIPAM_range v4 ones first' last' ip :
  0 ≤ ones ≤ 32 → 0 ≤ v4 < 2 ^ 32 → 0 ≤ ip < 2 ^ 32 →
  let net := Z.land v4 (mask32 ones) in
  let top := Z.lor net (Z.shiftr 0xffffffff ones) in
  first' = (if ones <? 31 then wrap 32 (net + 1) else net) →
  last' = (if ones <? 31 then wrap 32 (top - 1) else top) →
  0 ≤ first' ∧ last' < 2 ^ 32 ∧ (ones < 31 → last' < 2 ^ 32 - 1) ∧
  (first' ≤ ip ≤ last' ↔ assignable v4 ones ip).
Proof.
  intros Ho Hv Hip net top Ef El. unfold assignable.
  assert (net = v4 / 2 ^ (32 - ones) * 2 ^ (32 - ones)) as En by (by apply land_mask32).
  assert (top = net + (2 ^ (32 - ones) - 1)) as Et.
  { unfold top. rewrite En, shiftr_ones32 by done. apply lor_hosts. lia. }
  set (s := 2 ^ (32 - ones)) in *. set (q := v4 / s) in *.
  assert (0 < s) by (apply Z.pow_pos_nonneg; lia).
  assert (0 ≤ q) by (apply Z.div_pos; lia).
  assert (q * s + s ≤ 2 ^ 32) as Hq.
  { assert (2 ^ 32 = 2 ^ ones * s) as E32 by (unfold s; rewrite <- Z.pow_add_r by lia; f_equal; lia).
    assert (q < 2 ^ ones) by (apply Z.div_lt_upper_bound; lia). rewrite E32. nia. }
  pose proof (Z.div_mod ip s ltac:(lia)) as Hdm. pose proof (Z.mod_pos_bound ip s ltac:(lia)) as Hmb.
  destruct (Z.ltb_spec ones 31) as [H31|H31].
  - assert (4 ≤ s) by (change 4 with (2 ^ 2); apply Z.pow_le_mono_r; lia).
    unfold wrap in Ef, El. rewrite Z.mod_small in Ef, El by lia. rewrite En in *.
    split_and!; [lia..|]. split; [|nia]. intros Hr.
    assert (ip / s = q) as <- by (symmetry; apply Z.div_unique with (r := ip - q * s); lia).
    split; [done|]. lia.
  - split_and!; [lia..|]. split.
    + intros Hr. split; [symmetry; apply Z.div_unique with (r := ip - q * s); lia|lia].
    + intros [E _]. rewrite E in Hdm. lia.
Qed.

Lemma newIPAM_fresh subnet v4 gw mac pmin pmax a :
  sn_ip subnet = Some v4 → 0 ≤ v4 < 2 ^ 32 → 0 ≤ pmin → pmax < 2 ^ 16 →
  newIPAM subnet (Some gw) mac pmin pmax = inr a →
  (∀ ip, 0 ≤ ip < 2 ^ 32 → first a ≤ ip ≤ last a ↔ assignable v4 (prefix a) ip) ∧
  usedIPs a = {[gatewayIP a]} ∧ usedPorts a = ∅ ∧ gatewayIP a = gw ∧ gatewayMAC a = mac ∧
  zlen mac = 6 ∧ sn_mask subnet = mask32 (prefix a) ∧ (last a ≠ 2 ^ 32 - 1 → ipam_ok a).
Proof.
  intros Hs Hv Hpm Hpx. unfold newIPAM. rewrite Hs.
  destruct (contains _ _ _); cbn [negb]; [|discriminate].
  destruct (Z.eqb_spec (zlen mac) 6); cbn [negb]; [|discriminate].
  destruct ((pmin =? 0) || (pmax <? pmin)) eqn:Ep; [discriminate|].
  destruct (mask_size _) as [ones|] eqn:Em; [|discriminate].
  apply mask_size_some in Em as [Ho ->]. cbv zeta.
  set (l := if ones <? 31 then _ else _). set (f := if ones <? 31 then _ else _).
  destruct (l <? f) eqn:Elf; [discriminate|]. intros [= <-]. simpl. bool_prop.
  pose proof (λ ip Hip, newIPAM_range v4 ones f l ip Ho Hv Hip eq_refl eq_refl) as Hr.
  destruct (Hr 0 ltac:(lia)) as (Hf & Hl & _).
  split_and!; try done.
  - intros ip Hip. by apply Hr.
  - intros Hne. split; simpl; try lia; [|set_solver]. intros i ->%elem_of_singleton. by left.
Qed.

(** A new allocator covers its subnet: its range is exactly the addresses of the
    subnet, without the network and broadcast addresses (kept for /31 and /32), the
    gateway is reserved, no port is in use, and it satisfies the invariant unless the
    range ends at 255.255.255.255. *)
Theorem newIPAM_correct subnet v4 gw mac pmin pmax a :
  sn_ip subnet = Some v4 → 0 ≤ v4 < 2 ^ 32 → 0 ≤ pmin → pmax < 2 ^ 16 →
  newIPAM subnet (Some gw) mac pmin pmax = inr a →
  (∀ ip, 0 ≤ ip < 2 ^ 32 → first a ≤ ip ≤ last a ↔ assignable v4 (prefix a) ip) ∧
  usedIPs a = {[gatewayIP a]} ∧ usedPorts a = ∅ ∧ gatewayIP a = gw ∧
  sn_mask subnet = mask32 (prefix a) ∧ (last a ≠ 2 ^ 32 - 1 → ipam_ok a).
Proof.
  intros Hs Hv Hp Hx E.
  by destruct (newIPAM_fresh subnet v4 gw mac pmin pmax a) as (? & ? & ? & ? & _ & _ & ? & ?).
Qed.

(** *** The top of the address space *)

(** 255.255.255.254/31, the gateway being its first address. *)
Definition top_subnet : IPNet := mkIPNet (Some 0xfffffffe) 0xfffffffe.

(** A free port at the scan position is taken. *)
Lemma takePort_free a :
  (nextPort a ∉ usedPorts a) → portMin a ≤ portMax a →
  takePort a = (Some (nextPort a),
                set_ports ({[nextPort a]} ∪ usedPorts a) (advancePort a (nextPort a)) a).
Proof.
  intros Hu Hp. unfold takePort. replace (Z.to_nat _) with (S (Z.to_nat (portMax a - portMin a))) by lia.
  cbn [scanPort]. by rewrite decide_False.
Qed.

(** In a subnet that ends at 255.255.255.255 the scan position of [takeIP] wraps
    past the range: with 255.255.255.254/31 and its first address as the gateway, the
    first guest gets 255.255.255.255 and the second gets 0.0.0.0, which is not an
    address of the subnet. *)
Theorem top_of_space_wraps mac pmin pmax :
  zlen mac = 6 → 0 < pmin < pmax → pmax < 2 ^ 16 →
  ∃ a n1 n2, newIPAM top_subnet (Some 0xfffffffe) mac pmin pmax = inr a ∧
    fst (allocate a) = inr n1 ∧ vn_ip n1 = Some 0xffffffff ∧
    fst (allocate (snd (allocate a))) = inr n2 ∧ vn_ip n2 = Some 0 ∧
    ¬ assignable 0xfffffffe (prefix a) 0.
Proof.
  intros Hm Hp Hx.
  set (a := mkIpam 31 0xfffffffe 0xffffffff 0xfffffffe mac {[0xfffffffe]} 0xfffffffe pmin pmax ∅ pmin).
  assert (newIPAM top_subnet (Some 0xfffffffe) mac pmin pmax = inr a) as Ea.
  { unfold newIPAM. rewrite Hm. simpl. destruct (Z.eqb_spec pmin 0), (Z.ltb_spec pmax pmin); [lia..|done]. }
  set (u := mkIpam 31 0xfffffffe 0xffffffff 0xfffffffe mac {[0xffffffff; 0xfffffffe]} 0 pmin pmax ∅ pmin).
  assert (takeIP a = (Some 0xffffffff, u)) as E1 by reflexivity.
  assert (takePort u = (Some pmin, set_ports ({[pmin]} ∪ ∅) (advancePort u pmin) u)) as E2.
  { apply (takePort_free u); [apply not_elem_of_empty|cbn; lia]. }
  assert (advancePort u pmin = pmin + 1) as E3.
  { unfold advancePort. simpl. destruct (Z.eqb_spec pmin pmax); [lia|]. apply Z.mod_small. lia. }
  rewrite E3 in E2.
  set (u1 := set_ports ({[pmin]} ∪ ∅) (pmin + 1) u) in *.
  set (u2 := mkIpam 31 0xfffffffe 0xffffffff 0xfffffffe mac ({[0]} ∪ {[0xffffffff; 0xfffffffe]}) 1
               pmin pmax ({[pmin]} ∪ ∅) (pmin + 1)).
  assert (takeIP u1 = (Some 0, u2)) as E4 by reflexivity.
  eexists a, _, _. split; [done|]. unfold allocate at 1 3. rewrite E1, E2.
  split; [done|]. split; [done|]. cbn [snd]. unfold allocate. rewrite E4.
  rewrite (takePort_free u2); [|change (pmin + 1 ∉ ({[pmin]} ∪ ∅ : gset Z))|cbn; lia];
    [|rewrite elem_of_union, elem_of_singleton, elem_of_empty; lia].
  split; [done|]. split; [done|]. intros [H _]. vm_compute in H. discriminate.
Qed.

(** ** Witnesses *)

(** 10.222.0.0/29, the gateway at .1, host ports 30000 to 30002. *)
Definition sample_subnet : IPNet := mkIPNet (Some 0x0ade0000) 0xfffffff8.
Definition sample_mac : list Z := [2; 0; 10; 222; 0; 1].
Definition sample_ipam : ipam :=
  mkIpam 29 0x0ade0001 0x0ade0006 0x0ade0001 sample_mac {[0x0ade0001]} 0x0ade0001 30000 30002 ∅ 30000.
Definition sample_after : ipam := snd (allocate sample_ipam).
Definition sample_lease : vmNet :=
  mkVmNet (Some 0x0ade0002) (deterministicMAC 0x0ade0002) 30000 0x0ade0001 sample_mac 29.

Lemma sample_ipam_ok : ipam_ok sample_ipam.
Proof. split; simpl; try lia; [|set_solver]. intros i ->%elem_of_singleton. by left. Qed.

Lemma sample_granted : allocate sample_ipam = (inr sample_lease, sample_after).
Proof. reflexivity. Qed.

Lemma leases_never_collide_witness : leases_ok sample_after [sample_lease].
Proof.
  apply (leases_never_collide sample_ipam sample_after [sample_lease] sample_ipam_ok);
    [reflexivity|reflexivity|].
  apply rtc_once. apply lease_grant. exact sample_granted.
Defined.

Lemma allocate_complete_witness :
  allocate_step sample_ipam (fst (allocate sample_ipam)) (snd (allocate sample_ipam)).
Proof. exact (allocate_complete sample_ipam sample_ipam_ok). Defined.

Lemma deterministicMAC_unique_witness :
  zlen (deterministicMAC 0x0ade0002) = 6 ∧ bytes_ok (deterministicMAC 0x0ade0002) ∧
  Z.testbit (load 1 0 (deterministicMAC 0x0ade0002)) 1 = true ∧
  Z.testbit (load 1 0 (deterministicMAC 0x0ade0002)) 0 = false ∧
  (deterministicMAC 0x0ade0002 = deterministicMAC 0x0ade0003 → 0x0ade0002 = 0x0ade0003).
Proof. apply (deterministicMAC_unique 0x0ade0002 0x0ade0003); lia. Defined.

Lemma newIPAM_correct_witness :
  (∀ ip, 0 ≤ ip < 2 ^ 32 → first sample_ipam ≤ ip ≤ last sample_ipam ↔
         assignable 0x0ade0000 (prefix sample_ipam) ip) ∧
  usedIPs sample_ipam = {[gatewayIP sample_ipam]} ∧ usedPorts sample_ipam = ∅ ∧
  gatewayIP sample_ipam = 0x0ade0001 ∧ sn_mask sample_subnet = mask32 (prefix sample_ipam) ∧
  (last sample_ipam ≠ 2 ^ 32 - 1 → ipam_ok sample_ipam).
Proof.
  apply (newIPAM_correct sample_subnet 0x0ade0000 0x0ade0001 sample_mac 30000 30002 sample_ipam);
    [reflexivity|lia|lia|lia|reflexivity].
Defined.

Lemma top_of_space_wraps_witness :
  ∃ a n1 n2, newIPAM top_subnet (Some 0xfffffffe) sample_mac 30000 30002 = inr a ∧
    fst (allocate a) = inr n1 ∧ vn_ip n1 = Some 0xffffffff ∧
    fst (allocate (snd (allocate a))) = inr n2 ∧ vn_ip n2 = Some 0 ∧
    ¬ assignable 0xfffffffe (prefix a) 0.
Proof. apply (top_of_space_wraps sample_mac 30000 30002); [reflexivity|lia|lia]. Defined.
