(* ===== verification/Publish.v ===== *)
(** * Publishing guests

    The management side of the dataplane, [nat_linux.go]: [newDataplane], [publishVM],
    [withdrawVM] and [vmStats].  It writes the entries the BPF programs read, as byte
    images of Go structures ([be16], [macArray]); the programs see them through the C
    layouts of [NatTypes].  The calls of the [cilium/ebpf] and [net] libraries are the
    class [EbpfLibrary]. *)
From S2P Require Import Prelude CLayout NatTypes Ipam.
From stdpp Require Import gmultiset strings.
#[local] Open Scope Z_scope.

(** ** The libraries *)

(** Links are known by the interface they attach a program to.  A call that returns
    an error returns [None]; the error of [Delete] and [Close] is always ignored. *)
Class EbpfLibrary := {
  InterfaceByName : string → option Z;
  AttachTCX : gmultiset Z → Z → option (gmultiset Z);
  Close : gmultiset Z → Z → gmultiset Z;
  VmConfig_Put : gmap Z vm_entry → Z → vm_entry → option (gmap Z vm_entry);
  VmConfig_Delete : gmap Z vm_entry → Z → gmap Z vm_entry;
  DnatRules_Put : gmap dnat_key dnat_val → dnat_key → dnat_val → option (gmap dnat_key dnat_val);
  DnatRules_Delete : gmap dnat_key dnat_val → dnat_key → gmap dnat_key dnat_val;
  GlobalConfigMap_Put :
    gmap Z global_config → Z → global_config → option (gmap Z global_config);
  LoadNatObjects : bool;
  NewReader : bool
}.

(** What a call that succeeds has done, and that a [Delete], failing or not, touches no
    other key. *)
Class EbpfCalls (L : EbpfLibrary) : Prop := {
  ifindex_range name i : InterfaceByName name = Some i → 0 < i < 2 ^ 31;
  attach_spec att i att' : AttachTCX att i = Some att' → att' = {[+ i +]} ⊎ att;
  vm_put_spec m k v m' : VmConfig_Put m k v = Some m' → m' = <[k := v]> m;
  vm_delete_frame m k k' : k' ≠ k → VmConfig_Delete m k !! k' = m !! k';
  dnat_put_spec m k v m' : DnatRules_Put m k v = Some m' → m' = <[k := v]> m;
  config_put_spec m k v m' : GlobalConfigMap_Put m k v = Some m' → m' = <[k := v]> m
}.

(** The calls whose errors the code ignores do not fail either: a link that is open can
    be closed, and an entry can be deleted. *)
Class EbpfLibraryLaws (L : EbpfLibrary) : Prop := {
  library_calls :: EbpfCalls L;
  close_spec att i : Close ({[+ i +]} ⊎ att) i = att;
  vm_delete_spec m k : VmConfig_Delete m k = delete k m;
  dnat_delete_spec m k : DnatRules_Delete m k = delete k m
}.

(** ** The byte images *)

Definition be16 (v : Z) : list Z := [v / 256 mod 256; v mod 256].

(** [copy(a[:], m)] into six zero bytes. *)
Definition macArray (m : list Z) : list Z := take 6 (m ++ replicate 6 0).

(** [copy(b[:], ip.To4())] into four zero bytes. *)
Definition ip4 (ip : option Z) : list Z :=
  match ip with Some v => be_bytes4 v | None => [0; 0; 0; 0] end.

Definition marshal_vm_entry (ip : option Z) (ifindex : Z) (mac : list Z) : list Z :=
  ip4 ip ++ le_bytes 4 (wrap 32 ifindex) ++ macArray mac ++ [0; 0].

Definition marshal_dnat_key (host : Z) (port : Z) : list Z :=
  be_bytes4 host ++ be16 port ++ [IPPROTO_TCP] ++ [0].

Definition marshal_dnat_val (ip : option Z) (ifindex port : Z) (mac : list Z) : list Z :=
  ip4 ip ++ le_bytes 4 (wrap 32 ifindex) ++ be16 port ++ macArray mac.

Definition marshal_global_config (host ifindex gw : Z) (mac : list Z) (egress ingress : Z)
  : list Z :=
  be_bytes4 host ++ le_bytes 4 (wrap 32 ifindex) ++ be_bytes4 gw ++ macArray mac ++
  [egress] ++ [ingress].

(** What the programs read at the C members of those bytes. *)
Definition vm_entry_at (b : list Z) : vm_entry :=
  mkVmEntry (load 4 (offsetof vm_entry_decl [Fld "vm_ip"]) b)
            (load 4 (offsetof vm_entry_decl [Fld "tap_ifindex"]) b)
            (slice (offsetof vm_entry_decl [Fld "vm_mac"]) 6 b).

Definition dnat_key_at (b : list Z) : dnat_key :=
  mkDnatKey (load 4 (offsetof dnat_key_decl [Fld "host_ip"]) b)
            (load 2 (offsetof dnat_key_decl [Fld "host_port"]) b)
            (load 1 (offsetof dnat_key_decl [Fld "proto"]) b)
            (load 1 (offsetof dnat_key_decl [Fld "_pad"]) b).

Definition dnat_val_at (b : list Z) : dnat_val :=
  mkDnatVal (load 4 (offsetof dnat_val_decl [Fld "vm_ip"]) b)
            (load 4 (offsetof dnat_val_decl [Fld "tap_ifindex"]) b)
            (load 2 (offsetof dnat_val_decl [Fld "vm_port"]) b)
            (slice (offsetof dnat_val_decl [Fld "vm_mac"]) 6 b).

Definition global_config_at (b : list Z) : global_config :=
  mkGlobalConfig (load 4 (offsetof global_config_decl [Fld "host_ip"]) b)
                 (load 4 (offsetof global_config_decl [Fld "uplink_ifindex"]) b)
                 (load 4 (offsetof global_config_decl [Fld "gw_ip"]) b)
                 (slice (offsetof global_config_decl [Fld "gw_mac"]) 6 b)
                 (load 1 (offsetof global_config_decl [Fld "default_egress_allow"]) b)
                 (load 1 (offsetof global_config_decl [Fld "default_ingress_allow"]) b).

(** ** State *)

(** The maps are part of the loaded objects; [natTaps] is where [nat_tap] runs. *)
Record natDataplane := mkDataplane {
  hostIP : Z;
  uplink : Z;
  tapLinks : gmap string Z;
  natTaps : gmultiset Z;
  maps : nat_maps
}.

Inductive dataplane_error : Type :=
| NoUplink | NoAddress | LoadFailed | ConfigWrite | AttachUplink | ReaderFailed
| NoTap | AttachTap | VmConfigWrite | DnatWrite.

#[export] Instance dataplane_error_eq_dec : EqDecision dataplane_error.
Proof. solve_decision. Defined.

Definition set_links (t : gmap string Z) (dp : natDataplane) : natDataplane :=
  mkDataplane (hostIP dp) (uplink dp) t (natTaps dp) (maps dp).

Definition set_taps (t : gmultiset Z) (dp : natDataplane) : natDataplane :=
  mkDataplane (hostIP dp) (uplink dp) (tapLinks dp) t (maps dp).

Definition set_vms (v : gmap Z vm_entry) (dp : natDataplane) : natDataplane :=
  mkDataplane (hostIP dp) (uplink dp) (tapLinks dp) (natTaps dp)
    (mkNatMaps (global_config_map (maps dp)) v (dnat_rules (maps dp)) (egress_policy (maps dp))
       (ingress_policy (maps dp)) (events (maps dp)) (stats (maps dp))).

Definition set_dnat (r : gmap dnat_key dnat_val) (dp : natDataplane) : natDataplane :=
  mkDataplane (hostIP dp) (uplink dp) (tapLinks dp) (natTaps dp)
    (mkNatMaps (global_config_map (maps dp)) (vm_config (maps dp)) r (egress_policy (maps dp))
       (ingress_policy (maps dp)) (events (maps dp)) (stats (maps dp))).

(** ** Operations *)

Section operations.
Context `{L : !EbpfLibrary}.

(** [host] is what [primaryIPv4] finds on the uplink; the collection is loaded with
    empty maps.  On an error the loaded objects are closed again, so only the error
    remains. *)
Definition newDataplane (uplinkName : string) (host : option Z) (gw : Z) (gwMAC : list Z)
  : dataplane_error + natDataplane :=
  match InterfaceByName uplinkName with
  | None => inl NoUplink
  | Some index =>
  match host with
  | None => inl NoAddress
  | Some host =>
      if negb LoadNatObjects then inl LoadFailed else
      let gc := global_config_at (marshal_global_config host index gw gwMAC 1 1) in
      match GlobalConfigMap_Put ∅ 0 gc with
      | None => inl ConfigWrite
      | Some configs =>
      match AttachTCX ∅ index with
      | None => inl AttachUplink
      | Some _ =>
          if negb NewReader then inl ReaderFailed else
          inr (mkDataplane host index ∅ ∅ (mkNatMaps configs ∅ ∅ ∅ ∅ [] ∅))
      end
      end
  end
  end.

(** *** The accesses to the shared state *)

Definition attach_tap (index : Z) (dp : natDataplane) : option natDataplane :=
  match AttachTCX (natTaps dp) index with
  | Some att => Some (set_taps att dp)
  | None => None
  end.

(** The key of [vm_config] for a lease. *)
Definition vm_key (n : vmNet) : Z := le_val (ip4 (vn_ip n)).

Definition put_vm (n : vmNet) (index : Z) (dp : natDataplane) : option natDataplane :=
  let vm := vm_entry_at (marshal_vm_entry (vn_ip n) index (vn_mac n)) in
  match VmConfig_Put (vm_config (maps dp)) (vm_key n) vm with
  | Some vms => Some (set_vms vms dp)
  | None => None
  end.

Definition put_rule (n : vmNet) (index vmServicePort : Z) (dp : natDataplane) : option natDataplane :=
  let dk := dnat_key_at (marshal_dnat_key (hostIP dp) (vn_port n)) in
  let dv := dnat_val_at (marshal_dnat_val (vn_ip n) index vmServicePort (vn_mac n)) in
  match DnatRules_Put (dnat_rules (maps dp)) dk dv with
  | Some rules => Some (set_dnat rules dp)
  | None => None
  end.

Definition close_link (l : option Z) (dp : natDataplane) : natDataplane :=
  match l with
  | Some index => set_taps (Close (natTaps dp) index) dp
  | None => dp
  end.

Definition delete_vm (key : Z) (dp : natDataplane) : natDataplane :=
  set_vms (VmConfig_Delete (vm_config (maps dp)) key) dp.

Definition delete_rule (n : vmNet) (dp : natDataplane) : natDataplane :=
  let dk := dnat_key_at (marshal_dnat_key (hostIP dp) (vn_port n)) in
  set_dnat (DnatRules_Delete (dnat_rules (maps dp)) dk) dp.

(** What [withdrawVM] does under the mutex. *)
Definition unlink (tapName : string) (dp : natDataplane) : option Z * natDataplane :=
  match tapLinks dp !! tapName with
  | Some l => (Some l, set_links (delete tapName (tapLinks dp)) dp)
  | None => (None, dp)
  end.

Definition withdraw_vm (n : vmNet) (dp : natDataplane) : natDataplane :=
  match vn_ip n with
  | Some v4 => delete_vm (le_val (be_bytes4 v4)) dp
  | None => dp
  end.

(** *** The operations *)

Definition publishVM (tapName : string) (n : vmNet) (vmServicePort : Z) (dp : natDataplane)
  : option dataplane_error * natDataplane :=
  match InterfaceByName tapName with
  | None => (Some NoTap, dp)
  | Some index =>
  match tapLinks dp !! tapName with
  | Some _ => (None, dp)
  | None =>
  match attach_tap index dp with
  | None => (Some AttachTap, dp)
  | Some dp =>
  match put_vm n index dp with
  | None => (Some VmConfigWrite, close_link (Some index) dp)
  | Some dp =>
  match put_rule n index vmServicePort dp with
  | None =>
      let dp := delete_vm (vm_key n) dp in
      (Some DnatWrite, close_link (Some index) dp)
  | Some dp => (None, set_links (<[tapName := index]> (tapLinks dp)) dp)
  end
  end
  end
  end
  end.

Definition withdrawVM (tapName : string) (n : vmNet) (dp : natDataplane) : natDataplane :=
  let (l, dp) := unlink tapName dp in
  let dp := close_link l dp in
  let dp := withdraw_vm n dp in
  delete_rule n dp.

End operations.

(** The loop of [vmStats], over the per-CPU values the lookup returned. *)
Definition add_stats (a b : nat_stats) : nat_stats :=
  mkNatStats (wrap 64 (rx_pkts a + rx_pkts b)) (wrap 64 (rx_bytes a + rx_bytes b))
             (wrap 64 (tx_pkts a + tx_pkts b)) (wrap 64 (tx_bytes a + tx_bytes b))
             (wrap 64 (drops a + drops b)) (wrap 64 (conns a + conns b)).

Definition vmStats (ip : option Z) (lookup : Z → option (list nat_stats)) : option nat_stats :=
  match ip with
  | None => None
  | Some v4 =>
      match lookup (le_val (be_bytes4 v4)) with
      | Some per => Some (fold_left add_stats per nat_stats_zero)
      | None => None
      end
  end.

(** ** What the programs see of what Go writes *)

(** The 32-bit object a program loads from the bytes of an address. *)
Definition net_ip (ip : Z) : Z := le_val (be_bytes4 ip).

Lemma net_ip_bound ip : 0 ≤ net_ip ip < 2 ^ 32.
Proof.
  unfold net_ip. change (2 ^ 32) with (256 ^ zlen (be_bytes4 ip)). apply le_val_bound.
  repeat constructor; apply Z.mod_pos_bound; lia.
Qed.

Lemma net_ip_inj ip ip' : 0 ≤ ip < 2 ^ 32 → 0 ≤ ip' < 2 ^ 32 → net_ip ip = net_ip ip' → ip = ip'.
Proof.
  intros H H' E. unfold net_ip, be_bytes4 in E. apply le_val_inj in E.
  - apply rev_inj, (f_equal le_val) in E. rewrite !le_val_le_bytes in E. by rewrite !Z.mod_small in E.
  - apply Forall_rev, bytes_ok_le_bytes.
  - apply Forall_rev, bytes_ok_le_bytes.
  - done.
Qed.

Lemma be16_htons p : le_val (be16 p) = bpf_htons p.
Proof. unfold be16, bpf_htons, bswap16. simpl. lia. Qed.

Lemma macArray_full mac : zlen mac = 6 → macArray mac = mac.
Proof. intros H. unfold macArray. rewrite take_app_le, take_ge; unfold zlen in H; [done|lia|lia]. Qed.

(** A MAC as six bytes. *)
Lemma mac_six (mac : list Z) : zlen mac = 6 → ∃ a b c d e f, mac = [a; b; c; d; e; f].
Proof.
  unfold zlen. intros H. do 6 (destruct mac as [|? mac]; [simpl in H; lia|]).
  destruct mac; [by eauto 10|simpl in H; lia].
Qed.

Lemma load_ifindex i : 0 ≤ i < 2 ^ 32 → le_val (le_bytes 4 (wrap 32 i)) = i.
Proof. intros H. rewrite le_val_le_bytes. unfold wrap. rewrite (Z.mod_small i) by done. by apply Z.mod_small. Qed.

Lemma vm_entry_marshalled ip i mac :
  zlen mac = 6 → 0 ≤ i < 2 ^ 32 →
  vm_entry_at (marshal_vm_entry (Some ip) i mac) = mkVmEntry (net_ip ip) i mac.
Proof.
  intros Hm Hi. destruct (mac_six mac Hm) as (a & b & c & d & e & f & ->).
  unfold vm_entry_at. f_equal; try reflexivity.
  etransitivity; [|by apply (load_ifindex i)]. reflexivity.
Qed.

Lemma dnat_val_marshalled ip i port mac :
  zlen mac = 6 → 0 ≤ i < 2 ^ 32 →
  dnat_val_at (marshal_dnat_val (Some ip) i port mac) = mkDnatVal (net_ip ip) i (bpf_htons port) mac.
Proof.
  intros Hm Hi. destruct (mac_six mac Hm) as (a & b & c & d & e & f & ->).
  unfold dnat_val_at. f_equal; try reflexivity.
  - etransitivity; [|by apply (load_ifindex i)]. reflexivity.
  - etransitivity; [|apply be16_htons]. reflexivity.
Qed.

Lemma dnat_key_marshalled host port :
  dnat_key_at (marshal_dnat_key host port) = mkDnatKey (net_ip host) (bpf_htons port) IPPROTO_TCP 0.
Proof.
  unfold dnat_key_at. f_equal; try reflexivity. etransitivity; [|apply be16_htons]. reflexivity.
Qed.

Lemma global_config_marshalled host i gw mac :
  zlen mac = 6 → 0 ≤ i < 2 ^ 32 →
  global_config_at (marshal_global_config host i gw mac 1 1) =
  mkGlobalConfig (net_ip host) i (net_ip gw) mac 1 1.
Proof.
  intros Hm Hi. destruct (mac_six mac Hm) as (a & b & c & d & e & f & ->).
  unfold global_config_at. f_equal; try reflexivity.
  etransitivity; [|by apply (load_ifindex i)]. reflexivity.
Qed.

(** ** What publishing does *)

(** The key and the entries of a guest behind interface [i]. *)
Definition rule_key (dp : natDataplane) (n : vmNet) : dnat_key :=
  mkDnatKey (net_ip (hostIP dp)) (bpf_htons (vn_port n)) IPPROTO_TCP 0.

Definition guest_entry (ip i : Z) (n : vmNet) : vm_entry := mkVmEntry (net_ip ip) i (vn_mac n).

Definition guest_rule (ip i svc : Z) (n : vmNet) : dnat_val :=
  mkDnatVal (net_ip ip) i (bpf_htons svc) (vn_mac n).

(** The dataplane with one more guest. *)
Definition with_guest (tapName : string) (n : vmNet) (ip i svc : Z) (dp : natDataplane) : natDataplane :=
  set_links (<[tapName := i]> (tapLinks dp))
    (set_taps ({[+ i +]} ⊎ natTaps dp)
      (set_vms (<[net_ip ip := guest_entry ip i n]> (vm_config (maps dp)))
        (set_dnat (<[rule_key dp n := guest_rule ip i svc n]> (dnat_rules (maps dp))) dp))).

(** The dataplane with one guest less. *)
Definition without_guest (tapName : string) (n : vmNet) (ip : Z) (att : gmultiset Z)
  (dp : natDataplane) : natDataplane :=
  set_links (delete tapName (tapLinks dp))
    (set_taps att
      (set_vms (delete (net_ip ip) (vm_config (maps dp)))
        (set_dnat (delete (rule_key dp n) (dnat_rules (maps dp))) dp))).

(** Evaluates the members of an updated dataplane. *)
Ltac dp_norm :=
  cbn [set_taps set_vms set_links set_dnat hostIP uplink tapLinks natTaps maps global_config_map
       vm_config dnat_rules egress_policy ingress_policy events stats fst snd].

(** *** The accesses, as the programs see them *)

Section accesses.
Context `{L : !EbpfLibrary, LC : !EbpfCalls L}.

Lemma attach_tap_spec i dp dp' :
  attach_tap i dp = Some dp' → dp' = set_taps ({[+ i +]} ⊎ natTaps dp) dp.
Proof.
  unfold attach_tap. destruct (AttachTCX _ _) as [att|] eqn:E; [|done]. apply attach_spec in E as ->.
  by intros [= <-].
Qed.

Lemma put_vm_spec n ip i dp dp' :
  vn_ip n = Some ip → zlen (vn_mac n) = 6 → 0 < i < 2 ^ 31 → put_vm n i dp = Some dp' →
  dp' = set_vms (<[net_ip ip := guest_entry ip i n]> (vm_config (maps dp))) dp.
Proof.
  intros Hip Hm Hi. unfold put_vm, vm_key. rewrite Hip, vm_entry_marshalled by (done || lia).
  destruct (VmConfig_Put _ _ _) as [vms|] eqn:E; [|done]. apply vm_put_spec in E as ->. by intros [= <-].
Qed.

Lemma put_rule_spec n ip i svc dp dp' :
  vn_ip n = Some ip → zlen (vn_mac n) = 6 → 0 < i < 2 ^ 31 → put_rule n i svc dp = Some dp' →
  dp' = set_dnat (<[rule_key dp n := guest_rule ip i svc n]> (dnat_rules (maps dp))) dp.
Proof.
  intros Hip Hm Hi. unfold put_rule. rewrite Hip, dnat_key_marshalled, dnat_val_marshalled by (done || lia).
  destruct (DnatRules_Put _ _ _) as [rules|] eqn:E; [|done]. apply dnat_put_spec in E as ->.
  by intros [= <-].
Qed.
End accesses.

Lemma delete_rule_spec `{LL : !EbpfLibraryLaws L} n dp :
  delete_rule n dp = set_dnat (delete (rule_key dp n) (dnat_rules (maps dp))) dp.
Proof. unfold delete_rule. by rewrite dnat_key_marshalled, dnat_delete_spec. Qed.

Lemma delete_vm_spec `{LL : !EbpfLibraryLaws L} key dp :
  delete_vm key dp = set_vms (delete key (vm_config (maps dp))) dp.
Proof. unfold delete_vm. by rewrite vm_delete_spec. Qed.

Lemma close_link_spec `{LL : !EbpfLibraryLaws L} i att dp :
  natTaps dp = {[+ i +]} ⊎ att → close_link (Some i) dp = set_taps att dp.
Proof. unfold close_link. intros ->. by rewrite close_spec. Qed.

(** *** The operations *)

(** The rollback's own calls do what they are asked: their errors are ignored. *)
Definition rollback_works `{EbpfLibrary} : Prop :=
  (∀ att i, Close ({[+ i +]} ⊎ att) i = att) ∧ (∀ m k, VmConfig_Delete m k = delete k m).

(** What is left of the dataplane when publishing the guest [ip] fails with [e]. *)
Definition failed_publish `{EbpfLibrary} (e : dataplane_error) (ip : Z) (dp dp' : natDataplane) : Prop :=
  ∃ att vms, dp' = set_taps att (set_vms vms dp) ∧
    (∀ k, k ≠ net_ip ip → vms !! k = vm_config (maps dp) !! k) ∧
    (rollback_works → att = natTaps dp ∧
       vms = if decide (e = DnatWrite) then delete (net_ip ip) (vm_config (maps dp)) else vm_config (maps dp)).

Lemma failed_clean `{EbpfLibrary} e ip dp :
  e ≠ DnatWrite → failed_publish e ip dp dp.
Proof.
  intros He. exists (natTaps dp), (vm_config (maps dp)). rewrite decide_False by done.
  split_and!; try done. by destruct dp as [???? []].
Qed.

Lemma publishVM_outcome `{L : !EbpfLibrary, LC : !EbpfCalls L} tapName n svc dp ip :
  vn_ip n = Some ip → zlen (vn_mac n) = 6 →
  match publishVM tapName n svc dp with
  | (Some e, dp') => failed_publish e ip dp dp'
  | (None, dp') =>
      (is_Some (tapLinks dp !! tapName) ∧ dp' = dp) ∨
      (∃ i, InterfaceByName tapName = Some i ∧ tapLinks dp !! tapName = None ∧
            dp' = with_guest tapName n ip i svc dp)
  end.
Proof.
  intros Hip Hmac. unfold publishVM. destruct (InterfaceByName tapName) as [i|] eqn:Ei;
    [|by apply failed_clean].
  pose proof (ifindex_range _ _ Ei). destruct (tapLinks dp !! tapName) as [l|] eqn:El; [by left|].
  destruct (attach_tap i dp) as [dp1|] eqn:E1; [|by apply failed_clean]. apply attach_tap_spec in E1 as ->.
  destruct (put_vm n i _) as [dp2|] eqn:E2.
  - apply (put_vm_spec _ ip) in E2 as ->; [|done..].
    destruct (put_rule n i svc _) as [dp3|] eqn:E3.
    + apply (put_rule_spec _ ip) in E3 as ->; [|done..]. right. by exists i.
    + assert (vm_key n = net_ip ip) as -> by (unfold vm_key; by rewrite Hip).
      exists (Close ({[+ i +]} ⊎ natTaps dp) i),
        (VmConfig_Delete (<[net_ip ip := guest_entry ip i n]> (vm_config (maps dp))) (net_ip ip)).
      split; [done|]. split; [intros k Hk; rewrite vm_delete_frame by done; by rewrite lookup_insert_ne|].
      intros [Hc Hd]. rewrite decide_True by done. by rewrite Hc, Hd, delete_insert_eq.
  - exists (Close ({[+ i +]} ⊎ natTaps dp) i), (vm_config (maps dp)). split_and!; try done.
    + by destruct dp as [???? []].
    + intros [Hc _]. by rewrite Hc.
Qed.

Section facts.
Context `{L : !EbpfLibrary, LL : !EbpfLibraryLaws L}.

(** When the address has no entry yet, a failed call leaves no trace. *)
Lemma publishVM_cases tapName n svc dp ip :
  vn_ip n = Some ip → zlen (vn_mac n) = 6 → vm_config (maps dp) !! net_ip ip = None →
  match publishVM tapName n svc dp with
  | (Some _, dp') => dp' = dp
  | (None, dp') =>
      (is_Some (tapLinks dp !! tapName) ∧ dp' = dp) ∨
      (∃ i, InterfaceByName tapName = Some i ∧ tapLinks dp !! tapName = None ∧
            dp' = with_guest tapName n ip i svc dp)
  end.
Proof.
  intros Hip Hmac Hnew. pose proof (publishVM_outcome tapName n svc dp ip Hip Hmac) as Ho.
  destruct (publishVM _ _ _ _) as [[e|] dp']; [|done]. destruct Ho as (att & vms & -> & _ & Hr).
  destruct Hr as [-> ->]; [split; [apply close_spec|apply vm_delete_spec]|].
  rewrite (delete_id _ _ Hnew). by case_decide; destruct dp as [???? []].
Qed.

(** A TAP that is published is left alone. *)
Lemma publishVM_known tapName n svc dp :
  is_Some (tapLinks dp !! tapName) → snd (publishVM tapName n svc dp) = dp.
Proof. intros [l E]. unfold publishVM. rewrite E. by destruct (InterfaceByName tapName). Qed.

Lemma withdrawVM_guest tapName n ip i att dp :
  vn_ip n = Some ip → tapLinks dp !! tapName = Some i → natTaps dp = {[+ i +]} ⊎ att →
  withdrawVM tapName n dp = without_guest tapName n ip att dp.
Proof.
  intros Hip Hl Ha. unfold withdrawVM, unlink. rewrite Hl.
  rewrite (close_link_spec i att) by done. unfold withdraw_vm. rewrite Hip, delete_vm_spec, delete_rule_spec.
  done.
Qed.

Lemma without_with_guest tapName n ip i svc dp :
  vm_config (maps dp) !! net_ip ip = None → dnat_rules (maps dp) !! rule_key dp n = None →
  tapLinks dp !! tapName = None →
  without_guest tapName n ip (natTaps dp) (with_guest tapName n ip i svc dp) = dp.
Proof.
  intros Hv Hd Ht. unfold without_guest, with_guest. dp_norm.
  change (rule_key _ n) with (rule_key dp n). rewrite !delete_insert_id by done.
  by destruct dp as [???? []].
Qed.

(** [withdrawVM] undoes [publishVM]: withdrawing a guest that was just published
    restores the dataplane, maps, links and attached programs alike. *)
Theorem withdraw_undoes_publish tapName n svc dp dp' ip :
  vn_ip n = Some ip → zlen (vn_mac n) = 6 → tapLinks dp !! tapName = None →
  vm_config (maps dp) !! net_ip ip = None → dnat_rules (maps dp) !! rule_key dp n = None →
  publishVM tapName n svc dp = (None, dp') → withdrawVM tapName n dp' = dp.
Proof.
  intros Hip Hmac Hl Hv Hd E. pose proof (publishVM_cases tapName n svc dp ip Hip Hmac Hv) as Hc.
  rewrite E in Hc. destruct Hc as [[[l El] _]|(i & _ & _ & ->)]; [congruence|].
  rewrite (withdrawVM_guest _ _ ip i (natTaps dp)); [by apply without_with_guest|done| |done].
  apply lookup_insert_eq.
Qed.
End facts.

(** C20: [publishVM] of a lease with an IPv4 address and a six-byte MAC.  On success either
    the TAP was published already and nothing changes, or exactly one link, one attached
    program, one [vm_config] entry and one DNAT rule are added, which the programs read as
    the guest's address, interface, MAC and service port.  On every error the links, the
    DNAT rules and the [vm_config] entries of all other addresses are what they were; and
    when the rollback's own [Close] and [Delete] work (the code ignores their errors), so
    are the attached programs and the guest's own entry, except that a failed DNAT write
    also removes an entry that was there for the address before the call. *)
Theorem publishVM_atomic `{L : !EbpfLibrary, LC : !EbpfCalls L} tapName n svc dp ip :
  vn_ip n = Some ip → zlen (vn_mac n) = 6 →
  match publishVM tapName n svc dp with
  | (Some e, dp') =>
      ∃ att vms, dp' = set_taps att (set_vms vms dp) ∧
        (∀ k, k ≠ net_ip ip → vms !! k = vm_config (maps dp) !! k) ∧
        (rollback_works → att = natTaps dp ∧
           vms = if decide (e = DnatWrite) then delete (net_ip ip) (vm_config (maps dp))
                 else vm_config (maps dp))
  | (None, dp') =>
      (is_Some (tapLinks dp !! tapName) ∧ dp' = dp) ∨
      (∃ i, InterfaceByName tapName = Some i ∧ tapLinks dp !! tapName = None ∧
            dp' = with_guest tapName n ip i svc dp)
  end.
Proof. apply publishVM_outcome. Qed.

(** ** Per-CPU counters *)

(** The total of one counter over the CPUs. *)
Definition total (f : nat_stats → Z) (per : list nat_stats) : Z := foldr (λ s t, f s + t) 0 per.

Lemma add_stats_total (f : nat_stats → Z) per s0 :
  (∀ s t, f (add_stats s t) = wrap 64 (f s + f t)) →
  wrap 64 (f (fold_left add_stats per s0)) = wrap 64 (f s0 + total f per).
Proof.
  intros Hf. revert s0. induction per as [|s per IH]; intros s0; simpl; [by rewrite Z.add_0_r|].
  rewrite IH, Hf. unfold wrap. rewrite Z.add_mod_idemp_l by done. f_equal. lia.
Qed.

(** [vmStats] reports the totals, as 64-bit values. *)
Lemma vmStats_total v4 lookup per s :
  lookup (net_ip v4) = Some per → vmStats (Some v4) lookup = Some s →
  wrap 64 (rx_pkts s) = wrap 64 (total rx_pkts per) ∧
  wrap 64 (rx_bytes s) = wrap 64 (total rx_bytes per) ∧
  wrap 64 (tx_pkts s) = wrap 64 (total tx_pkts per) ∧
  wrap 64 (tx_bytes s) = wrap 64 (total tx_bytes per) ∧
  wrap 64 (drops s) = wrap 64 (total drops per) ∧ wrap 64 (conns s) = wrap 64 (total conns per).
Proof.
  unfold vmStats, net_ip. intros -> [= <-]. split_and!; by rewrite add_stats_total.
Qed.

(** ** A library whose calls succeed *)

Definition sample_tap : string := "fc0123456789ab4".

#[export] Instance ref_library : EbpfLibrary := {
  InterfaceByName name :=
    if decide (name = "eth0"%string) then Some 2
    else if decide (name = sample_tap) then Some 5 else None;
  AttachTCX att i := Some ({[+ i +]} ⊎ att);
  Close att i := att ∖ {[+ i +]};
  VmConfig_Put m k v := Some (<[k := v]> m);
  VmConfig_Delete m k := delete k m;
  DnatRules_Put m k v := Some (<[k := v]> m);
  DnatRules_Delete m k := delete k m;
  GlobalConfigMap_Put m k v := Some (<[k := v]> m);
  LoadNatObjects := true;
  NewReader := true
}.

#[export] Instance ref_library_laws : EbpfLibraryLaws ref_library.
Proof.
  split; [split|..]; simpl; try congruence.
  - intros name i. repeat case_decide; intros; simplify_eq; lia.
  - intros m k k' Hk. by apply lookup_delete_ne.
  - intros att i. multiset_solver.
Qed.

(** The same library when the map of the DNAT rules is full. *)
Definition full_library : EbpfLibrary := {|
  InterfaceByName := InterfaceByName;
  AttachTCX := AttachTCX;
  Close := Close;
  VmConfig_Put := VmConfig_Put;
  VmConfig_Delete := VmConfig_Delete;
  DnatRules_Put _ _ _ := None;
  DnatRules_Delete := DnatRules_Delete;
  GlobalConfigMap_Put := GlobalConfigMap_Put;
  LoadNatObjects := true;
  NewReader := true
|}.

#[local] Instance full_library_calls : EbpfCalls full_library.
Proof.
  destruct (library_calls (L := ref_library)) as [? ? ? ? ? ?].
  split; simpl; try done.
Qed.

(** 203.0.113.7 on interface 2. *)
Definition sample_dp : natDataplane :=
  mkDataplane 0xcb007107 2 ∅ ∅
    (mkNatMaps {[ 0 := mkGlobalConfig (net_ip 0xcb007107) 2 (net_ip 0x0ade0001) sample_mac 1 1 ]}
       ∅ ∅ ∅ ∅ [] ∅).

Lemma sample_published :
  publishVM sample_tap sample_lease 25565 sample_dp =
  (None, with_guest sample_tap sample_lease 0x0ade0002 5 25565 sample_dp).
Proof. reflexivity. Qed.

(** With the calls succeeding, and with the DNAT write failing over a stale entry. *)
Lemma publishVM_atomic_witness :
  fst (publishVM sample_tap sample_lease 25565 sample_dp) = None ∧
  snd (publishVM sample_tap sample_lease 25565 sample_dp) =
    with_guest sample_tap sample_lease 0x0ade0002 5 25565 sample_dp ∧
  let stale := set_vms {[ net_ip 0x0ade0002 := guest_entry 0x0ade0002 9 sample_lease ]} sample_dp in
  fst (publishVM (L := full_library) sample_tap sample_lease 25565 stale) = Some DnatWrite ∧
  snd (publishVM (L := full_library) sample_tap sample_lease 25565 stale) = sample_dp.
Proof.
  split; [reflexivity|]. split.
  - pose proof (publishVM_atomic sample_tap sample_lease 25565 sample_dp 0x0ade0002 eq_refl eq_refl) as H.
    rewrite sample_published in H |- *. destruct H as [[[l E] _]|(i & Hi & _ & ->)]; [done|].
    by injection Hi as <-.
  - intros stale. split; [reflexivity|].
    pose proof (publishVM_atomic (L := full_library) sample_tap sample_lease 25565 stale 0x0ade0002
      eq_refl eq_refl) as H.
    change (publishVM (L := full_library) sample_tap sample_lease 25565 stale)
      with (Some DnatWrite, snd (publishVM (L := full_library) sample_tap sample_lease 25565 stale)) in H.
    destruct H as (att & vms & E & _ & Hr). destruct Hr as [-> ->].
    { split; [apply (close_spec (L := ref_library))|done]. }
    exact E.
Defined.

Lemma withdraw_undoes_publish_witness :
  withdrawVM sample_tap sample_lease
    (with_guest sample_tap sample_lease 0x0ade0002 5 25565 sample_dp) = sample_dp.
Proof.
  apply (withdraw_undoes_publish sample_tap sample_lease 25565 sample_dp _ 0x0ade0002);
    [reflexivity..|exact sample_published].
Defined.
