(* ===== verification/Lifecycle.v ===== *)
(** * The life of a guest's network

    How [runtime.go], [machine.go] and [mmds.go] compose the allocator of [Ipam] and the
    dataplane management of [Publish]: [Provision] leases an address and a port and
    boots, publishing the guest on the way; [Start] boots again; [Evict] and
    [Deprovision] ([teardown]) withdraw the guest and give the lease back.  Only the
    steps that touch the allocator and the dataplane are kept; what else can fail is an
    argument. *)
From stdpp Require Import gmultiset strings relations.
From S2P Require Import Prelude CLayout Checksum Vmlinux NatTypes Kernel RefKernel Samples.
From S2P Require Import NatParse NatRewrite NatState NatTap NatUplink NatFlows NatTheorems NatSystem Ipam Publish.
#[local] Set Warnings "-clear-no-such-hyp".
#[local] Open Scope Z_scope.

(** ** State *)

Record machine := mkMachine {
  tapName : string;
  net : vmNet;
  servicePort : Z
}.

Record runtime := mkRuntime {
  rt_ipam : ipam;
  rt_dp : natDataplane;
  vms : gmap string machine
}.

(** How far a boot gets: it fails before [publishVM] is called, it fails after
    [publishVM] succeeded (the MMDS requests, the instance start), or it succeeds. *)
Inductive boot_outcome : Type :=
| FailsEarly
| FailsLate
| Boots.

Inductive provision_error : Type :=
| NoLease (e : ipam_error)
| WorldDisk
| BootFailed.

(** ** Operations *)

Definition defaultMinecraftPort : Z := 25565.

(** [fc] and the hexadecimal digits of the VM id, 15 characters at most. *)
Definition hex_digit (c : Ascii.ascii) : bool :=
  let n := Z.of_N (Ascii.N_of_ascii c) in
  (48 <=? n) && (n <=? 57) || (97 <=? n) && (n <=? 102).

Fixpoint hex_digits (room : nat) (s : string) : string :=
  match room, s with
  | O, _ | _, EmptyString => EmptyString
  | S room', String c s =>
      if hex_digit c then String c (hex_digits room' s) else hex_digits room s
  end.

Definition tapNameFor (vmID : string) : string := String.append "fc" (hex_digits 13 vmID).

Definition releaseNet (n : vmNet) (r : runtime) : runtime :=
  mkRuntime (release n (rt_ipam r)) (rt_dp r) (vms r).

Section operations.
Context `{L : !EbpfLibrary}.

(** [boot]: the part of it that reaches the dataplane.  [true] is success. *)
Definition boot (b : boot_outcome) (m : machine) (dp : natDataplane) : bool * natDataplane :=
  match b with
  | FailsEarly => (false, dp)
  | _ =>
      match publishVM (tapName m) (net m) (servicePort m) dp with
      | (Some _, dp) => (false, dp)
      | (None, dp) => (match b with Boots => true | _ => false end, dp)
      end
  end.

Definition Provision (id : string) (prepared : bool) (b : boot_outcome) (r : runtime)
  : option provision_error * runtime :=
  match allocate (rt_ipam r) with
  | (inl e, a) => (Some (NoLease e), mkRuntime a (rt_dp r) (vms r))
  | (inr n, a) =>
      let r := mkRuntime a (rt_dp r) (vms r) in
      if negb prepared then (Some WorldDisk, releaseNet n r) else
      let m := mkMachine (tapNameFor id) n defaultMinecraftPort in
      match boot b m (rt_dp r) with
      | (false, dp) => (Some BootFailed, releaseNet n (mkRuntime (rt_ipam r) dp (vms r)))
      | (true, dp) => (None, mkRuntime (rt_ipam r) dp (<[id := m]> (vms r)))
      end
  end.

(** A running machine and one the host has no room for are [FailsEarly]. *)
Definition Start (id : string) (b : boot_outcome) (r : runtime) : runtime :=
  match vms r !! id with
  | None => r
  | Some m => mkRuntime (rt_ipam r) (snd (boot b m (rt_dp r))) (vms r)
  end.

Definition teardown (id : string) (r : runtime) : runtime :=
  match vms r !! id with
  | None => r
  | Some m =>
      releaseNet (net m)
        (mkRuntime (rt_ipam r) (withdrawVM (tapName m) (net m) (rt_dp r)) (delete id (vms r)))
  end.

End operations.

(** ** What must hold between operations *)

(** The lifecycle invariant is about the shared state, allocator and dataplane, and two
    tables: the guests that are published ([live]) and the leases calls in progress
    hold without a publication ([held]). *)
Section invariant.
Context (a : ipam) (dp : natDataplane) (live held : gmap string machine).

(** Guest [id] is published as machine [m] with address [ip] behind interface [i]. *)
Definition guest_at (id : string) (m : machine) (ip i : Z) : Prop :=
  live !! id = Some m ∧ vn_ip (net m) = Some ip ∧ tapLinks dp !! tapName m = Some i.

(** [id] has the lease of machine [m]. *)
Definition leased (id : string) (m : machine) : Prop := live !! id = Some m ∨ held !! id = Some m.

(** The configuration [newDataplane] wrote, which nothing changes. *)
Definition dp_config : Prop :=
  global_config_map (maps dp) =
    {[ 0 := mkGlobalConfig (net_ip (hostIP dp)) (uplink dp) (net_ip (gatewayIP a)) (gatewayMAC a) 1 1 ]} ∧
  egress_policy (maps dp) = ∅ ∧ ingress_policy (maps dp) = ∅ ∧ mac_ok (gatewayMAC a).

(** A lease the allocator can have granted. *)
Definition lease_ok (m : machine) : Prop :=
  ∃ ip, vn_ip (net m) = Some ip ∧ first a ≤ ip ≤ last a ∧ ip ≠ gatewayIP a ∧
    vn_mac (net m) = deterministicMAC ip ∧ portMin a ≤ vn_port (net m) ≤ portMax a ∧
    servicePort m = defaultMinecraftPort.

(** The allocator, the calls in progress and the dataplane agree: what is in use is
    what is leased, and what is in the maps is what is live. *)
Record guests_ok : Prop := {
  go_ipam : ipam_ok a;
  go_config : dp_config;
  go_disjoint : live ##ₘ held;
  go_live id m : live !! id = Some m → ∃ ip i, guest_at id m ip i ∧ 0 < i < 2 ^ 31;
  go_held id m : held !! id = Some m → tapLinks dp !! tapName m = None;
  go_links t i : tapLinks dp !! t = Some i → ∃ id m ip, guest_at id m ip i ∧ tapName m = t;
  go_lease id m : leased id m → lease_ok m;
  go_distinct id m id' m' : leased id m → leased id' m' →
    vn_ip (net m) = vn_ip (net m') ∨ vn_port (net m) = vn_port (net m') ∨ tapName m = tapName m' →
    id = id';
  go_ips x : x ∈ usedIPs a ↔ x = gatewayIP a ∨ ∃ id m, leased id m ∧ vn_ip (net m) = Some x;
  go_ports p : p ∈ usedPorts a ↔ ∃ id m, leased id m ∧ vn_port (net m) = p;
  go_vms k v : vm_config (maps dp) !! k = Some v ↔
    ∃ id m ip i, guest_at id m ip i ∧ k = net_ip ip ∧ v = guest_entry ip i (net m);
  go_rules k v : dnat_rules (maps dp) !! k = Some v ↔
    ∃ id m ip i, guest_at id m ip i ∧ k = rule_key dp (net m) ∧
                 v = guest_rule ip i (servicePort m) (net m);
  go_taps : natTaps dp = list_to_set_disj (map_to_list (tapLinks dp)).*2
}.
End invariant.

Lemma lease_ok_pools a a' m : same_pools a a' → lease_ok a m → lease_ok a' m.
Proof.
  intros (_ & Ef & El & Eg & _ & Epm & Epx). unfold lease_ok. by rewrite Ef, El, Eg, Epm, Epx.
Qed.

Lemma dp_config_pools a a' dp : same_pools a a' → dp_config a dp → dp_config a' dp.
Proof. intros (_ & _ & _ & Eg & Em & _). unfold dp_config. by rewrite Eg, Em. Qed.

(** *** The allocator changes *)

(** Only the use of the pools matters. *)
Lemma guests_ok_ipam a a' dp live held :
  guests_ok a dp live held → ipam_ok a' → same_pools a a' →
  usedIPs a' = usedIPs a → usedPorts a' = usedPorts a → guests_ok a' dp live held.
Proof.
  intros [H1 H2 H3 H4 H5 H6 H7 H8 H9 H10 H11 H12 H13] Ha Hs Eu Ep.
  pose proof Hs as (_ & _ & _ & Eg & _). split; try done.
  - by eapply dp_config_pools.
  - intros id m Hl. eapply lease_ok_pools; [done|by eapply H7].
  - intros x. by rewrite Eu, Eg.
  - intros p. by rewrite Ep.
Qed.

(** A lease is granted to a new call. *)
Lemma guests_ok_grant a a' dp live held id m ip :
  guests_ok a dp live held → ipam_ok a' → same_pools a a' →
  live !! id = None → held !! id = None → tapLinks dp !! tapName m = None →
  (∀ id' m', leased live held id' m' → tapName m' ≠ tapName m) →
  lease_ok a m → vn_ip (net m) = Some ip → (ip ∉ usedIPs a) → (vn_port (net m) ∉ usedPorts a) →
  usedIPs a' = {[ip]} ∪ usedIPs a → usedPorts a' = {[vn_port (net m)]} ∪ usedPorts a →
  guests_ok a' dp live (<[id := m]> held).
Proof.
  intros Hok Ha Hs Hl Hh Ht Hn Hm Hip Hif Hpf Eu Ep.
  assert (∀ id' m', leased live (<[id := m]> held) id' m' ↔
    (id' = id ∧ m' = m) ∨ leased live held id' m') as Hle.
  { intros id' m'. unfold leased. rewrite lookup_insert_Some. naive_solver. }
  assert (∀ id' m', leased live held id' m' → vn_ip (net m) ≠ vn_ip (net m') ∧
    vn_port (net m) ≠ vn_port (net m') ∧ tapName m ≠ tapName m') as Hfr.
  { intros id' m' L. split_and!; [| |by apply not_eq_sym; eapply Hn].
    - intros E. apply Hif, (go_ips _ _ _ _ Hok). right. exists id', m'. by rewrite <- E.
    - intros E. apply Hpf, (go_ports _ _ _ _ Hok). by exists id', m'. }
  pose proof Hs as (_ & _ & _ & Eg & _). split; try apply Hok; try done.
  - by eapply dp_config_pools, Hok.
  - apply map_disjoint_insert_r. split; [done|apply Hok].
  - intros id' m' [[<- <-]|[_ E]]%lookup_insert_Some; [done|by eapply Hok].
  - intros id' m' [[-> ->]|L]%Hle; [by eapply lease_ok_pools|].
    eapply lease_ok_pools; [done|by eapply Hok].
  - intros id1 m1 id2 m2 [[-> ->]|L1]%Hle [[-> ->]|L2]%Hle; [done|..].
    + destruct (Hfr _ _ L2) as (? & ? & ?). by intros [?|[?|?]].
    + destruct (Hfr _ _ L1) as (? & ? & ?). by intros [?|[?|?]].
    + by apply (go_distinct _ _ _ _ Hok _ _ _ _ L1 L2).
  - intros x. setoid_rewrite Hle. rewrite Eu, Eg, elem_of_union, elem_of_singleton, (go_ips _ _ _ _ Hok).
    naive_solver.
  - intros p. setoid_rewrite Hle. rewrite Ep, elem_of_union, elem_of_singleton, (go_ports _ _ _ _ Hok).
    naive_solver.
Qed.

(** A lease is given back. *)
Lemma guests_ok_return a dp live held id m :
  guests_ok a dp live held → held !! id = Some m →
  guests_ok (release (net m) a) dp live (delete id held).
Proof.
  intros Hok Hh. destruct (release_spec (net m) a) as (Ei & Ep & Hs).
  pose proof (map_disjoint_Some_r _ _ _ _ (go_disjoint _ _ _ _ Hok) Hh) as Hl.
  assert (∀ id' m', leased live (delete id held) id' m' ↔ leased live held id' m' ∧ id' ≠ id) as Hle.
  { intros id' m'. unfold leased. rewrite lookup_delete_Some. naive_solver. }
  assert (leased live held id m) as L by (by right).
  destruct (go_lease _ _ _ _ Hok _ _ L) as (ip & Hip & _ & Hg & _ & Hp & _).
  pose proof (io_ports _ (go_ipam _ _ _ _ Hok)). rewrite Hip in Ei. rewrite decide_False in Ep by lia.
  pose proof Hs as (_ & _ & _ & Eg & _).
  assert (∀ id' m', leased live held id' m' → id' = id → m' = m) as Hsame.
  { intros id' m' [E|E] ->; congruence. }
  split; try apply Hok; try done.
  - by apply release_ok, Hok.
  - by eapply dp_config_pools, Hok.
  - apply map_disjoint_delete_r, Hok.
  - intros id' m' [_ E]%lookup_delete_Some. by eapply Hok.
  - intros id' m' [L' _]%Hle. eapply lease_ok_pools; [done|by eapply Hok].
  - intros id1 m1 id2 m2 [L1 _]%Hle [L2 _]%Hle. by apply (go_distinct _ _ _ _ Hok _ _ _ _ L1 L2).
  - intros x. setoid_rewrite Hle. rewrite Ei, Eg, elem_of_difference, elem_of_singleton, (go_ips _ _ _ _ Hok).
    split.
    + intros [[->|(id' & m' & L' & E)] Hne]; [by left|right]. exists id', m'. split_and!; try done.
      intros Eid. rewrite (Hsame _ _ L' Eid) in E. congruence.
    + intros [->|(id' & m' & [L' Hne] & E)]; [by split; [left|]|]. split; [by eauto|]. intros ->.
      apply Hne. eapply (go_distinct _ _ _ _ Hok); [done..|left; congruence].
  - intros p. setoid_rewrite Hle. rewrite Ep, elem_of_difference, elem_of_singleton, (go_ports _ _ _ _ Hok).
    split.
    + intros [(id' & m' & L' & <-) Hne]. exists id', m'. split_and!; try done.
      intros Eid. by rewrite (Hsame _ _ L' Eid) in Hne.
    + intros (id' & m' & [L' Hne] & <-). split; [by eauto|]. intros E.
      apply Hne. eapply (go_distinct _ _ _ _ Hok); [done..|by right; left].
Qed.

(** *** The dataplane changes *)

(** Addresses are told apart by the 32-bit objects in the maps, ports by the keys. *)
Lemma lease_ip_range a dp live held id m ip :
  guests_ok a dp live held → leased live held id m → vn_ip (net m) = Some ip → 0 ≤ ip < 2 ^ 32.
Proof.
  intros Hok L E. destruct (go_lease _ _ _ _ Hok _ _ L) as (ip' & E' & ? & _).
  pose proof (io_ips _ (go_ipam _ _ _ _ Hok)). simplify_eq. lia.
Qed.

Lemma lease_key a dp live held id m ip id' m' ip' :
  guests_ok a dp live held → leased live held id m → leased live held id' m' →
  vn_ip (net m) = Some ip → vn_ip (net m') = Some ip' → net_ip ip = net_ip ip' → id = id'.
Proof.
  intros Hok L L' E E' Ek. apply net_ip_inj in Ek as <-; [|by eauto using lease_ip_range..].
  eapply (go_distinct _ _ _ _ Hok); [done..|left; congruence].
Qed.

Lemma lease_rule_key a dp live held id m id' m' :
  guests_ok a dp live held → leased live held id m → leased live held id' m' →
  rule_key dp (net m) = rule_key dp (net m') → id = id'.
Proof.
  unfold rule_key. intros Hok L L' [= E]. pose proof (io_ports _ (go_ipam _ _ _ _ Hok)).
  destruct (go_lease _ _ _ _ Hok _ _ L) as (? & _ & _ & _ & _ & ? & _).
  destruct (go_lease _ _ _ _ Hok _ _ L') as (? & _ & _ & _ & _ & ? & _).
  apply bswap16_inj in E; [|lia..]. eapply (go_distinct _ _ _ _ Hok); [done..|by right; left].
Qed.

Lemma guest_leased dp live held id m ip i : guest_at dp live id m ip i → leased live held id m.
Proof. intros (? & _). by left. Qed.

(** Moving a lease between the tables changes no lease. *)
Lemma leased_move live held id m :
  live ##ₘ held → held !! id = Some m →
  ∀ id' m', leased (<[id := m]> live) (delete id held) id' m' ↔ leased live held id' m'.
Proof.
  intros Hd Hh id' m'. pose proof (map_disjoint_Some_r _ _ _ _ Hd Hh).
  unfold leased. rewrite lookup_insert_Some, lookup_delete_Some.
  destruct (decide (id = id')); naive_solver.
Qed.

Section publish.
Context (a : ipam) (dp : natDataplane) (live held : gmap string machine).
Context (id : string) (m : machine) (ip i : Z).
Context (Hok : guests_ok a dp live held) (Hh : held !! id = Some m) (Hip : vn_ip (net m) = Some ip).
Context (Hi : 0 < i < 2 ^ 31).

#[local] Abbreviation dp' := (with_guest (tapName m) (net m) ip i (servicePort m) dp).
#[local] Abbreviation live' := (<[id := m]> live).

Lemma guest_at_publish id' m' ip' i' :
  guest_at dp' live' id' m' ip' i' ↔
  (id' = id ∧ m' = m ∧ ip' = ip ∧ i' = i) ∨ guest_at dp live id' m' ip' i'.
Proof.
  pose proof (go_held _ _ _ _ Hok _ _ Hh) as Ht.
  pose proof (map_disjoint_Some_r _ _ _ _ (go_disjoint _ _ _ _ Hok) Hh) as Hl.
  assert (∀ id1 m1, live !! id1 = Some m1 → tapName m ≠ tapName m1) as Hne.
  { intros id1 m1 E Et. destruct (go_live _ _ _ _ Hok _ _ E) as (? & ? & (_ & _ & El) & _).
    rewrite <- Et in El. congruence. }
  unfold guest_at. dp_norm. unfold with_guest. dp_norm. rewrite !lookup_insert_Some. naive_solver.
Qed.

Lemma guest_at_other id' m' ip' i' :
  guest_at dp live id' m' ip' i' → id ≠ id'.
Proof.
  intros (E & _) <-. pose proof (map_disjoint_Some_r _ _ _ _ (go_disjoint _ _ _ _ Hok) Hh). congruence.
Qed.

Lemma vms_publish k v :
  vm_config (maps dp') !! k = Some v ↔
  ∃ id' m' ip' i', guest_at dp' live' id' m' ip' i' ∧ k = net_ip ip' ∧ v = guest_entry ip' i' (net m').
Proof.
  setoid_rewrite guest_at_publish. unfold with_guest. dp_norm.
  rewrite lookup_insert_Some, (go_vms _ _ _ _ Hok). split.
  - intros [[<- <-]|[Hne (id' & m' & ip' & i' & G & E)]].
    + exists id, m, ip, i. split; [by left|done].
    + exists id', m', ip', i'. split; [by right|done].
  - intros (id' & m' & ip' & i' & [(-> & -> & -> & ->)|G] & -> & ->); [by left|right].
    split; [|by eauto 10]. intros E. apply (guest_at_other _ _ _ _ G). pose proof G as (? & ? & _).
    apply (lease_key a dp live held id m ip id' m' ip'); try done; [by right|by left].
Qed.

Lemma rules_publish k v :
  dnat_rules (maps dp') !! k = Some v ↔
  ∃ id' m' ip' i', guest_at dp' live' id' m' ip' i' ∧ k = rule_key dp' (net m') ∧
                   v = guest_rule ip' i' (servicePort m') (net m').
Proof.
  setoid_rewrite guest_at_publish. unfold with_guest. dp_norm.
  rewrite lookup_insert_Some, (go_rules _ _ _ _ Hok). split.
  - intros [[<- <-]|[Hne (id' & m' & ip' & i' & G & E)]].
    + exists id, m, ip, i. split; [by left|done].
    + exists id', m', ip', i'. split; [by right|done].
  - intros (id' & m' & ip' & i' & [(-> & -> & -> & ->)|G] & -> & ->); [by left|right].
    split; [|by eauto 10]. intros E. apply (guest_at_other _ _ _ _ G).
    apply (lease_rule_key a dp live held id m id' m'); try done; [by right|by eapply guest_leased].
Qed.

Lemma guests_ok_publish : guests_ok a dp' live' (delete id held).
Proof.
  pose proof (go_disjoint _ _ _ _ Hok) as Hd. pose proof (leased_move live held id m Hd Hh) as Hle.
  split; try (by apply vms_publish); try (by apply rules_publish); try apply Hok.
  - by apply map_disjoint_insert_l_2; [apply lookup_delete_eq|apply map_disjoint_delete_r].
  - setoid_rewrite guest_at_publish. intros id' m' [[<- <-]|[Hne E]]%lookup_insert_Some; [by eauto 10|].
    destruct (go_live _ _ _ _ Hok _ _ E) as (ip' & i' & ? & ?). by eauto 10.
  - intros id' m' [Hne E]%lookup_delete_Some. unfold with_guest. dp_norm.
    rewrite lookup_insert_ne; [by eapply Hok|]. intros Et. apply Hne.
    eapply (go_distinct _ _ _ _ Hok); [by right|by right|by right; right].
  - setoid_rewrite guest_at_publish. unfold with_guest. dp_norm.
    intros t j [[<- <-]|[Hne E]]%lookup_insert_Some; [by eauto 10|].
    destruct (go_links _ _ _ _ Hok _ _ E) as (id' & m' & ip' & ? & ?). by eauto 10.
  - intros id' m' L%Hle. by eapply Hok.
  - intros id1 m1 id2 m2 L1%Hle L2%Hle. by apply (go_distinct _ _ _ _ Hok _ _ _ _ L1 L2).
  - setoid_rewrite Hle. apply Hok.
  - setoid_rewrite Hle. apply Hok.
  - unfold with_guest. dp_norm. rewrite map_to_list_insert by (by eapply Hok). simpl.
    by rewrite (go_taps _ _ _ _ Hok).
Qed.
End publish.

Section withdraw.
Context (a : ipam) (dp : natDataplane) (live held : gmap string machine).
Context (id : string) (m : machine) (ip i : Z).
Context (Hok : guests_ok a dp live held) (Hg : guest_at dp live id m ip i).

(** Where [nat_tap] stays attached. *)
Definition other_taps : gmultiset Z :=
  list_to_set_disj (map_to_list (delete (tapName m) (tapLinks dp))).*2.

#[local] Abbreviation dp' := (without_guest (tapName m) (net m) ip other_taps dp).
#[local] Abbreviation live' := (delete id live).

Lemma guest_same id' m' ip' i' :
  guest_at dp live id' m' ip' i' → id' = id → m' = m ∧ ip' = ip ∧ i' = i.
Proof. intros (? & ? & ?) ->. destruct Hg as (? & ? & ?). naive_solver. Qed.

Lemma guest_at_withdraw id' m' ip' i' :
  guest_at dp' live' id' m' ip' i' ↔ guest_at dp live id' m' ip' i' ∧ id' ≠ id.
Proof.
  unfold guest_at at 1, without_guest. dp_norm. rewrite !lookup_delete_Some. split.
  - intros ([? ?] & ? & [? ?]). unfold guest_at. done.
  - intros [G Hne]. assert (tapName m ≠ tapName m') as Ht.
    { intros E. apply Hne. symmetry.
      apply (go_distinct _ _ _ _ Hok id m id' m'); [by eapply guest_leased..|by right; right]. }
    destruct G as (? & ? & ?). done.
Qed.

Lemma vms_withdraw k v :
  vm_config (maps dp') !! k = Some v ↔
  ∃ id' m' ip' i', guest_at dp' live' id' m' ip' i' ∧ k = net_ip ip' ∧ v = guest_entry ip' i' (net m').
Proof.
  setoid_rewrite guest_at_withdraw. unfold without_guest. dp_norm.
  rewrite lookup_delete_Some, (go_vms _ _ _ _ Hok). split.
  - intros [Hne (id' & m' & ip' & i' & G & -> & ->)]. exists id', m', ip', i'. split_and!; try done.
    intros E. by destruct (guest_same _ _ _ _ G E) as (_ & -> & _).
  - intros (id' & m' & ip' & i' & [G Hne] & -> & ->). split; [|by eauto 10]. intros E.
    apply Hne. symmetry. pose proof Hg as (_ & ? & _). pose proof G as (_ & ? & _).
    apply (lease_key a dp live held id m ip id' m' ip'); try done; by eapply guest_leased.
Qed.

Lemma rules_withdraw k v :
  dnat_rules (maps dp') !! k = Some v ↔
  ∃ id' m' ip' i', guest_at dp' live' id' m' ip' i' ∧ k = rule_key dp' (net m') ∧
                   v = guest_rule ip' i' (servicePort m') (net m').
Proof.
  setoid_rewrite guest_at_withdraw. unfold without_guest. dp_norm.
  rewrite lookup_delete_Some, (go_rules _ _ _ _ Hok). split.
  - intros [Hne (id' & m' & ip' & i' & G & -> & ->)]. exists id', m', ip', i'. split_and!; try done.
    intros E. by destruct (guest_same _ _ _ _ G E) as (-> & _).
  - intros (id' & m' & ip' & i' & [G Hne] & -> & ->). split; [|by eauto 10]. intros E.
    apply Hne. symmetry.
    apply (lease_rule_key a dp live held id m id' m'); try done; by eapply guest_leased.
Qed.

Lemma guests_ok_withdraw : guests_ok a dp' live' (<[id := m]> held).
Proof.
  pose proof (go_disjoint _ _ _ _ Hok) as Hd. pose proof Hg as (Hl & Hip & Ht).
  assert (∀ id' m', leased live' (<[id := m]> held) id' m' ↔ leased live held id' m') as Hle.
  { intros id' m'. pose proof (map_disjoint_Some_l _ _ _ _ Hd Hl). unfold leased.
    rewrite lookup_insert_Some, lookup_delete_Some. destruct (decide (id = id')); naive_solver. }
  split; try (by apply vms_withdraw); try (by apply rules_withdraw); try apply Hok.
  - by apply map_disjoint_insert_r_2; [apply lookup_delete_eq|apply map_disjoint_delete_l].
  - setoid_rewrite guest_at_withdraw. intros id' m' [Hne E]%lookup_delete_Some.
    destruct (go_live _ _ _ _ Hok _ _ E) as (ip' & i' & ? & ?). by exists ip', i'.
  - unfold without_guest. dp_norm. intros id' m' [[<- <-]|[Hne E]]%lookup_insert_Some.
    + apply lookup_delete_eq.
    + apply lookup_delete_None. right. by eapply Hok.
  - setoid_rewrite guest_at_withdraw. unfold without_guest. dp_norm. intros t j [Hne E]%lookup_delete_Some.
    destruct (go_links _ _ _ _ Hok _ _ E) as (id' & m' & ip' & G & <-). exists id', m', ip'.
    split_and!; try done. intros Eid. by destruct (guest_same _ _ _ _ G Eid) as (-> & _).
  - intros id' m' L%Hle. by eapply Hok.
  - intros id1 m1 id2 m2 L1%Hle L2%Hle. by apply (go_distinct _ _ _ _ Hok _ _ _ _ L1 L2).
  - setoid_rewrite Hle. apply Hok.
  - setoid_rewrite Hle. apply Hok.
  - done.
Qed.

(** [withdrawVM] does that. *)
Lemma withdrawVM_published `{LL : !EbpfLibraryLaws L} : withdrawVM (tapName m) (net m) dp = dp'.
Proof.
  destruct Hg as (_ & Hip & Hl). apply (withdrawVM_guest _ _ ip i); [done..|].
  rewrite (go_taps _ _ _ _ Hok). unfold other_taps. by rewrite <- (map_to_list_delete _ _ _ Hl).
Qed.
End withdraw.

(** A lease that is held can be published, or the attempt leaves no trace. *)
Lemma publishVM_held `{LL : !EbpfLibraryLaws L} a dp live held id m :
  guests_ok a dp live held → held !! id = Some m →
  match publishVM (tapName m) (net m) (servicePort m) dp with
  | (Some _, dp') => dp' = dp
  | (None, dp') => ∃ ip i, vn_ip (net m) = Some ip ∧ 0 < i < 2 ^ 31 ∧
                   dp' = with_guest (tapName m) (net m) ip i (servicePort m) dp
  end.
Proof.
  intros Hok Hh. assert (leased live held id m) as Lm by (by right).
  destruct (go_lease _ _ _ _ Hok _ _ Lm) as (ip & Hip & _ & _ & Hmac & _).
  assert (vm_config (maps dp) !! net_ip ip = None) as Hv.
  { destruct (vm_config _ !! _) as [v|] eqn:E; [|done].
    apply (go_vms _ _ _ _ Hok) in E as (id' & m' & ip' & i' & G & Ek & _).
    pose proof (guest_at_other _ _ _ _ _ _ Hok Hh _ _ _ _ G) as Hne. exfalso. apply Hne.
    pose proof G as (_ & ? & _).
    apply (lease_key a dp live held id m ip id' m' ip'); try done. by eapply guest_leased. }
  pose proof (publishVM_cases (tapName m) (net m) (servicePort m) dp ip Hip
    ltac:(by rewrite Hmac) Hv) as Hc.
  destruct (publishVM _ _ _ _) as [[e|] dp']; [done|].
  destruct Hc as [[[l El] _]|(i & Ei & _ & ->)]; [by rewrite (go_held _ _ _ _ Hok _ _ Hh) in El|].
  apply ifindex_range in Ei. by exists ip, i.
Qed.

(** A published TAP stays as it is. *)
Lemma publishVM_live `{LL : !EbpfLibraryLaws L} a dp live held id m :
  guests_ok a dp live held → live !! id = Some m →
  snd (publishVM (tapName m) (net m) (servicePort m) dp) = dp.
Proof.
  intros Hok E. destruct (go_live _ _ _ _ Hok _ _ E) as (ip & i & (_ & _ & El) & _).
  apply publishVM_known. by exists i.
Qed.

(** What the maps hold fits the C structures. *)
Lemma guests_maps_ok a dp live held : guests_ok a dp live held → maps_ok (maps dp).
Proof.
  intros Hok. destruct (go_config _ _ _ _ Hok) as (Ec & _ & _ & Hmac). unfold maps_ok.
  assert (∀ id m ip i, guest_at dp live id m ip i → mac_ok (vn_mac (net m))) as Hm.
  { intros id m ip i G. pose proof (guest_leased _ _ held _ _ _ _ G) as Lm.
    destruct (go_lease _ _ _ _ Hok _ _ Lm) as (ip' & _ & _ & _ & -> & _). split; [done|].
    repeat constructor; unfold byte_ok; try lia; apply Z.mod_pos_bound; lia. }
  split_and!.
  - rewrite Ec. apply map_Forall_singleton. simpl. pose proof net_ip_bound. done.
  - intros k v (id & m & ip & i & G & _ & ->)%(go_vms _ _ _ _ Hok). by eapply Hm.
  - intros k v (id & m & ip & i & G & _ & ->)%(go_rules _ _ _ _ Hok). simpl.
    split_and!; try apply net_ip_bound; try apply bswap16_bound; by eapply Hm.
Qed.

Definition with_maps (mp : nat_maps) (dp : natDataplane) : natDataplane :=
  mkDataplane (hostIP dp) (uplink dp) (tapLinks dp) (natTaps dp) mp.

Lemma guests_ok_maps mp a dp live held :
  guests_ok a dp live held → same_config (maps dp) mp → guests_ok a (with_maps mp dp) live held.
Proof.
  intros [H1 H2 H3 H4 H5 H6 H7 H8 H9 H10 H11 H12 H13] (Ec & Ev & Ed & Ee & Ei).
  split; unfold with_maps, dp_config; simpl; rewrite ?Ec, ?Ev, ?Ed, ?Ee, ?Ei; done.
Qed.
