(* ===== verification/Host.v ===== *)
(** * The host: concurrent operations and packets

    The agent runs every command on its own goroutine ([internal/agent/link.go]), so
    calls of [Provision], [Start] and [teardown] interleave with each other and with
    packets.  [host_step] has one rule per access to the state they share: a call of the
    allocator, an attachment, a write to a map, an access to the table of links or of
    machines.  In particular [withdrawVM] gives up its mutex before it closes the link and
    deletes the entries, and packets are processed between the writes of [publishVM].

    Two behaviours of the code are not steps, because they break what is proved here: a
    boot that fails after the publication, and a restart whose publication comes after
    the teardown of the same VM took the link away.  What they do is the subject of
    [failed_boot_leaves_rule] and [restart_race_republishes]. *)
From stdpp Require Import gmultiset strings relations.
From S2P Require Import Prelude CLayout Checksum Vmlinux NatTypes Kernel RefKernel Samples.
From S2P Require Import NatParse NatRewrite NatState NatTap NatUplink NatFlows NatTheorems NatSystem.
From S2P Require Import Ipam Publish Lifecycle.
#[local] Set Warnings "-clear-no-such-hyp".
#[local] Open Scope Z_scope.

(** ** State *)

(** Where a VM is.  [Leased]: a [Provision] call has its lease.  Then [publishVM]: the
    program is attached to interface [i]; the [vm_config] entry is written; the DNAT rule
    is written; the TAP is in the table of links and the machine boots.  When a write
    fails: the entry has to be deleted again, or only the link to be closed.  [Running]:
    in the table of machines.  [Leaving]: removed from it by [teardown].  Then
    [withdrawVM]: the link [l] was taken out of the table of links; it is closed; the entry
    is deleted; the rule is deleted.  (Where the code has no link or no entry any more, the
    interface is kept to say which entries remain.) *)
Inductive stage : Type :=
| Leased
| Attached (i : Z)
| Configured (i : Z)
| Ruled (i : Z)
| Unconfiguring (i : Z)
| Detaching (i : Z)
| Booting
| Running
| Leaving
| Unlinked (l : option Z)
| Closed (l : option Z)
| Unconfigured (l : option Z)
| Withdrawn.

Record host := mkHost {
  h_ipam : ipam;
  h_dp : natDataplane;
  h_table : gmap string (machine * stage)
}.

Definition in_dataplane (s : stage) : bool :=
  match s with Booting | Running | Leaving => true | _ => false end.

Definition live_of (h : host) : gmap string machine :=
  omap (λ e, if in_dataplane e.2 then Some e.1 else None) (h_table h).

Definition held_of (h : host) : gmap string machine :=
  omap (λ e, if in_dataplane e.2 then None else Some e.1) (h_table h).

Definition host_ok (h : host) : Prop := guests_ok (h_ipam h) (h_dp h) (live_of h) (held_of h).

(** A VM id is a fresh UUID: neither it nor the TAP name made from it is in use. *)
Definition fresh_id (h : host) (id : string) : Prop :=
  h_table h !! id = None ∧
  ∀ id' e, h_table h !! id' = Some e → tapName e.1 ≠ tapNameFor id.

Definition new_machine (id : string) (n : vmNet) : machine :=
  mkMachine (tapNameFor id) n defaultMinecraftPort.

Definition set_stage (id : string) (m : machine) (s : stage) (h : host) : host :=
  mkHost (h_ipam h) (h_dp h) (<[id := (m, s)]> (h_table h)).

Definition set_dp (dp : natDataplane) (h : host) : host := mkHost (h_ipam h) dp (h_table h).

Definition host_of (r : runtime) : host :=
  mkHost (rt_ipam r) (rt_dp r) ((λ m, (m, Running)) <$> vms r).

Section steps.
Context `{BH : !BpfHelpers, CK : !Conntrack}.

(** The libraries may behave differently at every call. *)
Inductive host_step (h : host) : host → Prop :=
| step_lease id n a :
    fresh_id h id → allocate (h_ipam h) = (inr n, a) →
    host_step h (set_stage id (new_machine id n) Leased (mkHost a (h_dp h) (h_table h)))
| step_no_lease e a :
    allocate (h_ipam h) = (inl e, a) → host_step h (mkHost a (h_dp h) (h_table h))
| step_attach (L : EbpfLibrary) (LL : EbpfLibraryLaws L) id m i dp :
    h_table h !! id = Some (m, Leased) → InterfaceByName (tapName m) = Some i →
    tapLinks (h_dp h) !! tapName m = None → attach_tap i (h_dp h) = Some dp →
    host_step h (set_stage id m (Attached i) (set_dp dp h))
| step_publish_known id m i :
    h_table h !! id = Some (m, Leased) → tapLinks (h_dp h) !! tapName m = Some i →
    host_step h (set_stage id m Booting h)
| step_put_vm (L : EbpfLibrary) (LL : EbpfLibraryLaws L) id m i dp :
    h_table h !! id = Some (m, Attached i) → put_vm (net m) i (h_dp h) = Some dp →
    host_step h (set_stage id m (Configured i) (set_dp dp h))
| step_put_vm_fails id m i :
    h_table h !! id = Some (m, Attached i) → host_step h (set_stage id m (Detaching i) h)
| step_put_rule (L : EbpfLibrary) (LL : EbpfLibraryLaws L) id m i dp :
    h_table h !! id = Some (m, Configured i) → put_rule (net m) i (servicePort m) (h_dp h) = Some dp →
    host_step h (set_stage id m (Ruled i) (set_dp dp h))
| step_put_rule_fails id m i :
    h_table h !! id = Some (m, Configured i) → host_step h (set_stage id m (Unconfiguring i) h)
| step_undo_vm (L : EbpfLibrary) (LL : EbpfLibraryLaws L) id m i :
    h_table h !! id = Some (m, Unconfiguring i) →
    host_step h (set_stage id m (Detaching i) (set_dp (delete_vm (vm_key (net m)) (h_dp h)) h))
| step_undo_attach (L : EbpfLibrary) (LL : EbpfLibraryLaws L) id m i :
    h_table h !! id = Some (m, Detaching i) →
    host_step h (set_stage id m Leased (set_dp (close_link (Some i) (h_dp h)) h))
| step_link id m i :
    h_table h !! id = Some (m, Ruled i) →
    host_step h (set_stage id m Booting
      (set_dp (set_links (<[tapName m := i]> (tapLinks (h_dp h))) (h_dp h)) h))
| step_register id m :
    h_table h !! id = Some (m, Booting) → host_step h (set_stage id m Running h)
| step_restart (L : EbpfLibrary) (LL : EbpfLibraryLaws L) id m s :
    h_table h !! id = Some (m, s) → s = Running ∨ s = Leaving →
    host_step h (set_dp (snd (publishVM (tapName m) (net m) (servicePort m) (h_dp h))) h)
| step_remove id m :
    h_table h !! id = Some (m, Running) → host_step h (set_stage id m Leaving h)
| step_unlink id m l dp :
    h_table h !! id = Some (m, Leaving) → unlink (tapName m) (h_dp h) = (l, dp) →
    host_step h (set_stage id m (Unlinked l) (set_dp dp h))
| step_close (L : EbpfLibrary) (LL : EbpfLibraryLaws L) id m l :
    h_table h !! id = Some (m, Unlinked l) →
    host_step h (set_stage id m (Closed l) (set_dp (close_link l (h_dp h)) h))
| step_delete_vm (L : EbpfLibrary) (LL : EbpfLibraryLaws L) id m l :
    h_table h !! id = Some (m, Closed l) →
    host_step h (set_stage id m (Unconfigured l) (set_dp (withdraw_vm (net m) (h_dp h)) h))
| step_delete_rule (L : EbpfLibrary) (LL : EbpfLibraryLaws L) id m l :
    h_table h !! id = Some (m, Unconfigured l) →
    host_step h (set_stage id m Withdrawn (set_dp (delete_rule (net m) (h_dp h)) h))
| step_release id m s :
    h_table h !! id = Some (m, s) → s = Leased ∨ s = Withdrawn →
    host_step h (mkHost (release (net m) (h_ipam h)) (h_dp h) (delete id (h_table h)))
| step_packet ct n :
    node_step (mkNode (maps (h_dp h)) ct) n → host_step h (set_dp (with_maps (n_maps n) (h_dp h)) h).
End steps.

(** ** The tables *)

Lemma live_of_lookup h id m :
  live_of h !! id = Some m ↔ ∃ s, h_table h !! id = Some (m, s) ∧ in_dataplane s = true.
Proof.
  unfold live_of. rewrite lookup_omap_Some. split.
  - intros ([m' s] & E & El). simpl in E. case_match; simplify_eq. eauto.
  - intros (s & El & Es). exists (m, s). simpl. by rewrite Es.
Qed.

Lemma held_of_lookup h id m :
  held_of h !! id = Some m ↔ ∃ s, h_table h !! id = Some (m, s) ∧ in_dataplane s = false.
Proof.
  unfold held_of. rewrite lookup_omap_Some. split.
  - intros ([m' s] & E & El). simpl in E. case_match; simplify_eq. eauto.
  - intros (s & El & Es). exists (m, s). simpl. by rewrite Es.
Qed.

Lemma leased_of h id m :
  leased (live_of h) (held_of h) id m ↔ ∃ s, h_table h !! id = Some (m, s).
Proof.
  unfold leased. rewrite live_of_lookup, held_of_lookup. split; [naive_solver|].
  intros (s & E). destruct (in_dataplane s) eqn:Es; eauto.
Qed.

Lemma live_set_stage id m s h :
  live_of (set_stage id m s h) = if in_dataplane s then <[id := m]> (live_of h) else delete id (live_of h).
Proof. unfold live_of, set_stage. simpl. rewrite omap_insert. simpl. by destruct (in_dataplane s). Qed.

Lemma held_set_stage id m s h :
  held_of (set_stage id m s h) = if in_dataplane s then delete id (held_of h) else <[id := m]> (held_of h).
Proof. unfold held_of, set_stage. simpl. rewrite omap_insert. simpl. by destruct (in_dataplane s). Qed.

(** A VM in one table is not in the other. *)
Lemma live_not_held h id m : live_of h !! id = Some m → held_of h !! id = None.
Proof.
  intros (s & E & Es)%live_of_lookup. destruct (held_of h !! id) eqn:Eh; [|done].
  apply held_of_lookup in Eh as (s' & E' & Es'). congruence.
Qed.

Lemma held_not_live h id m : held_of h !! id = Some m → live_of h !! id = None.
Proof.
  intros E. destruct (live_of h !! id) eqn:El; [|done]. apply live_not_held in El. congruence.
Qed.

(** ** Calls in progress *)

(** The interface a call in progress works on, and where its traces are: in the attached
    programs, in [vm_config], in [dnat_rules]. *)
Definition index_of (s : stage) : option Z :=
  match s with
  | Attached i | Configured i | Ruled i | Unconfiguring i | Detaching i => Some i
  | Unlinked l | Closed l | Unconfigured l => l
  | _ => None
  end.

Definition tap_of (s : stage) : option Z :=
  match s with
  | Attached _ | Configured _ | Ruled _ | Unconfiguring _ | Detaching _ | Unlinked _ => index_of s
  | _ => None
  end.

Definition entry_of (s : stage) : option Z :=
  match s with
  | Configured _ | Ruled _ | Unconfiguring _ | Unlinked _ | Closed _ => index_of s
  | _ => None
  end.

Definition rule_of (s : stage) : option Z :=
  match s with
  | Ruled _ | Unlinked _ | Closed _ | Unconfigured _ => index_of s
  | _ => None
  end.

(** [id] has a lease and is not published, or not entirely. *)
Definition underway (t : gmap string (machine * stage)) (id : string) (m : machine) (s : stage) : Prop :=
  t !! id = Some (m, s) ∧ in_dataplane s = false.

Definition singleton_of (l : option Z) : gmultiset Z :=
  match l with Some i => {[+ i +]} | None => ∅ end.

Definition taps_of (t : gmap string (machine * stage)) : gmultiset Z :=
  list_to_set_disj (map_to_list (omap (λ e, tap_of e.2) t)).*2.

(** [dp] is [dp0] with the traces of the calls underway: each lease that is underway has
    exactly what its stage says, and everything else is as in [dp0]. *)
Record in_progress (t : gmap string (machine * stage)) (dp0 dp : natDataplane) : Prop := {
  pr_same : dp = set_taps (natTaps dp) (set_vms (vm_config (maps dp)) (set_dnat (dnat_rules (maps dp)) dp0));
  pr_taps : natTaps dp = taps_of t ⊎ natTaps dp0;
  pr_vm id m s ip : underway t id m s → vn_ip (net m) = Some ip →
    vm_config (maps dp) !! net_ip ip = (λ i, guest_entry ip i (net m)) <$> entry_of s;
  pr_vms k : (∀ id m s ip, underway t id m s → vn_ip (net m) = Some ip → k ≠ net_ip ip) →
    vm_config (maps dp) !! k = vm_config (maps dp0) !! k;
  pr_rule id m s ip : underway t id m s → vn_ip (net m) = Some ip →
    dnat_rules (maps dp) !! rule_key dp0 (net m) =
      (λ i, guest_rule ip i (servicePort m) (net m)) <$> rule_of s;
  pr_rules k : (∀ id m s, underway t id m s → k ≠ rule_key dp0 (net m)) →
    dnat_rules (maps dp) !! k = dnat_rules (maps dp0) !! k;
  pr_index id m s i : underway t id m s → index_of s = Some i → 0 < i < 2 ^ 31
}.

(** The invariant of the steps: apart from the calls in progress, the host is consistent. *)
Definition host_inv (h : host) : Prop :=
  ∃ dp0, guests_ok (h_ipam h) dp0 (live_of h) (held_of h) ∧ in_progress (h_table h) dp0 (h_dp h).

Lemma taps_of_focus t id m s :
  t !! id = Some (m, s) → taps_of t = singleton_of (tap_of s) ⊎ taps_of (delete id t).
Proof.
  intros E. unfold taps_of. rewrite omap_delete. destruct (tap_of s) as [i|] eqn:Et; simpl.
  - assert (omap (λ e, tap_of e.2) t !! id = Some i) as El by (by rewrite lookup_omap, E).
    by rewrite <- (map_to_list_delete _ _ _ El).
  - rewrite delete_id by (by rewrite lookup_omap, E). by rewrite gmultiset_disj_union_left_id.
Qed.

Lemma taps_of_insert t id m s :
  taps_of (<[id := (m, s)]> t) = singleton_of (tap_of s) ⊎ taps_of (delete id t).
Proof. rewrite (taps_of_focus _ id m s) by apply lookup_insert_eq. by rewrite delete_insert_eq. Qed.

Lemma underway_insert t id m s id' m' s' :
  underway (<[id := (m, s)]> t) id' m' s' ↔
  (id' = id ∧ m' = m ∧ s' = s ∧ in_dataplane s = false) ∨ (id' ≠ id ∧ underway t id' m' s').
Proof. unfold underway. rewrite lookup_insert_Some. naive_solver. Qed.

Lemma underway_delete t id id' m' s' :
  underway (delete id t) id' m' s' ↔ id' ≠ id ∧ underway t id' m' s'.
Proof. unfold underway. rewrite lookup_delete_Some. naive_solver. Qed.

Lemma underway_held h id m s : underway (h_table h) id m s → held_of h !! id = Some m.
Proof. intros [E Es]. apply held_of_lookup. eauto. Qed.

Lemma underway_leased h id m s : underway (h_table h) id m s → leased (live_of h) (held_of h) id m.
Proof. intros H%underway_held. by right. Qed.

(** Whether a call underway has a given key can be decided. *)
Lemma underway_cases t (f : machine → bool) :
  (∃ id m s, underway t id m s ∧ f m = true) ∨ (∀ id m s, underway t id m s → f m = false).
Proof.
  destruct (decide (map_Forall (λ _ e, in_dataplane e.2 = true ∨ f e.1 = false) t)) as [H|H].
  - right. intros id m s [E Es]. destruct (H _ _ E) as [E'|?]; simpl in *; congruence.
  - left. apply map_not_Forall in H as (id & [m s] & E & H); [|apply _]. simpl in H. exists id, m, s.
    unfold underway. destruct (in_dataplane s), (f m); naive_solver.
Qed.

(** Without calls in progress the invariant is the one of [guests_ok]. *)
Lemma in_progress_none t dp : (∀ id m s, ¬ underway t id m s) → in_progress t dp dp.
Proof.
  intros Hn. split; try done; try (intros; exfalso; by eapply Hn).
  - by destruct dp as [???? []].
  - unfold taps_of. replace (omap (λ e, tap_of e.2) t) with (∅ : gmap string Z).
    { rewrite map_to_list_empty. by rewrite gmultiset_disj_union_left_id. }
    symmetry. apply map_empty. intros id. rewrite lookup_omap. destruct (t !! id) as [[m s]|] eqn:E; [|done].
    simpl. destruct (in_dataplane s) eqn:Es; [by destruct s|]. exfalso. by apply (Hn id m s).
Qed.

(** With no call in progress the invariant is that the host is consistent. *)
Lemma host_ok_inv h : host_ok h → (∀ id m s, ¬ underway (h_table h) id m s) → host_inv h.
Proof. intros Hok Hn. exists (h_dp h). split; [done|by apply in_progress_none]. Qed.

Lemma host_inv_ok h : host_inv h → (∀ id m s, ¬ underway (h_table h) id m s) → host_ok h.
Proof.
  intros (dp0 & Hok & Hpr) Hn. pose proof (in_progress_none _ dp0 Hn) as H0.
  unfold host_ok. enough (h_dp h = dp0) as -> by done. rewrite (pr_same _ _ _ Hpr).
  assert (natTaps (h_dp h) = natTaps dp0) as ->
    by (rewrite (pr_taps _ _ _ Hpr); symmetry; apply (pr_taps _ _ _ H0)).
  assert (vm_config (maps (h_dp h)) = vm_config (maps dp0)) as ->
    by (apply map_eq; intros k; apply (pr_vms _ _ _ Hpr); intros id m s ip Hp; by apply Hn in Hp).
  assert (dnat_rules (maps (h_dp h)) = dnat_rules (maps dp0)) as ->
    by (apply map_eq; intros k; apply (pr_rules _ _ _ Hpr); intros id m s Hp; by apply Hn in Hp).
  by destruct dp0 as [???? []].
Qed.

Lemma none_underway r id m s : ¬ underway (h_table (host_of r)) id m s.
Proof. intros [E Hs]. simpl in E. apply lookup_fmap_Some in E as (m' & [= <- <-] & _). done. Qed.

(** ** Every step keeps the invariant *)

Section moves.
Context (h : host) (dp0 : natDataplane).
Context (Hok : guests_ok (h_ipam h) dp0 (live_of h) (held_of h)).
Context (Hpr : in_progress (h_table h) dp0 (h_dp h)).

Lemma progress_same : hostIP (h_dp h) = hostIP dp0 ∧ uplink (h_dp h) = uplink dp0 ∧
  tapLinks (h_dp h) = tapLinks dp0 ∧ global_config_map (maps (h_dp h)) = global_config_map (maps dp0) ∧
  egress_policy (maps (h_dp h)) = egress_policy (maps dp0) ∧
  ingress_policy (maps (h_dp h)) = ingress_policy (maps dp0).
Proof. rewrite (pr_same _ _ _ Hpr). done. Qed.

Lemma underway_lease id m s :
  underway (h_table h) id m s → ∃ ip, vn_ip (net m) = Some ip ∧ zlen (vn_mac (net m)) = 6.
Proof.
  intros L%underway_leased. destruct (go_lease _ _ _ _ Hok _ _ L) as (ip & Hip & _ & _ & Hm & _).
  exists ip. by rewrite Hm.
Qed.

(** Two leases have different keys. *)
Lemma leases_apart id m id' m' ip ip' :
  leased (live_of h) (held_of h) id m → leased (live_of h) (held_of h) id' m' → id' ≠ id →
  vn_ip (net m) = Some ip → vn_ip (net m') = Some ip' →
  net_ip ip' ≠ net_ip ip ∧ rule_key dp0 (net m') ≠ rule_key dp0 (net m).
Proof.
  intros L L' Hne Hip Hip'. split; intros E; apply Hne; symmetry.
  - by apply (lease_key (h_ipam h) dp0 (live_of h) (held_of h) id m ip id' m' ip').
  - by apply (lease_rule_key (h_ipam h) dp0 (live_of h) (held_of h) id m id' m').
Qed.

(** A call underway goes on: it changes what is under its own keys, and its own link. *)
Lemma step_underway id m s s' ip dp' :
  underway (h_table h) id m s → vn_ip (net m) = Some ip → in_dataplane s' = false →
  (∀ i, index_of s' = Some i → 0 < i < 2 ^ 31) →
  dp' = set_taps (natTaps dp') (set_vms (vm_config (maps dp')) (set_dnat (dnat_rules (maps dp')) (h_dp h))) →
  (∀ att, natTaps (h_dp h) = singleton_of (tap_of s) ⊎ att → natTaps dp' = singleton_of (tap_of s') ⊎ att) →
  vm_config (maps dp') !! net_ip ip = (λ i, guest_entry ip i (net m)) <$> entry_of s' →
  (∀ k, k ≠ net_ip ip → vm_config (maps dp') !! k = vm_config (maps (h_dp h)) !! k) →
  dnat_rules (maps dp') !! rule_key dp0 (net m) =
    (λ i, guest_rule ip i (servicePort m) (net m)) <$> rule_of s' →
  (∀ k, k ≠ rule_key dp0 (net m) → dnat_rules (maps dp') !! k = dnat_rules (maps (h_dp h)) !! k) →
  host_inv (set_stage id m s' (set_dp dp' h)).
Proof.
  intros Hp Hip Hs' Hi Es Ht Hv Hvs Hr Hrs. exists dp0.
  pose proof (underway_held _ _ _ _ Hp) as Hh. pose proof (underway_leased _ _ _ _ Hp) as Lm.
  split.
  { rewrite live_set_stage, held_set_stage, Hs'. simpl. change (live_of (set_dp dp' h)) with (live_of h).
    change (held_of (set_dp dp' h)) with (held_of h).
    by rewrite insert_id, delete_id by eauto using held_not_live. }
  split; cbn [h_table h_dp set_stage set_dp].
  - rewrite Es at 1. rewrite (pr_same _ _ _ Hpr). done.
  - rewrite taps_of_insert, <- gmultiset_disj_union_assoc. apply Ht.
    rewrite (pr_taps _ _ _ Hpr), (taps_of_focus _ id m s), <- gmultiset_disj_union_assoc by apply Hp. done.
  - intros id' m' s1 ip' [(-> & -> & -> & _)|[Hne Hp']]%underway_insert Hip'; [by simplify_eq|].
    destruct (leases_apart id m id' m' ip ip') as [Hk _]; eauto using underway_leased.
    rewrite Hvs by done. by eapply Hpr.
  - intros k Hk. setoid_rewrite underway_insert in Hk.
    rewrite Hvs by (eapply Hk; [by left|done]). apply (pr_vms _ _ _ Hpr). intros id' m' s1 ip' Hp' Hip'.
    destruct (decide (id' = id)) as [->|Hne]; [|by eapply Hk; [right|]].
    destruct Hp as [E _], Hp' as [E' _]. simplify_eq. by eapply Hk; [left|].
  - intros id' m' s1 ip' [(-> & -> & -> & _)|[Hne Hp']]%underway_insert Hip'; [by simplify_eq|].
    destruct (leases_apart id m id' m' ip ip') as [_ Hk]; eauto using underway_leased.
    rewrite Hrs by done. by eapply Hpr.
  - intros k Hk. setoid_rewrite underway_insert in Hk.
    rewrite Hrs by (eapply Hk; by left). apply (pr_rules _ _ _ Hpr). intros id' m' s1 Hp'.
    destruct (decide (id' = id)) as [->|Hne]; [|by eapply Hk; right].
    destruct Hp as [E _], Hp' as [E' _]. simplify_eq. by eapply Hk; left.
  - intros id' m' s1 i [(-> & -> & -> & _)|[Hne Hp']]%underway_insert; [by apply Hi|by eapply Hpr].
Qed.

(** The keys of a lease that is published are not those of a call underway. *)
Lemma live_apart id m ip :
  live_of h !! id = Some m → vn_ip (net m) = Some ip →
  (∀ id' m' s' ip', underway (h_table h) id' m' s' → vn_ip (net m') = Some ip' → net_ip ip ≠ net_ip ip') ∧
  (∀ id' m' s', underway (h_table h) id' m' s' → rule_key dp0 (net m) ≠ rule_key dp0 (net m')).
Proof.
  intros Hl Hip.
  assert (∀ id' m' s', underway (h_table h) id' m' s' → id' ≠ id) as Hne.
  { intros id' m' s' Hp ->. apply underway_held in Hp. apply live_not_held in Hl. congruence. }
  split; intros id' m' s'.
  - intros ip' Hp Hip'. destruct (leases_apart id m id' m' ip ip'); eauto using underway_leased. by left.
  - intros Hp. destruct (underway_lease _ _ _ Hp) as (ip' & Hip' & _).
    destruct (leases_apart id m id' m' ip ip'); eauto using underway_leased. by left.
Qed.

(** [publishVM] ends: the guest is in the table of links. *)
Lemma step_link_ok id m i :
  h_table h !! id = Some (m, Ruled i) →
  host_inv (set_stage id m Booting (set_dp (set_links (<[tapName m := i]> (tapLinks (h_dp h))) (h_dp h)) h)).
Proof.
  intros E. assert (underway (h_table h) id m (Ruled i)) as Hp by done.
  pose proof (underway_held _ _ _ _ Hp) as Hh. destruct (underway_lease _ _ _ Hp) as (ip & Hip & _).
  pose proof (pr_index _ _ _ Hpr _ _ _ i Hp eq_refl) as Hi. pose proof progress_same as (Eh & _ & El & _).
  exists (with_guest (tapName m) (net m) ip i (servicePort m) dp0). split.
  { rewrite live_set_stage, held_set_stage. by apply guests_ok_publish. }
  split; cbn [h_table h_dp set_stage set_dp].
  - rewrite (pr_same _ _ _ Hpr). done.
  - rewrite taps_of_insert. unfold with_guest. dp_norm.
    rewrite (pr_taps _ _ _ Hpr), (taps_of_focus _ id m (Ruled i)) by done. simpl. multiset_solver.
  - intros id' m' s1 ip' [(_ & _ & _ & ?)|[Hne Hp']]%underway_insert; [done|]. by eapply Hpr.
  - intros k Hk. setoid_rewrite underway_insert in Hk. unfold with_guest. dp_norm.
    destruct (decide (k = net_ip ip)) as [->|Hne].
    + rewrite lookup_insert_eq. exact (pr_vm _ _ _ Hpr _ _ _ _ Hp Hip).
    + rewrite lookup_insert_ne by done. apply (pr_vms _ _ _ Hpr). intros id' m' s1 ip' Hp' Hip'.
      destruct (decide (id' = id)) as [->|Hid]; [|by eapply Hk; [right|]].
      destruct Hp' as [E' _]. by simplify_eq.
  - intros id' m' s1 ip' [(_ & _ & _ & ?)|[Hne Hp']]%underway_insert; [done|]. by eapply Hpr.
  - intros k Hk. setoid_rewrite underway_insert in Hk. unfold with_guest. dp_norm.
    destruct (decide (k = rule_key dp0 (net m))) as [->|Hne].
    + rewrite lookup_insert_eq. exact (pr_rule _ _ _ Hpr _ _ _ _ Hp Hip).
    + rewrite lookup_insert_ne by done. apply (pr_rules _ _ _ Hpr). intros id' m' s1 Hp'.
      destruct (decide (id' = id)) as [->|Hid]; [|by eapply Hk; right].
      destruct Hp' as [E' _]. by simplify_eq.
  - intros id' m' s1 j [(_ & _ & _ & ?)|[Hne Hp']]%underway_insert; [done|]. by eapply Hpr.
Qed.

(** [withdrawVM] begins: the guest is taken out of the table of links. *)
Lemma step_unlink_ok id m l dp :
  h_table h !! id = Some (m, Leaving) → unlink (tapName m) (h_dp h) = (l, dp) →
  host_inv (set_stage id m (Unlinked l) (set_dp dp h)).
Proof.
  intros E. assert (live_of h !! id = Some m) as Hl by (apply live_of_lookup; eauto).
  destruct (go_live _ _ _ _ Hok _ _ Hl) as (ip & i & G & Hi). pose proof G as (_ & Hip & Hlink).
  pose proof progress_same as (Eh & _ & El & _). destruct (live_apart id m ip Hl Hip) as [Hkv Hkr].
  unfold unlink. rewrite El, Hlink. intros [= <- <-].
  exists (without_guest (tapName m) (net m) ip (other_taps dp0 m) dp0). split.
  { rewrite live_set_stage, held_set_stage. by apply (guests_ok_withdraw _ _ _ _ _ _ _ i). }
  split; cbn [h_table h_dp set_stage set_dp].
  - rewrite (pr_same _ _ _ Hpr). done.
  - rewrite taps_of_insert. unfold without_guest. dp_norm. rewrite (pr_taps _ _ _ Hpr).
    rewrite (taps_of_focus _ id m Leaving), (go_taps _ _ _ _ Hok) by done. unfold other_taps.
    rewrite <- (map_to_list_delete _ _ _ Hlink). simpl. multiset_solver.
  - intros id' m' s1 ip' [(-> & -> & -> & _)|[Hne Hp']]%underway_insert Hip'; [|by eapply Hpr].
    dp_norm. simplify_eq. rewrite (pr_vms _ _ _ Hpr) by (intros; by eapply Hkv).
    apply (go_vms _ _ _ _ Hok). by eauto 10.
  - intros k Hk. setoid_rewrite underway_insert in Hk. unfold without_guest. dp_norm.
    rewrite lookup_delete_ne by (apply not_eq_sym; eapply Hk; [by left|done]).
    apply (pr_vms _ _ _ Hpr). intros id' m' s1 ip' Hp' Hip'. eapply Hk; [right|done]. split; [|done].
    intros ->. destruct Hp' as [E' ?]. by simplify_eq.
  - intros id' m' s1 ip' [(-> & -> & -> & _)|[Hne Hp']]%underway_insert Hip'; [|by eapply Hpr].
    dp_norm. simplify_eq. change (rule_key (without_guest _ _ _ _ _) ?n) with (rule_key dp0 n).
    rewrite (pr_rules _ _ _ Hpr) by (intros; by eapply Hkr).
    apply (go_rules _ _ _ _ Hok). by eauto 10.
  - intros k Hk. setoid_rewrite underway_insert in Hk. unfold without_guest. dp_norm.
    rewrite lookup_delete_ne by (apply not_eq_sym; eapply Hk; by left).
    apply (pr_rules _ _ _ Hpr). intros id' m' s1 Hp'. eapply Hk. right. split; [|done].
    intros ->. destruct Hp' as [E' ?]. by simplify_eq.
  - intros id' m' s1 j [(-> & -> & -> & _)|[Hne Hp']]%underway_insert; [|by eapply Hpr].
    by intros [= <-].
Qed.
End moves.

(** A lease that is not published has no entry. *)
Lemma held_absent a dp live held id m ip :
  guests_ok a dp live held → held !! id = Some m → vn_ip (net m) = Some ip →
  vm_config (maps dp) !! net_ip ip = None ∧ dnat_rules (maps dp) !! rule_key dp (net m) = None.
Proof.
  intros Hok Hh Hip. assert (leased live held id m) as Lm by (by right). split.
  - destruct (vm_config _ !! _) as [v|] eqn:E; [|done]. exfalso.
    apply (go_vms _ _ _ _ Hok) in E as (id' & m' & ip' & i' & G & Ek & _). pose proof G as (_ & ? & _).
    apply (guest_at_other _ _ _ _ _ _ Hok Hh _ _ _ _ G).
    apply (lease_key a dp live held id m ip id' m' ip'); try done. by eapply guest_leased.
  - destruct (dnat_rules _ !! _) as [v|] eqn:E; [|done]. exfalso.
    apply (go_rules _ _ _ _ Hok) in E as (id' & m' & ip' & i' & G & Ek & _).
    apply (guest_at_other _ _ _ _ _ _ Hok Hh _ _ _ _ G).
    apply (lease_rule_key a dp live held id m id' m'); try done. by eapply guest_leased.
Qed.

Section host_facts.
Context `{BH : !BpfHelpers, CK : !Conntrack, BL : !BpfHelpersLaws, CL : !ConntrackLaws}.

Lemma lease_guests_ok h dp0 id n a :
  guests_ok (h_ipam h) dp0 (live_of h) (held_of h) → fresh_id h id → allocate (h_ipam h) = (inr n, a) →
  guests_ok a dp0 (live_of h) (<[id := new_machine id n]> (held_of h)).
Proof.
  intros Hok [Hid Hn] E. pose proof (allocate_spec _ (go_ipam _ _ _ _ Hok)) as Hs.
  rewrite E in Hs. simpl in Hs. inversion Hs as [ip port ? Hr Hif Hp Hpf Eu Eup Hsp Ha| |]; subst.
  assert (live_of h !! id = None) as Hl by (unfold live_of; by rewrite lookup_omap, Hid).
  assert (held_of h !! id = None) as Hh by (unfold held_of; by rewrite lookup_omap, Hid).
  assert (∀ id' m', leased (live_of h) (held_of h) id' m' → tapName m' ≠ tapNameFor id) as Hne.
  { intros id' m' (s & Et)%leased_of. by apply (Hn id' (m', s)). }
  apply (guests_ok_grant (h_ipam h) a dp0 _ _ id _ ip); try done.
  - simpl. destruct (tapLinks dp0 !! tapNameFor id) as [i|] eqn:Et; [|done].
    apply (go_links _ _ _ _ Hok) in Et as (id' & m' & ip' & G & Et). exfalso.
    eapply Hne; [by eapply guest_leased|done].
  - exists ip. simpl. split_and!; try done; try lia.
    intros ->. apply Hif, (go_ips _ _ _ _ Hok). by left.
Qed.

Lemma step_lease_inv h id n a :
  host_inv h → fresh_id h id → allocate (h_ipam h) = (inr n, a) →
  host_inv (set_stage id (new_machine id n) Leased (mkHost a (h_dp h) (h_table h))).
Proof.
  intros (dp0 & Hok & Hpr) Hf E. pose proof Hf as [Hid _].
  pose proof (lease_guests_ok _ _ _ _ _ Hok Hf E) as Hok'. set (m := new_machine id n) in *.
  set (h' := set_stage id m Leased (mkHost a (h_dp h) (h_table h))).
  assert (guests_ok (h_ipam h') dp0 (live_of h') (held_of h')) as Hg.
  { unfold h'. rewrite live_set_stage, held_set_stage. cbn [in_dataplane].
    change (live_of (mkHost a (h_dp h) (h_table h))) with (live_of h).
    rewrite delete_id by (unfold live_of; by rewrite lookup_omap, Hid). exact Hok'. }
  assert (underway (h_table h') id m Leased) as Hp by (split; [apply lookup_insert_eq|done]).
  assert (∀ id' m' s, underway (h_table h) id' m' s → underway (h_table h') id' m' s ∧ id' ≠ id) as Hold.
  { intros id' m' s [E' ?]. assert (id' ≠ id) by congruence. split; [|done].
    split; [|done]. simpl. by rewrite lookup_insert_ne. }
  assert (∀ id' m' s ip ip', underway (h_table h) id' m' s → vn_ip (net m) = Some ip →
    vn_ip (net m') = Some ip' → net_ip ip ≠ net_ip ip' ∧ rule_key dp0 (net m) ≠ rule_key dp0 (net m')) as Hap.
  { intros id' m' s ip ip' [Hp' Hne]%Hold Hip Hip'.
    apply (leases_apart h' dp0 Hg id' m' id m); eauto using underway_leased. }
  exists dp0. split; [exact Hg|]. split; cbn [h' h_table h_dp set_stage]; try apply Hpr.
  - rewrite taps_of_insert, delete_id by done. simpl. rewrite gmultiset_disj_union_left_id. apply Hpr.
  - intros id' m' s ip [(-> & -> & -> & _)|[_ Hp']]%underway_insert Hip; [|by eapply Hpr].
    rewrite (pr_vms _ _ _ Hpr) by (intros; eapply Hap; eauto).
    by destruct (held_absent _ _ _ _ id m ip Hg (underway_held _ _ _ _ Hp) Hip).
  - intros k Hk. setoid_rewrite underway_insert in Hk. apply (pr_vms _ _ _ Hpr).
    intros id' m' s ip Hp' Hip. eapply Hk; [right|done]. split; [by eapply Hold|done].
  - intros id' m' s ip [(-> & -> & -> & _)|[_ Hp']]%underway_insert Hip; [|by eapply Hpr].
    rewrite (pr_rules _ _ _ Hpr).
    + by destruct (held_absent _ _ _ _ id m ip Hg (underway_held _ _ _ _ Hp) Hip).
    + intros id' m' s Hp'. destruct (underway_lease h dp0 Hok _ _ _ Hp') as (ip' & Hip' & _). by eapply Hap.
  - intros k Hk. setoid_rewrite underway_insert in Hk. apply (pr_rules _ _ _ Hpr).
    intros id' m' s Hp'. eapply Hk. right. split; [by eapply Hold|done].
  - intros id' m' s i [(-> & -> & -> & _)|[_ Hp']]%underway_insert; [done|by eapply Hpr].
Qed.

Lemma step_release_inv h id m s :
  host_inv h → h_table h !! id = Some (m, s) → s = Leased ∨ s = Withdrawn →
  host_inv (mkHost (release (net m) (h_ipam h)) (h_dp h) (delete id (h_table h))).
Proof.
  intros (dp0 & Hok & Hpr) E Hs. assert (underway (h_table h) id m s) as Hp by (by destruct Hs as [-> | ->]).
  assert (tap_of s = None ∧ entry_of s = None ∧ rule_of s = None) as (Et & Ev & Er)
    by (by destruct Hs as [-> | ->]).
  pose proof (underway_held _ _ _ _ Hp) as Hh. destruct (underway_lease h dp0 Hok _ _ _ Hp) as (ip & Hip & _).
  destruct (held_absent _ _ _ _ _ _ _ Hok Hh Hip) as [Av Ar].
  exists dp0. split.
  { unfold live_of, held_of. simpl. rewrite !omap_delete. fold (live_of h) (held_of h).
    rewrite (delete_id (live_of h)) by eauto using held_not_live. by apply guests_ok_return. }
  split; cbn [h_table h_dp].
  - apply Hpr.
  - rewrite (pr_taps _ _ _ Hpr), (taps_of_focus _ id m s), Et by done. simpl.
    by rewrite gmultiset_disj_union_left_id.
  - intros id' m' s' ip' [_ Hp']%underway_delete. by eapply Hpr.
  - intros k Hk. setoid_rewrite underway_delete in Hk. destruct (decide (k = net_ip ip)) as [->|Hne].
    { rewrite (pr_vm _ _ _ Hpr _ _ _ _ Hp Hip), Ev. by rewrite Av. }
    apply (pr_vms _ _ _ Hpr). intros id' m' s' ip' Hp' Hip'. destruct (decide (id' = id)) as [->|]; [|by eapply Hk].
    destruct Hp' as [E' _]. by simplify_eq.
  - intros id' m' s' ip' [_ Hp']%underway_delete. by eapply Hpr.
  - intros k Hk. setoid_rewrite underway_delete in Hk.
    destruct (decide (k = rule_key dp0 (net m))) as [->|Hne].
    { rewrite (pr_rule _ _ _ Hpr _ _ _ _ Hp Hip), Er. by rewrite Ar. }
    apply (pr_rules _ _ _ Hpr). intros id' m' s' Hp'. destruct (decide (id' = id)) as [->|]; [|by eapply Hk].
    destruct Hp' as [E' _]. by simplify_eq.
  - intros id' m' s' i [_ Hp']%underway_delete. by eapply Hpr.
Qed.

(** Steps of [publishVM] and [withdrawVM]; what the access does not touch is as before. *)
Ltac goes_on :=
  match goal with
  | Hok : guests_ok _ ?dp0 _ _, Hpr : in_progress (h_table ?h) ?dp0 _,
    E : h_table ?h !! ?id = Some (?m, ?s), Hip : vn_ip (net ?m) = Some ?ip
    |- host_inv (set_stage ?id ?m ?s' (set_dp ?dp' ?h)) =>
      pose proof (pr_vm _ _ _ Hpr id m s ip (conj E eq_refl) Hip) as Hvm;
      pose proof (pr_rule _ _ _ Hpr id m s ip (conj E eq_refl) Hip) as Hrule;
      pose proof (λ i, pr_index _ _ _ Hpr id m s i (conj E eq_refl)) as Hindex;
      apply (step_underway h dp0 Hok Hpr id m s s' ip dp' (conj E eq_refl) Hip eq_refl); dp_norm;
      try done; try (by intros ? [= <-]); try (by destruct (h_dp h) as [???? []])
  end.

Lemma underway_facts h dp0 id m s :
  guests_ok (h_ipam h) dp0 (live_of h) (held_of h) → in_progress (h_table h) dp0 (h_dp h) →
  h_table h !! id = Some (m, s) → in_dataplane s = false →
  ∃ ip, vn_ip (net m) = Some ip ∧ vm_key (net m) = net_ip ip ∧ zlen (vn_mac (net m)) = 6 ∧
    rule_key (h_dp h) (net m) = rule_key dp0 (net m).
Proof.
  intros Hok Hpr E Hs. destruct (underway_lease h dp0 Hok id m s (conj E Hs)) as (ip & Hip & Hm).
  exists ip. unfold vm_key, rule_key. rewrite Hip. by destruct (progress_same h dp0 Hpr) as (-> & _).
Qed.

Lemma step_attach_inv h `{LL : !EbpfLibraryLaws L} id m i dp :
  host_inv h → h_table h !! id = Some (m, Leased) → InterfaceByName (tapName m) = Some i →
  attach_tap i (h_dp h) = Some dp → host_inv (set_stage id m (Attached i) (set_dp dp h)).
Proof.
  intros (dp0 & Hok & Hpr) E Hi%ifindex_range ->%attach_tap_spec.
  destruct (underway_facts h dp0 id m _ Hok Hpr E eq_refl) as (ip & Hip & Hk & Hm & Hr). goes_on.
  intros att ->. simpl. multiset_solver.
Qed.

Lemma step_put_vm_inv h `{LL : !EbpfLibraryLaws L} id m i dp :
  host_inv h → h_table h !! id = Some (m, Attached i) → put_vm (net m) i (h_dp h) = Some dp →
  host_inv (set_stage id m (Configured i) (set_dp dp h)).
Proof.
  intros (dp0 & Hok & Hpr) E Ep.
  destruct (underway_facts h dp0 id m _ Hok Hpr E eq_refl) as (ip & Hip & Hk & Hm & Hr).
  apply (put_vm_spec _ ip) in Ep as ->; [|done..|by eapply (pr_index _ _ _ Hpr id m)]. goes_on.
  - apply lookup_insert_eq.
  - intros k Hne. by apply lookup_insert_ne.
Qed.

Lemma step_put_rule_inv h `{LL : !EbpfLibraryLaws L} id m i dp :
  host_inv h → h_table h !! id = Some (m, Configured i) →
  put_rule (net m) i (servicePort m) (h_dp h) = Some dp →
  host_inv (set_stage id m (Ruled i) (set_dp dp h)).
Proof.
  intros (dp0 & Hok & Hpr) E Ep.
  destruct (underway_facts h dp0 id m _ Hok Hpr E eq_refl) as (ip & Hip & Hk & Hm & Hr).
  apply (put_rule_spec _ ip) in Ep as ->; [|done..|by eapply (pr_index _ _ _ Hpr id m)].
  rewrite Hr. goes_on.
  - apply lookup_insert_eq.
  - intros k Hne. by apply lookup_insert_ne.
Qed.

(** A failed write: the rollback begins. *)
Lemma step_fails_inv h id m i s s' :
  host_inv h → h_table h !! id = Some (m, s) →
  (s = Attached i ∧ s' = Detaching i) ∨ (s = Configured i ∧ s' = Unconfiguring i) →
  host_inv (set_stage id m s' h).
Proof.
  intros (dp0 & Hok & Hpr) E Hs. replace h with (set_dp (h_dp h) h) by (by destruct h).
  destruct Hs as [[-> ->]|[-> ->]];
    destruct (underway_facts h dp0 id m _ Hok Hpr E eq_refl) as (ip & Hip & Hk & Hm & Hr);
    goes_on.
Qed.

Lemma step_undo_vm_inv h `{LL : !EbpfLibraryLaws L} id m i :
  host_inv h → h_table h !! id = Some (m, Unconfiguring i) →
  host_inv (set_stage id m (Detaching i) (set_dp (delete_vm (vm_key (net m)) (h_dp h)) h)).
Proof.
  intros (dp0 & Hok & Hpr) E.
  destruct (underway_facts h dp0 id m _ Hok Hpr E eq_refl) as (ip & Hip & Hk & Hm & Hr).
  rewrite delete_vm_spec, Hk. goes_on.
  - apply lookup_delete_eq.
  - intros k Hne. by apply lookup_delete_ne.
Qed.

(** The link of a call underway is among the attached programs. *)
Lemma underway_tap h dp0 id m s i :
  in_progress (h_table h) dp0 (h_dp h) → h_table h !! id = Some (m, s) → tap_of s = Some i →
  ∃ att, natTaps (h_dp h) = {[+ i +]} ⊎ att.
Proof.
  intros Hpr E Ht. exists (taps_of (delete id (h_table h)) ⊎ natTaps dp0).
  rewrite (pr_taps _ _ _ Hpr), (taps_of_focus _ id m s), Ht by done. simpl. multiset_solver.
Qed.

Lemma step_undo_attach_inv h `{LL : !EbpfLibraryLaws L} id m i :
  host_inv h → h_table h !! id = Some (m, Detaching i) →
  host_inv (set_stage id m Leased (set_dp (close_link (Some i) (h_dp h)) h)).
Proof.
  intros (dp0 & Hok & Hpr) E.
  destruct (underway_facts h dp0 id m _ Hok Hpr E eq_refl) as (ip & Hip & Hk & Hm & Hr).
  destruct (underway_tap h dp0 id m _ i Hpr E eq_refl) as [att Ha]. rewrite (close_link_spec i att) by done.
  goes_on. simpl. rewrite Ha. multiset_solver.
Qed.

Lemma step_close_inv h `{LL : !EbpfLibraryLaws L} id m l :
  host_inv h → h_table h !! id = Some (m, Unlinked l) →
  host_inv (set_stage id m (Closed l) (set_dp (close_link l (h_dp h)) h)).
Proof.
  intros (dp0 & Hok & Hpr) E.
  destruct (underway_facts h dp0 id m _ Hok Hpr E eq_refl) as (ip & Hip & Hk & Hm & Hr).
  destruct l as [i|].
  - destruct (underway_tap h dp0 id m _ i Hpr E eq_refl) as [att Ha]. rewrite (close_link_spec i att) by done.
    goes_on. simpl. rewrite Ha. multiset_solver.
  - cbn [close_link]. goes_on.
Qed.

Lemma step_delete_vm_inv h `{LL : !EbpfLibraryLaws L} id m l :
  host_inv h → h_table h !! id = Some (m, Closed l) →
  host_inv (set_stage id m (Unconfigured l) (set_dp (withdraw_vm (net m) (h_dp h)) h)).
Proof.
  intros (dp0 & Hok & Hpr) E.
  destruct (underway_facts h dp0 id m _ Hok Hpr E eq_refl) as (ip & Hip & Hk & Hm & Hr).
  unfold withdraw_vm. rewrite Hip, delete_vm_spec. fold (net_ip ip). goes_on.
  - apply lookup_delete_eq.
  - intros k Hne. by apply lookup_delete_ne.
Qed.

Lemma step_delete_rule_inv h `{LL : !EbpfLibraryLaws L} id m l :
  host_inv h → h_table h !! id = Some (m, Unconfigured l) →
  host_inv (set_stage id m Withdrawn (set_dp (delete_rule (net m) (h_dp h)) h)).
Proof.
  intros (dp0 & Hok & Hpr) E.
  destruct (underway_facts h dp0 id m _ Hok Hpr E eq_refl) as (ip & Hip & Hk & Hm & Hr).
  rewrite delete_rule_spec, Hr. goes_on.
  - apply lookup_delete_eq.
  - intros k Hne. by apply lookup_delete_ne.
Qed.

(** A published VM moves between the tables of machines: nothing underway changes. *)
Lemma step_live_inv h id m s s' :
  host_inv h → h_table h !! id = Some (m, s) → in_dataplane s = true → in_dataplane s' = true →
  host_inv (set_stage id m s' h).
Proof.
  intros (dp0 & Hok & Hpr) E Hs Hs'. exists dp0.
  assert (live_of h !! id = Some m) as Hl by (apply live_of_lookup; eauto).
  assert (∀ id1 m1 s1, underway (<[id := (m, s')]> (h_table h)) id1 m1 s1 ↔ underway (h_table h) id1 m1 s1) as Hp.
  { intros id1 m1 s1. rewrite underway_insert. split.
    - intros [(_ & _ & _ & ?)|[_ ?]]; [congruence|done].
    - intros Hp. right. split; [|done]. intros ->. destruct Hp as [E' Hf]. congruence. }
  split.
  { rewrite live_set_stage, held_set_stage, Hs'. by rewrite insert_id, delete_id by eauto using live_not_held. }
  split; cbn [h_table h_dp set_stage]; try setoid_rewrite Hp; try apply Hpr.
  rewrite (pr_taps _ _ _ Hpr), taps_of_insert, (taps_of_focus _ id m s) by done.
  assert (tap_of s = None ∧ tap_of s' = None) as [-> ->] by (by destruct s, s'). done.
Qed.

(** What the programs read is well formed, also in the middle of a call. *)
Lemma progress_maps_ok h dp0 :
  guests_ok (h_ipam h) dp0 (live_of h) (held_of h) → in_progress (h_table h) dp0 (h_dp h) →
  maps_ok (maps (h_dp h)).
Proof.
  intros Hok Hpr. destruct (guests_maps_ok _ _ _ _ Hok) as (Hc & Hv & Hr).
  destruct (progress_same h dp0 Hpr) as (_ & _ & _ & Ec & _).
  assert (∀ id m s, underway (h_table h) id m s → ∃ ip, vn_ip (net m) = Some ip ∧ mac_ok (vn_mac (net m))) as Hm.
  { intros id m s Lm%underway_leased. destruct (go_lease _ _ _ _ Hok _ _ Lm) as (ip & Hip & _ & _ & -> & _).
    exists ip. split; [done|]. split; [done|].
    repeat constructor; unfold byte_ok; try lia; apply Z.mod_pos_bound; lia. }
  split_and!; [by rewrite Ec| |]; intros k v Ek.
  - destruct (underway_cases (h_table h) (λ m, bool_decide (net_ip <$> vn_ip (net m) = Some k)))
      as [(id & m & s & Hp & Hk)|Hn].
    + destruct (Hm _ _ _ Hp) as (ip & Hip & Hmac). apply bool_decide_eq_true in Hk.
      rewrite Hip in Hk. injection Hk as <-. rewrite (pr_vm _ _ _ Hpr _ _ _ _ Hp Hip) in Ek.
      apply fmap_Some in Ek as (i & _ & ->). exact Hmac.
    + apply (Hv k). rewrite <- Ek. symmetry. apply (pr_vms _ _ _ Hpr). intros id m s ip Hp Hip ->.
      apply Hn in Hp. apply bool_decide_eq_false in Hp. by rewrite Hip in Hp.
  - destruct (underway_cases (h_table h) (λ m, bool_decide (rule_key dp0 (net m) = k)))
      as [(id & m & s & Hp & Hk)|Hn].
    + destruct (Hm _ _ _ Hp) as (ip & Hip & Hmac). apply bool_decide_eq_true in Hk as <-.
      rewrite (pr_rule _ _ _ Hpr _ _ _ _ Hp Hip) in Ek. apply fmap_Some in Ek as (i & _ & ->). simpl.
      exact (conj (net_ip_bound _) (conj (bswap16_bound _) Hmac)).
    + apply (Hr k). rewrite <- Ek. symmetry. apply (pr_rules _ _ _ Hpr). intros id m s Hp ->.
      apply Hn in Hp. by apply bool_decide_eq_false in Hp.
Qed.

(** Packets change events and counters only. *)
Lemma step_packet_inv h mp :
  host_inv h → (maps_ok (maps (h_dp h)) → same_config (maps (h_dp h)) mp) →
  host_inv (set_dp (with_maps mp (h_dp h)) h).
Proof.
  intros (dp0 & Hok & Hpr) Hmp. destruct Hmp as (Ec & Ev & Ed & Ee & Ei); [by eapply progress_maps_ok|].
  set (mp0 := mkNatMaps (global_config_map mp) (vm_config (maps dp0)) (dnat_rules (maps dp0))
                (egress_policy mp) (ingress_policy mp) (events mp) (stats mp)).
  destruct (progress_same h dp0 Hpr) as (Eh & Eu & El & Egc & Eep & Eip).
  exists (with_maps mp0 dp0). split.
  - apply guests_ok_maps; [done|]. unfold same_config. simpl. by rewrite Ec, Ee, Ei.
  - split; cbn [h_table h_dp set_dp with_maps maps natTaps]; try apply Hpr; rewrite ?Ev, ?Ed; try apply Hpr.
    unfold with_maps, set_taps, set_vms, set_dnat. simpl. rewrite Eh, Eu, El.
    destruct mp; simpl in *; by subst.
Qed.

Lemma host_step_inv h h' : host_inv h → host_step h h' → host_inv h'.
Proof.
  intros Hok Hstep.
  destruct Hstep as [id n a Hf E|e a E|L LL id m i dp Et Ei El E|id m i Et El
    |L LL id m i dp Et E|id m i Et
    |L LL id m i dp Et E|id m i Et|L LL id m i Et|L LL id m i Et|id m i Et|id m Et|L LL id m s Et Hs
    |id m Et|id m l dp Et E|L LL id m l Et|L LL id m l Et|L LL id m l Et|id m s Et Hs|ct n Hn].
  - by apply step_lease_inv.
  - destruct Hok as (dp0 & Hok & Hpr). exists dp0. split; [|done].
    pose proof (allocate_spec _ (go_ipam _ _ _ _ Hok)) as Hs. rewrite E in Hs. simpl in Hs.
    inversion Hs; subst; by apply (guests_ok_ipam (h_ipam h)).
  - by eapply step_attach_inv.
  - exfalso. destruct Hok as (dp0 & Hok & Hpr). destruct (progress_same h dp0 Hpr) as (_ & _ & Es & _).
    assert (held_of h !! id = Some m) as Hh by (apply held_of_lookup; eauto).
    apply (go_held _ _ _ _ Hok) in Hh. congruence.
  - by eapply step_put_vm_inv.
  - by eapply step_fails_inv; [| |left].
  - by eapply step_put_rule_inv.
  - by eapply step_fails_inv; [| |right].
  - by apply (step_undo_vm_inv h id m i).
  - by apply (step_undo_attach_inv h id m i).
  - destruct Hok as (dp0 & Hok & Hpr). by apply (step_link_ok h dp0).
  - by eapply step_live_inv.
  - destruct Hok as (dp0 & Hok & Hpr). rewrite publishVM_known.
    { exists dp0. by destruct h. }
    destruct (progress_same h dp0 Hpr) as (_ & _ & -> & _).
    assert (live_of h !! id = Some m) as Hl by (apply live_of_lookup; destruct Hs as [-> | ->]; eauto).
    destruct (go_live _ _ _ _ Hok _ _ Hl) as (ip & i & (_ & _ & ?) & _). eauto.
  - by eapply step_live_inv.
  - destruct Hok as (dp0 & Hok & Hpr). by apply (step_unlink_ok h dp0).
  - by apply (step_close_inv h id m l).
  - by apply (step_delete_vm_inv h id m l).
  - by apply (step_delete_rule_inv h id m l).
  - by eapply step_release_inv.
  - apply step_packet_inv; [done|]. intros Hm.
    by destruct (node_map_step (mkNode (maps (h_dp h)) ct) n Hm Hn) as (Hc & _).
Qed.

Lemma host_run_inv h h' : host_inv h → rtc host_step h h' → host_inv h'.
Proof. intros Hok Hr. induction Hr; eauto using host_step_inv. Qed.
End host_facts.

(** ** The sequential operations are runs *)

Section runs.
Context `{BH : !BpfHelpers, CK : !Conntrack, L : !EbpfLibrary, LL : !EbpfLibraryLaws L}.

(** The host where [id] has come to stage [s] and the dataplane is [dp]. *)
Definition at_stage (h : host) (id : string) (m : machine) (s : stage) (dp : natDataplane) : host :=
  set_stage id m s (set_dp dp h).

Lemma at_stage_lookup h id m s dp : h_table (at_stage h id m s dp) !! id = Some (m, s).
Proof. apply lookup_insert_eq. Qed.

Lemma at_stage_next h id m s dp s' dp' :
  at_stage (at_stage h id m s dp) id m s' dp' = at_stage h id m s' dp'.
Proof. unfold at_stage, set_stage, set_dp. simpl. by rewrite insert_insert_eq. Qed.

Lemma at_stage_same h id m s : h_table h !! id = Some (m, s) → at_stage h id m s (h_dp h) = h.
Proof. intros E. unfold at_stage, set_stage, set_dp. simpl. rewrite insert_id by done. by destruct h. Qed.

(** One access of a call that is at a stage. *)
Lemma at_stage_step h h' id m s dp s' dp' :
  host_step (at_stage h id m s dp) (set_stage id m s' (set_dp dp' (at_stage h id m s dp))) →
  rtc host_step (at_stage h id m s' dp') h' → rtc host_step (at_stage h id m s dp) h'.
Proof.
  intros Hs Hr. eapply rtc_l; [exact Hs|]. fold (at_stage (at_stage h id m s dp) id m s' dp').
  by rewrite at_stage_next.
Qed.

(** [publishVM] of a lease is a run, whatever its outcome. *)
Lemma publish_run h id m :
  h_table h !! id = Some (m, Leased) →
  match publishVM (tapName m) (net m) (servicePort m) (h_dp h) with
  | (Some _, dp) => rtc host_step h (at_stage h id m Leased dp)
  | (None, dp) => rtc host_step h (at_stage h id m Booting dp)
  end.
Proof.
  intros E. pose proof (at_stage_same h id m Leased E) as Eh.
  assert (rtc host_step h (at_stage h id m Leased (h_dp h))) as Hnone by (by rewrite Eh).
  unfold publishVM. destruct (InterfaceByName (tapName m)) as [i|] eqn:Ei; [|exact Hnone].
  destruct (tapLinks (h_dp h) !! tapName m) as [l|] eqn:El.
  { apply rtc_once. unfold at_stage. replace (set_dp (h_dp h) h) with h by (by destruct h).
    by eapply step_publish_known. }
  destruct (attach_tap i (h_dp h)) as [dp1|] eqn:E1; [|exact Hnone].
  assert (∀ h', rtc host_step (at_stage h id m (Attached i) dp1) h' → rtc host_step h h') as H1.
  { intros h' Hr. eapply rtc_l; [by eapply step_attach|exact Hr]. }
  assert (∀ dp, rtc host_step (at_stage h id m (Detaching i) dp)
    (at_stage h id m Leased (close_link (Some i) dp))) as Hclose.
  { intros dp. eapply at_stage_step; [by apply (step_undo_attach _ L LL), at_stage_lookup|done]. }
  destruct (put_vm (net m) i dp1) as [dp2|] eqn:E2.
  2: { apply H1. eapply at_stage_step; [|apply Hclose].
       replace (set_dp dp1 (at_stage h id m (Attached i) dp1)) with (at_stage h id m (Attached i) dp1) by done.
       by eapply step_put_vm_fails, at_stage_lookup. }
  assert (∀ h', rtc host_step (at_stage h id m (Configured i) dp2) h' → rtc host_step h h') as H2.
  { intros h' Hr. apply H1. eapply at_stage_step; [|exact Hr].
    by eapply (step_put_vm _ L LL); [apply at_stage_lookup|]. }
  destruct (put_rule (net m) i (servicePort m) dp2) as [dp3|] eqn:E3.
  - apply H2. eapply at_stage_step; [by eapply (step_put_rule _ L LL); [apply at_stage_lookup|]|].
    eapply at_stage_step; [|done]. by eapply step_link, at_stage_lookup.
  - apply H2. eapply (at_stage_step _ _ _ _ _ _ (Unconfiguring i) dp2).
    { replace (set_dp dp2 (at_stage h id m (Configured i) dp2)) with (at_stage h id m (Configured i) dp2) by done.
      by eapply step_put_rule_fails, at_stage_lookup. }
    eapply at_stage_step; [by apply (step_undo_vm _ L LL), at_stage_lookup|apply Hclose].
Qed.

(** [withdrawVM] of a VM that is leaving is a run. *)
Lemma withdraw_run h id m :
  h_table h !! id = Some (m, Leaving) →
  rtc host_step h (at_stage h id m Withdrawn (withdrawVM (tapName m) (net m) (h_dp h))).
Proof.
  intros E. unfold withdrawVM. destruct (unlink (tapName m) (h_dp h)) as [l dp] eqn:Eu.
  eapply rtc_l; [by eapply step_unlink|]. fold (at_stage h id m (Unlinked l) dp).
  eapply at_stage_step; [by apply (step_close _ L LL), at_stage_lookup|].
  eapply at_stage_step; [by apply (step_delete_vm _ L LL), at_stage_lookup|].
  eapply at_stage_step; [by apply (step_delete_rule _ L LL id m l), at_stage_lookup|]. done.
Qed.

(** A lease that was given back leaves the table as it was. *)
Lemma lease_and_return r id n a dp :
  vms r !! id = None →
  host_of (releaseNet n (mkRuntime a dp (vms r))) =
  mkHost (release n a) dp (delete id (<[id := (new_machine id n, Leased)]> ((λ m, (m, Running)) <$> vms r))).
Proof. intros Hid. rewrite delete_insert_id by (by rewrite lookup_fmap, Hid). done. Qed.

Lemma Provision_run r id prepared b :
  fresh_id (host_of r) id → b ≠ FailsLate →
  rtc host_step (host_of r) (host_of (snd (Provision id prepared b r))).
Proof.
  intros Hf Hb. assert (vms r !! id = None) as Hid.
  { destruct Hf as [E _]. simpl in E. rewrite lookup_fmap in E. by destruct (vms r !! id). }
  unfold Provision. destruct (allocate (rt_ipam r)) as [[e|n] a] eqn:E.
  { apply rtc_once. by apply (step_no_lease (host_of r) e a). }
  eapply rtc_l; [by apply (step_lease _ id n a)|].
  set (h1 := set_stage id (new_machine id n) Leased (mkHost a (rt_dp r) (h_table (host_of r)))).
  assert (h_table h1 !! id = Some (new_machine id n, Leased)) as Ht by apply lookup_insert_eq.
  assert (rtc host_step h1 (host_of (releaseNet n (mkRuntime a (rt_dp r) (vms r))))) as Hback.
  { rewrite (lease_and_return r id) by done. apply rtc_once.
    exact (step_release h1 id _ Leased Ht (or_introl eq_refl)). }
  destruct prepared; [|exact Hback]. cbn [negb rt_dp rt_ipam vms]. unfold boot.
  destruct b; [exact Hback|done|]. change (mkMachine _ _ _) with (new_machine id n).
  pose proof (publish_run h1 id _ Ht) as Hrun.
  change (rt_dp r) with (h_dp h1). change (net _) with n in Hrun.
  destruct (publishVM _ _ _ _) as [[e|] dp] eqn:Ep.
  - cbn [snd]. rewrite (lease_and_return r id) by done. etransitivity; [exact Hrun|].
    apply rtc_once.
    assert (h_table (set_stage id (new_machine id n) Leased (set_dp dp h1)) !! id =
      Some (new_machine id n, Leased)) as Ht2 by apply lookup_insert_eq.
    pose proof (step_release _ id _ Leased Ht2 (or_introl eq_refl)) as Hs.
    unfold set_stage in Hs. simpl in Hs. rewrite !insert_insert_eq in Hs.
    unfold at_stage, set_stage. simpl. rewrite !insert_insert_eq. exact Hs.
  - etransitivity; [exact Hrun|]. apply rtc_once.
    assert (h_table (set_stage id (new_machine id n) Booting (set_dp dp h1)) !! id =
      Some (new_machine id n, Booting)) as Ht2 by apply lookup_insert_eq.
    pose proof (step_register _ id _ Ht2) as Hs. unfold set_stage in Hs. simpl in Hs.
    rewrite !insert_insert_eq in Hs. unfold host_of. simpl. rewrite fmap_insert. unfold at_stage, set_stage.
    simpl. rewrite !insert_insert_eq. exact Hs.
Qed.

Lemma teardown_run r id : rtc host_step (host_of r) (host_of (teardown id r)).
Proof.
  unfold teardown. destruct (vms r !! id) as [m|] eqn:E; [|done].
  assert (h_table (host_of r) !! id = Some (m, Running)) as Ht by (simpl; by rewrite lookup_fmap, E).
  set (h1 := set_stage id m Leaving (host_of r)).
  set (h2 := at_stage h1 id m Withdrawn (withdrawVM (tapName m) (net m) (rt_dp r))).
  assert (h_table h1 !! id = Some (m, Leaving)) as Ht1 by apply lookup_insert_eq.
  assert (h_table h2 !! id = Some (m, Withdrawn)) as Ht2 by apply lookup_insert_eq.
  eapply rtc_l; [exact (step_remove (host_of r) id m Ht)|].
  etransitivity; [exact (withdraw_run h1 id m Ht1)|]. apply rtc_once.
  assert (host_of (releaseNet (net m)
    (mkRuntime (rt_ipam r) (withdrawVM (tapName m) (net m) (rt_dp r)) (delete id (vms r)))) =
    mkHost (release (net m) (h_ipam h2)) (h_dp h2) (delete id (h_table h2))) as ->
    by (unfold host_of; simpl; by rewrite fmap_delete, !delete_insert_eq).
  exact (step_release h2 id m Withdrawn Ht2 (or_intror eq_refl)).
Qed.

Lemma Start_run r id b : rtc host_step (host_of r) (host_of (Start id b r)).
Proof.
  unfold Start. destruct (vms r !! id) as [m|] eqn:E; [|done].
  assert (h_table (host_of r) !! id = Some (m, Running)) as Ht by (simpl; by rewrite lookup_fmap, E).
  unfold boot. destruct b; [by destruct r|..]; apply rtc_once.
  all: pose proof (step_restart (host_of r) L LL id m Running Ht (or_introl eq_refl)) as Hs; simpl in Hs.
  all: destruct (publishVM _ _ _ _) as [[e|] dp] eqn:Ep; exact Hs.
Qed.
End runs.

(** ** Start-up *)

Lemma newDataplane_fresh `{LL : !EbpfLibraryLaws L} name host gw mac dp :
  newDataplane name (Some host) gw mac = inr dp → mac_ok mac →
  global_config_map (maps dp) = {[ 0 := mkGlobalConfig (net_ip (hostIP dp)) (uplink dp) (net_ip gw) mac 1 1 ]} ∧
  egress_policy (maps dp) = ∅ ∧ ingress_policy (maps dp) = ∅ ∧ tapLinks dp = ∅ ∧ natTaps dp = ∅ ∧
  vm_config (maps dp) = ∅ ∧ dnat_rules (maps dp) = ∅.
Proof.
  unfold newDataplane. intros E Hm. destruct (InterfaceByName name) as [i|] eqn:Ei; [|done].
  pose proof (ifindex_range _ _ Ei). destruct LoadNatObjects; [|done]. simpl in E.
  rewrite global_config_marshalled in E by (apply Hm || lia).
  destruct (GlobalConfigMap_Put _ _ _) as [c|] eqn:Ec; [|done]. apply config_put_spec in Ec as ->.
  destruct (AttachTCX _ _); [|done]. destruct NewReader; [|done]. simpl in E. by simplify_eq.
Qed.

(** A host without guests. *)
Lemma guests_ok_start a dp :
  ipam_ok a → usedIPs a = {[gatewayIP a]} → usedPorts a = ∅ → dp_config a dp →
  tapLinks dp = ∅ → natTaps dp = ∅ → vm_config (maps dp) = ∅ → dnat_rules (maps dp) = ∅ →
  guests_ok a dp ∅ ∅.
Proof.
  intros Ha Eu Ep Hc El Et Ev Ed.
  assert (∀ id m ip i, ¬ guest_at dp ∅ id m ip i) as Hno
    by (intros id m ip i (E & _); by rewrite lookup_empty in E).
  assert (∀ id m, ¬ leased ∅ ∅ id m) as Hnl
    by (intros id m [E|E]; by rewrite lookup_empty in E).
  split; rewrite ?Eu, ?Ep, ?El, ?Et, ?Ev, ?Ed; try done; try apply map_disjoint_empty_l;
    try (intros; rewrite ?lookup_empty, ?elem_of_singleton, ?elem_of_empty in *; naive_solver).
Qed.

Section theorems.
Context `{BH : !BpfHelpers, CK : !Conntrack, BL : !BpfHelpersLaws, CL : !ConntrackLaws}.

(** C17: The host's network state stays consistent under concurrency.  From start-up on,
    through any interleaving of the accesses of [Provision] (failing at any point up to
    and including the publication), restarts that publish no later than the teardown of
    their VM takes its link away, teardowns (their accesses outside the mutex one by one)
    and packets: apart from the traces of the calls in progress, the addresses and ports
    in use are exactly those of the leases, no two leases share an address, a port or a
    TAP, and the dataplane's maps, links and attached programs are exactly those of the
    published guests, each with its own address, MAC, interface, host port and service
    port; and a call in progress has its traces only under the keys of its own lease,
    which nobody else has.  The range of addresses must not end at 255.255.255.255, and
    [Close] and [Delete], whose errors are ignored, must not fail.  A boot that fails after
    the publication and a later restart are not covered: they break this
    ([failed_boot_leaves_rule], [restart_race_republishes]). *)
Theorem network_state_consistent `{LL : !EbpfLibraryLaws L} subnet v4 gw mac pmin pmax a name addr dp h :
  sn_ip subnet = Some v4 → 0 ≤ v4 < 2 ^ 32 → 0 ≤ pmin → pmax < 2 ^ 16 → bytes_ok mac →
  newIPAM subnet (Some gw) mac pmin pmax = inr a → last a ≠ 2 ^ 32 - 1 →
  newDataplane name (Some addr) gw mac = inr dp →
  rtc host_step (mkHost a dp ∅) h →
  ∃ dp0, guests_ok (h_ipam h) dp0 (live_of h) (held_of h) ∧ in_progress (h_table h) dp0 (h_dp h).
Proof.
  intros Hs Hv Hp Hx Hm Ea Hl Ed Hr.
  destruct (newIPAM_fresh subnet v4 gw mac pmin pmax a) as (_ & Eu & Ep & Eg & Em & Hz & _ & Ha); [done..|].
  destruct (newDataplane_fresh name addr gw mac dp) as (Ec & Ee & Ei & ? & ? & ? & ?); [done..|].
  assert (host_inv (mkHost a dp ∅)) as Hok.
  { apply host_ok_inv; [|by intros id m s [E _]].
    apply (guests_ok_start a dp); auto. unfold dp_config. by rewrite Eg, Em. }
  exact (host_run_inv _ _ Hok Hr).
Qed.

(** C18: A published guest is reachable: a TCP packet for the host's address and the
    guest's host port, on a flow conntrack makes an entry for, is handed to the guest's
    TAP with the guest's MAC, address and service port as its destination and the peer
    as its source; no policy has to be configured for it. *)
Theorem published_guest_reachable a dp live held id m ip i w opts ct s :
  StoresSucceed → guests_ok a dp live held → guest_at dp live id m ip i → w_maps w = maps dp →
  packet_ok w → handled (w_data w) (skb_headlen (w_skb w)) → ip_proto (w_data w) = IPPROTO_TCP →
  tu_daddr (flow_key (w_data w)) = net_ip (hostIP dp) →
  tu_dport (flow_key (w_data w)) = bpf_htons (vn_port (net m)) →
  no_reply (w_ct w) (flow_key (w_data w)) (ip_proto (w_data w)) opts →
  fresh_inbound (guest_rule ip i defaultMinecraftPort (net m)) (flow_key (w_data w)) opts (w_ct w) ct s →
  wp nat_uplink (λ rc w', rc = bpf_redirect i 0 ∧ w_redirect w' = Some (ToDevice i 0) ∧
    flow_key (w_data w') = mkTuple (tu_saddr (flow_key (w_data w))) (net_ip ip)
      (tu_sport (flow_key (w_data w))) (bpf_htons defaultMinecraftPort) ∧
    slice 0 6 (w_data w') = deterministicMAC ip) w.
Proof.
  intros Hst Hok G Em Hw Hh Hp Ed Edp Hn Hf.
  destruct (go_config _ _ _ _ Hok) as (Ec & _ & Ei & _).
  destruct (go_lease _ _ _ _ Hok _ _ (guest_leased _ _ held _ _ _ _ G))
    as (ip' & Eip & _ & _ & Hmac & _ & Hsvc).
  pose proof G as (_ & Eip' & _). assert (ip' = ip) as -> by congruence.
  assert (maps_ok (w_maps w)) as Hm by (rewrite Em; by eapply guests_maps_ok).
  assert (published w = Some (guest_rule ip i defaultMinecraftPort (net m))) as Hpub.
  { unfold published. rewrite Em. apply (go_rules _ _ _ _ Hok). exists id, m, ip, i. rewrite Hsvc.
    split_and!; try done. unfold rule_key. rewrite <- Ed, <- Edp, <- Hp. done. }
  eapply wp_mono; [eapply (wp_uplink_delivers_inbound _ _ opts ct s); try done|].
  - rewrite Em, Ec. apply lookup_singleton_eq.
  - unfold ingress_verdict, policy_check. rewrite Em, Ei.
    destruct (bpf_lpm_lookup_elem _ _) eqn:E; [|done].
    by apply lpm_lookup_some in E as (? & E & _).
  - intros rc w' (-> & Hr & _ & Hd & Hsl). split_and!; [done|done| |by rewrite Hsl].
    by destruct (dest_translated w _ [(0, 6)] Hw Hh ltac:(repeat constructor; lia) _ _ Hd) as [-> _].
Qed.

(** C19: The sequential operations are runs of the concurrent host: [Provision] (up to a
    late boot failure), [Start] and [teardown], whatever their outcome, are sequences of
    the atomic steps, so every invariant of the steps holds before and after them. *)
Theorem operations_refine_steps `{LL : !EbpfLibraryLaws L} r id prepared b :
  (fresh_id (host_of r) id → b ≠ FailsLate →
   rtc host_step (host_of r) (host_of (snd (Provision id prepared b r)))) ∧
  rtc host_step (host_of r) (host_of (Start id b r)) ∧
  rtc host_step (host_of r) (host_of (teardown id r)).
Proof. split_and!; [apply Provision_run|apply Start_run|apply teardown_run]. Qed.
End theorems.

(** ** What the steps leave out *)

Section defects.
Context `{L : !EbpfLibrary, LL : !EbpfLibraryLaws L}.

(** C38: A boot that fails after the guest was published leaves the publication behind:
    [Provision] gives the address and the port back to the allocator without
    withdrawing the guest, so a port of no lease keeps forwarding to the dead guest's
    TAP, and the guest's entry stays in [vm_config]. *)
Theorem failed_boot_leaves_rule r id n a :
  host_ok (host_of r) → fresh_id (host_of r) id →
  allocate (rt_ipam r) = (inr n, a) →
  fst (publishVM (tapNameFor id) n defaultMinecraftPort (rt_dp r)) = None →
  ∃ r' ip i, Provision id true FailsLate r = (Some BootFailed, r') ∧ vms r' = vms r ∧
    vn_ip n = Some ip ∧ (ip ∉ usedIPs (rt_ipam r')) ∧ (vn_port n ∉ usedPorts (rt_ipam r')) ∧
    vm_config (maps (rt_dp r')) !! net_ip ip = Some (guest_entry ip i n) ∧
    dnat_rules (maps (rt_dp r')) !! rule_key (rt_dp r') n =
      Some (guest_rule ip i defaultMinecraftPort n).
Proof.
  intros Hok Hf E Hpub. pose proof (allocate_spec _ (go_ipam _ _ _ _ Hok)) as Hs. simpl in Hs.
  destruct (release_undoes_allocate _ _ _ (go_ipam _ _ _ _ Hok) E) as (Ei & Ep & _).
  pose proof (lease_guests_ok _ _ _ _ _ Hok Hf E) as Hok'.
  pose proof (publishVM_held _ _ _ _ id (new_machine id n) Hok' (lookup_insert_eq _ _ _)) as Hc.
  unfold Provision, boot. rewrite E. cbn [negb rt_dp tapName net servicePort]. simpl in Hc.
  destruct (publishVM _ n _ _) as [[e|] dp']; [done|]. destruct Hc as (ip & i & Hip & _ & ->).
  rewrite E in Hs. inversion Hs as [ip' port ? Hr Hif Hp Hpf Eu Eup Hsp Ha| |]; subst.
  injection Hip as ->. eexists _, ip, i. split; [done|]. cbn [releaseNet rt_ipam rt_dp vms].
  simpl in Ei, Ep. rewrite Ei, Ep. split_and!; try done; apply lookup_insert_eq.
Qed.

(** C39: A restart that overlaps a teardown republishes a guest that is gone: [Start]
    looks the machine up and boots it without holding the lock; when [teardown] of the
    same VM runs in between, the boot publishes the machine again under a lease that
    was given back, and nothing will ever withdraw it: the VM is no longer in the
    table. *)
Theorem restart_race_republishes r id m dp :
  host_ok (host_of r) → vms r !! id = Some m →
  boot Boots m (rt_dp (teardown id r)) = (true, dp) →
  ∃ ip i, vms (teardown id r) !! id = None ∧ vn_ip (net m) = Some ip ∧
    (ip ∉ usedIPs (rt_ipam (teardown id r))) ∧ (vn_port (net m) ∉ usedPorts (rt_ipam (teardown id r))) ∧
    vm_config (maps dp) !! net_ip ip = Some (guest_entry ip i (net m)) ∧
    dnat_rules (maps dp) !! rule_key dp (net m) = Some (guest_rule ip i (servicePort m) (net m)).
Proof.
  intros Hok Hv. unfold teardown. rewrite Hv. unfold boot. cbn [releaseNet rt_ipam rt_dp vms].
  assert (live_of (host_of r) !! id = Some m) as Hl.
  { apply live_of_lookup. exists Running. simpl. by rewrite lookup_fmap, Hv. }
  destruct (go_live _ _ _ _ Hok _ _ Hl) as (ip & i & G & _).
  rewrite (withdrawVM_published _ _ _ _ _ _ _ _ Hok G).
  pose proof (guests_ok_withdraw _ _ _ _ _ _ _ _ Hok G) as Hok'.
  pose proof (publishVM_held _ _ _ _ id m Hok' (lookup_insert_eq _ _ _)) as Hc.
  destruct (publishVM _ _ _ _) as [[e|] dp']; [done|]. intros [= <-].
  destruct Hc as (ip' & i' & Hip & _ & ->). exists ip', i'.
  pose proof (guests_ok_return _ _ _ _ id m Hok' (lookup_insert_eq _ _ _)) as Hok2.
  assert (∀ id' m', leased (delete id (live_of (host_of r))) (delete id (<[id := m]> (held_of (host_of r)))) id' m' →
    vn_ip (net m') ≠ vn_ip (net m) ∧ vn_port (net m') ≠ vn_port (net m)) as Hne.
  { intros id' m' Lm. assert (leased (delete id (live_of (host_of r))) (<[id := m]> (held_of (host_of r))) id' m'
      ∧ id' ≠ id) as [Lm' Hid].
    { destruct Lm as [E|E]; pose proof E as [Hd E']%lookup_delete_Some; split; try done; [by left|by right]. }
    split; intros E; apply Hid; eapply (go_distinct _ _ _ _ Hok' id' m' id m); auto;
      right; apply lookup_insert_eq. }
  destruct (release_spec (net m) (rt_ipam r)) as (_ & _ & (_ & _ & _ & Eg & _)).
  assert (lease_ok (rt_ipam r) m) as (ip'' & E'' & _ & Hg & _) by (apply (go_lease _ _ _ _ Hok id m); by left).
  split_and!; try done.
  - apply lookup_delete_eq.
  - intros [Hx|(id' & m' & Lm & E)]%(go_ips _ _ _ _ Hok2).
    + change (h_ipam (host_of r)) with (rt_ipam r) in Hx. rewrite Eg in Hx. congruence.
    + destruct (Hne _ _ Lm) as [Hn _]. congruence.
  - intros (id' & m' & Lm & E)%(go_ports _ _ _ _ Hok2). by destruct (Hne _ _ Lm) as [_ Hn].
  - apply lookup_insert_eq.
  - apply lookup_insert_eq.
Qed.
End defects.

(** ** Witnesses *)

Definition sample_id : string := "vm-01234567-89ab-4cde-8000-000000000000".

Definition sample_machine : machine := mkMachine sample_tap sample_lease defaultMinecraftPort.

Definition empty_runtime : runtime := mkRuntime sample_ipam sample_dp ∅.

(** The host with one guest, and its dataplane. *)
Definition guest_dp : natDataplane :=
  with_guest sample_tap sample_lease 0x0ade0002 5 defaultMinecraftPort sample_dp.

Definition one_guest : runtime := mkRuntime sample_after guest_dp {[ sample_id := sample_machine ]}.

Lemma sample_tap_name : tapNameFor sample_id = sample_tap.
Proof. reflexivity. Qed.

Lemma empty_host_ok : host_ok (host_of empty_runtime).
Proof.
  apply (guests_ok_start sample_ipam sample_dp); try reflexivity; [apply sample_ipam_ok|].
  unfold dp_config. split_and!; try reflexivity. by_eval.
Qed.

Lemma sample_fresh : fresh_id (host_of empty_runtime) sample_id.
Proof. split; [reflexivity|]. intros id' e E. simpl in E. by rewrite fmap_empty, lookup_empty in E. Qed.

Lemma one_guest_provisioned : Provision sample_id true Boots empty_runtime = (None, one_guest).
Proof. reflexivity. Qed.

Lemma one_guest_reached : rtc host_step (host_of empty_runtime) (host_of one_guest).
Proof.
  pose proof (Provision_run empty_runtime sample_id true Boots sample_fresh) as H.
  rewrite one_guest_provisioned in H. by apply H.
Qed.

Lemma one_guest_ok : host_ok (host_of one_guest).
Proof.
  apply host_inv_ok; [|apply none_underway]. eapply host_run_inv; [|exact one_guest_reached].
  apply host_ok_inv; [exact empty_host_ok|apply none_underway].
Qed.

Lemma live_one_guest : live_of (host_of one_guest) !! sample_id = Some sample_machine.
Proof.
  apply live_of_lookup. exists Running. split; [|done]. apply lookup_fmap_Some. eexists.
  split; [done|]. apply lookup_singleton_eq.
Qed.

Lemma sample_guest : guest_at guest_dp (live_of (host_of one_guest)) sample_id sample_machine 0x0ade0002 5.
Proof. split_and!; [exact live_one_guest|reflexivity|apply lookup_insert_eq]. Qed.

(** A host on which a teardown has closed the guest's link and not yet deleted its
    entries. *)
Definition closing_host : host :=
  at_stage (host_of one_guest) sample_id sample_machine (Closed (Some 5))
    (close_link (Some 5) (snd (unlink sample_tap guest_dp))).

Lemma closing_reached : rtc host_step (host_of empty_runtime) closing_host.
Proof.
  etransitivity; [exact one_guest_reached|].
  assert (h_table (host_of one_guest) !! sample_id = Some (sample_machine, Running)) as Ht
    by (simpl; by rewrite lookup_fmap, lookup_singleton_eq).
  eapply rtc_l; [exact (step_remove _ _ _ Ht)|].
  set (h1 := set_stage sample_id sample_machine Leaving (host_of one_guest)).
  assert (h1 = at_stage (host_of one_guest) sample_id sample_machine Leaving guest_dp) as -> by done.
  eapply at_stage_step; [by eapply step_unlink; [apply at_stage_lookup|]|].
  eapply at_stage_step; [by apply (step_close _ ref_library _), at_stage_lookup|]. done.
Qed.

Lemma network_state_consistent_witness :
  (∃ dp0, guests_ok sample_after dp0 (live_of (host_of one_guest)) (held_of (host_of one_guest)) ∧
     in_progress (h_table (host_of one_guest)) dp0 guest_dp) ∧
  (∃ dp0, guests_ok sample_after dp0 (live_of closing_host) (held_of closing_host) ∧
     in_progress (h_table closing_host) dp0 (h_dp closing_host)).
Proof.
  split.
  - apply (network_state_consistent sample_subnet 0x0ade0000 0x0ade0001 sample_mac 30000 30002
      sample_ipam "eth0" 0xcb007107 sample_dp (host_of one_guest));
      [reflexivity|lia|lia|lia|by_eval|reflexivity|by_eval|reflexivity|exact one_guest_reached].
  - apply (network_state_consistent sample_subnet 0x0ade0000 0x0ade0001 sample_mac 30000 30002
      sample_ipam "eth0" 0xcb007107 sample_dp closing_host);
      [reflexivity|lia|lia|lia|by_eval|reflexivity|by_eval|reflexivity|exact closing_reached].
Defined.

(** The peer's packet to port 30000 of the host. *)
Definition reach_world : world :=
  mkWorld (mkSkb inbound_frame (zlen inbound_frame) 2 false) (maps guest_dp) sample_ct 0 0 None.

Lemma published_guest_reachable_witness :
  wp nat_uplink (λ rc w', rc = bpf_redirect 5 0 ∧ w_redirect w' = Some (ToDevice 5 0) ∧
    flow_key (w_data w') = mkTuple (tu_saddr (flow_key (w_data reach_world))) (net_ip 0x0ade0002)
      (tu_sport (flow_key (w_data reach_world))) (bpf_htons defaultMinecraftPort) ∧
    slice 0 6 (w_data w') = deterministicMAC 0x0ade0002) reach_world.
Proof.
  apply (published_guest_reachable sample_after guest_dp (live_of (host_of one_guest))
    (held_of (host_of one_guest)) sample_id sample_machine 0x0ade0002 5 reach_world
    (set_error (mk_opts 6) (-2)) (image inbound_ct_entry) (ct_with inbound_ct_entry));
    [apply _|exact one_guest_ok|exact sample_guest|reflexivity|by_eval|by_eval|reflexivity
    |reflexivity|reflexivity|exact inbound_no_reply|exact inbound_fresh].
Defined.

Lemma operations_refine_steps_witness :
  rtc host_step (host_of empty_runtime) (host_of (snd (Provision sample_id true Boots empty_runtime))).
Proof.
  apply (proj1 (operations_refine_steps empty_runtime sample_id true Boots) sample_fresh). discriminate.
Defined.

Lemma failed_boot_leaves_rule_witness :
  ∃ r' ip i, Provision sample_id true FailsLate empty_runtime = (Some BootFailed, r') ∧
    vms r' = vms empty_runtime ∧ vn_ip sample_lease = Some ip ∧
    (ip ∉ usedIPs (rt_ipam r')) ∧ (vn_port sample_lease ∉ usedPorts (rt_ipam r')) ∧
    vm_config (maps (rt_dp r')) !! net_ip ip = Some (guest_entry ip i sample_lease) ∧
    dnat_rules (maps (rt_dp r')) !! rule_key (rt_dp r') sample_lease =
      Some (guest_rule ip i defaultMinecraftPort sample_lease).
Proof.
  apply (failed_boot_leaves_rule empty_runtime sample_id sample_lease sample_after);
    [exact empty_host_ok|exact sample_fresh|exact sample_granted|].
  rewrite sample_tap_name. exact (f_equal fst sample_published).
Defined.

Lemma torn_down : rt_dp (teardown sample_id one_guest) = sample_dp.
Proof.
  unfold teardown. cbn [vms one_guest]. rewrite lookup_singleton_eq. cbn [releaseNet rt_dp].
  rewrite (withdrawVM_guest sample_tap sample_lease 0x0ade0002 5 (natTaps sample_dp));
    [by apply without_with_guest|done|apply lookup_insert_eq|done].
Qed.

(** The guest's TAP exists again when the overtaken restart publishes it. *)
Lemma overtaken_boot : boot Boots sample_machine (rt_dp (teardown sample_id one_guest)) = (true, guest_dp).
Proof.
  rewrite torn_down. unfold boot. cbn [tapName net servicePort sample_machine].
  change defaultMinecraftPort with 25565. by rewrite sample_published.
Qed.

Lemma restart_race_republishes_witness :
  ∃ ip i, vms (teardown sample_id one_guest) !! sample_id = None ∧ vn_ip (net sample_machine) = Some ip ∧
    (ip ∉ usedIPs (rt_ipam (teardown sample_id one_guest))) ∧
    (vn_port (net sample_machine) ∉ usedPorts (rt_ipam (teardown sample_id one_guest))) ∧
    vm_config (maps guest_dp) !! net_ip ip = Some (guest_entry ip i (net sample_machine)) ∧
    dnat_rules (maps guest_dp) !! rule_key guest_dp (net sample_machine) =
      Some (guest_rule ip i (servicePort sample_machine) (net sample_machine)).
Proof.
  exact (restart_race_republishes one_guest sample_id sample_machine guest_dp one_guest_ok
    (lookup_singleton_eq _ _) overtaken_boot).
Defined.
