(* ===== verification/GoSort.v ===== *)
(** * Sorting in Go

    [sort.SliceStable] of the standard library, as an insertion sort: a stable sort has
    one possible result.  When no two elements compare equal [sort.Slice] has that
    result too ([sorted_perm_unique]). *)
From S2P Require Import Prelude.
From stdpp Require Import sorting.

Section Sorting.
Context {A : Type} (less : A → A → bool).

Fixpoint insert_stable (x : A) (l : list A) : list A :=
  match l with
  | [] => [x]
  | y :: l' => if less y x then y :: insert_stable x l' else x :: l
  end.

(** [sort.SliceStable(l, less)]. *)
Definition SliceStable (l : list A) : list A := foldr insert_stable [] l.

(** The order the result has: an element is never before one that is less. *)
Definition not_after (x y : A) : Prop := less y x = false.

Context (less_asym : ∀ x y, less x y = true → less y x = false).
Context (less_weak : ∀ x y z, less y x = false → less z y = false → less z x = false).

Lemma insert_stable_perm x l : insert_stable x l ≡ₚ x :: l.
Proof.
  induction l as [|y l IH]; simpl; [done|].
  destruct (less y x); [|done]. rewrite IH. apply Permutation_swap.
Qed.

Lemma SliceStable_perm l : SliceStable l ≡ₚ l.
Proof. induction l as [|x l IH]; simpl; [done|]. by rewrite insert_stable_perm, IH. Qed.

Lemma insert_stable_sorted x l :
  StronglySorted not_after l → StronglySorted not_after (insert_stable x l).
Proof.
  induction 1 as [|y l Hl IH Hy]; simpl; [repeat constructor|].
  destruct (less y x) eqn:E.
  - constructor; [done|]. rewrite insert_stable_perm. constructor; [|done]. by apply less_asym.
  - constructor; [by constructor|]. constructor; [done|].
    eapply Forall_impl; [exact Hy|]. intros z Hz. by eapply less_weak.
Qed.

Lemma SliceStable_sorted l : StronglySorted not_after (SliceStable l).
Proof. induction l as [|x l IH]; simpl; [constructor|]. by apply insert_stable_sorted. Qed.

(** Elements that compare equal keep their order. *)
Lemma insert_stable_filter (P : A → Prop) `{∀ x, Decision (P x)} x l :
  (∀ y, P x → P y → less y x = false) →
  filter P (insert_stable x l) = filter P (x :: l).
Proof.
  intros Heq. induction l as [|y l IH]; simpl; [done|].
  destruct (less y x) eqn:E; [|done].
  rewrite !filter_cons. rewrite IH, filter_cons.
  destruct (decide (P x)), (decide (P y)); try done.
  by rewrite Heq in E.
Qed.

Lemma SliceStable_stable (P : A → Prop) `{∀ x, Decision (P x)} l :
  (∀ x y, P x → P y → less y x = false) →
  filter P (SliceStable l) = filter P l.
Proof.
  intros Heq. induction l as [|x l IH]; simpl; [done|].
  rewrite insert_stable_filter by eauto. rewrite !filter_cons, IH. done.
Qed.

Lemma elem_of_SliceStable l x : x ∈ SliceStable l ↔ x ∈ l.
Proof. by rewrite SliceStable_perm. Qed.
End Sorting.

(** Sorting has one result when no two elements compare equal. *)
Lemma sorted_perm_unique {A} (less : A → A → bool) (l k : list A) :
  (∀ x y, x ∈ l → y ∈ l → less x y = false → less y x = false → x = y) →
  StronglySorted (not_after less) l → StronglySorted (not_after less) k → l ≡ₚ k → l = k.
Proof.
  revert k. induction l as [|x l IH]; intros k Htot Hl Hk Hp.
  { by apply Permutation_nil_l in Hp as ->. }
  destruct k as [|y k]; [by apply Permutation_nil_r in Hp|].
  inversion Hl as [|?? Hl' Hx]; inversion Hk as [|?? Hk' Hy]; subst.
  assert (x = y) as ->.
  { assert (Hxk : x ∈ y :: k) by (rewrite <- Hp; left).
    assert (Hyl : y ∈ x :: l) by (rewrite Hp; left).
    apply elem_of_cons in Hxk as [->|Hxk]; [done|].
    apply elem_of_cons in Hyl as [->|Hyl]; [done|].
    rewrite Forall_forall in Hx, Hy. apply Htot; [left|by right| |].
    - by apply Hy.
    - by apply Hx. }
  f_equal. apply IH; [|done|done|].
  - intros u v Hu Hv. apply Htot; by right.
  - by apply Permutation_cons_inv in Hp.
Qed.

(** Sorting by a key commutes with taking the keys. *)
Lemma map_SliceStable {A B} (key : A → B) (less : B → B → bool) (l : list A) :
  map key (SliceStable (λ x y, less (key x) (key y)) l) = SliceStable less (map key l).
Proof.
  assert (Hins : ∀ x l, map key (insert_stable (λ x y, less (key x) (key y)) x l) =
                        insert_stable less (key x) (map key l)).
  { intros x k. induction k as [|y k IH]; cbn; [done|]. case_match; cbn; [by rewrite IH|done]. }
  unfold SliceStable. induction l as [|x l IH]; cbn; [done|]. by rewrite Hins, IH.
Qed.

(** A total strict order sorts permutations alike. *)
Lemma SliceStable_perm_eq {A} (less : A → A → bool) (l k : list A) :
  (∀ x y, less x y = true → less y x = false) →
  (∀ x y z, less y x = false → less z y = false → less z x = false) →
  (∀ x y, less x y = false → less y x = false → x = y) →
  l ≡ₚ k → SliceStable less l = SliceStable less k.
Proof.
  intros Hasym Hweak Htot Hp. apply (sorted_perm_unique less); [by auto|..].
  - by apply SliceStable_sorted.
  - by apply SliceStable_sorted.
  - by rewrite !SliceStable_perm.
Qed.
