(* ===== verification/Fleet.v ===== *)
(** * The inventory of hosts

    [internal/repository/host.go] and [internal/model/host.go]: the in-memory
    [HostRepository].  Every method holds the repository's mutex for its whole body,
    so a method is an atomic step on the map.  What a method reads from outside, the
    clock, a fresh identifier and the order in which Go's [range] visits a map, is an
    argument; a [list string] argument [order] is the order of the keys. *)
From S2P Require Import Prelude GoSort.
From stdpp Require Import strings sorting.
#[local] Set Warnings "-clear-no-such-hyp".
#[local] Open Scope Z_scope.

(** ** Go integers *)

(** [int] is a 64-bit two's-complement integer. *)
Definition go_int (v : Z) : Z := (v + 2 ^ 63) mod 2 ^ 64 - 2 ^ 63.

Definition int_ok (v : Z) : Prop := - 2 ^ 63 ≤ v < 2 ^ 63.

(** ** Data *)

Definition HostReady : string := "ready".
Definition HostDraining : string := "draining".
Definition HostDown : string := "down".

(** [model.Host]; times are nanoseconds. *)
Record Host := mkHost {
  h_ID : string;
  h_Hostname : string;
  h_Address : string;
  h_Zone : string;
  h_CPUsTotal : Z;
  h_MemoryMBTotal : Z;
  h_CPUsAllocatable : Z;
  h_MemoryMBAllocatable : Z;
  h_Status : string;
  h_AgentVersion : string;
  h_LastHeartbeatAt : Z;
  h_CreatedAt : Z;
  h_UpdatedAt : Z
}.

(** [HostRepository]: the records by host identifier. *)
Abbreviation HostRepository := (gmap string Host).

(** The errors of the control plane that the code tells apart, and any other error by
    its text. *)
Inductive error : Type :=
| ErrNotFound
| ErrHostNotReady
| ErrInsufficientCapacity
| ErrNoCapacity
| ErrUnplaced
| ErrHostNotConnected
| ErrOther (msg : string).

#[export] Instance error_eq_dec : EqDecision error.
Proof. solve_decision. Defined.

(** [err.Error()]. *)
Definition Error (e : error) : string :=
  match e with
  | ErrNotFound => "user not found"
  | ErrHostNotReady => "host not ready"
  | ErrInsufficientCapacity => "insufficient host capacity"
  | ErrNoCapacity => "no host with sufficient capacity"
  | ErrUnplaced => "server has no host assigned"
  | ErrHostNotConnected => "host has no live agent connection"
  | ErrOther msg => msg
  end.

(** Field updates. *)
Definition set_allocatable (c m t : Z) (h : Host) : Host :=
  mkHost (h_ID h) (h_Hostname h) (h_Address h) (h_Zone h) (h_CPUsTotal h) (h_MemoryMBTotal h)
    c m (h_Status h) (h_AgentVersion h) (h_LastHeartbeatAt h) (h_CreatedAt h) t.

Definition set_liveness (status : string) (beat t : Z) (h : Host) : Host :=
  mkHost (h_ID h) (h_Hostname h) (h_Address h) (h_Zone h) (h_CPUsTotal h) (h_MemoryMBTotal h)
    (h_CPUsAllocatable h) (h_MemoryMBAllocatable h) status (h_AgentVersion h) beat (h_CreatedAt h) t.

(** ** Operations *)

Definition clampNonNeg (v : Z) : Z := if v <? 0 then 0 else v.

(** The first record the loop visits whose hostname matches, with its key. *)
Fixpoint findByHostname (order : list string) (hostname : string) (r : HostRepository) :
    option (string * Host) :=
  match order with
  | [] => None
  | k :: order' =>
      match r !! k with
      | Some h => if String.eqb (h_Hostname h) hostname then Some (k, h)
                  else findByHostname order' hostname r
      | None => findByHostname order' hostname r
      end
  end.

Definition matchExisting (order : list string) (h : Host) (r : HostRepository) :
    option (string * Host) :=
  if negb (String.eqb (h_ID h) "") then pair (h_ID h) <$> r !! h_ID h
  else findByHostname order (h_Hostname h) r.

(** The record of a known host after it registered again. *)
Definition reregistered (t : Z) (h existing : Host) : Host :=
  mkHost (h_ID existing) (h_Hostname h) (h_Address h) (h_Zone h) (h_CPUsTotal h)
    (h_MemoryMBTotal h) (h_CPUsAllocatable existing) (h_MemoryMBAllocatable existing)
    HostReady (h_AgentVersion h) t (h_CreatedAt existing) t.

(** The record of a host the process has not seen. *)
Definition registered (t : Z) (uuid : string) (h : Host) (reservedCPUs reservedMemMB : Z) : Host :=
  mkHost (if String.eqb (h_ID h) "" then uuid else h_ID h)
    (h_Hostname h) (h_Address h) (h_Zone h) (h_CPUsTotal h) (h_MemoryMBTotal h)
    (clampNonNeg (go_int (h_CPUsTotal h - reservedCPUs)))
    (clampNonNeg (go_int (h_MemoryMBTotal h - reservedMemMB)))
    HostReady (h_AgentVersion h) t t t.

Definition RegisterReserved (t : Z) (uuid : string) (order : list string) (h : Host)
    (reservedCPUs reservedMemMB : Z) (r : HostRepository) : Host * HostRepository :=
  match matchExisting order h r with
  | Some (k, existing) =>
      let e := reregistered t h existing in (e, <[k := e]> r)
  | None =>
      let stored := registered t uuid h reservedCPUs reservedMemMB in
      (stored, <[h_ID stored := stored]> r)
  end.

Definition Register (t : Z) (uuid : string) (order : list string) (h : Host)
    (r : HostRepository) : Host * HostRepository :=
  RegisterReserved t uuid order h 0 0 r.

Definition Heartbeat (t : Z) (id : string) (r : HostRepository) : option error * HostRepository :=
  match r !! id with
  | None => (Some ErrNotFound, r)
  | Some h =>
      let status := if String.eqb (h_Status h) HostDown then HostReady else h_Status h in
      (None, <[id := set_liveness status t t h]> r)
  end.

Definition GetByID (id : string) (r : HostRepository) : Host + error :=
  match r !! id with Some h => inl h | None => inr ErrNotFound end.

(** [sort.Slice] by creation time is not stable: hosts created at the same instant come
    in any order, which is some stable order of some visit of the map. *)
Definition newest_first (x y : Host) : bool := h_CreatedAt y <? h_CreatedAt x.

Definition snapshot (order : list string) (keep : Host → bool) (r : HostRepository) : list Host :=
  SliceStable newest_first (List.filter keep (omap (λ k, r !! k) order)).

Definition ready (h : Host) : bool := String.eqb (h_Status h) HostReady.

Definition List_ (order : list string) (r : HostRepository) : list Host :=
  snapshot order (λ _, true) r.

Definition ListReady (order : list string) (r : HostRepository) : list Host :=
  snapshot order ready r.

Definition Reserve (t : Z) (id : string) (cpus memMB : Z) (r : HostRepository) :
    option error * HostRepository :=
  match r !! id with
  | None => (Some ErrNotFound, r)
  | Some h =>
      if negb (ready h) then (Some ErrHostNotReady, r)
      else if (h_CPUsAllocatable h <? cpus) || (h_MemoryMBAllocatable h <? memMB) then
        (Some ErrInsufficientCapacity, r)
      else (None, <[id := set_allocatable (go_int (h_CPUsAllocatable h - cpus))
                            (go_int (h_MemoryMBAllocatable h - memMB)) t h]> r)
  end.

(** [Release] has no error path. *)
Definition Release (t : Z) (id : string) (cpus memMB : Z) (r : HostRepository) : HostRepository :=
  match r !! id with
  | None => r
  | Some h =>
      <[id := set_allocatable (Z.min (go_int (h_CPUsAllocatable h + cpus)) (h_CPUsTotal h))
                (Z.min (go_int (h_MemoryMBAllocatable h + memMB)) (h_MemoryMBTotal h)) t h]> r
  end.

Definition MarkDown (t : Z) (id : string) (r : HostRepository) : HostRepository :=
  match r !! id with
  | None => r
  | Some h => if String.eqb (h_Status h) HostDown then r
              else <[id := set_liveness HostDown (h_LastHeartbeatAt h) t h]> r
  end.

Definition stale (cutoff : Z) (h : Host) : bool :=
  negb (String.eqb (h_Status h) HostDown || negb (h_LastHeartbeatAt h <? cutoff)).

(** The loop treats every entry by itself, so the visiting order does not matter. *)
Definition MarkStale (t cutoff : Z) (r : HostRepository) : Z * HostRepository :=
  (Z.of_nat (size (filter (λ '(_, h), stale cutoff h = true) r)),
   (λ h, if stale cutoff h then set_liveness HostDown (h_LastHeartbeatAt h) t h else h) <$> r).

(** ** Lemmas *)

Lemma go_int_small v : int_ok v → go_int v = v.
Proof. unfold int_ok, go_int. intros. rewrite Z.mod_small; lia. Qed.

Lemma go_int_ok v : int_ok (go_int v).
Proof. unfold int_ok, go_int. pose proof (Z.mod_pos_bound (v + 2 ^ 63) (2 ^ 64)). lia. Qed.

Lemma clampNonNeg_max v : clampNonNeg v = Z.max 0 v.
Proof. unfold clampNonNeg. destruct (Z.ltb_spec v 0); lia. Qed.

Lemma newest_first_asym x y : newest_first x y = true → newest_first y x = false.
Proof. unfold newest_first. rewrite Z.ltb_lt, Z.ltb_ge. lia. Qed.

Lemma newest_first_weak x y z :
  newest_first y x = false → newest_first z y = false → newest_first z x = false.
Proof. unfold newest_first. rewrite !Z.ltb_ge. lia. Qed.

(** The records a visit of the whole map yields. *)
Lemma elem_of_snapshot order keep r h :
  h ∈ snapshot order keep r ↔ (∃ k, k ∈ order ∧ r !! k = Some h) ∧ keep h = true.
Proof.
  unfold snapshot. rewrite elem_of_SliceStable, list_elem_of_In, filter_In,
    <- list_elem_of_In, list_elem_of_omap. done.
Qed.

Lemma findByHostname_Some order hostname r k h :
  findByHostname order hostname r = Some (k, h) →
  r !! k = Some h ∧ h_Hostname h = hostname.
Proof.
  induction order as [|k' order IH]; simpl; [done|].
  destruct (r !! k') as [h'|] eqn:E; [|done].
  destruct (String.eqb_spec (h_Hostname h') hostname); [|done].
  intros [= <- <-]. done.
Qed.

Lemma matchExisting_Some order h r k e :
  matchExisting order h r = Some (k, e) → r !! k = Some e.
Proof.
  unfold matchExisting. destruct (negb _).
  - destruct (r !! h_ID h) eqn:E; naive_solver.
  - intros H. by apply findByHostname_Some in H as [? _].
Qed.
