(* ===== verification/Scheduler.v ===== *)
(** * Placement of servers on hosts

    [internal/scheduler/scheduler.go].  The scheduler knows the inventory through the
    interface [hostStore], here a class over the state [W] the store lives in;
    [hostStoreLaws] says what the scheduler relies on: a listing shows the inventory at
    one moment, a reservation is atomic, and between two calls other goroutines may
    change the inventory in the ways [env] allows.  With [env] equality the store is
    used by nobody else. *)
From S2P Require Import Prelude GoSort Fleet.
From stdpp Require Import strings sorting.
#[local] Set Warnings "-clear-no-such-hyp".
#[local] Open Scope Z_scope.

(** ** The interface to the inventory *)

Class hostStore (W : Type) : Type := {
  hs_List : ST W (list Host + error);
  hs_ListReady : ST W (list Host + error);
  hs_Reserve : string → Z → Z → ST W (option error);
  hs_Release : string → Z → Z → ST W (option error)
}.

(** ** The scheduler *)

(** The order of [fittingHosts]: more free memory first, then more free CPUs. *)
Definition freer (x y : Host) : bool :=
  if negb (h_MemoryMBAllocatable x =? h_MemoryMBAllocatable y)
  then h_MemoryMBAllocatable y <? h_MemoryMBAllocatable x
  else h_CPUsAllocatable y <? h_CPUsAllocatable x.

Definition fits (cpus memMB : Z) (h : Host) : bool :=
  (cpus <=? h_CPUsAllocatable h) && (memMB <=? h_MemoryMBAllocatable h).

Definition fittingHosts (hosts : list Host) (cpus memMB : Z) : list Host :=
  SliceStable freer (List.filter (fits cpus memMB) hosts).

Section Scheduler.
Context {W : Type} `{hostStore W}.

(** The loop of [Schedule]: a refused reservation moves on to the next candidate. *)
Fixpoint tryReserve (candidates : list Host) (cpus memMB : Z) : ST W (string + error) :=
  match candidates with
  | [] => ret (inr ErrNoCapacity)
  | h :: rest =>
      let* err := hs_Reserve (h_ID h) cpus memMB in
      match err with
      | None => ret (inl (h_ID h))
      | Some _ => tryReserve rest cpus memMB
      end
  end.

Definition Schedule (cpus memMB : Z) : ST W (string + error) :=
  let* listed := hs_ListReady in
  match listed with
  | inr err => ret (inr err)
  | inl ready => tryReserve (fittingHosts ready cpus memMB) cpus memMB
  end.

Definition ReleaseHost (hostID : string) (cpus memMB : Z) : ST W (option error) :=
  hs_Release hostID cpus memMB.

Definition has_id (hostID : string) (h : Host) : bool := String.eqb (h_ID h) hostID.

Definition Placeable (hostID : string) : ST W (bool + error) :=
  let* listed := hs_ListReady in
  match listed with
  | inr err => ret (inr err)
  | inl ready => ret (inl (existsb (has_id hostID) ready))
  end.

Definition LastHeartbeat (hostID : string) : ST W (option Z + error) :=
  let* listed := hs_List in
  match listed with
  | inr err => ret (inr err)
  | inl all => ret (inl (h_LastHeartbeatAt <$> List.find (has_id hostID) all))
  end.

Definition CanEverFit (cpus memMB : Z) : ST W (bool + error) :=
  let* listed := hs_List in
  match listed with
  | inr err => ret (inr err)
  | inl [] => ret (inl true)
  | inl all =>
      ret (inl (existsb (λ h, (cpus <=? h_CPUsTotal h) && (memMB <=? h_MemoryMBTotal h)) all))
  end.
End Scheduler.

(** ** What the store promises *)

Class hostStoreLaws (W : Type) `{hostStore W} (view : W → HostRepository)
    (env : relation HostRepository) : Prop := {
  law_env : PreOrder env;
  law_ListReady w :
    wp hs_ListReady (λ res w', env (view w) (view w') ∧
      ∃ l, res = inl l ∧ ∀ h, h ∈ l ↔ (∃ k, view w' !! k = Some h) ∧ ready h = true) w;
  law_List w :
    wp hs_List (λ res w', env (view w) (view w') ∧
      ∃ l, res = inl l ∧ ∀ h, h ∈ l ↔ ∃ k, view w' !! k = Some h) w;
  law_Reserve id c m w :
    wp (hs_Reserve id c m) (λ err w',
      ∃ r t, env (view w) r ∧ Reserve t id c m r = (err, view w')) w;
  law_Release id c m w :
    wp (hs_Release id c m) (λ err w',
      ∃ r t, env (view w) r ∧ err = None ∧ view w' = Release t id c m r) w
}.

(** ** Lemmas *)

Lemma freer_asym x y : freer x y = true → freer y x = false.
Proof.
  unfold freer. destruct (Z.eqb_spec (h_MemoryMBAllocatable x) (h_MemoryMBAllocatable y)) as [E|E];
    destruct (Z.eqb_spec (h_MemoryMBAllocatable y) (h_MemoryMBAllocatable x)); cbn;
    rewrite ?Z.ltb_lt, ?Z.ltb_ge; lia.
Qed.

Lemma freer_false x y :
  freer x y = false ↔
  h_MemoryMBAllocatable x < h_MemoryMBAllocatable y ∨
  (h_MemoryMBAllocatable x = h_MemoryMBAllocatable y ∧ h_CPUsAllocatable x ≤ h_CPUsAllocatable y).
Proof.
  unfold freer. destruct (Z.eqb_spec (h_MemoryMBAllocatable x) (h_MemoryMBAllocatable y)) as [E|E];
    cbn; rewrite ?Z.ltb_ge; lia.
Qed.

Lemma freer_weak x y z : freer y x = false → freer z y = false → freer z x = false.
Proof. rewrite !freer_false. lia. Qed.

Lemma fits_spec c m h :
  fits c m h = true ↔ c ≤ h_CPUsAllocatable h ∧ m ≤ h_MemoryMBAllocatable h.
Proof. unfold fits. by rewrite andb_true_iff, !Z.leb_le. Qed.

Lemma elem_of_fittingHosts hosts c m h :
  h ∈ fittingHosts hosts c m ↔ h ∈ hosts ∧ fits c m h = true.
Proof.
  unfold fittingHosts. rewrite elem_of_SliceStable, list_elem_of_In, filter_In, <- list_elem_of_In.
  done.
Qed.

(** The head of the candidates has the most free memory, and among those the most
    free CPUs. *)
Lemma fittingHosts_head hosts c m h l :
  fittingHosts hosts c m = h :: l →
  ∀ h', h' ∈ hosts → fits c m h' = true → freer h' h = false.
Proof.
  intros E h' Hin Hfit.
  pose proof (SliceStable_sorted freer freer_asym freer_weak (List.filter (fits c m) hosts)) as Hs.
  fold (fittingHosts hosts c m) in Hs. rewrite E in Hs. apply StronglySorted_cons in Hs as [Hall _].
  assert (h' ∈ fittingHosts hosts c m) as Hmem by (by apply elem_of_fittingHosts).
  rewrite E in Hmem. apply elem_of_cons in Hmem as [->|Hmem].
  - apply freer_false. lia.
  - rewrite Forall_forall in Hall. by apply Hall.
Qed.

Lemma existsb_elem {A} (f : A → bool) (l : list A) : existsb f l = true ↔ ∃ x, x ∈ l ∧ f x = true.
Proof. rewrite existsb_exists. by setoid_rewrite list_elem_of_In. Qed.

Lemma Reserve_ok t id c m r h :
  r !! id = Some h → ready h = true → fits c m h = true →
  Reserve t id c m r = (None, <[id := set_allocatable (go_int (h_CPUsAllocatable h - c))
                                  (go_int (h_MemoryMBAllocatable h - m)) t h]> r).
Proof.
  intros E Hr Hf%fits_spec. unfold Reserve. rewrite E, Hr. cbn.
  destruct (Z.ltb_spec (h_CPUsAllocatable h) c), (Z.ltb_spec (h_MemoryMBAllocatable h) m);
    cbn; try lia; done.
Qed.

Lemma Reserve_Some t id c m r e r' : Reserve t id c m r = (Some e, r') → r' = r.
Proof. unfold Reserve. repeat case_match; naive_solver. Qed.

(** Keys are the identifiers of the records. *)
Definition keys_ok (r : HostRepository) : Prop := ∀ k h, r !! k = Some h → h_ID h = k.

(** ** Properties *)

Section Laws.
Context {W : Type} `{hostStore W} (view : W → HostRepository) (env : relation HostRepository).
Context `{!hostStoreLaws W view env}.

Lemma tryReserve_safe l c m w :
  wp (tryReserve l c m) (λ res w', match res with
    | inl id => ∃ h r t, h ∈ l ∧ h_ID h = id ∧ env (view w) r ∧ Reserve t id c m r = (None, view w')
    | inr err => err = ErrNoCapacity ∧ env (view w) (view w')
    end) w.
Proof.
  pose proof (law_env (W:=W)) as Henv. revert w. induction l as [|h l IH]; intros w; cbn [tryReserve].
  { wp_steps. split; [done|]. reflexivity. }
  wp_step. eapply wp_mono; [apply law_Reserve|]. intros err w1 (r & t & Hr & E). cbv beta.
  destruct err as [e|].
  - apply Reserve_Some in E. eapply wp_mono; [apply IH|]. rewrite E. intros [id|e'] w2; cbv beta.
    + intros (h' & r' & t' & Hin & Hid & Hr' & E'). exists h', r', t'.
      split; [by right|]. split_and!; [done|by etransitivity|done].
    + intros [-> Hr']. split; [done|]. by etransitivity.
  - wp_steps. exists h, r, t. split; [by left|]. done.
Qed.

Lemma Placeable_spec id w :
  wp (Placeable id) (λ res w', env (view w) (view w') ∧
    ∃ b, res = inl b ∧
         (b = true ↔ ∃ k h, view w' !! k = Some h ∧ h_ID h = id ∧ ready h = true)) w.
Proof.
  unfold Placeable. wp_step. eapply wp_mono; [apply law_ListReady|].
  intros res w' (Henv & l & -> & Hl). cbv beta. wp_steps. split; [done|]. eexists. split; [done|].
  rewrite existsb_elem. unfold has_id. setoid_rewrite Hl. setoid_rewrite String.eqb_eq. naive_solver.
Qed.

Lemma LastHeartbeat_spec id w :
  wp (LastHeartbeat id) (λ res w', env (view w) (view w') ∧
    ∃ o, res = inl o ∧
         match o with
         | Some t => ∃ k h, view w' !! k = Some h ∧ h_ID h = id ∧ h_LastHeartbeatAt h = t
         | None => ∀ k h, view w' !! k = Some h → h_ID h ≠ id
         end) w.
Proof.
  unfold LastHeartbeat. wp_step. eapply wp_mono; [apply law_List|].
  intros res w' (Henv & l & -> & Hl). cbv beta. wp_steps. split; [done|]. eexists. split; [done|].
  destruct (List.find _ l) as [h|] eqn:E; cbn.
  - apply find_some in E as [Hin Hid]. apply list_elem_of_In, Hl in Hin as [k Hk].
    apply String.eqb_eq in Hid. eauto.
  - intros k h Hk Hid. eapply find_none with (x := h) in E.
    + unfold has_id in E. rewrite Hid, String.eqb_refl in E. done.
    + apply list_elem_of_In, Hl. eauto.
Qed.
End Laws.

(** A granted reservation: the host was ready and had room at that moment, and only
    its free capacity changed. *)
Definition granted (t : Z) (id : string) (c m : Z) (r r' : HostRepository) : Prop :=
  ∃ h, r !! id = Some h ∧ h_Status h = HostReady ∧
       c ≤ h_CPUsAllocatable h ∧ m ≤ h_MemoryMBAllocatable h ∧
       r' = <[id := set_allocatable (go_int (h_CPUsAllocatable h - c))
                      (go_int (h_MemoryMBAllocatable h - m)) t h]> r.

Lemma Reserve_granted t id c m r r' : Reserve t id c m r = (None, r') → granted t id c m r r'.
Proof.
  unfold Reserve, granted, ready. destruct (r !! id) as [h|]; [|done].
  destruct (String.eqb_spec (h_Status h) HostReady); cbn; [|done].
  destruct (_ || _) eqn:E; intros [= <-]. bool_prop. eauto 10.
Qed.

(** Whatever other goroutines do to the inventory while a server is being placed, a
    successful [Schedule] reserves exactly the requested capacity on the host it names, a
    host that was ready and had that capacity free at the moment of the reservation, and
    changes nothing else; an unsuccessful one reserves nothing and reports
    [ErrNoCapacity]. *)
Theorem schedule_races {W} `{hostStore W} (view : W → HostRepository) env
    `{!hostStoreLaws W view env} c m w :
  wp (Schedule c m) (λ res w', match res with
    | inl id => ∃ r t, env (view w) r ∧ granted t id c m r (view w')
    | inr err => err = ErrNoCapacity ∧ env (view w) (view w')
    end) w.
Proof.
  pose proof (law_env (W:=W)) as Henv. unfold Schedule. wp_step.
  eapply wp_mono; [apply law_ListReady|]. intros res w1 (H1 & l & -> & _). cbv beta.
  eapply wp_mono; [apply (tryReserve_safe view env)|]. intros [id|err] w2; cbv beta.
  - intros (_ & r & t & _ & _ & Hr & E). exists r, t.
    split; [by etransitivity|]. by apply Reserve_granted.
  - intros [-> Hr]. split; [done|]. by etransitivity.
Qed.

(** C26: On an inventory nobody else changes, [Schedule] succeeds exactly when some ready
    host has the requested capacity free; it takes it from the ready fitting host with the
    most free memory, and among those the most free CPUs. *)
Theorem schedule_least_loaded {W} `{hostStore W} (view : W → HostRepository)
    `{!hostStoreLaws W view eq} c m w :
  keys_ok (view w) →
  wp (Schedule c m) (λ res w', match res with
    | inl id => ∃ t h, view w !! id = Some h ∧ granted t id c m (view w) (view w') ∧
        ∀ k h', view w !! k = Some h' → ready h' = true → fits c m h' = true →
          h_MemoryMBAllocatable h' < h_MemoryMBAllocatable h ∨
          (h_MemoryMBAllocatable h' = h_MemoryMBAllocatable h ∧
           h_CPUsAllocatable h' ≤ h_CPUsAllocatable h)
    | inr err => err = ErrNoCapacity ∧ view w' = view w ∧
        ∀ k h', view w !! k = Some h' → ready h' = true → fits c m h' = false
    end) w.
Proof.
  intros Hkeys. unfold Schedule. wp_step. eapply wp_mono; [apply law_ListReady|].
  intros res w1 (E1 & l & -> & Hl). cbv beta.
  assert (Hin : ∀ k h, view w !! k = Some h → ready h = true → h ∈ l)
    by (intros k h Hk Hr; apply Hl; rewrite <- E1; eauto).
  destruct (fittingHosts l c m) as [|h rest] eqn:E; cbn [tryReserve].
  - wp_steps. split_and!; [done|done|]. intros k h' Hk Hr. apply not_true_is_false. intros Hf.
    apply (not_elem_of_nil h'). rewrite <- E. apply elem_of_fittingHosts. eauto.
  - assert (h ∈ fittingHosts l c m) as Hh by (rewrite E; by left).
    apply elem_of_fittingHosts in Hh as [Hh Hf]. apply Hl in Hh as [[k Hk] Hr].
    pose proof Hk as Hid. rewrite <- E1 in Hk, Hid. apply Hkeys in Hid. subst k.
    wp_step. eapply wp_mono; [apply law_Reserve|]. intros err w2 (r & t & <- & E2). cbv beta.
    pose proof (Reserve_ok t _ c m _ h Hk Hr Hf) as E3. rewrite E1 in E3. rewrite E3 in E2.
    injection E2 as <- E2. wp_steps. exists t, h.
    split_and!; [done|apply Reserve_granted; rewrite E1, E3, E2; done|].
    intros k' h' Hk' Hr' Hf'. apply freer_false. eapply fittingHosts_head; eauto.
Qed.

(** ** The in-memory inventory is such a store *)

(** [HostRepository] when one goroutine uses it: the clock stands at [t] and a visit
    takes the keys in the order of the map. *)
Definition keys (r : HostRepository) : list string := (map_to_list r).*1.

Definition sole_store (t : Z) : hostStore HostRepository := {|
  hs_List := λ r, Some (inl (List_ (keys r) r), r);
  hs_ListReady := λ r, Some (inl (ListReady (keys r) r), r);
  hs_Reserve := λ id c m r, Some (Reserve t id c m r);
  hs_Release := λ id c m r, Some (None, Release t id c m r)
|}.

Lemma elem_of_keys r k : k ∈ keys r ↔ is_Some (r !! k).
Proof.
  unfold keys. rewrite list_elem_of_fmap. split.
  - intros ([k' h] & -> & Hin). apply elem_of_map_to_list in Hin. eauto.
  - intros [h Hk]. exists (k, h). split; [done|]. by apply elem_of_map_to_list.
Qed.

Lemma elem_of_snapshot_all order keep r h :
  (∀ k, is_Some (r !! k) → k ∈ order) →
  h ∈ snapshot order keep r ↔ (∃ k, r !! k = Some h) ∧ keep h = true.
Proof. intros Hord. rewrite elem_of_snapshot. naive_solver. Qed.

#[export] Instance sole_store_laws t :
  @hostStoreLaws HostRepository (sole_store t) id eq.
Proof.
  assert (Hall : ∀ r k, is_Some (r !! k) → k ∈ keys r) by (intros; by apply elem_of_keys).
  split; [apply _|..]; intros; unfold wp; cbn; try match goal with |- context [Reserve ?a ?b ?c ?d ?e] => destruct (Reserve a b c d e) eqn:E end.
  - split; [done|]. eexists. split; [done|]. intros h. unfold ListReady.
    by rewrite elem_of_snapshot_all by auto.
  - split; [done|]. eexists. split; [done|]. intros h. unfold List_.
    rewrite elem_of_snapshot_all by auto. naive_solver.
  - eauto.
  - eauto.
Qed.

(** ** A fleet to try the scheduler on *)

Definition sample_host (id status : string) (cpus mem : Z) : Host :=
  mkHost id ("host-" +:+ id) "" "" cpus mem cpus mem status "" 0 0 0.

Definition sample_fleet : HostRepository :=
  <["a" := sample_host "a" HostReady 4 4096]>
  (<["b" := sample_host "b" HostReady 8 8192]>
  (<["c" := sample_host "c" HostDown 64 65536]> ∅)).

Lemma sample_fleet_keys : keys_ok sample_fleet.
Proof.
  intros k h. unfold sample_fleet. rewrite !lookup_insert_Some, lookup_empty. naive_solver.
Qed.

Lemma schedule_least_loaded_witness :
  keys_ok sample_fleet ∧
  wp (@Schedule _ (sole_store 7) 2 2048) (λ res w', match res with
    | inl id => ∃ t h, sample_fleet !! id = Some h ∧ granted t id 2 2048 sample_fleet w' ∧
        ∀ k h', sample_fleet !! k = Some h' → ready h' = true → fits 2 2048 h' = true →
          h_MemoryMBAllocatable h' < h_MemoryMBAllocatable h ∨
          (h_MemoryMBAllocatable h' = h_MemoryMBAllocatable h ∧
           h_CPUsAllocatable h' ≤ h_CPUsAllocatable h)
    | inr err => err = ErrNoCapacity ∧ w' = sample_fleet ∧
        ∀ k h', sample_fleet !! k = Some h' → ready h' = true → fits 2 2048 h' = false
    end) sample_fleet.
Proof.
  split; [apply sample_fleet_keys|].
  apply (@schedule_least_loaded _ (sole_store 7) id (sole_store_laws 7) 2 2048 sample_fleet).
  apply sample_fleet_keys.
Defined.

(** The run itself: the server goes to [b], the ready host with the most free memory. *)
Lemma sample_schedule :
  fst <$> @Schedule _ (sole_store 7) 2 2048 sample_fleet = Some (inl "b") ∧
  fst <$> @Schedule _ (sole_store 7) 2 16384 sample_fleet = Some (inr ErrNoCapacity).
Proof. split; vm_compute; reflexivity. Qed.
