(* ===== verification/Servers.v ===== *)
(** * The table of game servers

    [internal/model/game_server.go], [internal/repository/game_server.go] and the two
    statements of [internal/repository/billing.go] the reconciler runs.  A table is a
    finite map from the primary key to the row; every statement of the repository is
    one SQL statement, hence one atomic step on the tables, and is written here as the
    function it applies to the rows it selects.  The time of the statement ([now()])
    and the identifiers the code draws are arguments. *)
From S2P Require Import Prelude GoSort Fleet.
From stdpp Require Import strings sorting.
#[local] Set Warnings "-clear-no-such-hyp".
#[local] Open Scope Z_scope.

(** ** Data *)

Definition DesiredRunning : string := "running".
Definition DesiredStopped : string := "stopped".
Definition DesiredDeleted : string := "deleted".

Definition StatusPending : string := "pending".
Definition StatusProvisioning : string := "provisioning".
Definition StatusRunning : string := "running".
Definition StatusStopping : string := "stopping".
Definition StatusStopped : string := "stopped".
Definition StatusDeleting : string := "deleting".
Definition StatusDeleted : string := "deleted".
Definition StatusError : string := "error".
Definition StatusUnschedulable : string := "unschedulable".

(** [model.GameServer]; a pointer field is an option. *)
Record GameServer := mkGameServer {
  g_ID : string;
  g_OwnerID : string;
  g_Name : string;
  g_Game : string;
  g_Version : string;
  g_CPUs : Z;
  g_MemoryMB : Z;
  g_DesiredState : string;
  g_Status : string;
  g_TemplateID : option string;
  g_ImageRef : option string;
  g_Env : gmap string string;
  g_HostID : option string;
  g_VMID : option string;
  g_Host : option string;
  g_Port : option Z;
  g_StatusMessage : option string;
  g_BackupRequested : bool;
  g_LastBackupAt : option Z;
  g_PlayersOnline : option Z;
  g_PlayersMax : option Z;
  g_LastSeen : option Z;
  g_CreatedAt : Z;
  g_UpdatedAt : Z
}.

(** A row of [game_servers]: the columns the code reads, and [deleted_at]. *)
Record row := mkRow {
  r_server : GameServer;
  r_deleted_at : option Z
}.

(** A row of [billing_usage]. *)
Record usage := mkUsage {
  u_server : string;
  u_owner : string;
  u_cpus : Z;
  u_memory : Z;
  u_started : Z;
  u_ended : option Z
}.

Abbreviation servers := (gmap string row).
Abbreviation billing_usage := (gmap string usage).

(** Column updates. *)
Definition set_status (v : string) (s : GameServer) : GameServer :=
  let 'mkGameServer i o n g ve c me d _ ti im en hi vm h p sm b lb po pm ls cr up := s in
  mkGameServer i o n g ve c me d v ti im en hi vm h p sm b lb po pm ls cr up.

Definition set_desired (v : string) (s : GameServer) : GameServer :=
  let 'mkGameServer i o n g ve c me _ st ti im en hi vm h p sm b lb po pm ls cr up := s in
  mkGameServer i o n g ve c me v st ti im en hi vm h p sm b lb po pm ls cr up.

Definition set_spec (name version : string) (s : GameServer) : GameServer :=
  let 'mkGameServer i o _ g _ c me d st ti im en hi vm h p sm b lb po pm ls cr up := s in
  mkGameServer i o name g version c me d st ti im en hi vm h p sm b lb po pm ls cr up.

Definition set_host_id (v : option string) (s : GameServer) : GameServer :=
  let 'mkGameServer i o n g ve c me d st ti im en _ vm h p sm b lb po pm ls cr up := s in
  mkGameServer i o n g ve c me d st ti im en v vm h p sm b lb po pm ls cr up.

Definition set_vm_id (v : option string) (s : GameServer) : GameServer :=
  let 'mkGameServer i o n g ve c me d st ti im en hi _ h p sm b lb po pm ls cr up := s in
  mkGameServer i o n g ve c me d st ti im en hi v h p sm b lb po pm ls cr up.

Definition set_endpoint (host : option string) (port : option Z) (s : GameServer) : GameServer :=
  let 'mkGameServer i o n g ve c me d st ti im en hi vm _ _ sm b lb po pm ls cr up := s in
  mkGameServer i o n g ve c me d st ti im en hi vm host port sm b lb po pm ls cr up.

Definition set_message (v : option string) (s : GameServer) : GameServer :=
  let 'mkGameServer i o n g ve c me d st ti im en hi vm h p _ b lb po pm ls cr up := s in
  mkGameServer i o n g ve c me d st ti im en hi vm h p v b lb po pm ls cr up.

Definition set_backup (req : bool) (last : option Z) (s : GameServer) : GameServer :=
  let 'mkGameServer i o n g ve c me d st ti im en hi vm h p sm _ _ po pm ls cr up := s in
  mkGameServer i o n g ve c me d st ti im en hi vm h p sm req last po pm ls cr up.

Definition set_health (online max seen : option Z) (s : GameServer) : GameServer :=
  let 'mkGameServer i o n g ve c me d st ti im en hi vm h p sm b lb _ _ _ cr up := s in
  mkGameServer i o n g ve c me d st ti im en hi vm h p sm b lb online max seen cr up.

Definition set_updated (t : Z) (s : GameServer) : GameServer :=
  let 'mkGameServer i o n g ve c me d st ti im en hi vm h p sm b lb po pm ls cr _ := s in
  mkGameServer i o n g ve c me d st ti im en hi vm h p sm b lb po pm ls cr t.

(** ** Statements *)

(** [NULLIF(v, '')]. *)
Definition nullif_empty (v : string) : option string :=
  if String.eqb v "" then None else Some v.

(** [UPDATE game_servers SET f WHERE id = $1]. *)
Definition update (id : string) (f : GameServer → GameServer) : servers → servers :=
  alter (λ r, mkRow (f (r_server r)) (r_deleted_at r)) id.

(** [... AND deleted_at IS NULL AND status = 'running']. *)
Definition running_row (r : row) : bool :=
  bool_decide (r_deleted_at r = None) && String.eqb (g_Status (r_server r)) StatusRunning.

Definition update_running (id : string) (f : GameServer → GameServer) : servers → servers :=
  alter (λ r, if running_row r then mkRow (f (r_server r)) (r_deleted_at r) else r) id.

Definition MarkLost (t : Z) (id message : string) : servers → servers :=
  update_running id (λ s, set_updated t (set_health None None None
    (set_message (nullif_empty message) (set_vm_id None (set_status StatusPending s))))).

Definition UpdateSpec (t : Z) (id name version : string) : servers → servers :=
  update id (λ s, set_updated t (set_spec name version s)).

Definition SetDesiredState (t : Z) (id desired : string) : servers → servers :=
  update id (λ s, set_updated t (set_desired desired s)).

Definition AssignHost (t : Z) (id hostID : string) : servers → servers :=
  update id (λ s, set_updated t (set_host_id (Some hostID) s)).

Definition UnassignHost (t : Z) (id : string) : servers → servers :=
  update id (λ s, set_updated t (set_host_id None s)).

Definition MarkHealth (t : Z) (id : string) (reachable : bool) (online max : Z) : servers → servers :=
  update_running id (λ s, set_health (if reachable then Some online else None)
    (if reachable then Some max else None) (if reachable then Some t else g_LastSeen s) s).

Definition MarkStatus (t : Z) (id status message : string) : servers → servers :=
  update id (λ s, set_updated t (set_message (nullif_empty message) (set_status status s))).

Definition MarkRunning (t : Z) (id vmID host : string) (port : Z) : servers → servers :=
  update id (λ s, set_updated t (set_message None (set_endpoint (Some host) (Some port)
    (set_vm_id (Some vmID) (set_status StatusRunning s))))).

Definition MarkStopped (t : Z) (id : string) : servers → servers :=
  update id (λ s, set_updated t (set_health None None None (set_message None
    (set_host_id None (set_endpoint None None (set_vm_id None (set_status StatusStopped s))))))).

Definition RequestBackup (t : Z) (id : string) : servers → servers :=
  update id (λ s, set_updated t (set_backup true (g_LastBackupAt s) s)).

Definition MarkBackedUp (t : Z) (id : string) : servers → servers :=
  update id (λ s, set_updated t (set_backup false (Some t) s)).

Definition SoftDelete (t : Z) (id : string) : servers → servers :=
  alter (λ r, mkRow (set_updated t (set_health None None None (set_message None
    (set_endpoint None None (set_vm_id None (set_host_id None
      (set_status StatusDeleted (r_server r)))))))) (Some t)) id.

(** [Create]: an insert under a drawn identifier; a taken one violates the primary
    key.  The columns the statement does not list are null or false. *)
Definition created (t : Z) (uuid : string) (s : GameServer) : GameServer :=
  mkGameServer uuid (g_OwnerID s) (g_Name s) (g_Game s) (g_Version s) (g_CPUs s) (g_MemoryMB s)
    (g_DesiredState s) (g_Status s) (g_TemplateID s) (g_ImageRef s) (g_Env s)
    None None None None None false None None None None t t.

Definition Create (t : Z) (uuid : string) (s : GameServer) (tab : servers) : servers :=
  match tab !! uuid with
  | Some _ => tab
  | None => <[uuid := mkRow (created t uuid s) None]> tab
  end.

(** [UsedCapacity]: the sum of a column over the live rows of a host; of no host for
    the empty identifier. *)
Definition assigned (hostID : string) (r : row) : bool :=
  bool_decide (g_HostID (r_server r) = Some hostID) && bool_decide (r_deleted_at r = None).

Definition sum_on (hostID : string) (column : GameServer → Z) (tab : servers) : Z :=
  map_fold (λ _ r acc, (if assigned hostID r then column (r_server r) else 0) + acc) 0 tab.

Definition UsedCapacity (hostID : string) (tab : servers) : Z * Z :=
  if String.eqb hostID "" then (0, 0)
  else (sum_on hostID g_CPUs tab, sum_on hostID g_MemoryMB tab).

(** [ORDER BY updated_at LIMIT 100] over the rows in some order [order]; rows updated at
    the same instant come in the order of [order]. *)
Definition oldest_first (x y : GameServer) : bool := g_UpdatedAt x <? g_UpdatedAt y.

Definition select (order : list string) (cond : GameServer → bool) (tab : servers) : list GameServer :=
  take 100 (SliceStable oldest_first (List.filter cond
    (r_server <$> List.filter (λ r, bool_decide (r_deleted_at r = None)) (omap (λ k, tab !! k) order)))).

Definition reconcilable (s : GameServer) : bool :=
  String.eqb (g_DesiredState s) DesiredDeleted
  || g_BackupRequested s
  || (String.eqb (g_DesiredState s) DesiredRunning && negb (String.eqb (g_Status s) StatusRunning))
  || (String.eqb (g_DesiredState s) DesiredStopped && negb (String.eqb (g_Status s) StatusStopped)).

Definition ListReconcilable (order : list string) : servers → list GameServer :=
  select order reconcilable.

Definition running_wanted (s : GameServer) : bool :=
  String.eqb (g_Status s) StatusRunning && String.eqb (g_DesiredState s) DesiredRunning.

Definition ListRunning (order : list string) : servers → list GameServer :=
  select order running_wanted.

(** [StartRunning]: an insert that the partial unique index turns into a no-op when the
    server has an open interval. *)
Definition open_for (serverID : string) (u : usage) : bool :=
  String.eqb (u_server u) serverID && bool_decide (u_ended u = None).

Definition StartRunning (t : Z) (uuid : string) (s : GameServer) (b : billing_usage) : billing_usage :=
  if existsb (open_for (g_ID s)) (snd <$> map_to_list b) then b
  else match b !! uuid with
       | Some _ => b
       | None => <[uuid := mkUsage (g_ID s) (g_OwnerID s) (g_CPUs s) (g_MemoryMB s) t None]> b
       end.

Definition StopRunning (t : Z) (serverID : string) (b : billing_usage) : billing_usage :=
  (λ u, if open_for serverID u
        then mkUsage (u_server u) (u_owner u) (u_cpus u) (u_memory u) (u_started u) (Some t)
        else u) <$> b.

(** ** Lemmas on listings *)

Lemma elem_of_select order cond tab s :
  s ∈ select order cond tab →
  ∃ k r, k ∈ order ∧ tab !! k = Some r ∧ r_server r = s ∧ r_deleted_at r = None ∧ cond s = true.
Proof.
  unfold select. intros Hs. assert (s ∈ SliceStable oldest_first (List.filter cond (r_server <$>
    List.filter (λ r, bool_decide (r_deleted_at r = None)) (omap (λ k, tab !! k) order)))) as Hin.
  { eapply elem_of_submseteq; [exact Hs|]. apply sublist_submseteq, sublist_take. }
  apply elem_of_SliceStable, list_elem_of_In, filter_In in Hin as [Hin Hc].
  apply list_elem_of_In, list_elem_of_fmap in Hin as (r & -> & Hin).
  apply list_elem_of_In, filter_In in Hin as [Hin Hd%bool_decide_eq_true].
  apply list_elem_of_In, list_elem_of_omap in Hin as (k & Hk & Hr). by exists k, r.
Qed.

Lemma NoDup_select order cond tab :
  NoDup order → (∀ id r, tab !! id = Some r → g_ID (r_server r) = id) →
  NoDup (g_ID <$> select order cond tab).
Proof.
  intros Hnd Hid. unfold select. eapply sublist_NoDup; [|apply fmap_sublist, sublist_take].
  rewrite SliceStable_perm.
  assert (Hsub : ∀ l : list string, g_ID <$> List.filter cond (r_server <$>
    List.filter (λ r, bool_decide (r_deleted_at r = None)) (omap (λ k, tab !! k) l)) `sublist_of` l).
  { induction l as [|k l IH]; cbn; [done|]. destruct (tab !! k) as [r|] eqn:E; cbn; [|by constructor].
    destruct (bool_decide _); cbn; [|by constructor].
    destruct (cond _); cbn; [|by constructor]. rewrite (Hid _ _ E). by constructor. }
  eapply sublist_NoDup; [exact Hnd|apply Hsub].
Qed.
