(* ===== verification/ControlPlane.v ===== *)
(** * The control plane: shared state, agent connections, provisioner

    The state the control plane's goroutines share and the parts between the
    reconciler and the hosts: the hub ([internal/agentlink/hub.go]), which keeps the
    agents' connections and registers their hosts, the remote provisioner
    ([internal/provisioner/remote.go]) and the instance of the scheduler's store.

    The reconciler is one goroutine.  Before each of its calls into shared state the
    other goroutines (a connection per agent, the reaper, API requests) may take any
    steps; every such step ([act]) is one critical section or one SQL statement, so
    this covers every interleaving.  What the run meets from outside is an [Oracle]
    indexed by the number of the call: the steps of the others, the clock, fresh
    identifiers, orders of map visits, the outcomes of SQL statements and the replies
    of agents. *)
From S2P Require Import Prelude GoSort Fleet Scheduler Servers.
From stdpp Require Import strings sorting relations.
#[local] Set Warnings "-clear-no-such-hyp".
#[local] Open Scope Z_scope.

(** ** Data *)

(** [pb.Register], the first message of an agent. *)
Record registration := mkRegistration {
  reg_Id : string;
  reg_Hostname : string;
  reg_Zone : string;
  reg_CpusTotal : Z;
  reg_MemoryMbTotal : Z;
  reg_AgentVersion : string
}.

(** [runspec.Health] and [agent.VM]. *)
Record Health := mkHealth {
  hl_Reachable : bool;
  hl_Source : string;
  hl_PlayersOnline : Z;
  hl_PlayersMax : Z;
  hl_Version : string
}.

Record VM := mkVM {
  vm_ID : string;
  vm_ServerID : string;
  vm_Host : string;
  vm_Port : Z;
  vm_State : string;
  vm_Health : option Health
}.

(** [agent.VMSpec], as far as the provisioner fills it; [RunSpec] by its environment. *)
Record VMSpec := mkVMSpec {
  sp_ServerID : string;
  sp_Game : string;
  sp_Version : string;
  sp_CPUs : Z;
  sp_MemoryMB : Z;
  sp_ImageRef : string;
  sp_RunSpecEnv : option (list string)
}.

(** The commands the hub sends to an agent. *)
Inductive command : Type :=
| OpProvision (spec : VMSpec)
| OpStart (vmID : string)
| OpStop (vmID : string)
| OpSnapshot (vmID : string)
| OpEvict (vmID : string)
| OpDeprovision (vmID : string)
| OpStatus (vmID : string).

(** [provisioner.Instance], [provisioner.State] and [provisioner.StatusReport]. *)
Record Instance_ := mkInstance {
  in_VMID : string;
  in_Host : string;
  in_Port : Z
}.

Inductive vm_state : Type := StateRunning | StateStopped | StateMissing.

#[export] Instance vm_state_eq_dec : EqDecision vm_state.
Proof. solve_decision. Defined.

Record StatusReport := mkReport {
  rp_State : vm_state;
  rp_Health : option Health
}.

(** Where the goroutine of an agent's connection stands in [Connect]. *)
Inductive conn_stage : Type :=
| CUsed (reg : registration) (usedCPUs usedMemMB : Z)
| CRegistered (hostID : string)
| CConnected (hostID : string)
| CRemoved (hostID : string).

(** The shared state.  [w_calls] counts the reconciler's calls. *)
Record World := mkWorld {
  w_hosts : HostRepository;
  w_registry : gmap string nat;
  w_agents : gmap nat conn_stage;
  w_servers : servers;
  w_billing : billing_usage;
  w_calls : nat
}.

Definition with_hosts (h : HostRepository) (w : World) : World :=
  mkWorld h (w_registry w) (w_agents w) (w_servers w) (w_billing w) (w_calls w).

Definition with_servers (s : servers) (w : World) : World :=
  mkWorld (w_hosts w) (w_registry w) (w_agents w) s (w_billing w) (w_calls w).

Definition with_billing (b : billing_usage) (w : World) : World :=
  mkWorld (w_hosts w) (w_registry w) (w_agents w) (w_servers w) b (w_calls w).

Definition with_agent (cid : nat) (c : conn_stage) (w : World) : World :=
  mkWorld (w_hosts w) (w_registry w) (<[cid := c]> (w_agents w)) (w_servers w) (w_billing w) (w_calls w).

Definition with_registry (g : gmap string nat) (w : World) : World :=
  mkWorld (w_hosts w) g (w_agents w) (w_servers w) (w_billing w) (w_calls w).

Definition called (w : World) : World :=
  mkWorld (w_hosts w) (w_registry w) (w_agents w) (w_servers w) (w_billing w) (S (w_calls w)).

(** ** The hub: the lifetime of a connection *)

Definition host_of (reg : registration) : Host :=
  mkHost (reg_Id reg) (reg_Hostname reg) "" (reg_Zone reg) (reg_CpusTotal reg)
    (reg_MemoryMbTotal reg) 0 0 "" (reg_AgentVersion reg) 0 0 0.

(** The agent's first message has arrived: [Connect] reads the committed capacity. *)
Definition conn_open (cid : nat) (reg : registration) (w : World) : World :=
  match w_agents w !! cid with
  | Some _ => w
  | None =>
      let '(c, m) := UsedCapacity (reg_Id reg) (w_servers w) in
      with_agent cid (CUsed reg c m) w
  end.

(** [h.remove]: the registry entry goes only if it is still this connection's. *)
Definition hub_remove (hostID : string) (cid : nat) (g : gmap string nat) : gmap string nat :=
  if bool_decide (g !! hostID = Some cid) then delete hostID g else g.

(** The next critical section of [Connect]: register the host, enter the registry; when
    the stream ends, leave the registry, then mark the host down. *)
Definition conn_next (cid : nat) (t : Z) (uuid : string) (order : list string) (w : World) : World :=
  match w_agents w !! cid with
  | None => w
  | Some (CUsed reg c m) =>
      let '(h, hosts) := RegisterReserved t uuid order (host_of reg) c m (w_hosts w) in
      with_agent cid (CRegistered (h_ID h)) (with_hosts hosts w)
  | Some (CRegistered id) =>
      with_agent cid (CConnected id) (with_registry (<[id := cid]> (w_registry w)) w)
  | Some (CConnected id) =>
      with_agent cid (CRemoved id) (with_registry (hub_remove id cid (w_registry w)) w)
  | Some (CRemoved id) =>
      mkWorld (MarkDown t id (w_hosts w)) (w_registry w) (delete cid (w_agents w))
        (w_servers w) (w_billing w) (w_calls w)
  end.

(** A heartbeat message on a connected stream. *)
Definition conn_beat (cid : nat) (t : Z) (w : World) : World :=
  match w_agents w !! cid with
  | Some (CConnected id) => with_hosts (snd (Heartbeat t id (w_hosts w))) w
  | _ => w
  end.

(** ** Steps of the other goroutines *)

Inductive act : Type :=
| AOpen (cid : nat) (reg : registration)
| ANext (cid : nat) (t : Z) (uuid : string) (order : list string)
| ABeat (cid : nat) (t : Z)
| AReap (t cutoff : Z)
| ACreate (t : Z) (uuid : string) (s : GameServer)
| ADesire (t : Z) (id desired : string)
| AEdit (t : Z) (id name version : string)
| ABackup (t : Z) (id : string).

Definition do_act (a : act) (w : World) : World :=
  match a with
  | AOpen cid reg => conn_open cid reg w
  | ANext cid t uuid order => conn_next cid t uuid order w
  | ABeat cid t => conn_beat cid t w
  | AReap t cutoff => with_hosts (snd (MarkStale t cutoff (w_hosts w))) w
  | ACreate t uuid s => with_servers (Create t uuid s (w_servers w)) w
  | ADesire t id d => with_servers (SetDesiredState t id d (w_servers w)) w
  | AEdit t id n v => with_servers (UpdateSpec t id n v (w_servers w)) w
  | ABackup t id => with_servers (RequestBackup t id (w_servers w)) w
  end.

Definition do_acts (l : list act) (w : World) : World := foldl (λ w a, do_act a w) w l.

(** ** What a run meets *)

(** The SQL statements of the reconciler. *)
Inductive stmt : Type :=
| QListReconcilable | QListRunning
| QMarkStatus | QMarkRunning | QMarkStopped | QMarkLost | QMarkHealth | QMarkBackedUp
| QAssignHost | QUnassignHost | QSoftDelete
| QStartRunning | QStopRunning.

(** A statement succeeds, fails without effect, or takes effect while the client is
    told that it failed. *)
Inductive db_outcome : Type :=
| DbOk
| DbFail (msg : string)
| DbLost (msg : string).

Record Oracle := mkOracle {
  o_others : nat → list act;
  o_now : nat → Z;
  o_uuid : nat → string;
  o_order : nat → list string → list string;
  o_db : nat → stmt → db_outcome;
  o_reply : nat → command → option VM + error
}.

(** ** Provisioners *)

(** The interface [provisioner.Provisioner], as far as the reconciler's convergence
    uses it. *)
Class Provisioner (W : Type) : Type := {
  prov_Provision : GameServer → ST W (Instance_ + error);
  prov_Start : GameServer → ST W (Instance_ + error);
  prov_Stop : GameServer → ST W (option error);
  prov_Evict : GameServer → ST W (option error);
  prov_Deprovision : GameServer → ST W (option error);
  prov_Status : GameServer → ST W (StatusReport + error);
  prov_Snapshot : GameServer → ST W (option error)
}.

Section World.
Context (o : Oracle).

(** One call into shared state: the others run, then the call. *)
Definition call {A} (f : nat → World → A * World) : ST World A := λ w,
  let n := w_calls w in
  Some (f n (called (do_acts (o_others o n) w))).

(** [pool.Exec]. *)
Definition exec (q : stmt) (f : Z → World → World) : ST World (option error) :=
  call (λ n w, match o_db o n q with
    | DbOk => (None, f (o_now o n) w)
    | DbFail msg => (Some (ErrOther msg), w)
    | DbLost msg => (Some (ErrOther msg), f (o_now o n) w)
    end).

Definition exec_servers (q : stmt) (f : Z → servers → servers) : ST World (option error) :=
  exec q (λ t w, with_servers (f t (w_servers w)) w).

(** [pool.Query]. *)
Definition query {A} (q : stmt) (f : list string → servers → A) : ST World (A + error) :=
  call (λ n w, match o_db o n q with
    | DbOk => (inl (f (o_order o n (map_to_list (w_servers w)).*1) (w_servers w)), w)
    | DbFail msg | DbLost msg => (inr (ErrOther msg), w)
    end).

Definition now : ST World Z := call (λ n w, (o_now o n, w)).

(** The scheduler's store. *)
Definition world_store : hostStore World := {|
  hs_List := call (λ n w, (inl (List_ (o_order o n (keys (w_hosts w))) (w_hosts w)), w));
  hs_ListReady := call (λ n w, (inl (ListReady (o_order o n (keys (w_hosts w))) (w_hosts w)), w));
  hs_Reserve id c m := call (λ n w,
    let '(err, hosts) := Reserve (o_now o n) id c m (w_hosts w) in (err, with_hosts hosts w));
  hs_Release id c m := call (λ n w,
    (None, with_hosts (Release (o_now o n) id c m (w_hosts w)) w))
|}.

(** [Hub.call]: without a connection the command fails at once; with one, the agent's
    reply, a transport error or the end of the caller's context is the answer.  A reply
    without a machine is a nil pointer. *)
Definition hub_call (hostID : string) (cmd : command) : ST World (option VM + error) :=
  call (λ n w, match w_registry w !! hostID with
    | None => (inr ErrHostNotConnected, w)
    | Some _ =>
        (match o_reply o n cmd with
         | inl (Some vm) => if String.eqb (vm_ID vm) "" then inl None else inl (Some vm)
         | res => res
         end, w)
    end).

(** ** [RemoteProvisioner] *)

Definition no_vm (s : GameServer) : bool :=
  match g_VMID s with None => true | Some id => String.eqb id "" end.

Definition vm_of (s : GameServer) : string := default "" (g_VMID s).

Definition assignedHost (s : GameServer) : string + error :=
  match g_HostID s with
  | Some id => if String.eqb id "" then inr ErrUnplaced else inl id
  | None => inr ErrUnplaced
  end.

Definition instanceOf (vm : option VM) : Instance_ :=
  match vm with
  | None => mkInstance "" "" 0
  | Some v => mkInstance (vm_ID v) (vm_Host v) (vm_Port v)
  end.

Definition stateOf (vm : option VM) : vm_state :=
  match vm with
  | None => StateMissing
  | Some v => if String.eqb (vm_State v) "running" then StateRunning
              else if String.eqb (vm_State v) "stopped" then StateStopped
              else StateMissing
  end.

(** [registry.SortedEnv]: "name=value" lines in the order of the names. *)
Definition SortedEnv (env : gmap string string) : list string :=
  (λ k, k +:+ "=" +:+ default "" (env !! k)) <$>
  SliceStable String.ltb (map_to_list env).*1.

(** The specification [Provision] sends; an empty environment sends no run spec. *)
Definition spec_of (s : GameServer) : VMSpec :=
  mkVMSpec (g_ID s) (g_Game s) (g_Version s) (g_CPUs s) (g_MemoryMB s)
    (default "" (g_ImageRef s))
    (if bool_decide (g_Env s = ∅) then None else Some (SortedEnv (g_Env s))).

Definition remote_Provision (s : GameServer) : ST World (Instance_ + error) :=
  match assignedHost s with
  | inr err => ret (inr err)
  | inl hostID =>
      let* res := hub_call hostID (OpProvision (spec_of s)) in
      ret (match res with inr err => inr err | inl vm => inl (instanceOf vm) end)
  end.

Definition remote_Start (s : GameServer) : ST World (Instance_ + error) :=
  if no_vm s then remote_Provision s
  else match assignedHost s with
  | inr err => ret (inr err)
  | inl hostID =>
      let* res := hub_call hostID (OpStart (vm_of s)) in
      ret (match res with inr err => inr err | inl vm => inl (instanceOf vm) end)
  end.

(** [Stop] and [Snapshot]: nothing to do without a machine, an error without a host. *)
Definition remote_order (cmd : string → command) (s : GameServer) : ST World (option error) :=
  if no_vm s then ret None
  else match assignedHost s with
  | inr err => ret (Some err)
  | inl hostID =>
      let* res := hub_call hostID (cmd (vm_of s)) in
      ret (match res with inr err => Some err | inl _ => None end)
  end.

(** [Evict] and [Deprovision]: nothing to do without a machine or without a host. *)
Definition remote_teardown (cmd : string → command) (s : GameServer) : ST World (option error) :=
  match assignedHost s with
  | inr _ => ret None
  | inl hostID =>
      if no_vm s then ret None
      else let* res := hub_call hostID (cmd (vm_of s)) in
           ret (match res with inr err => Some err | inl _ => None end)
  end.

Definition remote_Status (s : GameServer) : ST World (StatusReport + error) :=
  if no_vm s then ret (inl (mkReport StateMissing None))
  else match assignedHost s with
  | inr err => ret (inr err)
  | inl hostID =>
      let* res := hub_call hostID (OpStatus (vm_of s)) in
      ret (match res with
           | inr err => inr err
           | inl vm => inl (mkReport (stateOf vm) (vm ≫= vm_Health))
           end)
  end.

Definition RemoteProvisioner : Provisioner World := {|
  prov_Provision := remote_Provision;
  prov_Start := remote_Start;
  prov_Stop := remote_order OpStop;
  prov_Evict := remote_teardown OpEvict;
  prov_Deprovision := remote_teardown OpDeprovision;
  prov_Status := remote_Status;
  prov_Snapshot := remote_order OpSnapshot
|}.
End World.
