(* ===== verification/Reconciler.v ===== *)
(** * The reconciler

    [internal/reconciler/reconciler.go]: the loop that drives every game server from its
    observed status toward the state its owner asked for.  A [*model.GameServer] is a
    copy of the row taken when the batch was listed; functions that assign to a field
    of it return the new value beside the error.  Logging is left out; the context is
    never cancelled. *)
From S2P Require Import Prelude GoSort Fleet Scheduler Servers ControlPlane.
From stdpp Require Import strings sorting relations.
#[local] Set Warnings "-clear-no-such-hyp".
#[local] Open Scope Z_scope.

Section Reconciler.
Context (o : Oracle).
#[local] Instance store : hostStore World := world_store o.
Context `{!Provisioner World}.

(** [r.meter != nil], and [r.hostDeadAfter]. *)
Context (meter : bool) (hostDeadAfter : Z).

(** ** Billing *)

Definition startBilling (s : GameServer) : ST World unit :=
  if meter then
    let* _ := call o (λ n w, match o_db o n QStartRunning with
      | DbOk => (None, with_billing (StartRunning (o_now o n) (o_uuid o n) s (w_billing w)) w)
      | DbFail msg => (Some (ErrOther msg), w)
      | DbLost msg =>
          (Some (ErrOther msg), with_billing (StartRunning (o_now o n) (o_uuid o n) s (w_billing w)) w)
      end) in
    ret tt
  else ret tt.

Definition stopBilling (serverID : string) : ST World unit :=
  if meter then
    let* _ := exec o QStopRunning (λ t w, with_billing (StopRunning t serverID (w_billing w)) w) in
    ret tt
  else ret tt.

(** ** Liveness of running servers *)

Definition healthRefreshInterval : Z := 10 * 1000000000.

Definition eqIntPtr (a b : option Z) : bool := bool_decide (a = b).

(** [healthNeedsWrite]; the clock is read only when the earlier tests do not decide. *)
Definition healthNeedsWrite (s : GameServer) (h : Health) : ST World bool :=
  let online := if hl_Reachable h then Some (hl_PlayersOnline h) else None in
  let max := if hl_Reachable h then Some (hl_PlayersMax h) else None in
  if negb (eqIntPtr (g_PlayersOnline s) online) || negb (eqIntPtr (g_PlayersMax s) max)
  then ret true
  else if hl_Reachable h then
    match g_LastSeen s with
    | None => ret true
    | Some seen => let* t := now o in ret (healthRefreshInterval <=? t - seen)
    end
  else ret false.

Definition recordHealth (s : GameServer) (h : option Health) : ST World unit :=
  match h with
  | None => ret tt
  | Some h =>
      let* needed := healthNeedsWrite s h in
      if negb needed then ret tt
      else let* _ := exec_servers o QMarkHealth (λ t,
             MarkHealth t (g_ID s) (hl_Reachable h) (hl_PlayersOnline h) (hl_PlayersMax h)) in
           ret tt
  end.

Definition hostDeadTooLong (s : GameServer) : ST World (bool + error) :=
  match g_HostID s with
  | None => ret (inl true)
  | Some hostID =>
      let* last := LastHeartbeat hostID in
      match last with
      | inr err => ret (inr err)
      | inl None => ret (inl true)
      | inl (Some beat) => let* t := now o in ret (inl (hostDeadAfter <? t - beat))
      end
  end.

Definition markLost (s : GameServer) (message : string) : ST World unit :=
  let* err := exec_servers o QMarkLost (λ t, MarkLost t (g_ID s) message) in
  match err with
  | Some _ => ret tt
  | None => stopBilling (g_ID s)
  end.

Definition checkServerLiveness (s : GameServer) : ST World unit :=
  let* status := prov_Status s in
  match status with
  | inr _ =>
      let* dead := hostDeadTooLong s in
      match dead with
      | inr _ => ret tt
      | inl false => ret tt
      | inl true => markLost s "host unreachable; reprovisioning"
      end
  | inl report =>
      if bool_decide (rp_State report = StateRunning) then recordHealth s (rp_Health report)
      else markLost s "vm not found on host; reprovisioning"
  end.

Fixpoint for_each {A} (f : A → ST World unit) (l : list A) : ST World unit :=
  match l with
  | [] => ret tt
  | x :: l' => do* f x in for_each f l'
  end.

Definition checkLiveness : ST World unit :=
  let* listed := query o QListRunning ListRunning in
  match listed with
  | inr _ => ret tt
  | inl servers => for_each checkServerLiveness servers
  end.

(** ** Convergence of one server *)

Definition backup (s : GameServer) : ST World unit :=
  if negb (String.eqb (g_Status s) StatusRunning) || no_vm s then
    let* _ := exec_servers o QMarkBackedUp (λ t, MarkBackedUp t (g_ID s)) in ret tt
  else
    let* err := prov_Snapshot s in
    match err with
    | Some _ => ret tt
    | None => let* _ := exec_servers o QMarkBackedUp (λ t, MarkBackedUp t (g_ID s)) in ret tt
    end.

(** [place] and [dropStalePlacement] return the error and the server with the [HostID]
    they assigned. *)
Definition place (s : GameServer) : ST World (option error * GameServer) :=
  let* res := Schedule (g_CPUs s) (g_MemoryMB s) in
  match res with
  | inr ErrNoCapacity =>
      let* err := exec_servers o QMarkStatus (λ t, MarkStatus t (g_ID s) StatusUnschedulable
                    "no host with sufficient capacity") in
      ret (err, s)
  | inr err => ret (Some err, s)
  | inl hostID =>
      let* err := exec_servers o QAssignHost (λ t, AssignHost t (g_ID s) hostID) in
      match err with
      | Some err =>
          let* _ := ReleaseHost hostID (g_CPUs s) (g_MemoryMB s) in ret (Some err, s)
      | None => ret (None, set_host_id (Some hostID) s)
      end
  end.

Definition dropStalePlacement (s : GameServer) : ST World (option error * GameServer) :=
  match g_HostID s with
  | None => ret (None, s)
  | Some hostID =>
      let* placeable := Placeable hostID in
      match placeable with
      | inr err => ret (Some err, s)
      | inl true => ret (None, s)
      | inl false =>
          let* _ := ReleaseHost hostID (g_CPUs s) (g_MemoryMB s) in
          let* err := exec_servers o QUnassignHost (λ t, UnassignHost t (g_ID s)) in
          match err with
          | Some err => ret (Some err, s)
          | None => ret (None, set_host_id None s)
          end
      end
  end.

Definition hostReachable (s : GameServer) : ST World (bool + error) :=
  match g_HostID s with
  | None => ret (inl false)
  | Some hostID => Placeable hostID
  end.

Definition provisionOrStart (s : GameServer) (provisioned : bool) : ST World (Instance_ + error) :=
  if provisioned then prov_Start s else prov_Provision s.

(** The part of [start] after placement. *)
Definition bring_up (s : GameServer) (provisioned : bool) : ST World (option error) :=
  let* err := exec_servers o QMarkStatus (λ t, MarkStatus t (g_ID s) StatusProvisioning "") in
  match err with
  | Some err => ret (Some err)
  | None =>
      let* inst := provisionOrStart s provisioned in
      match inst with
      | inr err => ret (Some err)
      | inl inst =>
          let* err := exec_servers o QMarkRunning (λ t,
            MarkRunning t (g_ID s) (in_VMID inst) (in_Host inst) (in_Port inst)) in
          match err with
          | Some err => ret (Some err)
          | None => do* startBilling s in ret None
          end
      end
  end.

Definition start (s : GameServer) : ST World (option error) :=
  if String.eqb (g_Status s) StatusRunning then ret None
  else
    let provisioned := negb (no_vm s) in
    let* (err, s) := (if provisioned then ret (None, s) else dropStalePlacement s) in
    match err with
    | Some err => ret (Some err)
    | None =>
        if negb provisioned && bool_decide (g_HostID s = None) then
          let* (err, s) := place s in
          match err with
          | Some err => ret (Some err)
          | None => if bool_decide (g_HostID s = None) then ret None else bring_up s provisioned
          end
        else bring_up s provisioned
    end.

(** [if s.HostID != nil { _ = r.sched.Release(...) }]. *)
Definition release_host (s : GameServer) : ST World unit :=
  match g_HostID s with
  | None => ret tt
  | Some hostID => let* _ := ReleaseHost hostID (g_CPUs s) (g_MemoryMB s) in ret tt
  end.

Definition stop (s : GameServer) : ST World (option error) :=
  if String.eqb (g_Status s) StatusStopped then ret None
  else
    let* err := exec_servers o QMarkStatus (λ t, MarkStatus t (g_ID s) StatusStopping "") in
    match err with
    | Some err => ret (Some err)
    | None =>
        let* err := prov_Stop s in
        match err with
        | Some err => ret (Some err)
        | None =>
            let* err := prov_Evict s in
            match err with
            | Some err => ret (Some err)
            | None =>
                do* release_host s in
                let* err := exec_servers o QMarkStopped (λ t, MarkStopped t (g_ID s)) in
                match err with
                | Some err => ret (Some err)
                | None => do* stopBilling (g_ID s) in ret None
                end
            end
        end
    end.

(** The part of [delete] once the machine is gone. *)
Definition finalize (s : GameServer) : ST World (option error) :=
  do* release_host s in
  let* err := exec_servers o QSoftDelete (λ t, SoftDelete t (g_ID s)) in
  match err with
  | Some err => ret (Some err)
  | None => do* stopBilling (g_ID s) in ret None
  end.

Definition delete_ (s : GameServer) : ST World (option error) :=
  let* err := (if negb (String.eqb (g_Status s) StatusDeleting)
               then exec_servers o QMarkStatus (λ t, MarkStatus t (g_ID s) StatusDeleting "")
               else ret None) in
  match err with
  | Some err => ret (Some err)
  | None =>
      let* err := prov_Deprovision s in
      match err with
      | None => finalize s
      | Some err =>
          let* reachable := hostReachable s in
          match reachable with
          | inr perr => ret (Some perr)
          | inl true => ret (Some err)
          | inl false => finalize s
          end
      end
  end.

Definition reconcile (s : GameServer) : ST World (option error) :=
  if String.eqb (g_DesiredState s) DesiredDeleted then delete_ s
  else
    do* (if g_BackupRequested s then backup s else ret tt) in
    if String.eqb (g_DesiredState s) DesiredStopped then stop s
    else if String.eqb (g_DesiredState s) DesiredRunning then start s
    else ret None.

(** One iteration of the loop of [ReconcileOnce]. *)
Definition reconcileOne (s : GameServer) : ST World unit :=
  let* err := reconcile s in
  match err with
  | None => ret tt
  | Some err =>
      let* _ := exec_servers o QMarkStatus (λ t, MarkStatus t (g_ID s) StatusError (Error err)) in
      ret tt
  end.

Definition ReconcileOnce : ST World unit :=
  do* checkLiveness in
  let* listed := query o QListReconcilable ListReconcilable in
  match listed with
  | inr _ => ret tt
  | inl servers => for_each reconcileOne servers
  end.
End Reconciler.
