(* ===== verification/Ledger.v ===== *)
(** * The capacity ledger

    The free capacity the inventory keeps in memory and the assignments the table of
    servers records are two accounts of one thing.  [balanced] ties them together,
    for the states between the calls of the reconciler too: a reservation that is not
    yet recorded, or a release whose assignment is not yet cleared, is a [flight].
    The main theorem is that the control plane never commits more of a machine than
    the machine has, in every run in which machines report the capacity they have and
    the statements that settle a flight are not lost; [failed_stop_overcommits] is what
    happens otherwise. *)
From S2P Require Import Prelude GoSort Fleet Scheduler Servers ControlPlane Reconciler.
From stdpp Require Import strings sorting relations.
#[local] Set Warnings "-clear-no-such-hyp".
#[local] Open Scope Z_scope.

(** ** Two resources, one set of laws *)

Inductive resource : Type := Cpu | Mem.

Definition total_of (x : resource) (h : Host) : Z :=
  match x with Cpu => h_CPUsTotal h | Mem => h_MemoryMBTotal h end.

Definition free_of (x : resource) (h : Host) : Z :=
  match x with Cpu => h_CPUsAllocatable h | Mem => h_MemoryMBAllocatable h end.

Definition need_of (x : resource) (s : GameServer) : Z :=
  match x with Cpu => g_CPUs s | Mem => g_MemoryMB s end.

Definition pick (x : resource) (c m : Z) : Z := match x with Cpu => c | Mem => m end.

(** What the live rows of a host commit. *)
Definition committed (x : resource) (h : string) (tab : servers) : Z := sum_on h (need_of x) tab.

(** ** Sums over the table *)

Definition share (h : string) (col : GameServer → Z) (r : row) : Z :=
  if assigned h r then col (r_server r) else 0.

Lemma sum_on_insert_fresh h col id r tab :
  tab !! id = None → sum_on h col (<[id := r]> tab) = share h col r + sum_on h col tab.
Proof.
  intros Hid. unfold sum_on. rewrite map_fold_insert_L; [done| |done].
  intros. lia.
Qed.

Lemma sum_on_insert h col id r tab :
  sum_on h col (<[id := r]> tab) =
  sum_on h col tab + share h col r - from_option (share h col) 0 (tab !! id).
Proof.
  destruct (tab !! id) as [r0|] eqn:E; cbn.
  - rewrite <- insert_delete_eq. rewrite <- (insert_delete_id tab id r0 E) at 2.
    rewrite !sum_on_insert_fresh by apply lookup_delete_eq. lia.
  - rewrite sum_on_insert_fresh by done. lia.
Qed.

Lemma sum_on_nonneg h col tab :
  (∀ id r, tab !! id = Some r → 0 ≤ col (r_server r)) → 0 ≤ sum_on h col tab.
Proof.
  induction tab as [|id r tab Hid IH] using map_ind; intros Hall; [done|].
  rewrite sum_on_insert_fresh by done.
  assert (0 ≤ sum_on h col tab)
    by (apply IH; intros id' r' Hr; apply (Hall id'); rewrite lookup_insert_ne; congruence).
  assert (0 ≤ col (r_server r)) by (apply (Hall id); by rewrite lookup_insert_eq).
  unfold share. destruct (assigned h r); lia.
Qed.

(** The columns that place a server. *)
Definition placement (r : row) : option string * Z * Z * bool :=
  (g_HostID (r_server r), g_CPUs (r_server r), g_MemoryMB (r_server r), bool_decide (r_deleted_at r = None)).

Lemma share_placement x h r r' :
  placement r = placement r' → share h (need_of x) r = share h (need_of x) r'.
Proof.
  unfold placement, share, assigned. intros [= E1 E2 E3 E4]. rewrite E1, E4.
  destruct x; cbn; by rewrite ?E2, ?E3.
Qed.

Lemma committed_alter_row x h id f r tab :
  tab !! id = Some r →
  committed x h (alter f id tab) =
  committed x h tab + share h (need_of x) (f r) - share h (need_of x) r.
Proof.
  intros E. unfold committed.
  assert (alter f id tab = <[id := f r]> tab) as -> by
    (apply map_eq; intros i; destruct (decide (i = id)) as [->|];
     [by rewrite lookup_alter_eq, lookup_insert_eq, E|by rewrite lookup_alter_ne, lookup_insert_ne by done]).
  by rewrite sum_on_insert, E.
Qed.

(** A change of one row that leaves its placement alone leaves every sum alone. *)
Lemma committed_alter x h id f tab :
  (∀ r, tab !! id = Some r → placement (f r) = placement r) →
  committed x h (alter f id tab) = committed x h tab.
Proof.
  intros Hf. destruct (tab !! id) as [r|] eqn:E.
  - rewrite (committed_alter_row _ _ _ _ _ _ E), (share_placement x h (f r) r) by auto. lia.
  - rewrite alter_id; [done|]. intros ? ?. congruence.
Qed.

(** The share of a placed row. *)
Lemma share_tracked x h r host c m :
  placement r = (host, c, m, true) →
  share h (need_of x) r = if decide (host = Some h) then pick x c m else 0.
Proof.
  unfold placement, share, assigned. intros [= -> E2 E3 ->]. rewrite andb_true_r.
  destruct (decide (host = Some h)).
  - rewrite bool_decide_eq_true_2 by done. destruct x; cbn; congruence.
  - by rewrite bool_decide_eq_false_2.
Qed.

(** A change of one row that keeps identity and placement. *)
Definition neutral (f : row → row) : Prop :=
  ∀ r, g_ID (r_server (f r)) = g_ID (r_server r) ∧ placement (f r) = placement r.

(** The statements compute on a row given by its columns. *)
Ltac neutral := intros [[] ?]; cbn; repeat case_match; done.

(** ** The invariant *)

(** Capacity between two calls of the reconciler: reserved but not recorded, or released
    while the assignment is still recorded. *)
Inductive flight : Type :=
| Settled
| Reserved (h : string) (c m : Z)
| Released (h : string) (c m : Z).

Definition in_flight (x : resource) (f : flight) (h : string) : Z :=
  match f with
  | Settled => 0
  | Reserved h0 c m => if decide (h = h0) then pick x c m else 0
  | Released h0 c m => if decide (h = h0) then - pick x c m else 0
  end.

Definition flight_ok (f : flight) (hosts : HostRepository) : Prop :=
  match f with
  | Settled => True
  | Reserved h c m => is_Some (hosts !! h) ∧ ∀ x, 0 ≤ pick x c m
  | Released h c m => ∀ x, 0 ≤ pick x c m < 2 ^ 31
  end.

Section Ledger.
(** The capacity of the machine behind each host identifier; the wire type is a 32-bit
    integer. *)
Context (cap : resource → string → Z) (cap_ok : ∀ x h, 0 ≤ cap x h < 2 ^ 31).

Definition reg_ok (reg : registration) : Prop :=
  reg_Id reg ≠ "" ∧ reg_CpusTotal reg = cap Cpu (reg_Id reg) ∧
  reg_MemoryMbTotal reg = cap Mem (reg_Id reg).

Definition spec_ok (s : GameServer) : Prop := ∀ x, 0 ≤ need_of x s < 2 ^ 31.

Definition host_ok (f : flight) (tab : servers) (k : string) (h : Host) : Prop :=
  h_ID h = k ∧ ∀ x, total_of x h = cap x k ∧ 0 ≤ free_of x h ∧
    committed x k tab + in_flight x f k + free_of x h ≤ cap x k.

Definition joining_ok (hosts : HostRepository) (tab : servers) (c : conn_stage) : Prop :=
  match c with
  | CUsed reg c m => reg_ok reg ∧ ∀ x, 0 ≤ pick x c m ≤ cap x (reg_Id reg) ∧
      (hosts !! reg_Id reg = None → committed x (reg_Id reg) tab ≤ pick x c m)
  | _ => True
  end.

Record balanced (f : flight) (w : World) : Prop := {
  bal_rows : ∀ id r, w_servers w !! id = Some r → g_ID (r_server r) = id ∧ spec_ok (r_server r);
  bal_room : ∀ x h, committed x h (w_servers w) ≤ cap x h;
  bal_hosts : ∀ k h, w_hosts w !! k = Some h → host_ok f (w_servers w) k h;
  bal_joining : ∀ cid c, w_agents w !! cid = Some c → joining_ok (w_hosts w) (w_servers w) c;
  bal_flight : flight_ok f (w_hosts w)
}.

(** What an agent and an API request may do: a machine reports the capacity it has and a
    stable identifier, a request asks for a non-negative amount. *)
Definition act_ok (a : act) : Prop :=
  match a with
  | AOpen _ reg => reg_ok reg
  | ACreate _ _ s => spec_ok s
  | _ => True
  end.

Lemma committed_nonneg f w x h : balanced f w → 0 ≤ committed x h (w_servers w).
Proof. intros []. apply sum_on_nonneg. intros id r Hr. apply bal_rows0 in Hr as [_ Hr]. apply Hr. Qed.

(** *** Changes of the inventory *)

Definition same_capacity (h h' : Host) : Prop :=
  h_ID h' = h_ID h ∧ ∀ x, total_of x h' = total_of x h ∧ free_of x h' = free_of x h.

Lemma balanced_hosts f w hosts :
  (∀ k h', hosts !! k = Some h' → ∃ h, w_hosts w !! k = Some h ∧ same_capacity h h') →
  (∀ k, is_Some (w_hosts w !! k) → is_Some (hosts !! k)) →
  balanced f w → balanced f (with_hosts hosts w).
Proof.
  intros Hold Hdom [Hrows Hroom Hhosts Hjoin Hfl]. split; cbn; auto.
  - intros k h' Hk. apply Hold in Hk as (h & Hk & Hid & Hsame). apply Hhosts in Hk as [Hk Hx].
    split; [congruence|]. intros x. destruct (Hsame x) as [-> ->]. apply Hx.
  - intros cid c Hc. apply Hjoin in Hc. destruct c; cbn in *; auto.
    destruct Hc as [Hreg Hc]. split; [done|]. intros x. destruct (Hc x) as [? Hn]. split; [done|].
    intros Hnone. apply Hn. destruct (w_hosts w !! reg_Id reg) eqn:E; [|done].
    destruct (Hdom (reg_Id reg)); [eauto|congruence].
  - destruct f; cbn in *; auto. destruct Hfl as [Hk ?]. split; [by apply Hdom|done].
Qed.

(** One known host replaced by a record of the same capacity. *)
Lemma balanced_touch f w k h h' :
  w_hosts w !! k = Some h → same_capacity h h' →
  balanced f w → balanced f (with_hosts (<[k := h']> (w_hosts w)) w).
Proof.
  intros Hk Hsame. apply balanced_hosts.
  - intros k0 h0. rewrite lookup_insert_Some. intros [[<- <-]|[? ?]]; [by exists h|].
    exists h0. split; [done|]. by split.
  - intros k0 [h0 Hk0]. destruct (decide (k = k0)) as [->|].
    + rewrite lookup_insert_eq. eauto.
    + rewrite lookup_insert_ne by done. eauto.
Qed.

Lemma balanced_id f w : balanced f (with_hosts (w_hosts w) w) ↔ balanced f w.
Proof. by destruct w. Qed.

Lemma balanced_called f w : balanced f w → balanced f (called w).
Proof. intros []. by split. Qed.

Lemma balanced_billing f w b : balanced f w → balanced f (with_billing b w).
Proof. intros []. by split. Qed.

Lemma balanced_beat f w t id :
  balanced f w → balanced f (with_hosts (snd (Heartbeat t id (w_hosts w))) w).
Proof.
  intros Hb. unfold Heartbeat. destruct (w_hosts w !! id) as [h|] eqn:E; cbn.
  - eapply balanced_touch; [done| |done]. split; [done|]. by intros [].
  - by apply balanced_id.
Qed.

Lemma balanced_down f w t id :
  balanced f w → balanced f (with_hosts (MarkDown t id (w_hosts w)) w).
Proof.
  intros Hb. unfold MarkDown. destruct (w_hosts w !! id) as [h|] eqn:E; [|by apply balanced_id].
  case_match; [by apply balanced_id|]. eapply balanced_touch; [done| |done]. split; [done|]. by intros [].
Qed.

Lemma balanced_stale f w t cutoff :
  balanced f w → balanced f (with_hosts (snd (MarkStale t cutoff (w_hosts w))) w).
Proof.
  apply balanced_hosts; cbn.
  - intros k h'. rewrite lookup_fmap, fmap_Some. intros (h & Hk & ->). exists h. split; [done|].
    case_match; (split; [done|]); by intros [].
  - intros k. by rewrite lookup_fmap, fmap_is_Some.
Qed.

(** *** A new host *)

Lemma balanced_register f w t uuid order reg c m :
  joining_ok (w_hosts w) (w_servers w) (CUsed reg c m) → balanced f w →
  balanced f (with_hosts (snd (RegisterReserved t uuid order (host_of reg) c m (w_hosts w))) w).
Proof.
  intros [(Hid & HC & HM) Hcm] Hb. unfold RegisterReserved, matchExisting. cbn.
  rewrite (proj2 (String.eqb_neq _ _) Hid). cbn.
  destruct (w_hosts w !! reg_Id reg) as [e|] eqn:E; cbn.
  - destruct (bal_hosts _ _ Hb _ _ E) as [? Hx]. eapply balanced_touch; [exact E| |done].
    split; [done|]. intros [].
    + split; [|done]. cbn. rewrite HC. symmetry. apply (Hx Cpu).
    + split; [|done]. cbn. rewrite HM. symmetry. apply (Hx Mem).
  - unfold registered. cbn. rewrite (proj2 (String.eqb_neq _ _) Hid). cbn.
    destruct Hb as [Hrows Hroom Hhosts Hjoin Hfl]. split; cbn; auto.
    + intros k h. rewrite lookup_insert_Some. intros [[<- <-]|[Hne Hk]]; [|by apply Hhosts].
      assert (Hf : ∀ x, in_flight x f (reg_Id reg) ≤ 0).
      { intros x. destruct f as [|h0 c0 m0|h0 c0 m0]; cbn in *; [lia| |];
          destruct (decide (reg_Id reg = h0)) as [<-|]; try lia.
        - destruct Hfl as [[? ?] _]. congruence.
        - specialize (Hfl x). lia. }
      split; [done|]. intros x. specialize (Hf x). pose proof (cap_ok x (reg_Id reg)).
      destruct (Hcm x) as [Hr Hle]. specialize (Hle eq_refl).
      destruct x; cbn in *; rewrite ?HC, ?HM, clampNonNeg_max, go_int_small by (unfold int_ok; lia); lia.
    + intros cid st Hc. apply Hjoin in Hc. destruct st; cbn in *; auto.
      destruct Hc as [? Hc]. split; [done|]. intros x. destruct (Hc x) as [? Hn].
      split; [done|]. intros Hnone. apply Hn. by apply lookup_insert_None in Hnone as [? _].
    + destruct f; cbn in *; auto. destruct Hfl as [[hh Hk] ?]. split; [|done].
      apply lookup_insert_is_Some'. right. eauto.
Qed.

(** *** Changes of the table *)

Lemma balanced_servers f w tab :
  (∀ id r, tab !! id = Some r → g_ID (r_server r) = id ∧ spec_ok (r_server r)) →
  (∀ x h, committed x h tab = committed x h (w_servers w)) →
  balanced f w → balanced f (with_servers tab w).
Proof.
  intros Hr Hsum [Hrows Hroom Hhosts Hjoin Hfl]. split; cbn; auto.
  - intros x h. by rewrite Hsum.
  - intros k h Hk. apply Hhosts in Hk as [Hk Hx]. split; [done|]. intros x. by rewrite Hsum.
  - intros cid c Hc. apply Hjoin in Hc. destruct c; cbn in *; auto.
    destruct Hc as [? Hc]. split; [done|]. intros x. by rewrite Hsum.
Qed.

Lemma balanced_alter fl w id f :
  neutral f → balanced fl w → balanced fl (with_servers (alter f id (w_servers w)) w).
Proof.
  intros Hf Hb. apply balanced_servers; [| |done].
  - intros id' r. rewrite lookup_alter_Some. intros [(-> & r0 & Hr0 & ->)|[_ Hr]].
    + apply (bal_rows _ _ Hb) in Hr0 as [Hid Hs]. destruct (Hf r0) as [-> Hp]. split; [done|].
      unfold placement in Hp. injection Hp as _ E1 E2 _. intros []; cbn; rewrite ?E1, ?E2.
      * apply (Hs Cpu).
      * apply (Hs Mem).
    + by apply (bal_rows _ _ Hb).
  - intros x h. apply committed_alter. intros r _. apply Hf.
Qed.

Lemma balanced_create f w t uuid s :
  spec_ok s → balanced f w → balanced f (with_servers (Create t uuid s (w_servers w)) w).
Proof.
  intros Hs Hb. unfold Create. destruct (w_servers w !! uuid) eqn:E.
  { by destruct w. }
  apply balanced_servers; [| |done].
  - intros id r. rewrite lookup_insert_Some. intros [[<- <-]|[_ Hr]]; [|by apply (bal_rows _ _ Hb)].
    split; [done|]. intros []; [apply (Hs Cpu)|apply (Hs Mem)].
  - intros x h. unfold committed. rewrite sum_on_insert, E. cbn. unfold share, assigned. cbn.
    rewrite bool_decide_eq_false_2 by done. cbn. lia.
Qed.

(** *** The steps of the other goroutines *)

Lemma balanced_agent f w cid c :
  joining_ok (w_hosts w) (w_servers w) c → balanced f w → balanced f (with_agent cid c w).
Proof.
  intros Hc []. split; cbn; auto. intros cid' c'. rewrite lookup_insert_Some.
  intros [[_ <-]|[_ ?]]; eauto.
Qed.

Lemma balanced_registry f w g : balanced f w → balanced f (with_registry g w).
Proof. intros []. by split. Qed.

Lemma balanced_next f w cid t uuid order :
  balanced f w → balanced f (conn_next cid t uuid order w).
Proof.
  intros Hb. unfold conn_next. destruct (w_agents w !! cid) as [[reg c m|id|id|id]|] eqn:E; [..|done].
  - pose proof (balanced_register f w t uuid order reg c m (bal_joining _ _ Hb _ _ E) Hb) as Hb'.
    destruct (RegisterReserved _ _ _ _ _ _ _) as [h hosts]. by apply balanced_agent.
  - by apply balanced_agent, balanced_registry.
  - by apply balanced_agent, balanced_registry.
  - destruct (balanced_down _ _ t id Hb). split; cbn in *; auto.
    intros cid' c'. rewrite lookup_delete_Some. intros [_ ?]. eauto.
Qed.

Lemma balanced_act f w a : act_ok a → balanced f w → balanced f (do_act a w).
Proof.
  intros Ha Hb. destruct a; cbn in *.
  - unfold conn_open. destruct (w_agents w !! cid); [done|]. unfold UsedCapacity.
    destruct Ha as [Hid Ht]. rewrite (proj2 (String.eqb_neq _ _) Hid). apply balanced_agent; [|done].
    split; [done|]. intros x.
    pose proof (committed_nonneg _ _ x (reg_Id reg) Hb). pose proof (bal_room _ _ Hb x (reg_Id reg)).
    destruct x; cbn; (split; [|by intros _]); by split.
  - by apply balanced_next.
  - unfold conn_beat. destruct (w_agents w !! cid) as [[]|]; try done. by apply balanced_beat.
  - by apply balanced_stale.
  - by apply balanced_create.
  - apply balanced_alter; [neutral|done].
  - apply balanced_alter; [neutral|done].
  - apply balanced_alter; [neutral|done].
Qed.
End Ledger.

(** ** The reconciler keeps the ledger *)

(** What a run may meet: the steps of the others are allowed, and the statements that
    settle a flight are not lost.  Every other statement may fail in either way. *)
Record oracle_ok (cap : resource → string → Z) (o : Oracle) : Prop := {
  ok_others : ∀ n, Forall (act_ok cap) (o_others o n);
  ok_order : ∀ n ks, o_order o n ks ≡ₚ ks;
  ok_assign : ∀ n msg, o_db o n QAssignHost ≠ DbLost msg;
  ok_unassign : ∀ n msg, o_db o n QUnassignHost ≠ DbFail msg;
  ok_stopped : ∀ n msg, o_db o n QMarkStopped ≠ DbFail msg;
  ok_deleted : ∀ n msg, o_db o n QSoftDelete ≠ DbFail msg
}.

(** The same as a condition on one outcome. *)
Definition settles (q : stmt) (out : db_outcome) : Prop :=
  match q with
  | QAssignHost => ∀ msg, out ≠ DbLost msg
  | QUnassignHost | QMarkStopped | QSoftDelete => ∀ msg, out ≠ DbFail msg
  | _ => True
  end.

Definition stable (o : Oracle) (P : World → Prop) : Prop :=
  ∀ n w, P w → P (called (do_acts (o_others o n) w)).

(** A computation that itself touches neither inventory nor tables. *)
Definition passive (o : Oracle) {A} (m : ST World A) : Prop :=
  ∀ P w, stable o P → P w → wp m (λ _ w', P w') w.

(** What the reconciler's theorems need of the provisioner. *)
Class PassiveProvisioner (o : Oracle) `{Provisioner World} : Prop := {
  passive_Provision s : passive o (prov_Provision s);
  passive_Start s : passive o (prov_Start s);
  passive_Stop s : passive o (prov_Stop s);
  passive_Evict s : passive o (prov_Evict s);
  passive_Deprovision s : passive o (prov_Deprovision s);
  passive_Status s : passive o (prov_Status s);
  passive_Snapshot s : passive o (prov_Snapshot s)
}.

Lemma passive_ret o {A} (a : A) : passive o (ret a).
Proof. by intros P w _ H. Qed.

Lemma passive_bind o {A B} (m : ST World A) (k : A → ST World B) :
  passive o m → (∀ a, passive o (k a)) → passive o (bind m k).
Proof. intros Hm Hk P w HP Hw. wp_step. eapply wp_mono; [by apply Hm|]. intros a w' ?. by apply Hk. Qed.

Lemma passive_call o {A} (f : nat → World → A * World) :
  (∀ n w, snd (f n w) = w) → passive o (call o f).
Proof.
  intros Hf P w HP Hw. unfold wp, call. specialize (Hf (w_calls w) (called (do_acts (o_others o (w_calls w)) w))).
  destruct (f _ _) as [a w']; cbn in *. subst w'. by apply HP.
Qed.

Create HintDb passive.
#[export] Hint Resolve passive_ret : passive.
#[export] Hint Extern 2 (passive _ (bind _ _)) => apply passive_bind; [|intros ?] : passive.
#[export] Hint Extern 2 (passive _ (match ?x with _ => _ end)) => destruct x : passive.
#[export] Hint Extern 3 (passive _ (call _ _)) =>
  apply passive_call; intros; repeat case_match; reflexivity : passive.

Ltac passive := typeclasses eauto with passive nocore.

Lemma passive_hub o h cmd : passive o (hub_call o h cmd).
Proof. unfold hub_call. passive. Qed.
#[export] Hint Resolve passive_hub : passive.

#[export] Instance remote_passive o : @PassiveProvisioner o (RemoteProvisioner o).
Proof.
  split; intros s; cbn; unfold remote_Provision, remote_Start, remote_order, remote_teardown,
    remote_Status, remote_Provision; passive.
Qed.

(** A copy of a row is current as far as its placement goes. *)
Definition tracks (s : GameServer) (w : World) : Prop :=
  ∃ r, w_servers w !! g_ID s = Some r ∧ placement r = (g_HostID s, g_CPUs s, g_MemoryMB s, true).

Section Reconcile.
Context (cap : resource → string → Z) (cap_ok : ∀ x h, 0 ≤ cap x h < 2 ^ 31).
Context (o : Oracle) (Ho : oracle_ok cap o).
Context `{!Provisioner World} `{!PassiveProvisioner o}.
Context (meter : bool) (hostDeadAfter : Z).
#[local] Instance store' : hostStore World := world_store o.

(** The ledger with flight [f], and current copies [ts]. *)
Definition state (f : flight) (ts : list GameServer) (w : World) : Prop :=
  balanced cap f w ∧ ∀ s, s ∈ ts → tracks s w.

Lemma tracks_alter s w id f :
  neutral f → tracks s w → tracks s (with_servers (alter f id (w_servers w)) w).
Proof.
  intros Hf (r & Hr & Hp). destruct (decide (id = g_ID s)) as [->|].
  - exists (f r). cbn. rewrite lookup_alter_eq, Hr. split; [done|].
    destruct (Hf r) as [_ ->]. done.
  - exists r. cbn. by rewrite lookup_alter_ne.
Qed.

Lemma tracks_act s w a : tracks s w → tracks s (do_act a w).
Proof.
  intros Ht. destruct a; cbn.
  - unfold conn_open, UsedCapacity. repeat case_match; done.
  - unfold conn_next. repeat case_match; done.
  - unfold conn_beat. repeat case_match; done.
  - done.
  - destruct Ht as (r & Hr & Hp). exists r. split; [|done]. unfold Create. cbn.
    destruct (w_servers w !! uuid) eqn:E; [done|]. rewrite lookup_insert_ne; congruence.
  - apply tracks_alter; [neutral|done].
  - apply tracks_alter; [neutral|done].
  - apply tracks_alter; [neutral|done].
Qed.

Lemma state_stable f ts : stable o (state f ts).
Proof.
  intros n w Hw. assert (Hs : state f ts (do_acts (o_others o n) w)).
  { pose proof (ok_others _ _ Ho n) as Hall. revert w Hw. unfold do_acts.
    induction Hall as [|a l Ha _ IH]; intros w [Hb Ht]; cbn; [done|]. apply IH. split.
    - by apply balanced_act.
    - intros s Hs. by apply tracks_act, Ht. }
  destruct Hs as [Hb Ht]. split; [by apply balanced_called|]. intros s Hs. apply (Ht s Hs).
Qed.

Lemma wp_passive {A} (m : ST World A) f ts w :
  passive o m → state f ts w → wp m (λ _ w', state f ts w') w.
Proof. intros Hm. apply Hm. apply state_stable. Qed.

(** A call starts from the state the others leave. *)
Lemma wp_call {A} f ts (k : nat → World → A * World) (Q : A → World → Prop) w :
  state f ts w →
  (∀ n w1, state f ts w1 → Q (k n w1).1 (k n w1).2) → wp (call o k) Q w.
Proof.
  intros Hw HQ. unfold wp, call.
  specialize (HQ (w_calls w) _ (state_stable f ts (w_calls w) w Hw)).
  destruct (k _ _). done.
Qed.

Lemma state_alter f ts w id g :
  neutral g → state f ts w → state f ts (with_servers (alter g id (w_servers w)) w).
Proof. intros Hg [Hb Ht]. split; [by apply balanced_alter|]. intros s Hs. by apply tracks_alter, Ht. Qed.

(** A statement that keeps placements. *)
Lemma wp_exec_neutral f ts q g id w :
  (∀ t, neutral (g t)) → state f ts w →
  wp (exec_servers o q (λ t, alter (g t) id)) (λ _ w', state f ts w') w.
Proof.
  intros Hg Hw. unfold exec_servers, exec. eapply wp_call; [exact Hw|]. intros n w1 H1.
  destruct (o_db o n q); cbn; [by apply state_alter|done|by apply state_alter].
Qed.

Lemma wp_billing f ts (m : ST World unit) w :
  (∃ s, m = startBilling o meter s) ∨ (∃ id, m = stopBilling o meter id) →
  state f ts w → wp m (λ _ w', state f ts w') w.
Proof.
  assert (Hbill : ∀ w b, state f ts w → state f ts (with_billing b w)).
  { intros w0 b [Hb Ht]. split; [by apply balanced_billing|done]. }
  intros [[s ->]|[id ->]] Hw; unfold startBilling, stopBilling; destruct meter; try done;
    wp_step; (eapply wp_call; [exact Hw|]); intros n w1 H1; case_match; cbn; wp_steps; auto.
Qed.

Lemma wp_Reserve ts id c m w :
  (∀ x, 0 ≤ pick x c m < 2 ^ 31) → state Settled ts w →
  wp (hs_Reserve id c m) (λ err w', match err with
    | None => state (Reserved id c m) ts w'
    | Some _ => state Settled ts w'
    end) w.
Proof.
  intros Hcm Hw. eapply (wp_call Settled ts); [exact Hw|]. intros n w1 [Hb Ht].
  destruct (Reserve _ id c m (w_hosts w1)) as [[e|] hosts] eqn:E; cbn.
  { apply Reserve_Some in E as ->. split; [by apply balanced_id|done]. }
  apply Reserve_granted in E as (h & Hk & _ & HC & HM & ->). split; [|done].
  destruct (bal_hosts _ _ _ Hb _ _ Hk) as [Hid Hx].
  assert (Hfree : ∀ x, pick x c m ≤ free_of x h) by (intros []; done).
  destruct Hb as [Hrows Hroom Hhosts Hjoin _]. split; cbn; auto.
  - intros k h'. rewrite lookup_insert_Some. intros [[<- <-]|[Hne Hk']].
    + split; [done|]. intros x. destruct (Hx x) as (Htot & Hpos & Hsum).
      specialize (Hcm x). specialize (Hfree x). specialize (cap_ok x id).
      pose proof (committed_nonneg cap Settled w1 x id ltac:(by split)).
      cbn in *. destruct (decide (id = id)); [|done].
      destruct x; cbn in *; rewrite go_int_small by (unfold int_ok; lia); lia.
    + destruct (Hhosts _ _ Hk') as [? Hx']. split; [done|]. intros x. specialize (Hx' x). cbn in *.
      destruct (decide (k = id)); [congruence|]. lia.
  - intros cid st Hc. apply Hjoin in Hc. destruct st; cbn in *; auto.
    destruct Hc as [? Hc]. split; [done|]. intros x. destruct (Hc x) as [? Hn].
    split; [done|]. intros Hnone. apply Hn. by apply lookup_insert_None in Hnone as [? _].
  - rewrite lookup_insert_eq. split; [eauto|]. intros x. apply Hcm.
Qed.

(** *** Release *)

Lemma balanced_release f f' w t id c m :
  (∀ x, 0 ≤ pick x c m < 2 ^ 31) →
  (∀ x k, in_flight x f' k = in_flight x f k - if decide (k = id) then pick x c m else 0) →
  (∀ hosts, (∀ k, is_Some (w_hosts w !! k) → is_Some (hosts !! k)) → flight_ok f' hosts) →
  balanced cap f w → (∀ x k, - 2 ^ 40 ≤ in_flight x f k) →
  balanced cap f' (with_hosts (Release t id c m (w_hosts w)) w).
Proof.
  intros Hcm Hf Hf' Hb Hlow. unfold Release. pose proof (committed_nonneg cap f w) as Hnn.
  destruct (w_hosts w !! id) as [h|] eqn:E.
  - pose proof Hb as [Hrows Hroom Hhosts Hjoin _]. split; cbn; auto.
    + intros k h'. rewrite lookup_insert_Some. intros [[<- <-]|[Hne Hk]].
      * destruct (Hhosts _ _ E) as [? Hx]. split; [done|]. intros x.
        specialize (Hx x). specialize (Hcm x). specialize (Hnn x id Hb). specialize (Hlow x id).
        pose proof (cap_ok x id). rewrite Hf. destruct (decide (id = id)); [|done].
        destruct x; cbn in *; rewrite go_int_small by (unfold int_ok; lia); lia.
      * destruct (Hhosts _ _ Hk) as [? Hx]. split; [done|]. intros x. specialize (Hx x).
        rewrite Hf. destruct (decide (k = id)); [congruence|]. lia.
    + intros cid st Hc. apply Hjoin in Hc. destruct st; cbn in *; auto.
      destruct Hc as [? Hc]. split; [done|]. intros x. destruct (Hc x) as [? Hn].
      split; [done|]. intros Hnone. apply Hn. by apply lookup_insert_None in Hnone as [? _].
    + apply Hf'. intros k Hk. apply lookup_insert_is_Some'. by right.
  - destruct Hb as [Hrows Hroom Hhosts Hjoin _]. split; cbn; auto.
    intros k h Hk. destruct (Hhosts _ _ Hk) as [? Hx]. split; [done|]. intros x. specialize (Hx x).
    rewrite Hf. destruct (decide (k = id)); [congruence|]. lia.
Qed.

(** A reservation given back. *)
Lemma wp_Release_reserved ts id c m w :
  (∀ x, 0 ≤ pick x c m < 2 ^ 31) → state (Reserved id c m) ts w →
  wp (hs_Release id c m) (λ _ w', state Settled ts w') w.
Proof.
  intros Hcm Hw. eapply (wp_call (Reserved id c m) ts); [exact Hw|]. intros n w1 [Hb Ht]. cbn.
  split; [|done]. eapply balanced_release; [done| | |exact Hb|].
  - intros x k. cbn. case_decide; lia.
  - done.
  - intros x k. cbn. specialize (Hcm x). case_decide; lia.
Qed.

(** What is in flight once the capacity of [s] is released. *)
Definition owed (s : GameServer) : flight :=
  match g_HostID s with
  | None => Settled
  | Some h => Released h (g_CPUs s) (g_MemoryMB s)
  end.

Lemma tracked_spec f w s : balanced cap f w → tracks s w → ∀ x, 0 ≤ pick x (g_CPUs s) (g_MemoryMB s) < 2 ^ 31.
Proof.
  intros Hb (r & Hr & Hp). apply (bal_rows _ _ _ Hb) in Hr as [_ Hs].
  injection Hp as _ E1 E2 _. intros x. specialize (Hs x). destruct x; cbn in *; congruence.
Qed.

Lemma wp_ReleaseHost ts s h w :
  g_HostID s = Some h → state Settled (s :: ts) w →
  wp (ReleaseHost h (g_CPUs s) (g_MemoryMB s)) (λ _ w', state (owed s) (s :: ts) w') w.
Proof.
  intros Hh Hw. unfold owed. rewrite Hh.
  eapply (wp_call Settled (s :: ts)); [exact Hw|]. intros n w1 [Hb Ht]. cbn.
  assert (Hcm : ∀ x, 0 ≤ pick x (g_CPUs s) (g_MemoryMB s) < 2 ^ 31)
    by (eapply tracked_spec; [done|apply Ht; by left]).
  split; [|done]. eapply balanced_release; [done| | |exact Hb|].
  - intros x k. cbn. case_decide; lia.
  - by intros hosts _.
  - intros x k. cbn. lia.
Qed.

Lemma wp_release_host ts s w :
  state Settled (s :: ts) w →
  wp (release_host o s) (λ _ w', state (owed s) (s :: ts) w') w.
Proof.
  intros Hw. unfold release_host. destruct (g_HostID s) as [h|] eqn:E.
  - wp_step. eapply wp_mono; [by apply wp_ReleaseHost|]. intros ? w' ?. by wp_steps.
  - wp_steps. unfold owed. by rewrite E.
Qed.

(** *** Statements that move a server *)

(** The rows after one tracked row changed. *)
Lemma balanced_move f f' w s g :
  tracks s w → balanced cap f w → flight_ok f' (w_hosts w) →
  (∀ r, g_ID (r_server (g r)) = g_ID (r_server r) ∧
        g_CPUs (r_server (g r)) = g_CPUs (r_server r) ∧
        g_MemoryMB (r_server (g r)) = g_MemoryMB (r_server r)) →
  (∀ r, placement r = (g_HostID s, g_CPUs s, g_MemoryMB s, true) → ∀ x k,
     share k (need_of x) (g r) - share k (need_of x) r + in_flight x f' k = in_flight x f k ∧
     (share k (need_of x) (g r) ≤ share k (need_of x) r ∨
      (is_Some (w_hosts w !! k) ∧ in_flight x f' k = 0))) →
  balanced cap f' (with_servers (alter g (g_ID s) (w_servers w)) w).
Proof.
  intros (r & Hr & Hp) Hb Hf' Hcols Hshare. specialize (Hshare r Hp).
  assert (Hsum : ∀ x k, committed x k (alter g (g_ID s) (w_servers w)) =
    committed x k (w_servers w) + share k (need_of x) (g r) - share k (need_of x) r)
    by (intros; by apply committed_alter_row).
  destruct Hb as [Hrows Hroom Hhosts Hjoin Hfl]. split; cbn; auto.
  - intros id r'. rewrite lookup_alter_Some. intros [(<- & r0 & Hr0 & ->)|[_ Hr0]]; [|by apply Hrows].
    destruct (Hrows _ _ Hr0) as [Hid Hs]. destruct (Hcols r0) as (E1 & E2 & E3).
    split; [congruence|]. intros x. specialize (Hs x). destruct x; cbn in *; congruence.
  - intros x k. rewrite Hsum. specialize (Hroom x k). destruct (Hshare x k) as [Heq [Hle|[[h Hk] Hz]]]; [lia|].
    destruct (Hhosts _ _ Hk) as [_ Hx]. specialize (Hx x). lia.
  - intros k h Hk. destruct (Hhosts _ _ Hk) as [? Hx]. split; [done|]. intros x. rewrite Hsum.
    specialize (Hx x). destruct (Hshare x k) as [Heq _]. lia.
  - intros cid st Hc. apply Hjoin in Hc. destruct st; cbn in *; auto.
    destruct Hc as [? Hc]. split; [done|]. intros x. destruct (Hc x) as [? Hn].
    split; [done|]. intros Hnone. specialize (Hn Hnone). rewrite Hsum.
    destruct (Hshare x (reg_Id reg)) as [Heq [Hle|[[h Hk] _]]]; [lia|congruence].
Qed.

Lemma tracks_other s s' w g :
  g_ID s' ≠ g_ID s → tracks s' w → tracks s' (with_servers (alter g (g_ID s) (w_servers w)) w).
Proof. intros Hne (r & Hr & Hp). exists r. cbn. by rewrite lookup_alter_ne. Qed.

(** The other copies are of other servers. *)
Definition apart (s : GameServer) (ts : list GameServer) : Prop :=
  ∀ s', s' ∈ ts → g_ID s' ≠ g_ID s.

Lemma state_tail f s ts w : state f (s :: ts) w → state f ts w.
Proof. intros [Hb Ht]. split; [done|]. intros s' Hs. apply Ht. by right. Qed.

Ltac tail := cbv beta in *; eapply state_tail; eassumption.

(** Recording a reservation settles it. *)
Lemma wp_AssignHost ts s h w :
  apart s ts → g_HostID s = None →
  state (Reserved h (g_CPUs s) (g_MemoryMB s)) (s :: ts) w →
  wp (exec_servers o QAssignHost (λ t, AssignHost t (g_ID s) h)) (λ err w', match err with
    | None => state Settled (set_host_id (Some h) s :: ts) w'
    | Some _ => state (Reserved h (g_CPUs s) (g_MemoryMB s)) (s :: ts) w'
    end) w.
Proof.
  intros Hap Hnone Hw. unfold exec_servers, exec. eapply wp_call; [exact Hw|].
  intros n w1 [Hb Ht]. pose proof (ok_assign _ _ Ho n) as Hdb.
  destruct (o_db o n QAssignHost) as [|msg|msg]; [|by split|by destruct (Hdb msg)]. cbn.
  assert (Hs : tracks s w1) by (apply Ht; by left). split.
  - apply (balanced_move (Reserved h (g_CPUs s) (g_MemoryMB s))); [done|done|done|by intros [[] ?]|].
    intros r Hp x k. rewrite (share_tracked x k r _ _ _ Hp), Hnone.
    rewrite (share_tracked x k _ (Some h) (g_CPUs s) (g_MemoryMB s)).
    2:{ destruct r as [[] ?]. unfold placement in *. cbn in *. congruence. }
    rewrite (decide_False (P := None = Some k)) by done. cbn.
    destruct (decide (Some h = Some k)) as [[= ->]|Hne].
    + rewrite decide_True by done. split; [lia|]. right.
      by destruct (bal_flight _ _ _ Hb) as [? _].
    + rewrite decide_False by congruence. split; [lia|]. left. lia.
  - intros s' Hin. apply elem_of_cons in Hin as [->|Hin].
    + destruct Hs as (r & Hr & Hp). eexists. split.
      * cbn. replace (g_ID (set_host_id (Some h) s)) with (g_ID s) by by destruct s.
        unfold AssignHost, update. rewrite lookup_alter_eq, Hr. done.
      * destruct r as [[] ?], s. unfold placement in *. cbn in *. congruence.
    + apply tracks_other; [by apply Hap|]. apply Ht. by right.
Qed.

(** Clearing the assignment settles a release; [keep] are copies that agree with the
    changed row. *)
Lemma wp_settle q g keep ts s w :
  (∀ n msg, o_db o n q ≠ DbFail msg) → apart s ts →
  (∀ t r, g_ID (r_server (g t r)) = g_ID (r_server r) ∧
          g_CPUs (r_server (g t r)) = g_CPUs (r_server r) ∧
          g_MemoryMB (r_server (g t r)) = g_MemoryMB (r_server r)) →
  (∀ t r k, assigned k (g t r) = false) →
  (∀ s', s' ∈ keep → g_ID s' = g_ID s ∧
     ∀ t r, placement r = (g_HostID s, g_CPUs s, g_MemoryMB s, true) →
       placement (g t r) = (g_HostID s', g_CPUs s', g_MemoryMB s', true)) →
  state (owed s) (s :: ts) w →
  wp (exec_servers o q (λ t, alter (g t) (g_ID s))) (λ _ w', state Settled (keep ++ ts) w') w.
Proof.
  intros Hdb Hap Hcols Hgone Hkeep Hw. unfold exec_servers, exec. eapply wp_call; [exact Hw|].
  intros n w1 [Hb Ht].
  assert (Hmove : state Settled (keep ++ ts) (with_servers (alter (g (o_now o n)) (g_ID s) (w_servers w1)) w1)).
  { split.
    - apply (balanced_move (owed s)); [apply Ht; by left|done|done|apply Hcols|].
      intros r Hp x k. unfold share at 1 3. rewrite Hgone, (share_tracked x k r _ _ _ Hp).
      assert (0 ≤ pick x (g_CPUs s) (g_MemoryMB s) < 2 ^ 31)
        by (eapply tracked_spec; [done|apply Ht; by left]).
      unfold owed. destruct (g_HostID s) as [h|]; cbn.
      + destruct (decide (Some h = Some k)) as [[= ->]|Hne].
        * rewrite decide_True by done. split; [lia|]. left. lia.
        * rewrite decide_False by congruence. split; [lia|]. left. lia.
      + rewrite decide_False by done. split; [lia|]. left. lia.
    - intros s' Hin. apply elem_of_app in Hin as [Hin|Hin].
      + destruct (Hkeep s' Hin) as [Hid Hp]. destruct (Ht s) as (r & Hr & Hpr); [by left|].
        exists (g (o_now o n) r). cbn. rewrite Hid, lookup_alter_eq, Hr. auto.
      + apply tracks_other; [by apply Hap|]. apply Ht. by right. }
  specialize (Hdb n). destruct (o_db o n q) as [|msg|msg]; cbn; [done|by destruct (Hdb msg)|done].
Qed.

Ltac gone := intros ? [[] ?] ?; unfold assigned; cbn;
  rewrite ?(bool_decide_eq_false_2 (None = Some _)), ?(bool_decide_eq_false_2 (Some _ = None)) by done;
  by rewrite ?andb_false_r.

Lemma wp_UnassignHost ts s w :
  apart s ts → state (owed s) (s :: ts) w →
  wp (exec_servers o QUnassignHost (λ t, UnassignHost t (g_ID s)))
    (λ _ w', state Settled (set_host_id None s :: ts) w') w.
Proof.
  intros Hap Hw.
  apply (wp_settle _ _ [set_host_id None s] ts s);
    [apply (ok_unassign _ _ Ho)|done|by intros ? [[] ?]|gone| |done].
  intros s' ->%list_elem_of_singleton. split; [by destruct s|].
  intros t [[] ?]. destruct s. unfold placement. cbn. congruence.
Qed.

Lemma wp_MarkStopped ts s w :
  apart s ts → state (owed s) (s :: ts) w →
  wp (exec_servers o QMarkStopped (λ t, MarkStopped t (g_ID s))) (λ _ w', state Settled ts w') w.
Proof.
  intros Hap Hw. apply (wp_settle _ _ [] ts s); [apply (ok_stopped _ _ Ho)|done|by intros ? [[] ?]|gone|set_solver|done].
Qed.

Lemma wp_SoftDelete ts s w :
  apart s ts → state (owed s) (s :: ts) w →
  wp (exec_servers o QSoftDelete (λ t, SoftDelete t (g_ID s))) (λ _ w', state Settled ts w') w.
Proof.
  intros Hap Hw. apply (wp_settle _ _ [] ts s); [apply (ok_deleted _ _ Ho)|done|by intros ? [[] ?]|gone|set_solver|done].
Qed.

(** *** The scheduler's calls *)

Lemma passive_Placeable h : passive o (Placeable h).
Proof. unfold Placeable. apply passive_bind; [by apply passive_call|]. intros []; apply passive_ret. Qed.

Lemma passive_LastHeartbeat h : passive o (LastHeartbeat h).
Proof. unfold LastHeartbeat. apply passive_bind; [by apply passive_call|]. intros []; apply passive_ret. Qed.

Lemma wp_Schedule ts c m w :
  (∀ x, 0 ≤ pick x c m < 2 ^ 31) → state Settled ts w →
  wp (Schedule c m) (λ res w', match res with
    | inl id => state (Reserved id c m) ts w'
    | inr _ => state Settled ts w'
    end) w.
Proof.
  intros Hcm Hw. unfold Schedule. wp_step.
  eapply wp_mono; [apply wp_passive; [by apply passive_call|exact Hw]|].
  intros [l|e] w1 H1; cbv beta; [|by wp_steps].
  generalize (fittingHosts l c m). intros cands. revert w1 H1.
  induction cands as [|h cands IH]; intros w1 H1; cbn [tryReserve]; [by wp_steps|].
  wp_step. eapply wp_mono; [by apply wp_Reserve|]. intros [e|] w2 H2; cbv beta; [by apply IH|by wp_steps].
Qed.

(** *** The functions of the reconciler *)

Lemma wp_place ts s w :
  apart s ts → g_HostID s = None → state Settled (s :: ts) w →
  wp (place o s) (λ '(err, s') w', g_ID s' = g_ID s ∧ match err with
    | None => state Settled (s' :: ts) w'
    | Some _ => state Settled ts w'
    end) w.
Proof.
  intros Hap Hnone Hw. unfold place. wp_step.
  assert (Hcm : ∀ x, 0 ≤ pick x (g_CPUs s) (g_MemoryMB s) < 2 ^ 31)
    by (eapply tracked_spec; [apply Hw|apply Hw; by left]).
  eapply wp_mono; [by apply wp_Schedule|]. intros [h|e] w1 H1; cbv beta.
  - wp_step. eapply wp_mono; [by apply wp_AssignHost|]. intros [e|] w2 H2; cbv beta.
    + wp_step. eapply wp_mono; [by apply wp_Release_reserved|]. intros ? w3 H3. wp_steps.
      split; [done|]. tail.
    + wp_steps. split; [by destruct s|done].
  - assert (state Settled ts w1) by (tail).
    destruct e; try by wp_steps.
    wp_step. eapply wp_mono; [apply wp_exec_neutral; [intros t; neutral|exact H1]|].
    intros [e|] w2 H2; wp_steps; (split; [done|]); [tail|done].
Qed.

Lemma wp_dropStalePlacement ts s w :
  apart s ts → state Settled (s :: ts) w →
  wp (dropStalePlacement o s) (λ '(err, s') w', g_ID s' = g_ID s ∧ match err with
    | None => state Settled (s' :: ts) w'
    | Some _ => state Settled ts w'
    end) w.
Proof.
  intros Hap Hw. unfold dropStalePlacement. destruct (g_HostID s) as [h|] eqn:Eh; [|by wp_steps].
  wp_step. eapply wp_mono; [apply wp_passive; [apply passive_Placeable|exact Hw]|].
  intros [[]|e] w1 H1; cbv beta; [by wp_steps| |wp_steps; split; [done|tail]].
  wp_step. eapply wp_mono; [by apply wp_ReleaseHost|]. intros ? w2 H2. cbv beta.
  wp_step. eapply wp_mono; [by apply wp_UnassignHost|]. intros [e|] w3 H3; cbv beta; wp_steps.
  - split; [done|]. tail.
  - split; [by destruct s|done].
Qed.

Lemma wp_bring_up ts s b w :
  state Settled ts w → wp (bring_up o meter s b) (λ _ w', state Settled ts w') w.
Proof.
  intros Hw. unfold bring_up. wp_step.
  eapply wp_mono; [apply wp_exec_neutral; [intros t; neutral|exact Hw]|].
  intros [e|] w1 H1; cbv beta; [by wp_steps|]. wp_step. unfold provisionOrStart.
  eapply wp_mono; [apply wp_passive; [destruct b; [apply passive_Start|apply passive_Provision]|exact H1]|].
  intros [inst|e] w2 H2; cbv beta; [|by wp_steps]. wp_step.
  eapply wp_mono; [apply wp_exec_neutral; [intros t; neutral|exact H2]|].
  intros [e|] w3 H3; cbv beta; [by wp_steps|]. wp_step.
  eapply wp_mono; [apply wp_billing; [eauto|exact H3]|]. intros ? w4 H4. by wp_steps.
Qed.

Lemma apart_id s s' ts : g_ID s' = g_ID s → apart s ts → apart s' ts.
Proof. unfold apart. intros ->. done. Qed.

Lemma wp_start ts s w :
  apart s ts → state Settled (s :: ts) w →
  wp (start o meter s) (λ _ w', state Settled ts w') w.
Proof.
  intros Hap Hw. unfold start. destruct (String.eqb _ _); [wp_steps; tail|].
  wp_step. eapply (wp_mono _ (λ '(err, s') w', g_ID s' = g_ID s ∧ match err with
    | None => state Settled (s' :: ts) w' | Some _ => state Settled ts w' end)).
  { destruct (negb (no_vm s)); [by wp_steps|]. by apply wp_dropStalePlacement. }
  intros [[e|] s1] w1 [Hid H1]; cbv beta iota; [by wp_steps|].
  assert (Hap1 : apart s1 ts) by by eapply apart_id.
  destruct (_ && _) eqn:E.
  - apply andb_true_iff in E as [_ E%bool_decide_eq_true]. wp_step.
    eapply wp_mono; [by apply wp_place|]. intros [[e|] s2] w2 [_ H2]; cbv beta iota; [by wp_steps|].
    destruct (bool_decide _); [wp_steps; tail|].
    apply wp_bring_up. tail.
  - apply wp_bring_up. tail.
Qed.

Lemma wp_stop ts s w :
  apart s ts → state Settled (s :: ts) w →
  wp (stop o meter s) (λ _ w', state Settled ts w') w.
Proof.
  intros Hap Hw. unfold stop. destruct (String.eqb _ _); [wp_steps; tail|].
  wp_step. eapply wp_mono; [apply wp_exec_neutral; [intros t; neutral|exact Hw]|].
  intros [e|] w1 H1; cbv beta; [wp_steps; tail|]. wp_step.
  eapply wp_mono; [apply wp_passive; [apply passive_Stop|exact H1]|].
  intros [e|] w2 H2; cbv beta; [wp_steps; tail|]. wp_step.
  eapply wp_mono; [apply wp_passive; [apply passive_Evict|exact H2]|].
  intros [e|] w3 H3; cbv beta; [wp_steps; tail|]. wp_step.
  eapply wp_mono; [apply wp_release_host; exact H3|]. intros ? w4 H4. cbv beta in *. wp_step.
  eapply wp_mono; [by apply wp_MarkStopped|]. intros [e|] w5 H5; cbv beta; [by wp_steps|]. wp_step.
  eapply wp_mono; [apply wp_billing; [eauto|exact H5]|]. intros ? w6 H6. by wp_steps.
Qed.

Lemma wp_finalize ts s w :
  apart s ts → state Settled (s :: ts) w →
  wp (finalize o meter s) (λ _ w', state Settled ts w') w.
Proof.
  intros Hap Hw. unfold finalize. wp_step.
  eapply wp_mono; [apply wp_release_host; exact Hw|]. intros ? w1 H1. cbv beta in *. wp_step.
  eapply wp_mono; [by apply wp_SoftDelete|]. intros [e|] w2 H2; cbv beta; [by wp_steps|]. wp_step.
  eapply wp_mono; [apply wp_billing; [eauto|exact H2]|]. intros ? w3 H3. by wp_steps.
Qed.

Lemma wp_delete ts s w :
  apart s ts → state Settled (s :: ts) w →
  wp (delete_ o meter s) (λ _ w', state Settled ts w') w.
Proof.
  intros Hap Hw. unfold delete_. wp_step.
  eapply (wp_mono _ (λ _ w', state Settled (s :: ts) w')).
  { destruct (negb _); [apply wp_exec_neutral; [intros t; neutral|done]|by wp_steps]. }
  intros [e|] w1 H1; cbv beta; [wp_steps; tail|]. wp_step.
  eapply wp_mono; [apply wp_passive; [apply passive_Deprovision|exact H1]|].
  intros [e|] w2 H2; cbv beta; [|by apply wp_finalize]. wp_step. unfold hostReachable.
  eapply (wp_mono _ (λ _ w', state Settled (s :: ts) w')).
  { destruct (g_HostID s); [|by wp_steps]. apply wp_passive; [apply passive_Placeable|done]. }
  intros [[]|pe] w3 H3; cbv beta; [wp_steps; tail|by apply wp_finalize|wp_steps; tail].
Qed.

Lemma wp_backup f ts s w : state f ts w → wp (backup o s) (λ _ w', state f ts w') w.
Proof.
  intros Hw. unfold backup. destruct (_ || _).
  - wp_step. eapply wp_mono; [apply wp_exec_neutral; [intros t; neutral|exact Hw]|].
    intros ? w1 H1. by wp_steps.
  - wp_step. eapply wp_mono; [apply wp_passive; [apply passive_Snapshot|exact Hw]|].
    intros [e|] w1 H1; cbv beta; [by wp_steps|]. wp_step.
    eapply wp_mono; [apply wp_exec_neutral; [intros t; neutral|exact H1]|]. intros ? w2 H2. by wp_steps.
Qed.

Lemma wp_reconcileOne ts s w :
  apart s ts → state Settled (s :: ts) w →
  wp (reconcileOne o meter s) (λ _ w', state Settled ts w') w.
Proof.
  intros Hap Hw. unfold reconcileOne. wp_step.
  eapply (wp_mono _ (λ _ w', state Settled ts w')).
  - unfold reconcile. destruct (String.eqb _ _); [by apply wp_delete|]. wp_step.
    eapply (wp_mono _ (λ _ w', state Settled (s :: ts) w')).
    { destruct (g_BackupRequested s); [by apply wp_backup|by wp_steps]. }
    intros ? w1 H1. cbv beta in *. destruct (String.eqb _ _); [by apply wp_stop|].
    destruct (String.eqb _ _); [by apply wp_start|]. wp_steps. tail.
  - intros [e|] w1 H1; cbv beta; [|by wp_steps]. wp_step.
    eapply wp_mono; [apply wp_exec_neutral; [intros t; neutral|exact H1]|]. intros ? w2 H2. by wp_steps.
Qed.

Lemma wp_liveness f ts s w :
  state f ts w → wp (checkServerLiveness o meter hostDeadAfter s) (λ _ w', state f ts w') w.
Proof.
  assert (Hlost : ∀ msg w, state f ts w → wp (markLost o meter s msg) (λ _ w', state f ts w') w).
  { intros msg w0 H0. unfold markLost. wp_step.
    eapply wp_mono; [apply wp_exec_neutral; [intros t; neutral|exact H0]|].
    intros [e|] w1 H1; cbv beta; [by wp_steps|]. apply wp_billing; eauto. }
  intros Hw. unfold checkServerLiveness. wp_step.
  eapply wp_mono; [apply wp_passive; [apply passive_Status|exact Hw]|].
  intros [rep|e] w1 H1; cbv beta.
  - destruct (bool_decide _); [|by apply Hlost]. unfold recordHealth.
    destruct (rp_Health rep) as [h|]; [|by wp_steps]. wp_step.
    eapply (wp_mono _ (λ _ w', state f ts w')).
    { apply wp_passive; [|done]. unfold healthNeedsWrite, now. passive. }
    intros [] w2 H2; cbn; [|by wp_steps]. wp_step.
    eapply wp_mono; [apply wp_exec_neutral; [intros t; neutral|exact H2]|]. intros ? w3 H3. by wp_steps.
  - wp_step. eapply (wp_mono _ (λ _ w', state f ts w')).
    { apply wp_passive; [|done]. unfold hostDeadTooLong, now.
      destruct (g_HostID s); [|apply passive_ret].
      apply passive_bind; [apply passive_LastHeartbeat|]. intros; passive. }
    intros [[]|derr] w2 H2; cbv beta; [by apply Hlost|by wp_steps|by wp_steps].
Qed.

(** *** A whole pass *)

Lemma wp_each_live f ts l w :
  state f ts w →
  wp (for_each (checkServerLiveness o meter hostDeadAfter) l) (λ _ w', state f ts w') w.
Proof.
  revert w. induction l as [|s l IH]; intros w Hw; cbn; [by wp_steps|]. wp_step.
  eapply wp_mono; [by apply wp_liveness|]. intros ? w1 H1. by apply IH.
Qed.

Lemma wp_each_one l w :
  NoDup (g_ID <$> l) → state Settled l w →
  wp (for_each (reconcileOne o meter) l) (λ _ w', state Settled [] w') w.
Proof.
  revert w. induction l as [|s l IH]; intros w Hnd Hw; cbn; [by wp_steps|].
  apply NoDup_cons in Hnd as [Hs Hnd]. wp_step.
  eapply wp_mono; [apply (wp_reconcileOne l); [|done]|].
  - intros s' Hin E. apply Hs. rewrite <- E. by apply list_elem_of_fmap_2.
  - intros ? w1 H1. by apply IH.
Qed.

Lemma wp_query f q (cond : GameServer → bool) w :
  state f [] w →
  wp (query o q (λ order, select order cond)) (λ res w', match res with
    | inl l => NoDup (g_ID <$> l) ∧ state f l w'
    | inr _ => state f [] w'
    end) w.
Proof.
  intros Hw. unfold query. eapply wp_call; [exact Hw|]. intros n w1 [Hb Ht].
  destruct (o_db o n q); cbn; [|by split|by split].
  pose proof (ok_order _ _ Ho n (map_to_list (w_servers w1)).*1) as Hord.
  assert (Hid : ∀ id r, w_servers w1 !! id = Some r → g_ID (r_server r) = id)
    by (intros id r Hr; by apply (bal_rows _ _ _ Hb)).
  split.
  - apply NoDup_select; [|done]. rewrite Hord. apply NoDup_fst_map_to_list.
  - split; [done|]. intros s Hs. apply elem_of_select in Hs as (k & r & _ & Hr & <- & Hd & _).
    exists r. rewrite (Hid _ _ Hr). split; [done|]. unfold placement. by rewrite Hd.
Qed.

Lemma wp_ReconcileOnce w :
  balanced cap Settled w →
  wp (ReconcileOnce o meter hostDeadAfter) (λ _ w', balanced cap Settled w') w.
Proof.
  intros Hb. unfold ReconcileOnce. wp_step.
  assert (Hw : state Settled [] w) by (split; [done|]; intros s Hs; by apply not_elem_of_nil in Hs).
  eapply (wp_mono _ (λ _ w', state Settled [] w')).
  - unfold checkLiveness. wp_step. eapply wp_mono; [by apply wp_query|].
    intros [l|e] w1 H1; cbv beta; [|by wp_steps]. destruct H1 as [_ H1]. apply wp_each_live.
    split; [apply H1|]. intros s Hs. by apply not_elem_of_nil in Hs.
  - intros ? w1 H1. cbv beta in *. wp_step. eapply wp_mono; [by apply wp_query|].
    intros [l|e] w2 H2; cbv beta; [|wp_steps; apply H2]. destruct H2 as [Hnd H2].
    eapply wp_mono; [by apply wp_each_one|]. intros ? w3 H3. apply H3.
Qed.
End Reconcile.
