(* ===== verification/ControlRuns.v ===== *)
(** * Runs of the control plane

    The steps of the whole control plane, the properties of its runs and of one
    reconciliation when nothing goes wrong, and three runs that end badly.  The
    reconciler is the deployed one: [RemoteProvisioner] over the hub. *)
From S2P Require Import Prelude GoSort Fleet Scheduler Servers ControlPlane Reconciler Ledger.
From stdpp Require Import strings sorting relations.
#[local] Set Warnings "-clear-no-such-hyp".
#[local] Open Scope Z_scope.

(** ** Steps *)

(** [main] starts with an empty inventory and whatever the tables hold. *)
Definition restart (w : World) : World :=
  mkWorld ∅ ∅ ∅ (w_servers w) (w_billing w) (w_calls w).

Definition empty_world : World := mkWorld ∅ ∅ ∅ ∅ ∅ 0.

(** What a run may meet, as predicates: the registrations agents send, the servers
    requests ask for, and the outcomes statements may have. *)
Definition allowed (Reg : registration → Prop) (Ask : GameServer → Prop) (a : act) : Prop :=
  match a with
  | AOpen _ reg => Reg reg
  | ACreate _ _ s => Ask s
  | _ => True
  end.

Record oracle_in (Reg : registration → Prop) (Ask : GameServer → Prop) (Db : stmt → db_outcome → Prop)
    (o : Oracle) : Prop := {
  in_others : ∀ n, Forall (allowed Reg Ask) (o_others o n);
  in_order : ∀ n ks, o_order o n ks ≡ₚ ks;
  in_db : ∀ n q, Db q (o_db o n q)
}.

(** A pass of the reconciler, in which the other goroutines take part; a step of one of
    them between passes; a restart of the process between passes. *)
Inductive cp_step (Reg : registration → Prop) (Ask : GameServer → Prop) (Db : stmt → db_outcome → Prop) :
    World → World → Prop :=
| step_pass o meter dead w w' :
    oracle_in Reg Ask Db o →
    @ReconcileOnce o (RemoteProvisioner o) meter dead w = Some (tt, w') → cp_step Reg Ask Db w w'
| step_other a w : allowed Reg Ask a → cp_step Reg Ask Db w (do_act a w)
| step_restart w : cp_step Reg Ask Db w (restart w).

Lemma balanced_empty cap : (∀ x h, 0 ≤ cap x h < 2 ^ 31) → balanced cap Settled empty_world.
Proof.
  intros Hcap. split; cbn; try done.
  intros x h. unfold committed, sum_on. rewrite map_fold_empty. apply Hcap.
Qed.

Lemma balanced_restart cap w : balanced cap Settled w → balanced cap Settled (restart w).
Proof. intros []. split; cbn; try done; auto. Qed.

Section CapacityRuns.
Context (cap : resource → string → Z) (Hcap : ∀ x h, 0 ≤ cap x h < 2 ^ 31).
Context (Reg : registration → Prop) (Ask : GameServer → Prop) (Db : stmt → db_outcome → Prop).
Context (Hreg : ∀ reg, Reg reg → reg_ok cap reg) (Hask : ∀ s, Ask s → spec_ok s).
Context (Hdb : ∀ q out, Db q out → settles q out).

Lemma allowed_ok a : allowed Reg Ask a → act_ok cap a.
Proof. destruct a; cbn; auto. Qed.

Lemma oracle_in_ok o : oracle_in Reg Ask Db o → oracle_ok cap o.
Proof.
  intros [Ho Hord Hd]. split; [|done|..].
  - intros n. eapply Forall_impl; [apply Ho|]. apply allowed_ok.
  - intros n msg. exact (Hdb _ _ (Hd n QAssignHost) msg).
  - intros n msg. exact (Hdb _ _ (Hd n QUnassignHost) msg).
  - intros n msg. exact (Hdb _ _ (Hd n QMarkStopped) msg).
  - intros n msg. exact (Hdb _ _ (Hd n QSoftDelete) msg).
Qed.

Lemma balanced_step w w' :
  cp_step Reg Ask Db w w' → balanced cap Settled w → balanced cap Settled w'.
Proof.
  intros [o meter dead w0 w1 Ho%oracle_in_ok Hrun|a w0 Ha%allowed_ok|w0] Hb.
  - pose proof (@wp_ReconcileOnce cap Hcap o Ho (RemoteProvisioner o) (remote_passive o) meter dead w0 Hb) as H.
    unfold wp in H. by rewrite Hrun in H.
  - by apply balanced_act.
  - by apply balanced_restart.
Qed.

Lemma balanced_run w w' :
  rtc (cp_step Reg Ask Db) w w' → balanced cap Settled w → balanced cap Settled w'.
Proof. induction 1; eauto using balanced_step. Qed.
End CapacityRuns.

(** Every pass completes. *)
Lemma pass_total cap o meter dead w :
  (∀ x h, 0 ≤ cap x h < 2 ^ 31) → oracle_ok cap o → balanced cap Settled w →
  ∃ w', @ReconcileOnce o (RemoteProvisioner o) meter dead w = Some (tt, w').
Proof.
  intros Hcap Ho Hb.
  pose proof (@wp_ReconcileOnce cap Hcap o Ho (RemoteProvisioner o) (remote_passive o) meter dead w Hb) as H.
  apply wp_run in H as ([] & w' & E & _). eauto.
Qed.

(** C10: The control plane never commits more of a machine than it has, as long as machines
    report truly and the statements that settle a placement go through.  The statement
    says what is assumed: every registration carries a non-empty identifier (the agent's
    default is empty) and always the totals of its machine (a host that comes back smaller
    is overcommitted: [shrunk_host_overcommits]); requests ask for amounts below 2^31; the
    statement that records a placement is not reported as failed after it took effect, and
    those that end one do not fail ([failed_stop_overcommits]).  Then in every run, with
    any interleaving of the reconciler with agents that connect, disconnect and report, the
    reaper and API requests, with agents that fail, with all other statements failing, and
    with restarts between passes, the CPUs and the memory of the servers assigned to a host
    never exceed the capacity of its machine, and the free capacity the inventory shows is
    never negative and never more than what is left. *)
Theorem no_overcommit cap (Reg : registration → Prop) (Ask : GameServer → Prop) (Db : stmt → db_outcome → Prop) w :
  (∀ x h, 0 ≤ cap x h < 2 ^ 31) →
  (∀ reg, Reg reg → reg_Id reg ≠ "" ∧ reg_CpusTotal reg = cap Cpu (reg_Id reg) ∧
     reg_MemoryMbTotal reg = cap Mem (reg_Id reg)) →
  (∀ s, Ask s → ∀ x, 0 ≤ need_of x s < 2 ^ 31) →
  (∀ q out, Db q out →
     match q with
     | QAssignHost => ∀ msg, out ≠ DbLost msg
     | QUnassignHost | QMarkStopped | QSoftDelete => ∀ msg, out ≠ DbFail msg
     | _ => True
     end) →
  rtc (cp_step Reg Ask Db) empty_world w →
  (∀ x h, committed x h (w_servers w) ≤ cap x h) ∧
  (∀ k h, w_hosts w !! k = Some h → ∀ x,
     0 ≤ free_of x h ∧ committed x k (w_servers w) + free_of x h ≤ cap x k).
Proof.
  intros Hcap Hreg Hask Hdb Hrun.
  assert (Hb : balanced cap Settled w).
  { eapply (balanced_run cap Hcap Reg Ask Db Hreg Hask Hdb); [done|by apply balanced_empty]. }
  split; [apply (bal_room _ _ _ Hb)|]. intros k h Hk x.
  destruct (bal_hosts _ _ _ Hb _ _ Hk) as [_ Hx]. specialize (Hx x). cbn in Hx. lia.
Qed.

Lemma steps_of_acts Reg Ask Db l w : Forall (allowed Reg Ask) l → rtc (cp_step Reg Ask Db) w (do_acts l w).
Proof.
  intros Hl. revert w. induction Hl as [|a l Ha _ IH]; intros w; cbn; [apply rtc_refl|].
  eapply rtc_l; [by apply step_other|apply IH].
Qed.

(** ** A small fleet *)

Definition sample_cap (x : resource) (h : string) : Z := match x with Cpu => 4 | Mem => 4096 end.

Definition sample_reg : registration := mkRegistration "h1" "node-1" "" 4 4096 "".

Definition sample_server (id desired status : string) (host vm : option string) : GameServer :=
  mkGameServer id "u" "srv" "minecraft" "1.20" 4 4096 desired status None None ∅ host vm
    None None None false None None None None 0 0.

(** Nobody interferes, every statement succeeds, every agent answers with a machine. *)
Definition sample_oracle : Oracle :=
  mkOracle (λ _, []) (λ n, Z.of_nat n) (λ _, "id") (λ _ ks, ks) (λ _ _, DbOk)
    (λ _ _, inl (Some (mkVM "vm1" "s1" "203.0.113.7" 25565 "running" None))).

Definition sample_start : list act :=
  [AOpen 0 sample_reg; ANext 0 1 "u1" []; ANext 0 2 "u2" [];
   ACreate 3 "s1" (sample_server "" DesiredRunning StatusPending None None)].

Definition sample_registration (reg : registration) : Prop := reg = sample_reg.
Definition sample_request (s : GameServer) : Prop := ∀ x, 0 ≤ need_of x s < 2 ^ 31.
Definition sample_outcome (q : stmt) (out : db_outcome) : Prop := out = DbOk.

Lemma sample_oracle_in : oracle_in sample_registration sample_request sample_outcome sample_oracle.
Proof. by split. Qed.

Lemma sample_start_allowed : Forall (allowed sample_registration sample_request) sample_start.
Proof. unfold sample_start. rewrite !Forall_cons, Forall_nil. cbn. split_and!; try done. intros []; cbn; lia. Qed.

Lemma no_overcommit_witness :
  ∃ w, @ReconcileOnce sample_oracle (RemoteProvisioner sample_oracle) true 90
         (do_acts sample_start empty_world) = Some (tt, w) ∧
    (∀ x h, committed x h (w_servers w) ≤ sample_cap x h) ∧
    (∀ k h, w_hosts w !! k = Some h → ∀ x,
       0 ≤ free_of x h ∧ committed x k (w_servers w) + free_of x h ≤ sample_cap x k).
Proof.
  assert (Hcap : ∀ x h, 0 ≤ sample_cap x h < 2 ^ 31) by (intros [] h; cbn; lia).
  assert (Hreg : ∀ reg, sample_registration reg → reg_ok sample_cap reg) by (by intros reg ->).
  assert (Hdb : ∀ q out, sample_outcome q out → settles q out) by (by intros [] out ->).
  pose proof (steps_of_acts _ _ sample_outcome _ empty_world sample_start_allowed) as Hsteps.
  destruct (pass_total sample_cap sample_oracle true 90 (do_acts sample_start empty_world)) as [w E];
    [done|by apply (oracle_in_ok sample_cap sample_registration sample_request sample_outcome Hreg
               (λ _ H, H) Hdb), sample_oracle_in| |].
  { eapply (balanced_run sample_cap Hcap _ sample_request _ Hreg (λ _ H, H) Hdb);
      [exact Hsteps|by apply balanced_empty]. }
  exists w. split; [done|].
  apply (no_overcommit sample_cap sample_registration sample_request sample_outcome w Hcap Hreg (λ _ H, H) Hdb).
  eapply rtc_r; [exact Hsteps|]. eapply step_pass; [apply sample_oracle_in|exact E].
Defined.

(** ** One reconciliation without interference *)

Record quiet (o : Oracle) : Prop := {
  q_others : ∀ n, o_others o n = [];
  q_order : ∀ n ks, o_order o n ks ≡ₚ ks
}.

Section Quiet.
Context (o : Oracle) (Hq : quiet o).
#[local] Instance store_q : hostStore World := world_store o.

Lemma wp_quiet {A} (f : nat → World → A * World) (Q : A → World → Prop) w :
  Q (f (w_calls w) (called w)).1 (f (w_calls w) (called w)).2 → wp (call o f) Q w.
Proof. unfold wp, call. rewrite (q_others _ Hq). cbn. by destruct (f _ _). Qed.

Lemma wp_exec_ok q f (Q : option error → World → Prop) w :
  o_db o (w_calls w) q = DbOk →
  Q None (with_servers (f (o_now o (w_calls w)) (w_servers w)) (called w)) →
  wp (exec_servers o q f) Q w.
Proof. intros E HQ. apply wp_quiet. by rewrite E. Qed.

Lemma wp_exec_fail q f msg (Q : option error → World → Prop) w :
  o_db o (w_calls w) q = DbFail msg → Q (Some (ErrOther msg)) (called w) →
  wp (exec_servers o q f) Q w.
Proof. intros E HQ. apply wp_quiet. by rewrite E. Qed.

(** A command to a connected host. *)
Lemma wp_hub_connected h cid cmd vm (Q : option VM + error → World → Prop) w :
  w_registry w !! h = Some cid → o_reply o (w_calls w) cmd = inl vm →
  (∀ vm', (∀ v, vm = Some v → vm_ID v ≠ "" → vm' = Some v) → Q (inl vm') (called w)) →
  wp (hub_call o h cmd) Q w.
Proof.
  intros Hc Hr HQ. apply wp_quiet. cbn. rewrite Hc, Hr. cbn. destruct vm as [v|]; cbn.
  - destruct (String.eqb_spec (vm_ID v) ""); cbn; apply HQ; naive_solver.
  - by apply HQ.
Qed.

(** Release of a known host's capacity. *)
Lemma wp_Release_quiet h c m (Q : option error → World → Prop) w :
  Q None (with_hosts (Release (o_now o (w_calls w)) h c m (w_hosts w)) (called w)) →
  wp (ReleaseHost h c m) Q w.
Proof. intros HQ. by apply wp_quiet. Qed.

Lemma wp_stopBilling meter id (Q : unit → World → Prop) w :
  (∀ w', w_servers w' = w_servers w → w_hosts w' = w_hosts w → Q tt w') →
  wp (stopBilling o meter id) Q w.
Proof.
  intros HQ. unfold stopBilling. destruct meter; [|by apply HQ]. wp_step. unfold exec. apply wp_quiet.
  destruct (o_db _ _ _); cbn; wp_steps; by apply HQ.
Qed.

Lemma wp_startBilling meter s (Q : unit → World → Prop) w :
  (∀ w', w_servers w' = w_servers w → w_hosts w' = w_hosts w → Q tt w') →
  wp (startBilling o meter s) Q w.
Proof.
  intros HQ. unfold startBilling. destruct meter; [|by apply HQ]. wp_step. apply wp_quiet.
  destruct (o_db _ _ _); cbn; wp_steps; by apply HQ.
Qed.

Lemma lookup_update id f (tab : servers) s :
  tab !! id = Some (mkRow s None) → update id f tab !! id = Some (mkRow (f s) None).
Proof. intros H. unfold update. by rewrite lookup_alter_eq, H. Qed.

(** The machine of [s] runs on a connected host whose agent obeys. *)
Record live_on (s : GameServer) (h vm : string) (w : World) : Prop := {
  lv_host : g_HostID s = Some h;
  lv_host_ne : h ≠ "";
  lv_vm : g_VMID s = Some vm;
  lv_vm_ne : vm ≠ "";
  lv_conn : is_Some (w_registry w !! h);
  lv_reply : ∀ n cmd, ∃ v, o_reply o n cmd = inl v
}.

Lemma live_no_vm s h vm w : live_on s h vm w → no_vm s = false.
Proof. intros []. unfold no_vm. rewrite lv_vm0. by apply String.eqb_neq. Qed.

Lemma live_assigned s h vm w : live_on s h vm w → assignedHost s = inl h.
Proof. intros []. unfold assignedHost. rewrite lv_host0. by rewrite (proj2 (String.eqb_neq _ _) lv_host_ne0). Qed.

Lemma wp_order_live s h vm cmd (Q : option error → World → Prop) w :
  live_on s h vm w → Q None (called w) → wp (remote_order o cmd s) Q w.
Proof.
  intros Hl HQ. unfold remote_order. rewrite (live_no_vm _ _ _ _ Hl), (live_assigned _ _ _ _ Hl). wp_step.
  destruct Hl as [_ _ _ _ [cid Hc] Hr]. destruct (Hr (w_calls w) (cmd (vm_of s))) as [v Hv].
  eapply wp_hub_connected; [done|done|]. intros vm' _. by wp_steps.
Qed.

Lemma wp_teardown_live s h vm cmd (Q : option error → World → Prop) w :
  live_on s h vm w → Q None (called w) → wp (remote_teardown o cmd s) Q w.
Proof.
  intros Hl HQ. unfold remote_teardown. rewrite (live_assigned _ _ _ _ Hl), (live_no_vm _ _ _ _ Hl). wp_step.
  destruct Hl as [_ _ _ _ [cid Hc] Hr]. destruct (Hr (w_calls w) (cmd (vm_of s))) as [v Hv].
  eapply wp_hub_connected; [done|done|]. intros vm' _. by wp_steps.
Qed.

(** [stop] of a live server up to its last statement. *)
Lemma wp_stop_live meter s h vm (Q : option error → World → Prop) w :
  live_on s h vm w → g_Status s ≠ StatusStopped → (∀ n, o_db o n QMarkStatus = DbOk) →
  (∀ t t' w1, w_servers w1 = MarkStatus t (g_ID s) StatusStopping "" (w_servers w) →
     w_hosts w1 = Release t' h (g_CPUs s) (g_MemoryMB s) (w_hosts w) →
     wp (let* err := exec_servers o QMarkStopped (λ t, MarkStopped t (g_ID s)) in
         match err with
         | Some err => ret (Some err)
         | None => do* stopBilling o meter (g_ID s) in ret None
         end) Q w1) →
  wp (@stop o (RemoteProvisioner o) meter s) Q w.
Proof.
  intros Hl Hst Hdb HQ. unfold stop. rewrite (proj2 (String.eqb_neq _ _) Hst).
  wp_step. apply wp_exec_ok; [by apply Hdb|]. wp_step.
  eapply wp_order_live; [destruct Hl; by split|]. wp_step.
  eapply wp_teardown_live; [destruct Hl; by split|]. wp_step. unfold release_host.
  rewrite (lv_host _ _ _ _ Hl). wp_step. apply wp_Release_quiet. wp_step. by eapply HQ.
Qed.

(** [Schedule] when a ready host fits. *)
Lemma wp_Schedule_quiet c m w :
  keys_ok (w_hosts w) →
  (∃ k h, w_hosts w !! k = Some h ∧ ready h = true ∧ fits c m h = true) →
  wp (Schedule c m) (λ res w', ∃ id h, res = inl id ∧ w_hosts w !! id = Some h ∧ ready h = true ∧
    fits c m h = true ∧ (∃ t, granted t id c m (w_hosts w) (w_hosts w')) ∧
    w_servers w' = w_servers w ∧ w_registry w' = w_registry w) w.
Proof.
  intros Hkeys (k & h & Hk & Hr & Hf). unfold Schedule. wp_step. apply wp_quiet. cbn.
  set (l := ListReady _ _).
  assert (Hl : ∀ h, h ∈ l ↔ (∃ k, w_hosts w !! k = Some h) ∧ ready h = true).
  { intros h'. unfold l, ListReady. apply elem_of_snapshot_all. intros k' Hk'.
    rewrite (q_order _ Hq). by apply elem_of_keys. }
  destruct (fittingHosts l c m) as [|h1 rest] eqn:E.
  { exfalso. apply (not_elem_of_nil h). rewrite <- E. apply elem_of_fittingHosts. split; [|done].
    apply Hl. eauto. }
  assert (h1 ∈ fittingHosts l c m) as Hin by (rewrite E; by left).
  apply elem_of_fittingHosts in Hin as [[[k1 Hk1] Hr1]%Hl Hf1]. pose proof (Hkeys _ _ Hk1) as <-.
  cbn [tryReserve]. wp_step. apply wp_quiet. cbn.
  rewrite (Reserve_ok _ _ c m _ h1 Hk1 Hr1 Hf1). cbn. wp_steps.
  exists (h_ID h1), h1. split_and!; try done. eexists. apply Reserve_granted.
  by apply Reserve_ok.
Qed.

(** [start] of a server that has no host and no machine. *)
Lemma wp_start_fresh meter s v w :
  (∀ n q, o_db o n q = DbOk) → keys_ok (w_hosts w) →
  (∀ k, is_Some (w_hosts w !! k) → k ≠ "" ∧ is_Some (w_registry w !! k)) →
  (∀ n spec, o_reply o n (OpProvision spec) = inl (Some v)) → vm_ID v ≠ "" →
  w_servers w !! g_ID s = Some (mkRow s None) →
  g_Status s ≠ StatusRunning → g_HostID s = None → g_VMID s = None →
  (∃ k h, w_hosts w !! k = Some h ∧ ready h = true ∧ fits (g_CPUs s) (g_MemoryMB s) h = true) →
  wp (@start o (RemoteProvisioner o) meter s) (λ err w', err = None ∧ ∃ id h s',
    w_hosts w !! id = Some h ∧ ready h = true ∧ fits (g_CPUs s) (g_MemoryMB s) h = true ∧
    w_servers w' !! g_ID s = Some (mkRow s' None) ∧ g_Status s' = StatusRunning ∧
    g_HostID s' = Some id ∧ g_VMID s' = Some (vm_ID v) ∧ g_Host s' = Some (vm_Host v) ∧
    g_Port s' = Some (vm_Port v) ∧ g_DesiredState s' = g_DesiredState s ∧
    g_BackupRequested s' = g_BackupRequested s) w.
Proof.
  intros Hdb Hkeys Hconn Hreply Hv Hrow Hst Hh Hvm Hfit. unfold start.
  rewrite (proj2 (String.eqb_neq _ _) Hst). unfold no_vm at 1 2 3. rewrite Hvm. cbn [negb andb].
  unfold dropStalePlacement. rewrite Hh. wp_steps. cbn. rewrite bool_decide_eq_true_2 by done. wp_step.
  unfold place. wp_step. eapply wp_mono; [by apply wp_Schedule_quiet|].
  intros res w1 (id & h & -> & Hk & Hr & Hf & _ & Es & Eg). cbv beta iota. wp_step.
  apply wp_exec_ok; [by apply Hdb|]. wp_steps. cbv beta iota.
  rewrite bool_decide_eq_false_2 by by destruct s. unfold bring_up. wp_step.
  apply wp_exec_ok; [by apply Hdb|]. wp_step. unfold provisionOrStart. cbn [negb prov_Provision RemoteProvisioner].
  unfold remote_Provision, assignedHost.
  destruct (Hconn id) as [Hne [cid Hc]]; [eauto|].
  replace (g_HostID (set_host_id (Some id) s)) with (Some id) by by destruct s.
  rewrite (proj2 (String.eqb_neq _ _) Hne). wp_step.
  eapply wp_hub_connected; [cbn; by rewrite Eg|apply Hreply|]. intros vm' Hvm'.
  rewrite (Hvm' v eq_refl Hv). wp_steps. apply wp_exec_ok; [by apply Hdb|]. wp_step.
  apply wp_startBilling. intros w2 Es2 _. wp_steps. split; [done|].
  replace (g_ID (set_host_id (Some id) s)) with (g_ID s) in Es2 by by destruct s.
  cbn in Es2. rewrite Es in Es2.
  unfold MarkRunning, MarkStatus, AssignHost in Es2.
  pose proof (f_equal (lookup (g_ID s)) Es2) as Hrow2.
  erewrite lookup_update in Hrow2 by (apply lookup_update, lookup_update, Hrow).
  eexists id, h, _. split_and!; [done|done|done|exact Hrow2|..]; by destruct s.
Qed.
End Quiet.

(** A server that waits for a host, a fleet that can take it and agents that answer. *)
Record startable (o : Oracle) (s : GameServer) (v : VM) (w : World) : Prop := {
  sb_keys : keys_ok (w_hosts w);
  sb_conn : ∀ k, is_Some (w_hosts w !! k) → k ≠ "" ∧ is_Some (w_registry w !! k);
  sb_reply : ∀ n spec, o_reply o n (OpProvision spec) = inl (Some v);
  sb_vm : vm_ID v ≠ "";
  sb_status : g_Status s ≠ StatusRunning;
  sb_host : g_HostID s = None;
  sb_novm : g_VMID s = None;
  sb_fit : ∃ k h, w_hosts w !! k = Some h ∧ ready h = true ∧ fits (g_CPUs s) (g_MemoryMB s) h = true
}.

Lemma reconcile_desired o meter s (Q : option error → World → Prop) w :
  g_BackupRequested s = false →
  (g_DesiredState s = DesiredRunning → wp (@start o (RemoteProvisioner o) meter s) Q w) →
  (g_DesiredState s = DesiredStopped → wp (@stop o (RemoteProvisioner o) meter s) Q w) →
  g_DesiredState s = DesiredRunning ∨ g_DesiredState s = DesiredStopped →
  wp (@reconcile o (RemoteProvisioner o) meter s) Q w.
Proof.
  intros Hbk Hrun Hstop [E|E]; unfold reconcile; rewrite E, Hbk; cbn; wp_steps; auto.
Qed.

Lemma not_listed order s (tab : servers) : reconcilable s = false → s ∉ ListReconcilable order tab.
Proof. intros Hr (k & r & _ & _ & _ & _ & Hc)%elem_of_select. congruence. Qed.

(** C21: One reconciliation reaches the desired state when nothing fails and nobody
    interferes.  A server its owner wants running and that has no host is placed on a
    ready host with room for it, booted there and recorded as running with the machine and
    endpoint the agent returned; a running server its owner wants stopped is recorded as
    stopped with host and machine cleared, and its capacity goes back to its host.  In both
    cases the row is then no longer among those listed for reconciliation. *)
Theorem reconcile_converges o meter s w :
  quiet o → (∀ n q, o_db o n q = DbOk) →
  w_servers w !! g_ID s = Some (mkRow s None) → g_BackupRequested s = false →
  (∀ v, g_DesiredState s = DesiredRunning → startable o s v w →
    wp (@reconcile o (RemoteProvisioner o) meter s) (λ err w', err = None ∧ ∃ id h s',
      w_hosts w !! id = Some h ∧ ready h = true ∧ fits (g_CPUs s) (g_MemoryMB s) h = true ∧
      w_servers w' !! g_ID s = Some (mkRow s' None) ∧ g_Status s' = StatusRunning ∧
      g_HostID s' = Some id ∧ g_VMID s' = Some (vm_ID v) ∧ g_Host s' = Some (vm_Host v) ∧
      g_Port s' = Some (vm_Port v) ∧ g_DesiredState s' = g_DesiredState s ∧
      ∀ order, s' ∉ ListReconcilable order (w_servers w')) w) ∧
  (∀ h vm, g_DesiredState s = DesiredStopped → g_Status s ≠ StatusStopped → live_on o s h vm w →
    wp (@reconcile o (RemoteProvisioner o) meter s) (λ err w', err = None ∧ ∃ s' t,
      w_servers w' !! g_ID s = Some (mkRow s' None) ∧ g_Status s' = StatusStopped ∧
      g_HostID s' = None ∧ g_VMID s' = None ∧ g_DesiredState s' = g_DesiredState s ∧
      w_hosts w' = Release t h (g_CPUs s) (g_MemoryMB s) (w_hosts w) ∧
      ∀ order, s' ∉ ListReconcilable order (w_servers w')) w).
Proof.
  intros Hq Hdb Hrow Hbk. split.
  - intros v Hd []. apply reconcile_desired; [done| |by rewrite Hd|by left]. intros _.
    eapply wp_mono; [by apply wp_start_fresh|].
    intros err w' (-> & id & h & s' & ? & ? & ? & ? & Hst & ? & ? & ? & ? & Hd' & Hb'). split; [done|].
    exists id, h, s'. split_and!; try done. intros order. apply not_listed. unfold reconcilable.
    by rewrite Hd', Hb', Hd, Hbk, Hst.
  - intros h vm Hd Hst Hl. apply reconcile_desired; [done|by rewrite Hd| |by right]. intros _.
    eapply wp_stop_live; [done|exact Hl|done|auto|]. intros t t' w1 Es Eh. wp_step.
    apply wp_exec_ok; [done|apply Hdb|]. wp_step. apply wp_stopBilling; [done|]. intros w2 Es2 Eh2. wp_steps.
    split; [done|]. cbn in Es2, Eh2. rewrite Es in Es2. unfold MarkStopped, MarkStatus in Es2.
    pose proof (f_equal (lookup (g_ID s)) Es2) as Hrow2.
    erewrite lookup_update in Hrow2 by (apply lookup_update, Hrow).
    eexists _, t'. split_and!; [exact Hrow2|by destruct s..|congruence|].
    intros order. apply not_listed. destruct s; cbn in *. by rewrite Hd, Hbk.
Qed.

(** C40: Stopping a server returns its capacity before the stop is recorded: when the
    database then refuses [MarkStopped], the server is still assigned to its host, which
    runs full as far as the table knows, and yet the inventory grants the same
    capacity again. *)
Theorem failed_stop_overcommits o meter s h vm host msg w :
  quiet o → live_on o s h vm w → g_Status s ≠ StatusStopped →
  (∀ n, o_db o n QMarkStatus = DbOk) → (∀ n, o_db o n QMarkStopped = DbFail msg) →
  w_hosts w !! h = Some host → ready host = true →
  (∀ x, free_of x host = 0 ∧ 0 < need_of x s ≤ total_of x host ∧ total_of x host < 2 ^ 31) →
  wp (@stop o (RemoteProvisioner o) meter s) (λ err w', err = Some (ErrOther msg) ∧
    (∀ x k, committed x k (w_servers w') = committed x k (w_servers w)) ∧
    ∀ t, ∃ hosts, Reserve t h (g_CPUs s) (g_MemoryMB s) (w_hosts w') = (None, hosts)) w.
Proof.
  intros Hq Hl Hst Hdb Hfail Hk Hr Hx. eapply wp_stop_live; [done|exact Hl|done|done|].
  intros t t' w1 Es Eh. wp_step. eapply wp_exec_fail; [done|apply Hfail|]. wp_steps.
  split_and!; [done| |].
  - intros x k. cbn. rewrite Es. apply committed_alter. intros r _. by destruct r as [[] ?].
  - intros t2. eexists. cbn. rewrite Eh. unfold Release. rewrite Hk. eapply Reserve_ok.
    + by rewrite lookup_insert_eq.
    + done.
    + apply fits_spec. destruct (Hx Cpu) as [E1 H1], (Hx Mem) as [E2 H2]. cbn in *.
      rewrite E1, E2, !go_int_small by (unfold int_ok; lia). lia.
Qed.

(** ** Deletion *)

(** The inventory after the capacity of [s] went back. *)
Definition given_back (t : Z) (s : GameServer) (hosts : HostRepository) : HostRepository :=
  match g_HostID s with
  | Some id => Release t id (g_CPUs s) (g_MemoryMB s) hosts
  | None => hosts
  end.

Lemma wp_finalize_quiet o meter s s1 w :
  quiet o → (∀ n q, o_db o n q = DbOk) → w_servers w !! g_ID s = Some (mkRow s1 None) →
  wp (finalize o meter s) (λ err w', err = None ∧
    ∃ s' t t', w_servers w' !! g_ID s = Some (mkRow s' (Some t)) ∧ g_HostID s' = None ∧
      w_hosts w' = given_back t' s (w_hosts w)) w.
Proof.
  intros Hq Hdb Hrow. unfold finalize. wp_step.
  apply (wp_mono _ (λ _ w', w_servers w' = w_servers w ∧ ∃ t', w_hosts w' = given_back t' s (w_hosts w))).
  { unfold release_host, given_back. destruct (g_HostID s); [|wp_steps; by split; [|exists 0]]. wp_step.
    apply wp_Release_quiet; [done|]. wp_steps. split; [done|]. by eexists. }
  intros _ w1 (E1 & t' & Eh1). wp_step. apply wp_exec_ok; [done|apply Hdb|]. wp_step.
  apply wp_stopBilling; [done|]. intros w2 E2 Eh2. wp_steps. split; [done|].
  eexists _, _, t'. rewrite E2, Eh2. cbn. rewrite E1, Eh1. unfold SoftDelete. rewrite lookup_alter_eq, Hrow.
  split_and!; [done|by destruct s1|done].
Qed.

(** What [Deprovision] answers when the agent answers [ans] to the command: nothing to do
    without a host or a machine, an error when the host is not connected. *)
Definition refusal (s : GameServer) (ans : option VM + error) (w : World) : option error :=
  match assignedHost s with
  | inr _ => None
  | inl h =>
      if no_vm s then None
      else match w_registry w !! h, ans with
           | None, _ => Some ErrHostNotConnected
           | Some _, inr err => Some err
           | Some _, inl _ => None
           end
  end.

Lemma wp_Deprovision_quiet o s ans (Q : option error → World → Prop) w :
  quiet o → (∀ n, o_reply o n (OpDeprovision (vm_of s)) = ans) →
  (∀ w', w_servers w' = w_servers w → w_hosts w' = w_hosts w → Q (refusal s ans w) w') →
  wp (@prov_Deprovision _ (RemoteProvisioner o) s) Q w.
Proof.
  intros Hq Ha HQ. cbn. unfold remote_teardown, refusal in *. destruct (assignedHost s) as [h|]; [|by wp_steps; apply HQ].
  destruct (no_vm s); [wp_steps; by apply HQ|]. wp_step. apply wp_quiet; [done|]. cbn. rewrite Ha.
  destruct (w_registry w !! h); [|cbn; wp_steps; by apply HQ].
  destruct ans as [[v|]|err]; cbn; try destruct (String.eqb _ _); wp_steps; by apply HQ.
Qed.

(** The server's host is a ready member of the fleet. *)
Definition host_up (s : GameServer) (hosts : HostRepository) : Prop :=
  ∃ id k h, g_HostID s = Some id ∧ hosts !! k = Some h ∧ h_ID h = id ∧ ready h = true.

(** [delete_] up to its decision. *)
Lemma wp_delete_quiet o meter s ans (Q : option error → World → Prop) w :
  quiet o → (∀ n q, o_db o n q = DbOk) → (∀ n, o_reply o n (OpDeprovision (vm_of s)) = ans) →
  w_servers w !! g_ID s = Some (mkRow s None) →
  (∀ w2 s1, w_hosts w2 = w_hosts w → w_servers w2 !! g_ID s = Some (mkRow s1 None) → g_HostID s1 = g_HostID s →
     wp (match refusal s ans w with
         | None => finalize o meter s
         | Some err =>
             let* reachable := hostReachable o s in
             match reachable with
             | inr perr => ret (Some perr)
             | inl true => ret (Some err)
             | inl false => finalize o meter s
             end
         end) Q w2) →
  wp (@delete_ o (RemoteProvisioner o) meter s) Q w.
Proof.
  intros Hq Hdb Ha Hrow HQ. unfold delete_. wp_step.
  apply (wp_mono _ (λ err w1, err = None ∧ w_hosts w1 = w_hosts w ∧ w_registry w1 = w_registry w ∧
    ∃ s1, w_servers w1 !! g_ID s = Some (mkRow s1 None) ∧ g_HostID s1 = g_HostID s)).
  { destruct (negb _); [|wp_steps; split_and!; [done..|by exists s]]. apply wp_exec_ok; [done|apply Hdb|].
    split_and!; [done|done|done|]. cbn. unfold MarkStatus. eexists. erewrite lookup_update by exact Hrow.
    split; [done|]. by destruct s. }
  intros err w1 (-> & Eh & Er & s1 & Hrow1 & Hs1). wp_step.
  eapply wp_Deprovision_quiet; [done|exact Ha|]. intros w2 Es2 Eh2.
  assert (refusal s ans w1 = refusal s ans w) as -> by (unfold refusal; by rewrite Er).
  apply (HQ w2 s1); congruence.
Qed.

(** [hostReachable] tells whether the host is up. *)
Lemma wp_hostReachable_quiet o s (k : bool → ST World (option error)) (Q : option error → World → Prop) w :
  quiet o →
  (∀ b w', (b = true ↔ host_up s (w_hosts w)) → w_hosts w' = w_hosts w → w_servers w' = w_servers w →
     wp (k b) Q w') →
  wp (let* reachable := hostReachable o s in
      match reachable with inr perr => ret (Some perr) | inl b => k b end) Q w.
Proof.
  intros Hq HQ. wp_step. unfold hostReachable, host_up in *. destruct (g_HostID s) as [id|] eqn:Eid.
  2:{ wp_steps. apply HQ; [|done|done]. split; [done|]. intros (? & ? & ? & ? & _). done. }
  unfold Placeable. wp_step. apply wp_quiet; [done|]. cbn. wp_steps. apply HQ; [|done|done].
  rewrite existsb_elem. split.
  - intros (h & (Hin & Hr)%elem_of_snapshot & Hid%String.eqb_eq). destruct Hin as (k' & _ & Hk). cbn in Hk.
    exists id, k', h. done.
  - intros (id' & k' & h & [= <-] & Hk & Hid & Hr). exists h. split; [|by apply String.eqb_eq].
    apply elem_of_snapshot. split; [|done]. exists k'. cbn. split; [|done].
    rewrite (q_order _ Hq). apply elem_of_keys. by eexists.
Qed.

(** C27: A delete removes the server unless a host that is up refused it, when all SQL
    statements succeed and nobody interferes; [ans] is the agent's answer to the command,
    whatever it is.  If [Deprovision] succeeds (also because there is no machine or no
    host), or it fails and the server's host is no ready member of the fleet, the row is
    marked deleted and assigned to no host, and its capacity goes back to its host.  If it
    fails, with the agent's error or because the host is not connected, and the host is
    ready, exactly that error is reported, and the row stays, assigned to its host, with
    the capacity still reserved, for the next pass. *)
Theorem delete_decides o meter s ans w :
  quiet o → (∀ n q, o_db o n q = DbOk) → (∀ n, o_reply o n (OpDeprovision (vm_of s)) = ans) →
  w_servers w !! g_ID s = Some (mkRow s None) →
  (refusal s ans w = None ∨ ¬ host_up s (w_hosts w) →
   wp (@delete_ o (RemoteProvisioner o) meter s) (λ err w', err = None ∧
     ∃ s' t t', w_servers w' !! g_ID s = Some (mkRow s' (Some t)) ∧ g_HostID s' = None ∧
       w_hosts w' = given_back t' s (w_hosts w)) w) ∧
  (∀ e, refusal s ans w = Some e → host_up s (w_hosts w) →
   wp (@delete_ o (RemoteProvisioner o) meter s) (λ err w', err = Some e ∧
     w_hosts w' = w_hosts w ∧
     ∃ s', w_servers w' !! g_ID s = Some (mkRow s' None) ∧ g_HostID s' = g_HostID s) w).
Proof.
  intros Hq Hdb Ha Hrow. split.
  - intros Hcase. apply (wp_delete_quiet _ _ _ ans); [done..|]. intros w2 s1 Eh Hrow2 Hs1. rewrite <- Eh in Hcase |- *.
    destruct (refusal s ans w) as [e|]; [|by eapply wp_finalize_quiet].
    destruct Hcase as [?|Hno]; [done|].
    apply (wp_hostReachable_quiet _ _ (λ b, match b with true => ret (Some e) | false => finalize o meter s end)); [done|].
    intros [] w3 Hb Eh3 Es3; [by destruct Hno; apply Hb|]. rewrite <- Eh3. eapply wp_finalize_quiet; [done|done|].
    by rewrite Es3.
  - intros e He Hyes. apply (wp_delete_quiet _ _ _ ans); [done..|]. intros w2 s1 Eh Hrow2 Hs1. rewrite He.
    apply (wp_hostReachable_quiet _ _ (λ b, match b with true => ret (Some e) | false => finalize o meter s end)); [done|].
    intros b w3 Hb Eh3 Es3. rewrite Eh in Hb. apply Hb in Hyes as ->. wp_steps. split_and!; [done|congruence|].
    exists s1. by rewrite Es3.
Qed.

(** ** A host that reconnects *)

(** When an agent reconnects before its old stream has been cleaned up, the cleanup of
    the old stream leaves the registry alone but marks the host down all the same: the
    host has a live connection, yet it is not a placement target and its servers count
    as unreachable until its next heartbeat. *)
Theorem reconnect_marked_down old new id h w t1 u1 r1 t2 u2 r2 :
  w_agents w !! old = Some (CConnected id) → w_agents w !! new = Some (CConnected id) →
  w_registry w !! id = Some new → old ≠ new → w_hosts w !! id = Some h →
  let w' := conn_next old t2 u2 r2 (conn_next old t1 u1 r1 w) in
  w_registry w' !! id = Some new ∧
  (∃ h', w_hosts w' !! id = Some h' ∧ h_Status h' = HostDown) ∧
  ∀ t, ∃ h', w_hosts (conn_beat new t w') !! id = Some h' ∧ h_Status h' = HostReady.
Proof.
  intros Ha Hn Hg Hne Hk.
  assert (Er : hub_remove id old (w_registry w) = w_registry w)
    by (unfold hub_remove; rewrite bool_decide_eq_false_2; congruence).
  unfold conn_next at 2. rewrite Ha, Er. unfold conn_next. cbn.
  rewrite lookup_insert_eq. cbn. split; [done|].
  assert (Hd : ∃ h', MarkDown t2 id (w_hosts w) !! id = Some h' ∧ h_Status h' = HostDown).
  { unfold MarkDown. rewrite Hk. destruct (String.eqb_spec (h_Status h) HostDown) as [E|E]; [eauto|].
    rewrite lookup_insert_eq. eauto. }
  split; [done|]. intros t. destruct Hd as (h' & Hk' & Hs). unfold conn_beat. cbn.
  rewrite lookup_delete_ne, lookup_insert_ne, Hn by done. unfold Heartbeat. cbn. rewrite Hk', Hs. cbn.
  rewrite lookup_insert_eq. eauto.
Qed.

(** ** A host that comes back smaller *)

(** A known host that registers with new totals keeps its old free capacity: a machine
    that comes back with less than is shown free still grants reservations above what
    it has. *)
Theorem shrunk_host_overcommits t uuid order h c m r e rc rm :
  h_ID h ≠ "" → r !! h_ID h = Some e →
  h_CPUsTotal h < c ≤ h_CPUsAllocatable e → h_MemoryMBTotal h < m ≤ h_MemoryMBAllocatable e →
  ∃ r', Reserve t (h_ID h) c m (snd (RegisterReserved t uuid order h rc rm r)) = (None, r').
Proof.
  intros Hid Hk HC HM. unfold RegisterReserved, matchExisting.
  rewrite (proj2 (String.eqb_neq _ _) Hid). cbn. rewrite Hk. cbn.
  eexists. eapply Reserve_ok; [by rewrite lookup_insert_eq|done|]. apply fits_spec. cbn. lia.
Qed.

(** ** The control plane's store keeps the scheduler's contract *)

(** What the other goroutines do to the inventory. *)
Inductive fleet_step : relation HostRepository :=
| fs_register t uuid order h c m r : fleet_step r (snd (RegisterReserved t uuid order h c m r))
| fs_beat t id r : fleet_step r (snd (Heartbeat t id r))
| fs_down t id r : fleet_step r (MarkDown t id r)
| fs_stale t cutoff r : fleet_step r (snd (MarkStale t cutoff r)).

Lemma act_fleet a w : rtc fleet_step (w_hosts w) (w_hosts (do_act a w)).
Proof.
  destruct a; cbn; try done.
  - unfold conn_open, UsedCapacity. repeat case_match; done.
  - unfold conn_next. destruct (w_agents w !! cid) as [[]|]; try done.
    + pose proof (fs_register t uuid order (host_of reg) usedCPUs usedMemMB (w_hosts w)) as Hs.
      destruct (RegisterReserved _ _ _ _ _ _ _). by apply rtc_once.
    + cbn. apply rtc_once. constructor.
  - unfold conn_beat. destruct (w_agents w !! cid) as [[]|]; try done. apply rtc_once. constructor.
  - apply rtc_once. constructor.
Qed.

Lemma acts_fleet l w : rtc fleet_step (w_hosts w) (w_hosts (do_acts l w)).
Proof.
  revert w. induction l as [|a l IH]; intros w; cbn; [done|]. etransitivity; [apply act_fleet|apply IH].
Qed.

#[export] Instance world_store_laws o :
  (∀ n ks, o_order o n ks ≡ₚ ks) →
  @hostStoreLaws World (world_store o) w_hosts (rtc fleet_step).
Proof.
  intros Hord.
  assert (Hall : ∀ n r k, is_Some (r !! k) → k ∈ o_order o n (keys r))
    by (intros n r k Hk; rewrite Hord; by apply elem_of_keys).
  split; [apply _|..]; intros; unfold wp; cbn.
  - split; [apply acts_fleet|]. eexists. split; [done|]. intros h. unfold ListReady.
    by rewrite elem_of_snapshot_all by auto.
  - split; [apply acts_fleet|]. eexists. split; [done|]. intros h. unfold List_.
    rewrite elem_of_snapshot_all by auto. naive_solver.
  - destruct (Reserve _ _ _ _ _) as [e r] eqn:E. cbn. eexists _, _. split; [apply acts_fleet|exact E].
  - eexists _, _. split; [apply acts_fleet|done].
Qed.

(** ** Instances *)

(** Before every call of the scheduler an agent reports and the reaper runs. *)
Definition racing_oracle : Oracle :=
  mkOracle (λ n, [ABeat 0 (Z.of_nat n); AReap (Z.of_nat n) (Z.of_nat n - 30)]) (λ n, Z.of_nat n)
    (λ _, "id") (λ _ ks, ks) (λ _ _, DbOk) (λ _ _, inr ErrHostNotConnected).

Lemma schedule_races_witness :
  (∀ n ks, o_order racing_oracle n ks ≡ₚ ks) ∧
  wp (@Schedule _ (world_store racing_oracle) 4 4096) (λ res w', match res with
    | inl id => ∃ r t, rtc fleet_step (w_hosts (do_acts sample_start empty_world)) r ∧
                       granted t id 4 4096 r (w_hosts w')
    | inr err => err = ErrNoCapacity ∧
                 rtc fleet_step (w_hosts (do_acts sample_start empty_world)) (w_hosts w')
    end) (do_acts sample_start empty_world).
Proof.
  split; [done|].
  apply (@schedule_races World (world_store racing_oracle) w_hosts (rtc fleet_step)
           (world_store_laws racing_oracle ltac:(done)) 4 4096 (do_acts sample_start empty_world)).
Defined.

(** A host with all of its capacity reserved for [s1], which its owner wants stopped. *)
Definition full_host : Host := mkHost "h1" "node-1" "" "" 4 4096 0 0 HostReady "" 0 0 0.

Definition full_server : GameServer :=
  sample_server "s1" DesiredStopped StatusRunning (Some "h1") (Some "vm1").

Definition full_world : World :=
  mkWorld {["h1" := full_host]} {["h1" := 1%nat]}
    {[0%nat := CConnected "h1"; 1%nat := CConnected "h1"]}
    {["s1" := mkRow full_server None]} ∅ 0.

(** The database refuses [MarkStopped]; everything else works. *)
Definition refusing : Oracle :=
  mkOracle (λ _, []) (λ n, Z.of_nat n) (λ _, "id") (λ _ ks, ks)
    (λ _ q, match q with QMarkStopped => DbFail "connection reset" | _ => DbOk end)
    (λ _ _, inl None).

Lemma sample_quiet : quiet sample_oracle ∧ quiet refusing.
Proof. by split; split. Qed.

Lemma full_live o : (∀ n cmd, ∃ v, o_reply o n cmd = inl v) → live_on o full_server "h1" "vm1" full_world.
Proof. intros Hr. by split. Qed.

(** A server that waits for a host, and an empty host for it. *)
Definition waiting_server : GameServer := sample_server "s1" DesiredRunning StatusPending None None.
Definition waiting_world : World :=
  mkWorld {["h1" := mkHost "h1" "node-1" "" "" 4 4096 4 4096 HostReady "" 0 0 0]} {["h1" := 1%nat]}
    {[1%nat := CConnected "h1"]} {["s1" := mkRow waiting_server None]} ∅ 0.

Lemma waiting_startable :
  startable sample_oracle waiting_server (mkVM "vm1" "s1" "203.0.113.7" 25565 "running" None) waiting_world.
Proof.
  split; try done.
  - intros k h Hk. cbn in Hk. by apply lookup_singleton_Some in Hk as [<- <-].
  - intros k [h Hk]. cbn in Hk |- *. apply lookup_singleton_Some in Hk as [<- _]. split; [done|]. by rewrite lookup_singleton_eq.
  - eexists "h1", _. split; [apply lookup_singleton_eq|done].
Qed.

Lemma reconcile_converges_witness :
  wp (@reconcile sample_oracle (RemoteProvisioner sample_oracle) true waiting_server) (λ err w',
    err = None ∧ ∃ s', w_servers w' !! "s1" = Some (mkRow s' None) ∧ g_Status s' = StatusRunning ∧
      g_VMID s' = Some "vm1" ∧ ∀ order, s' ∉ ListReconcilable order (w_servers w')) waiting_world ∧
  wp (@reconcile sample_oracle (RemoteProvisioner sample_oracle) true full_server) (λ err w',
    err = None ∧ ∃ s' t,
      w_servers w' !! "s1" = Some (mkRow s' None) ∧ g_Status s' = StatusStopped ∧
      g_HostID s' = None ∧ g_VMID s' = None ∧ g_DesiredState s' = DesiredStopped ∧
      w_hosts w' = Release t "h1" 4 4096 (w_hosts full_world) ∧
      ∀ order, s' ∉ ListReconcilable order (w_servers w')) full_world.
Proof.
  split.
  - destruct (reconcile_converges sample_oracle true waiting_server waiting_world) as [H _];
      [apply sample_quiet|done|apply lookup_singleton_eq|done|].
    eapply wp_mono; [apply (H _ eq_refl waiting_startable)|].
    intros err w' (-> & id & h & s' & _ & _ & _ & Hrow & Hst & _ & Hvm & _ & _ & _ & Hl).
    split; [done|]. exists s'. exact (conj Hrow (conj Hst (conj Hvm Hl))).
  - destruct (reconcile_converges sample_oracle true full_server full_world) as [_ H];
      [apply sample_quiet|done|apply lookup_singleton_eq|done|].
    apply (H "h1" "vm1"); [done|done|]. apply full_live. eauto.
Defined.

Lemma failed_stop_overcommits_witness :
  wp (@stop refusing (RemoteProvisioner refusing) true full_server) (λ err w',
    err = Some (ErrOther "connection reset") ∧
    (∀ x k, committed x k (w_servers w') = committed x k (w_servers full_world)) ∧
    ∀ t, ∃ hosts, Reserve t "h1" 4 4096 (w_hosts w') = (None, hosts)) full_world.
Proof.
  apply (failed_stop_overcommits refusing true full_server "h1" "vm1" full_host "connection reset");
    [apply sample_quiet|apply full_live; eauto|done|done|done|apply lookup_singleton_eq|done|].
  intros []; cbn; lia.
Defined.

(** The agent refuses. *)
Definition stubborn : Oracle :=
  mkOracle (λ _, []) (λ n, Z.of_nat n) (λ _, "id") (λ _ ks, ks) (λ _ _, DbOk) (λ _ _, inr (ErrOther "busy")).

Lemma delete_decides_witness :
  wp (@delete_ sample_oracle (RemoteProvisioner sample_oracle) true full_server) (λ err w', err = None ∧
    ∃ s' t t', w_servers w' !! "s1" = Some (mkRow s' (Some t)) ∧ g_HostID s' = None ∧
      w_hosts w' = Release t' "h1" 4 4096 (w_hosts full_world)) full_world ∧
  wp (@delete_ stubborn (RemoteProvisioner stubborn) true full_server) (λ err w',
    err = Some (ErrOther "busy") ∧ w_hosts w' = w_hosts full_world ∧
    ∃ s', w_servers w' !! "s1" = Some (mkRow s' None) ∧ g_HostID s' = Some "h1") full_world.
Proof.
  split.
  - apply (delete_decides sample_oracle true full_server
      (inl (Some (mkVM "vm1" "s1" "203.0.113.7" 25565 "running" None))) full_world);
      [apply sample_quiet|done|done|apply lookup_singleton_eq|by left].
  - apply (delete_decides stubborn true full_server (inr (ErrOther "busy")) full_world);
      [by split|done|done|apply lookup_singleton_eq|done|].
    exists "h1", "h1", full_host. split_and!; [done|apply lookup_singleton_eq|done..].
Defined.

Lemma reconnect_marked_down_witness :
  let w' := conn_next 0 8 "" [] (conn_next 0 7 "" [] full_world) in
  w_registry w' !! "h1" = Some 1%nat ∧
  (∃ h', w_hosts w' !! "h1" = Some h' ∧ h_Status h' = HostDown) ∧
  ∀ t, ∃ h', w_hosts (conn_beat 1 t w') !! "h1" = Some h' ∧ h_Status h' = HostReady.
Proof.
  apply (reconnect_marked_down 0 1 "h1" full_host full_world);
    [done|done|apply lookup_singleton_eq|done|apply lookup_singleton_eq].
Defined.

Lemma shrunk_host_overcommits_witness :
  ∃ r', Reserve 9 "b" 8 8192
          (snd (RegisterReserved 9 "" [] (sample_host "b" HostReady 2 2048) 0 0 sample_fleet)) = (None, r').
Proof.
  apply (shrunk_host_overcommits 9 "" [] (sample_host "b" HostReady 2 2048) 8 8192 sample_fleet
           (sample_host "b" HostReady 8 8192)); [done| |cbn; lia..].
  unfold sample_fleet. by rewrite lookup_insert_ne, lookup_insert_eq.
Defined.
