(* ===== verification/Minecraft.v ===== *)
(** * The Minecraft wire protocols

    [internal/minecraft/ping.go] and [internal/minecraft/rcon.go]: the VarInt codec, the
    framing of the Server List Ping and the Source RCON packets and exchange.  Bytes
    are integers, a Go string is its bytes.  A reader is the list of bytes the peer
    will send before it closes the connection; reading past it is an error.  Writes to
    the connection succeed and are collected; a failed write ends every function here
    with that error and no other effect. *)
From S2P Require Import Prelude.
#[local] Open Scope Z_scope.

(** ** Integers *)

Definition uint32 (v : Z) : Z := wrap 32 v.

(** Conversion to [int32]. *)
Definition int32 (v : Z) : Z := (v + 2 ^ 31) mod 2 ^ 32 - 2 ^ 31.

Definition int32_ok (v : Z) : Prop := - 2 ^ 31 ≤ v < 2 ^ 31.

(** ** Readers *)

Inductive wire_error : Type :=
| EOF
| ErrUnexpectedEOF
| VarIntTooLong
| ImplausibleLength (n : Z)
| UnexpectedPacketID (id : Z)
| ImplausibleStatusLength (n : Z)
| ErrRCONAuthFailed.

Definition reader (A : Type) : Type := list Z → (A + wire_error) * list Z.

Definition rret {A} (a : A) : reader A := λ s, (inl a, s).
Definition rfail {A} (e : wire_error) : reader A := λ s, (inr e, s).

Definition rbind {A B} (m : reader A) (k : A → reader B) : reader B := λ s,
  match m s with
  | (inl a, s') => k a s'
  | (inr e, s') => (inr e, s')
  end.

#[local] Notation "'read*' x ':=' m 'in' k" := (rbind m (λ x, k))
  (at level 10, x pattern, m at level 100, k at level 200).

(** [ReadByte]. *)
Definition ReadByte : reader Z := λ s,
  match s with [] => (inr EOF, []) | b :: s' => (inl b, s') end.

(** [io.ReadFull] into a buffer of [n] bytes. *)
Definition ReadFull (n : Z) : reader (list Z) := λ s,
  if n <=? zlen s then (inl (take (Z.to_nat n) s), drop (Z.to_nat n) s)
  else (inr (match s with [] => EOF | _ => ErrUnexpectedEOF end), []).

(** ** VarInt *)

(** The loop of [writeVarInt]; 32 bits hold five groups of seven, see
    [writeVarInt_fuel]. *)
Fixpoint write_groups (fuel : nat) (u : Z) : list Z :=
  match fuel with
  | O => []
  | S fuel' =>
      if Z.ldiff u 127 =? 0 then [u mod 256]
      else Z.lor (Z.land u 127) 128 mod 256 :: write_groups fuel' (Z.shiftr u 7)
  end.

Definition writeVarInt (n : Z) : list Z := write_groups 5 (uint32 n).

(** The loop of [readVarInt] from its [i]-th iteration. *)
Fixpoint read_groups (left : nat) (i result : Z) : reader Z :=
  match left with
  | O => rfail VarIntTooLong
  | S left' =>
      read* bt := ReadByte in
      let result := Z.lor result (uint32 (Z.shiftl (Z.land bt 127) (7 * i))) in
      if Z.land bt 128 =? 0 then rret (int32 result)
      else read_groups left' (i + 1) result
  end.

Definition readVarInt : reader Z := read_groups 5 0 0.

(** ** Server List Ping *)

Definition statusProtocolVersion : Z := -1.
Definition maxStatusPacket : Z := Z.shiftl 1 20.

Definition writeString (s : list Z) : list Z := writeVarInt (zlen s) ++ s.

Definition writePacket (body : list Z) : list Z := writeVarInt (zlen body) ++ body.

(** [binary.Write(&b, binary.BigEndian, port)]. *)
Definition be_port (port : Z) : list Z := rev (le_bytes 2 port).

Definition handshake_body (host : list Z) (port : Z) : list Z :=
  [0] ++ writeVarInt statusProtocolVersion ++ writeString host ++ be_port port ++ writeVarInt 1.

Definition writeHandshake (host : list Z) (port : Z) : list Z :=
  writePacket (handshake_body host port).

(** The second reader of [readStatusJSON] runs over the packet body; what it leaves
    unread is dropped. *)
Definition readStatusBody : reader (list Z) :=
  read* id := readVarInt in
  if negb (id =? 0) then rfail (UnexpectedPacketID id)
  else
    read* strLen := readVarInt in
    if (strLen <? 0) || (maxStatusPacket <? strLen) then rfail (ImplausibleStatusLength strLen)
    else ReadFull strLen.

Definition readStatusJSON : reader (list Z) :=
  read* length := readVarInt in
  if (length <=? 0) || (maxStatusPacket <? length) then rfail (ImplausibleLength length)
  else
    read* body := ReadFull length in
    λ s, (fst (readStatusBody body), s).

(** ** Source RCON *)

Definition rconTypeAuth : Z := 3.
Definition rconTypeExec : Z := 2.
Definition rconTypeRespVal : Z := 0.
Definition rconAuthFailedID : Z := -1.
Definition rconAuthID : Z := 1.
Definition rconExecID : Z := 2.
Definition rconMaxBody : Z := 4096.

(** The bytes of "1234". *)
Definition rcon_password : list Z := [49; 50; 51; 52].

Definition writeRCON (id typ : Z) (body : list Z) : list Z :=
  let payloadLen := 4 + 4 + zlen body + 2 in
  le_bytes 4 (uint32 payloadLen) ++ le_bytes 4 (uint32 id) ++ le_bytes 4 (uint32 typ) ++ body ++ [0; 0].

Definition readRCON : reader (Z * Z * list Z) :=
  read* lenField := ReadFull 4 in
  let n := le_val lenField in
  if (n <? 10) || (rconMaxBody + 10 <? n) then rfail (ImplausibleLength n)
  else
    read* payload := ReadFull n in
    let id := int32 (load 4 0 payload) in
    let typ := int32 (load 4 4 payload) in
    let b := drop 8 payload in
    rret (id, typ, take (length b - 2) b).

(** An open connection: what the peer will send, and what was written to it. *)
Record conn := mkConn {
  inbox : list Z;
  outbox : list Z
}.

Definition session (A : Type) : Type := conn → (A + wire_error) * conn.

Definition sret {A} (a : A) : session A := λ c, (inl a, c).
Definition sfail {A} (e : wire_error) : session A := λ c, (inr e, c).

Definition sbind {A B} (m : session A) (k : A → session B) : session B := λ c,
  match m c with
  | (inl a, c') => k a c'
  | (inr e, c') => (inr e, c')
  end.

Definition receive {A} (m : reader A) : session A := λ c,
  let '(res, rest) := m (inbox c) in (res, mkConn rest (outbox c)).

Definition send (bytes : list Z) : session unit := λ c,
  (inl tt, mkConn (inbox c) (outbox c ++ bytes)).

#[local] Notation "'conn*' x ':=' m 'in' k" := (sbind m (λ x, k))
  (at level 10, x pattern, m at level 100, k at level 200).

(** The loop of [RCONExec] over the commands. *)
Fixpoint exec_commands (cmds : list (list Z)) : session (list (list Z)) :=
  match cmds with
  | [] => sret []
  | c :: cmds' =>
      conn* _ := send (writeRCON rconExecID rconTypeExec c) in
      conn* (_, _, body) := receive readRCON in
      conn* out := exec_commands cmds' in
      sret (body :: out)
  end.

(** [RCONExec] on an open connection. *)
Definition RCONExec (cmds : list (list Z)) : session (list (list Z)) :=
  conn* _ := send (writeRCON rconAuthID rconTypeAuth rcon_password) in
  conn* (id, _, _) := receive readRCON in
  if id =? rconAuthFailedID then sfail ErrRCONAuthFailed
  else exec_commands cmds.

(** ** The VarInt codec *)

Lemma u32_bound v : 0 ≤ uint32 v < 2 ^ 32.
Proof. unfold uint32, wrap. apply Z.mod_pos_bound. lia. Qed.

Lemma int32_u32 v : int32 (uint32 v) = int32 v.
Proof. unfold int32, uint32, wrap. by rewrite Zplus_mod_idemp_l. Qed.

Lemma int32_small v : int32_ok v → int32 v = v.
Proof. unfold int32_ok, int32. intros. rewrite Z.mod_small; lia. Qed.

Lemma int32_bound v : int32_ok (int32 v).
Proof. unfold int32_ok, int32. pose proof (Z.mod_pos_bound (v + 2 ^ 31) (2 ^ 32)). lia. Qed.

Lemma land127 u : Z.land u 127 = u mod 128.
Proof. change 127 with (Z.ones 7). by rewrite Z.land_ones. Qed.

Lemma shiftr7 u : Z.shiftr u 7 = u / 128.
Proof. by rewrite Z.shiftr_div_pow2. Qed.

Lemma ldiff127 u : 0 ≤ u → (Z.ldiff u 127 =? 0) = (u <? 128).
Proof.
  intros. change 127 with (Z.ones 7). rewrite Z.ldiff_ones_r, Z.shiftl_mul_pow2, shiftr7 by lia.
  apply eq_bool_prop_intro. rewrite !Is_true_true, Z.eqb_eq, Z.ltb_lt.
  pose proof (Z.div_mod u 128). pose proof (Z.mod_pos_bound u 128). lia.
Qed.

Lemma land128 b : 0 ≤ b < 256 → (Z.land b 128 =? 0) = (b <? 128).
Proof.
  intros Hb. destruct (Z.ltb_spec b 128) as [H|H].
  - apply Z.eqb_eq, Z.bits_inj'. intros i Hi. rewrite Z.land_spec, Z.bits_0. change 128 with (2 ^ 7).
    rewrite Z.pow2_bits_eqb by lia. destruct (Z.eqb_spec 7 i) as [<-|]; [|by rewrite andb_false_r].
    by rewrite <- (Z.mod_small b (2 ^ 7)), Z.mod_pow2_bits_high by lia.
  - apply Z.eqb_neq. intros E. assert (Z.testbit (Z.land b 128) 7 = true) as E'.
    { rewrite Z.land_spec. change (Z.testbit 128 7) with true. rewrite andb_true_r. apply Z.testbit_true; [lia|]. assert (b / 2 ^ 7 = 1) as -> by (symmetry; apply (Z.div_unique b (2 ^ 7) 1 (b - 128)); lia). done. }
    rewrite E, Z.bits_0 in E'. done.
Qed.

Lemma write_groups_step fuel u :
  0 ≤ u →
  write_groups (S fuel) u = if u <? 128 then [u] else u mod 128 + 128 :: write_groups fuel (u / 128).
Proof.
  intros Hu. cbn [write_groups]. rewrite ldiff127, land127, shiftr7 by done.
  destruct (Z.ltb_spec u 128).
  - by rewrite Z.mod_small by lia.
  - pose proof (Z.mod_pos_bound u 128). change 128 with (1 * 2 ^ 7) at 2.
    rewrite lor_low_high by lia. rewrite Z.mod_small by lia. done.
Qed.

(** Five iterations are enough: more fuel changes nothing. *)
Lemma writeVarInt_fuel n fuel : write_groups (5 + fuel) (uint32 n) = writeVarInt n.
Proof.
  unfold writeVarInt. pose proof (u32_bound n) as Hu. revert Hu. generalize (uint32 n). intros u Hu.
  assert (Hgen : ∀ k v, 0 ≤ v < 128 ^ Z.of_nat (S k) →
    write_groups (S k + fuel) v = write_groups (S k) v).
  { induction k as [|k IH]; intros v Hv; cbn [Nat.add];
      rewrite (write_groups_step _ v), (write_groups_step _ v) by lia;
      destruct (Z.ltb_spec v 128); try done.
    - cbn in Hv. lia.
    - f_equal. apply IH. rewrite Nat2Z.inj_succ, Z.pow_succ_r in Hv by lia.
      split; [apply Z.div_pos; lia|]. apply Z.div_lt_upper_bound; lia. }
  apply (Hgen 4%nat). cbn. lia.
Qed.

(** One iteration of the reader on a byte it accepts. *)
Lemma read_groups_step k i acc b rest :
  0 ≤ i → 0 ≤ acc < 2 ^ (7 * i) → 0 ≤ b < 256 → acc + b mod 128 * 2 ^ (7 * i) < 2 ^ 32 →
  read_groups (S k) i acc (b :: rest) =
  if b <? 128 then (inl (int32 (acc + b mod 128 * 2 ^ (7 * i))), rest)
  else read_groups k (i + 1) (acc + b mod 128 * 2 ^ (7 * i)) rest.
Proof.
  intros Hi Hacc Hb Hsum. cbn [read_groups rbind ReadByte]. pose proof (Z.mod_pos_bound b 128).
  assert (0 < 2 ^ (7 * i)) by lia.
  rewrite land128, land127, Z.shiftl_mul_pow2 by lia. unfold rbind, ReadByte.
  assert (uint32 (b mod 128 * 2 ^ (7 * i)) = b mod 128 * 2 ^ (7 * i)) as ->
    by (unfold uint32, wrap; apply Z.mod_small; nia).
  rewrite lor_low_high by lia. by destruct (b <? 128).
Qed.

Lemma read_write_groups k i acc u rest :
  0 ≤ i → 0 ≤ acc < 2 ^ (7 * i) → 0 ≤ u < 128 ^ Z.of_nat (S k) → acc + u * 2 ^ (7 * i) < 2 ^ 32 →
  read_groups (S k) i acc (write_groups (S k) u ++ rest) = (inl (int32 (acc + u * 2 ^ (7 * i))), rest).
Proof.
  assert (Hlast : ∀ k i acc u rest, 0 ≤ i → 0 ≤ acc < 2 ^ (7 * i) → 0 ≤ u < 128 →
    acc + u * 2 ^ (7 * i) < 2 ^ 32 →
    read_groups (S k) i acc ([u] ++ rest) = (inl (int32 (acc + u * 2 ^ (7 * i))), rest)).
  { intros k0 i0 acc0 u0 rest0 H1 H2 H3 H4. cbn [app].
    assert (E : u0 mod 128 = u0) by (apply Z.mod_small; lia).
    rewrite read_groups_step; rewrite ?E; [|lia..]. destruct (Z.ltb_spec u0 128); [done|lia]. }
  revert i acc u. induction k as [|k IH]; intros i acc u Hi Hacc Hu Hsum;
    rewrite write_groups_step by lia; destruct (Z.ltb_spec u 128) as [H|H];
    try (apply Hlast; lia); [cbn in Hu; lia|].
  assert (Hp : 2 ^ (7 * (i + 1)) = 128 * 2 ^ (7 * i)) by (rewrite Z.mul_add_distr_l, Z.pow_add_r; lia).
  pose proof (Z.mod_pos_bound u 128). pose proof (Z.div_mod u 128). assert (0 < 2 ^ (7 * i)) by lia.
  assert (Hm : (u mod 128 + 128) mod 128 = u mod 128)
    by (rewrite <- Z.add_mod_idemp_r, Z_mod_same_full, Z.add_0_r, Zmod_mod; lia).
  assert (0 ≤ u / 128) by (apply Z.div_pos; lia).
  rewrite <- app_comm_cons, read_groups_step; rewrite ?Hm; [|lia|lia|lia|nia].
  destruct (Z.ltb_spec (u mod 128 + 128) 128); [lia|].
  rewrite IH; [|lia|rewrite Hp; nia| |rewrite Hp; nia].
  - do 3 f_equal. rewrite Hp. nia.
  - rewrite Nat2Z.inj_succ, Z.pow_succ_r in Hu by lia.
    split; [lia|]. apply Z.div_lt_upper_bound; lia.
Qed.

(** Reading what was written, with anything behind it. *)
Lemma readVarInt_write n rest : readVarInt (writeVarInt n ++ rest) = (inl (int32 n), rest).
Proof.
  unfold readVarInt, writeVarInt. pose proof (u32_bound n).
  rewrite read_write_groups by (cbn; lia).
  replace (0 + uint32 n * 2 ^ (7 * 0)) with (uint32 n) by lia. by rewrite int32_u32.
Qed.

(** The encoding is one to five bytes. *)
Lemma write_groups_shape k u :
  0 ≤ u < 128 ^ Z.of_nat (S k) →
  bytes_ok (write_groups (S k) u) ∧ 1 ≤ zlen (write_groups (S k) u) ≤ Z.of_nat (S k).
Proof.
  revert u. induction k as [|k IH]; intros u Hu; rewrite write_groups_step by lia;
    destruct (Z.ltb_spec u 128) as [H|H]; try (cbn in Hu; lia).
  - split; [repeat constructor; lia|]. unfold zlen. cbn. lia.
  - split; [repeat constructor; lia|]. unfold zlen. cbn [length]. lia.
  - destruct (IH (u / 128)) as [Hb Hl].
    { rewrite Nat2Z.inj_succ, Z.pow_succ_r in Hu by lia.
      split; [apply Z.div_pos; lia|]. apply Z.div_lt_upper_bound; lia. }
    pose proof (Z.mod_pos_bound u 128). split; [constructor; [unfold byte_ok; lia|done]|].
    rewrite zlen_cons. lia.
Qed.

Lemma writeVarInt_shape n : bytes_ok (writeVarInt n) ∧ 1 ≤ zlen (writeVarInt n) ≤ 5.
Proof. apply (write_groups_shape 4). pose proof (u32_bound n). cbn. lia. Qed.

Lemma read_groups_bounded k i acc s :
  match read_groups k i acc s with
  | (inl v, rest) => int32_ok v ∧ ∃ used, s = used ++ rest ∧ (1 ≤ length used ≤ k)%nat
  | (inr EOF, rest) => rest = [] ∧ (length s < k)%nat
  | (inr VarIntTooLong, rest) => ∃ used, s = used ++ rest ∧ length used = k
  | (inr _, _) => False
  end.
Proof.
  revert i acc s. induction k as [|k IH]; intros i acc s; [by exists []|].
  cbn [read_groups]. unfold rbind, ReadByte. destruct s as [|b s]; [split; [done|cbn; lia]|].
  destruct (Z.land b 128 =? 0).
  - split; [apply int32_bound|]. exists [b]. split; [done|cbn; lia].
  - specialize (IH (i + 1) (Z.lor acc (uint32 (Z.shiftl (Z.land b 127) (7 * i)))) s).
    destruct (read_groups k _ _ s) as [[v|[]] rest]; try done.
    + destruct IH as (Hv & used & -> & Hl). split; [done|]. exists (b :: used). split; [done|cbn; lia].
    + destruct IH as [-> Hl]. split; [done|cbn; lia].
    + destruct IH as (used & -> & <-). exists (b :: used). done.
Qed.

(** A VarInt read back is the integer that was written, for every 32-bit integer and
    whatever follows it in the stream; the encoding is one to five bytes.  Reading always
    ends: on any stream it consumes at most five bytes, yields a 32-bit integer, and fails
    only when the stream ends within the encoding or five bytes have announced a
    continuation. *)
Theorem varint_round_trip n rest :
  int32_ok n →
  readVarInt (writeVarInt n ++ rest) = (inl n, rest) ∧
  bytes_ok (writeVarInt n) ∧ 1 ≤ zlen (writeVarInt n) ≤ 5 ∧
  ∀ s, match readVarInt s with
       | (inl v, rest) => int32_ok v ∧ ∃ used, s = used ++ rest ∧ (1 ≤ length used ≤ 5)%nat
       | (inr EOF, rest) => rest = [] ∧ (length s < 5)%nat
       | (inr VarIntTooLong, rest) => ∃ used, s = used ++ rest ∧ length used = 5%nat
       | (inr _, _) => False
       end.
Proof.
  intros Hn. rewrite readVarInt_write, int32_small by done. split; [done|].
  destruct (writeVarInt_shape n) as [Hb Hl]. split; [done|]. split; [done|]. apply read_groups_bounded.
Qed.

Lemma varint_round_trip_witness :
  int32_ok (-1) ∧ readVarInt (writeVarInt (-1) ++ [7]) = (inl (-1), [7]).
Proof. split; [unfold int32_ok; lia|]. apply (varint_round_trip (-1) [7]). unfold int32_ok; lia. Defined.

(** ** Packets *)

Lemma ReadFull_app l rest : ReadFull (zlen l) (l ++ rest) = (inl l, rest).
Proof.
  unfold ReadFull. rewrite zlen_app. pose proof (zlen_nonneg rest).
  destruct (Z.leb_spec (zlen l) (zlen l + zlen rest)); [|lia].
  unfold zlen. rewrite Nat2Z.id. by rewrite take_app_length, drop_app_length.
Qed.

Lemma ReadFull_bounded n s v rest :
  0 ≤ n → ReadFull n s = (inl v, rest) → zlen v = n ∧ s = v ++ rest.
Proof.
  unfold ReadFull. intros Hn. destruct (Z.leb_spec n (zlen s)); intros [= <- <-].
  split; [|by rewrite take_drop]. unfold zlen in *. rewrite length_take. lia.
Qed.

Lemma int32_len n : 0 ≤ n < 2 ^ 31 → int32 n = n.
Proof. intros. apply int32_small. unfold int32_ok. lia. Qed.

(** The fields of a handshake, as a server reads them: protocol version, address, port,
    next state. *)
Definition readHandshake : reader (Z * list Z * Z * Z) :=
  read* n := readVarInt in
  read* body := ReadFull n in
  λ s, (fst ((read* id := readVarInt in
              read* version := readVarInt in
              read* len := readVarInt in
              read* host := ReadFull len in
              read* port := ReadFull 2 in
              read* next := readVarInt in
              λ s, if (id =? 0) && bool_decide (s = []) then (inl (version, host, be_val port, next), s)
                   else (inr (UnexpectedPacketID id), s)) body), s).

Lemma rbind_inl {A B} (m : reader A) (k : A → reader B) s a s' :
  m s = (inl a, s') → rbind m k s = k a s'.
Proof. unfold rbind. by intros ->. Qed.

Lemma zlen_be_port port : zlen (be_port port) = 2.
Proof. unfold be_port, zlen. by rewrite length_rev. Qed.

Lemma handshake_read host port rest :
  zlen host < 2 ^ 30 → 0 ≤ port < 65536 →
  readHandshake (writeHandshake host port ++ rest) = (inl (-1, host, port, 1), rest).
Proof.
  intros Hh Hp. unfold readHandshake, writeHandshake, writePacket. rewrite <- app_assoc.
  pose proof (zlen_nonneg host).
  assert (Hlen : 0 ≤ zlen (handshake_body host port) < 2 ^ 31).
  { unfold handshake_body, writeString. rewrite !zlen_app, zlen_be_port. change (zlen [0]) with 1.
    destruct (writeVarInt_shape statusProtocolVersion) as [_ ?], (writeVarInt_shape (zlen host)) as [_ ?],
      (writeVarInt_shape 1) as [_ ?]. lia. }
  erewrite rbind_inl by apply readVarInt_write. rewrite int32_len by done.
  erewrite rbind_inl by apply ReadFull_app. f_equal. unfold handshake_body, writeString.
  rewrite <- !app_assoc.
  erewrite rbind_inl by (change [0] with (writeVarInt 0); apply readVarInt_write).
  erewrite rbind_inl by apply readVarInt_write.
  erewrite rbind_inl by apply readVarInt_write. rewrite int32_len by lia.
  erewrite rbind_inl by apply ReadFull_app.
  erewrite rbind_inl by (rewrite <- (zlen_be_port port); apply ReadFull_app).
  rewrite <- (app_nil_r (writeVarInt 1)). erewrite rbind_inl by apply readVarInt_write.
  cbn [andb fst]. change (int32 0 =? 0) with true. cbn [andb]. rewrite bool_decide_eq_true_2 by done.
  cbn [fst]. do 3 f_equal. unfold be_val, be_port. rewrite rev_involutive, le_val_le_bytes.
  by rewrite Z.mod_small.
Qed.

Lemma status_read json rest :
  zlen (0 :: writeString json) ≤ maxStatusPacket →
  readStatusJSON (writePacket (0 :: writeString json) ++ rest) = (inl json, rest).
Proof.
  intros Hlen. unfold readStatusJSON, writePacket. rewrite <- app_assoc.
  pose proof (zlen_nonneg (writeString json)) as Hnn. rewrite zlen_cons in Hlen.
  change maxStatusPacket with 1048576 in *.
  erewrite rbind_inl by apply readVarInt_write. rewrite zlen_cons, int32_len by lia.
  destruct (Z.leb_spec (1 + zlen (writeString json)) 0); [lia|].
  destruct (Z.ltb_spec 1048576 (1 + zlen (writeString json))); [lia|]. cbn [orb]. cbv iota.
  rewrite <- (zlen_cons 0). erewrite rbind_inl by apply ReadFull_app. f_equal.
  unfold readStatusBody. change (0 :: writeString json) with (writeVarInt 0 ++ writeString json).
  erewrite rbind_inl by apply readVarInt_write. change (int32 0 =? 0) with true. cbn [negb]. cbv iota.
  unfold writeString in *. rewrite zlen_app in *. destruct (writeVarInt_shape (zlen json)) as [_ ?].
  pose proof (zlen_nonneg json). erewrite rbind_inl by apply readVarInt_write. rewrite int32_len by lia.
  destruct (Z.ltb_spec (zlen json) 0); [lia|].
  destruct (Z.ltb_spec maxStatusPacket (zlen json)) as [Hm|]; [change maxStatusPacket with 1048576 in Hm; lia|].
  cbn [orb]. cbv iota. rewrite <- (app_nil_r json) at 2. by rewrite ReadFull_app.
Qed.

(** C34: The Server List Ping speaks the protocol it decodes.  A server that parses the
    handshake field by field finds protocol version -1, the address and port dialled and
    next state 1; the status document a server frames in a status response comes back
    unchanged and the stream is left at the next packet; and no response makes the
    client accept a document above its limit. *)
Theorem ping_round_trip host port json rest :
  zlen host < 2 ^ 30 → 0 ≤ port < 65536 → zlen (0 :: writeString json) ≤ maxStatusPacket →
  readHandshake (writeHandshake host port ++ rest) = (inl (statusProtocolVersion, host, port, 1), rest) ∧
  readStatusJSON (writePacket (0 :: writeString json) ++ rest) = (inl json, rest) ∧
  ∀ s out s', readStatusJSON s = (inl out, s') → zlen out ≤ maxStatusPacket.
Proof.
  intros Hh Hp Hj. split_and!; [by apply handshake_read|by apply status_read|].
  intros s out s'. unfold readStatusJSON, rbind. destruct (readVarInt s) as [[n|e] s1]; [|done].
  destruct (_ || _); [done|]. destruct (ReadFull n s1) as [[body|e] s2]; [|done].
  intros [= E _]. revert E. unfold readStatusBody, rbind. destruct (readVarInt body) as [[id|e] s3]; [|done].
  destruct (negb _); [done|]. destruct (readVarInt s3) as [[len|e] s4]; [|done].
  destruct (_ || _) eqn:Eb; [done|]. bool_prop. destruct (ReadFull len s4) as [[v|e] s5] eqn:E; [|done].
  intros [= <-]. apply ReadFull_bounded in E as [-> _]; lia.
Qed.

Lemma ping_round_trip_witness :
  readHandshake (writeHandshake [104; 105] 25565 ++ [9]) =
    (inl (statusProtocolVersion, [104; 105], 25565, 1), [9]) ∧
  readStatusJSON (writePacket (0 :: writeString [123; 125]) ++ [9]) = (inl [123; 125], [9]) ∧
  ∀ s out s', readStatusJSON s = (inl out, s') → zlen out ≤ maxStatusPacket.
Proof.
  apply (ping_round_trip [104; 105] 25565 [123; 125] [9]); [cbv; done|lia|cbv; done].
Defined.

(** ** RCON *)

Definition packet_ok (p : Z * Z * list Z) : Prop :=
  let '(id, typ, body) := p in int32_ok id ∧ int32_ok typ ∧ zlen body ≤ rconMaxBody.

Definition packet (p : Z * Z * list Z) : list Z :=
  let '(id, typ, body) := p in writeRCON id typ body.

Lemma le_val_u32 v : le_val (le_bytes 4 (uint32 v)) = uint32 v.
Proof. rewrite le_val_le_bytes. unfold uint32, wrap. by rewrite Zmod_mod. Qed.

Lemma readRCON_write id typ body rest :
  zlen body ≤ rconMaxBody →
  readRCON (writeRCON id typ body ++ rest) = (inl (int32 id, int32 typ, body), rest).
Proof.
  intros Hb. pose proof (zlen_nonneg body). unfold rconMaxBody in Hb. unfold readRCON, writeRCON.
  set (payload := le_bytes 4 (uint32 id) ++ le_bytes 4 (uint32 typ) ++ body ++ [0; 0]).
  assert (Hlen : zlen payload = 4 + 4 + zlen body + 2)
    by (unfold payload; rewrite !zlen_app, !zlen_le_bytes; change (zlen [0; 0]) with 2; lia).
  rewrite <- app_assoc. erewrite rbind_inl by apply (ReadFull_app (le_bytes 4 _)).
  rewrite le_val_u32. assert (uint32 (4 + 4 + zlen body + 2) = zlen payload) as ->
    by (rewrite Hlen; unfold uint32, wrap; apply Z.mod_small; lia).
  destruct (Z.ltb_spec (zlen payload) 10); [lia|]. unfold rconMaxBody.
  destruct (Z.ltb_spec (4096 + 10) (zlen payload)); [lia|]. cbn [orb]. cbv iota.
  erewrite rbind_inl by apply ReadFull_app. unfold rret, load, slice, payload.
  change (Z.to_nat 4) with 4%nat. change (Z.to_nat 0) with 0%nat. rewrite drop_0.
  rewrite (take_app_length' (le_bytes 4 (uint32 id))), (drop_app_length' (le_bytes 4 (uint32 id))),
    (take_app_length' (le_bytes 4 (uint32 typ))), !le_val_u32, !int32_u32 by done.
  rewrite (app_assoc (le_bytes 4 (uint32 id))), (drop_app_length' (le_bytes 4 (uint32 id) ++ _)) by done.
  rewrite length_app. cbn [length]. by rewrite (take_app_length' body) by lia.
Qed.

Lemma sbind_inl {A B} (m : session A) (k : A → session B) c a c' :
  m c = (inl a, c') → sbind m k c = k a c'.
Proof. unfold sbind. by intros ->. Qed.

Lemma receive_packet p s out :
  packet_ok p → receive readRCON (mkConn (packet p ++ s) out) = (inl p, mkConn s out).
Proof.
  destruct p as [[id typ] body]. intros (Hid & Ht & Hb). unfold receive. cbn [inbox outbox packet].
  by rewrite readRCON_write, !int32_small.
Qed.

Lemma exec_commands_spec cmds replies rest out :
  length replies = length cmds → Forall packet_ok replies →
  exec_commands cmds (mkConn (concat (packet <$> replies) ++ rest) out) =
  (inl (snd <$> replies),
   mkConn rest (out ++ concat (writeRCON rconExecID rconTypeExec <$> cmds))).
Proof.
  revert replies out. induction cmds as [|c cmds IH]; intros [|p replies] out Hl Hok; try done.
  - cbn. by rewrite app_nil_r.
  - apply Forall_cons_1 in Hok as [Hp Hok]. cbn [exec_commands fmap list_fmap concat].
    rewrite <- app_assoc. erewrite sbind_inl by done. erewrite sbind_inl by by apply receive_packet.
    destruct p as [[id typ] body]. erewrite sbind_inl by (apply IH; [by injection Hl|done]).
    unfold sret. cbn [snd]. by rewrite <- app_assoc.
Qed.

(** C35: An RCON exchange pairs commands with replies.  Against a server that answers every
    packet with one packet, [RCONExec] sends the authentication packet and, unless the
    server refused it, the commands in order, returns the bodies of the replies in the
    order of the commands and leaves the stream at the next packet; when authentication
    is refused no command is sent. *)
Theorem rcon_exchange cmds auth replies rest out :
  length replies = length cmds → packet_ok auth → Forall packet_ok replies →
  RCONExec cmds (mkConn (packet auth ++ concat (packet <$> replies) ++ rest) out) =
  let sent := out ++ writeRCON rconAuthID rconTypeAuth rcon_password in
  if fst (fst auth) =? rconAuthFailedID
  then (inr ErrRCONAuthFailed, mkConn (concat (packet <$> replies) ++ rest) sent)
  else (inl (snd <$> replies),
        mkConn rest (sent ++ concat (writeRCON rconExecID rconTypeExec <$> cmds))).
Proof.
  intros Hl Ha Hr. unfold RCONExec. erewrite sbind_inl by done.
  erewrite sbind_inl by by apply receive_packet. destruct auth as [[id typ] body]. cbn [fst].
  destruct (id =? rconAuthFailedID); [done|]. by apply exec_commands_spec.
Qed.

Lemma rcon_exchange_witness :
  length [(2, 0, [79; 75])] = length [[108; 105; 115; 116]] ∧
  RCONExec [[108; 105; 115; 116]] (mkConn (packet (1, 2, []) ++ concat (packet <$> [(2, 0, [79; 75])]) ++ []) []) =
  let sent := [] ++ writeRCON rconAuthID rconTypeAuth rcon_password in
  if fst (fst (1, 2, @nil Z)) =? rconAuthFailedID
  then (inr ErrRCONAuthFailed, mkConn (concat (packet <$> [(2, 0, [79; 75])]) ++ []) sent)
  else (inl (snd <$> [(2, 0, [79; 75])]),
        mkConn [] (sent ++ concat (writeRCON rconExecID rconTypeExec <$> [[108; 105; 115; 116]]))).
Proof.
  split; [done|].
  apply (rcon_exchange [[108; 105; 115; 116]] (1, 2, []) [(2, 0, [79; 75])] [] []); [done| |].
  - unfold packet_ok, int32_ok. split_and!; try lia. done.
  - constructor; [|constructor]. unfold packet_ok, int32_ok. split_and!; try lia. done.
Defined.

(** A reply in two packets shifts every later one: [RCONExec] reads one packet per command,
    so the rest of the first reply is returned as the reply to the second command, and
    the second reply is left in the stream. *)
Theorem rcon_split_reply_shifts c1 c2 auth id1 typ1 part1 part2 reply2 out :
  packet_ok auth → fst (fst auth) ≠ rconAuthFailedID →
  packet_ok (id1, typ1, part1) → packet_ok (id1, typ1, part2) →
  fst (RCONExec [c1; c2]
         (mkConn (packet auth ++ packet (id1, typ1, part1) ++ packet (id1, typ1, part2) ++ packet reply2) out))
  = inl [part1; part2].
Proof.
  intros Ha Hne H1 H2. unfold RCONExec. erewrite sbind_inl by done.
  erewrite sbind_inl by by apply receive_packet. destruct auth as [[id typ] body]. cbn [fst] in Hne.
  rewrite (proj2 (Z.eqb_neq _ _) Hne).
  pose proof (exec_commands_spec [c1; c2] [(id1, typ1, part1); (id1, typ1, part2)] (packet reply2)
    (out ++ writeRCON rconAuthID rconTypeAuth rcon_password)) as E.
  cbn [fmap list_fmap concat] in E. rewrite app_nil_r, <- app_assoc in E. cbn [inbox outbox]. rewrite E; [done|done|].
  constructor; [done|]. constructor; [done|constructor].
Qed.

Lemma rcon_split_reply_shifts_witness :
  fst (RCONExec [[97]; [98]]
         (mkConn (packet (1, 2, []) ++ packet (2, 0, [49]) ++ packet (2, 0, [50]) ++ packet (2, 0, [51])) []))
  = inl [[49]; [50]].
Proof.
  apply (rcon_split_reply_shifts [97] [98] (1, 2, []) 2 0 [49] [50] (2, 0, [51]) []);
    unfold packet_ok, int32_ok, rconAuthFailedID; cbn; split_and?; done || lia.
Defined.
