(* ===== verification/Whitelist.v ===== *)
(** * Whitelist synchronisation

    [WhitelistSyncCommands] and [lowerIndex] of [internal/minecraft/whitelist.go].  Names
    are ASCII, as Minecraft user names are: [strings.ToLower] and [strings.TrimSpace] are
    those functions on ASCII strings.  The orders in which the code visits its two maps
    are arguments. *)
From S2P Require Import Prelude GoSort Fleet.
From stdpp Require Import strings sorting.
From Stdlib Require Import Ascii.
#[local] Open Scope nat_scope.
#[local] Set Warnings "-clear-no-such-hyp".

(** ** Strings *)

Definition lower_ascii (a : ascii) : ascii :=
  let n := nat_of_ascii a in
  if (65 <=? n)%nat && (n <=? 90)%nat then ascii_of_nat (n + 32) else a.

Fixpoint ToLower (s : string) : string :=
  match s with
  | EmptyString => EmptyString
  | String a s' => String (lower_ascii a) (ToLower s')
  end.

(** Tab, line feed, vertical tab, form feed, carriage return and space. *)
Definition is_space (a : ascii) : bool :=
  let n := nat_of_ascii a in ((9 <=? n)%nat && (n <=? 13)%nat) || (n =? 32)%nat.

Fixpoint trim_left (s : string) : string :=
  match s with
  | EmptyString => EmptyString
  | String a s' => if is_space a then trim_left s' else s
  end.

Fixpoint trim_right (s : string) : string :=
  match s with
  | EmptyString => EmptyString
  | String a s' =>
      match trim_right s' with
      | EmptyString => if is_space a then EmptyString else String a EmptyString
      | t => String a t
      end
  end.

Definition TrimSpace (s : string) : string := trim_right (trim_left s).

(** [sort.Strings]: strings that compare equal are equal, so stability does not matter. *)
Definition Strings : list string → list string := SliceStable String.ltb.

(** ** The commands *)

Definition lowerIndex (names : list string) : gmap string string :=
  foldl (λ m n, let n := TrimSpace n in
                if String.eqb n "" then m else <[ToLower n := n]> m) ∅ names.

(** The spellings of [a] whose lower-case form [b] does not have, in the order of a visit. *)
Definition missing (order : list string) (a b : gmap string string) : list string :=
  omap (λ k, match b !! k with None => a !! k | Some _ => None end) order.

Definition WhitelistSyncCommands (visit_desired visit_current : list string)
    (current desired : list string) : list string :=
  let curByLower := lowerIndex current in
  let desByLower := lowerIndex desired in
  let adds := Strings (missing visit_desired desByLower curByLower) in
  let removes := Strings (missing visit_current curByLower desByLower) in
  (String.append "whitelist add " <$> adds) ++ (String.append "whitelist remove " <$> removes) ++
  [if bool_decide (desByLower = ∅) then "whitelist off" else "whitelist on"].

(** ** Order of strings *)

Lemma leb_trans s1 s2 s3 : String.leb s1 s2 = true → String.leb s2 s3 = true → String.leb s1 s3 = true.
Proof.
  unfold String.leb. revert s2 s3.
  induction s1 as [|a s1 IH]; intros [|b s2] [|c s3]; cbn; try done.
  unfold Ascii.compare. intros H1 H2.
  destruct (N.compare_spec (N_of_ascii a) (N_of_ascii b)) as [E1|E1|E1]; [| |done];
    destruct (N.compare_spec (N_of_ascii b) (N_of_ascii c)) as [E2|E2|E2]; try done;
    destruct (N.compare_spec (N_of_ascii a) (N_of_ascii c)) as [E3|E3|E3]; try lia; try done.
  by apply (IH s2).
Qed.

Lemma ltb_leb s1 s2 : String.ltb s1 s2 = negb (String.leb s2 s1).
Proof.
  unfold String.ltb, String.leb. rewrite (String.compare_antisym s1 s2).
  by destruct (String.compare s2 s1).
Qed.

Lemma ltb_asym s1 s2 : String.ltb s1 s2 = true → String.ltb s2 s1 = false.
Proof.
  rewrite !ltb_leb, negb_true_iff, negb_false_iff. intros H.
  by destruct (String.leb_total s1 s2) as [?|?]; [|congruence].
Qed.

Lemma ltb_weak x y z : String.ltb y x = false → String.ltb z y = false → String.ltb z x = false.
Proof. rewrite !ltb_leb, !negb_false_iff. apply leb_trans. Qed.

(** The sorted list of given strings is unique. *)
Lemma Strings_unique l l' : l ≡ₚ l' → Strings l = Strings l'.
Proof.
  intros Hp. apply (StronglySorted_unique_strong (not_after String.ltb)).
  - intros x y _ _. unfold not_after. rewrite !ltb_leb, !negb_false_iff. apply String.leb_antisym.
  - apply SliceStable_sorted; [apply ltb_asym|apply ltb_weak].
  - apply SliceStable_sorted; [apply ltb_asym|apply ltb_weak].
  - unfold Strings. by rewrite !SliceStable_perm.
Qed.

(** ** The index *)

Definition index_ok (m : gmap string string) : Prop := ∀ k v, m !! k = Some v → ToLower v = k.

Lemma lowerIndex_ok names : index_ok (lowerIndex names).
Proof.
  unfold lowerIndex. assert (H : index_ok ∅) by by intros k v.
  revert H. generalize (∅ : gmap string string). induction names as [|n names IH]; intros m Hm; cbn; [done|].
  apply IH. destruct (String.eqb _ _); [done|]. intros k v. rewrite lookup_insert_Some. naive_solver.
Qed.

Lemma elem_of_missing order a b v :
  (∀ k, k ∈ order ↔ is_Some (a !! k)) → index_ok a →
  v ∈ missing order a b ↔ a !! ToLower v = Some v ∧ b !! ToLower v = None.
Proof.
  intros Hord Ha. unfold missing. rewrite list_elem_of_omap. split.
  - intros (k & Hk & Hv). destruct (b !! k) eqn:E; [done|]. pose proof (Ha _ _ Hv) as ->. done.
  - intros [Hv Hn]. exists (ToLower v). rewrite Hn. split; [|done]. apply Hord. eauto.
Qed.

(** ** What the server does with the commands *)

(** A Minecraft server keeps its whitelist without regard to case; the toggle leaves the
    entries alone. *)
Class WhitelistServer (serve : string → gset string → gset string) : Prop := {
  serve_add n s : serve ("whitelist add " +:+ n) s = {[ToLower n]} ∪ s;
  serve_remove n s : serve ("whitelist remove " +:+ n) s = s ∖ {[ToLower n]};
  serve_on s : serve "whitelist on" s = s;
  serve_off s : serve "whitelist off" s = s
}.

Definition serve_all (serve : string → gset string → gset string) (cmds : list string)
    (s : gset string) : gset string := foldl (λ s c, serve c s) s cmds.

Lemma serve_all_app serve l k s : serve_all serve (l ++ k) s = serve_all serve k (serve_all serve l s).
Proof. unfold serve_all. by rewrite foldl_app. Qed.

Section Server.
Context (serve : string → gset string → gset string) `{!WhitelistServer serve}.

Lemma serve_adds l s :
  serve_all serve (String.append "whitelist add " <$> l) s = list_to_set (ToLower <$> l) ∪ s.
Proof.
  revert s. induction l as [|n l IH]; intros s; cbn; [set_solver|].
  unfold serve_all in *. rewrite serve_add, IH. set_solver.
Qed.

Lemma serve_removes l s :
  serve_all serve (String.append "whitelist remove " <$> l) s = s ∖ list_to_set (ToLower <$> l).
Proof.
  revert s. induction l as [|n l IH]; intros s; cbn; [set_solver|].
  unfold serve_all in *. rewrite serve_remove, IH. set_solver.
Qed.
End Server.

(** The lower-case forms that are added: those of [a] that [b] does not have. *)
Lemma lower_missing order a b :
  (∀ k, k ∈ order ↔ is_Some (a !! k)) → index_ok a →
  (list_to_set (ToLower <$> Strings (missing order a b)) : gset string) = dom a ∖ dom b.
Proof.
  intros Hord Ha. apply set_eq. intros k. unfold Strings.
  rewrite elem_of_list_to_set, list_elem_of_fmap, elem_of_difference, elem_of_dom, not_elem_of_dom.
  setoid_rewrite elem_of_SliceStable. setoid_rewrite elem_of_missing; [|done|done]. split.
  - intros (v & -> & Hv & Hn). eauto.
  - intros [[v Hv] Hn]. exists v. rewrite (Ha _ _ Hv). done.
Qed.

(** C36: Running the commands brings the server's whitelist from the names it listed to
    exactly the names granted, compared without case; the last command turns enforcement
    on if anyone is granted and off otherwise; when the sets already agree it is the only
    command; and the commands do not depend on the order in which Go visits its maps. *)
Theorem whitelist_sync_correct serve `{!WhitelistServer serve} vd vc current desired :
  vd ≡ₚ (map_to_list (lowerIndex desired)).*1 → vc ≡ₚ (map_to_list (lowerIndex current)).*1 →
  let cmds := WhitelistSyncCommands vd vc current desired in
  serve_all serve cmds (dom (lowerIndex current)) = dom (lowerIndex desired) ∧
  (∃ changes, cmds = changes ++
     [if bool_decide (lowerIndex desired = ∅) then "whitelist off" else "whitelist on"]) ∧
  (dom (lowerIndex current) = dom (lowerIndex desired) → length cmds = 1%nat) ∧
  cmds = WhitelistSyncCommands (map_to_list (lowerIndex desired)).*1
           (map_to_list (lowerIndex current)).*1 current desired.
Proof.
  intros Hd Hc cmds.
  assert (Hord : ∀ l m, l ≡ₚ (map_to_list m).*1 → ∀ k : string, k ∈ l ↔ is_Some ((m : gmap string string) !! k)).
  { intros l m Hp k. rewrite Hp, list_elem_of_fmap. split.
    - intros ([k' v] & -> & Hin). apply elem_of_map_to_list in Hin. eauto.
    - intros [v Hk]. exists (k, v). split; [done|]. by apply elem_of_map_to_list. }
  pose proof (lower_missing vd (lowerIndex desired) (lowerIndex current) (Hord _ _ Hd)
    (lowerIndex_ok desired)) as Ha.
  pose proof (lower_missing vc (lowerIndex current) (lowerIndex desired) (Hord _ _ Hc)
    (lowerIndex_ok current)) as Hr.
  unfold cmds, WhitelistSyncCommands. split_and!.
  - rewrite !serve_all_app, serve_adds, serve_removes, Ha, Hr by done.
    assert (Hdiff : ∀ X Y : gset string, (Y ∖ X ∪ X) ∖ (X ∖ Y) = Y).
    { intros X Y. apply set_eq. intros k. destruct (decide (k ∈ X)), (decide (k ∈ Y)); set_solver. }
    cbn. destruct (bool_decide _); [rewrite serve_off|rewrite serve_on]; apply Hdiff.
  - eexists. by rewrite app_assoc.
  - intros E. rewrite E, difference_diag_L in Ha. rewrite E, difference_diag_L in Hr.
    assert (Hnil : ∀ l : list string, (list_to_set (ToLower <$> l) : gset string) = ∅ → l = []).
    { intros [|x l] H; [done|]. cbn in H. set_solver. }
    rewrite (Hnil _ Ha), (Hnil _ Hr). done.
  - f_equal; [f_equal; apply Strings_unique, omap_Permutation; done|].
    do 2 f_equal. apply Strings_unique, omap_Permutation. done.
Qed.

(** A server that reads the commands. *)
Fixpoint strip (p s : string) : option string :=
  match p, s with
  | EmptyString, _ => Some s
  | String a p', String b s' => if Ascii.eqb a b then strip p' s' else None
  | String _ _, EmptyString => None
  end.

Definition reference_server (c : string) (s : gset string) : gset string :=
  match strip "whitelist add " c, strip "whitelist remove " c with
  | Some n, _ => {[ToLower n]} ∪ s
  | None, Some n => s ∖ {[ToLower n]}
  | None, None => s
  end.

#[export] Instance reference_server_ok : WhitelistServer reference_server.
Proof. by split. Qed.

Lemma whitelist_sync_correct_witness :
  serve_all reference_server
    (WhitelistSyncCommands (map_to_list (lowerIndex ["Alice"; "dave"])).*1
       (map_to_list (lowerIndex ["alice"; "Bob"])).*1 ["alice"; "Bob"] ["Alice"; "dave"])
    (dom (lowerIndex ["alice"; "Bob"])) = dom (lowerIndex ["Alice"; "dave"]).
Proof.
  apply (whitelist_sync_correct reference_server (map_to_list (lowerIndex ["Alice"; "dave"])).*1
           (map_to_list (lowerIndex ["alice"; "Bob"])).*1 ["alice"; "Bob"] ["Alice"; "dave"]); reflexivity.
Defined.

Lemma sample_whitelist :
  WhitelistSyncCommands ["alice"; "dave"] ["bob"; "alice"] ["alice"; "Bob"] ["Alice"; " dave"] =
  ["whitelist add dave"; "whitelist remove Bob"; "whitelist on"].
Proof. vm_compute. reflexivity. Qed.
