(* ===== verification/SquashFormat.v ===== *)
(** * Squashfs records

    [internal/squashfs]: the constants ([format.go]), the superblock ([superblock.go]),
    entries and their inodes ([inode.go]).  The Go code fills buffers at consecutive
    offsets; here a record is the concatenation of its fields.  Go strings are their
    bytes.  The package only writes; what it writes is judged by the readers of this
    development, [parse_superblock] and [parse_inode], which follow the squashfs 4.0
    format. *)
From S2P Require Import Prelude.
#[local] Open Scope Z_scope.

(** ** Constants *)

Definition Magic : Z := 0x73717368.
Definition VersionMajor : Z := 4.
Definition VersionMinor : Z := 0.
Definition MinBlockSize : Z := 4 * 1024.
Definition MaxBlockSize : Z := 1024 * 1024.
Definition DefaultBlockSize : Z := 128 * 1024.
Definition MetadataBlockSize : Z := 8 * 1024.
Definition CompressorGzip : Z := 1.
Definition FlagNoFragments : Z := Z.shiftl 1 4.
Definition FlagNoXattrs : Z := Z.shiftl 1 9.
Definition InodeBasicDir : Z := 1.
Definition InodeBasicFile : Z := 2.
Definition InodeBasicSymlink : Z := 3.
Definition InodeBasicBlock : Z := 4.
Definition InodeBasicChar : Z := 5.
Definition InodeBasicFIFO : Z := 6.
Definition InodeBasicSocket : Z := 7.
Definition DataBlockUncompressedBit : Z := Z.shiftl 1 24.
Definition MetadataUncompressedBit : Z := Z.shiftl 1 15.
Definition InvalidFragment : Z := 0xFFFFFFFF.
Definition superblockSize : Z := 96.
Definition commonInodeSize : Z := 16.

(** The errors of the package. *)
Inductive sq_error : Type :=
| ErrClosed | ErrInvalidPath | ErrHardlinkTarget | ErrStaleEntry
| ErrNoCompressor | ErrBlockSizeRange | ErrBlockSizePower
| ErrDuplicate (path : list Z)
| ErrEmptySymlink
| ErrNoParent (path : list Z) | ErrParentNotDir (path : list Z)
| ErrTooManyIDs
| ErrMtime | ErrDirTable | ErrListing | ErrArchiveSize | ErrFileSize | ErrBlockCount
| ErrSymlinkSize | ErrDeviceMajor | ErrDeviceMinor | ErrUnsupportedKind
| ErrEntryName | ErrInodeTable | ErrMetaBlock
| ErrCompress (msg : list Z) | ErrIO (msg : list Z)
| OutOfFuel | NilPointer.

(** ** The superblock *)

Record superblock := mkSuperblock {
  sb_inodeCount : Z;
  sb_modTime : Z;
  sb_blockSize : Z;
  sb_fragCount : Z;
  sb_compressor : Z;
  sb_blockLog : Z;
  sb_flags : Z;
  sb_idCount : Z;
  sb_rootInodeRef : Z;
  sb_bytesUsed : Z;
  sb_idTableStart : Z;
  sb_xattrTableStart : Z;
  sb_inodeTableStart : Z;
  sb_directoryTableStart : Z;
  sb_fragmentTableStart : Z;
  sb_exportTableStart : Z
}.

Definition encode_superblock (sb : superblock) : list Z :=
  le_bytes 4 Magic ++ le_bytes 4 (sb_inodeCount sb) ++ le_bytes 4 (sb_modTime sb) ++
  le_bytes 4 (sb_blockSize sb) ++ le_bytes 4 (sb_fragCount sb) ++
  le_bytes 2 (sb_compressor sb) ++ le_bytes 2 (sb_blockLog sb) ++ le_bytes 2 (sb_flags sb) ++
  le_bytes 2 (sb_idCount sb) ++ le_bytes 2 VersionMajor ++ le_bytes 2 VersionMinor ++
  le_bytes 8 (sb_rootInodeRef sb) ++ le_bytes 8 (sb_bytesUsed sb) ++
  le_bytes 8 (sb_idTableStart sb) ++ le_bytes 8 (sb_xattrTableStart sb) ++
  le_bytes 8 (sb_inodeTableStart sb) ++ le_bytes 8 (sb_directoryTableStart sb) ++
  le_bytes 8 (sb_fragmentTableStart sb) ++ le_bytes 8 (sb_exportTableStart sb).

(** [bits.TrailingZeros32] of a positive number. *)
Fixpoint trailing_zeros (p : positive) : Z :=
  match p with xO p => 1 + trailing_zeros p | _ => 0 end.

Definition blockLogFor (blockSize : Z) : Z :=
  match blockSize with Zpos p => trailing_zeros p | _ => 32 end.

(** ** Entries *)

Inductive entryKind : Type :=
| kindFile | kindDir | kindSymlink | kindHardlink
| kindCharDev | kindBlockDev | kindFIFO | kindSocket.

#[export] Instance entryKind_eq_dec : EqDecision entryKind.
Proof. solve_decision. Defined.

(** Modification times are Unix seconds; [None] is the zero [time.Time]. *)
Record Attrs := mkAttrs {
  a_Path : list Z;
  a_Mode : Z;
  a_UID : Z;
  a_GID : Z;
  a_Mtime : option Z
}.

(** A place in a stream of metadata blocks. *)
Record metaRef := mkRef { r_blockIdx : nat; r_offset : Z }.

(** Pointers to entries are the paths they are registered under: an entry is registered
    once and never replaced. *)
Record entry := mkEntry {
  e_path : list Z;
  e_kind : entryKind;
  e_attrs : Attrs;
  e_inodeNumber : Z;
  e_inodeRef : metaRef;
  e_nlinks : Z;
  e_uidIdx : Z;
  e_gidIdx : Z;
  e_fileBlocksStart : Z;
  e_fileBlockSizes : list Z;
  e_fileSize : Z;
  e_symlinkTarget : list Z;
  e_hardlinkTarget : option (list Z);
  e_devMajor : Z;
  e_devMinor : Z;
  e_children : list (list Z);
  e_dirBlockStart : Z;
  e_dirBlockOffset : Z;
  e_dirListingSize : Z;
  e_parentInode : Z
}.

(** ** Inodes *)

Definition encodePerm (e : entry) : Z :=
  Z.lor (wrap 16 (Z.land (a_Mode (e_attrs e)) 0x1ff)) (wrap 16 (Z.land (a_Mode (e_attrs e)) 0xe00)).

Definition encodeDevice (major minor : Z) : Z + sq_error :=
  if 0xFFF <? major then inr ErrDeviceMajor
  else if 0xFF <? minor then inr ErrDeviceMinor
  else inl (Z.lor (Z.shiftl major 8) minor).

Definition writeCommonHeader (typ : Z) (e : entry) (mtime : Z) : list Z :=
  le_bytes 2 typ ++ le_bytes 2 (encodePerm e) ++ le_bytes 2 (e_uidIdx e) ++
  le_bytes 2 (e_gidIdx e) ++ le_bytes 4 mtime ++ le_bytes 4 (e_inodeNumber e).

Definition encodeBasicDir (e : entry) (mtime : Z) : list Z + sq_error :=
  if 0xFFFFFFFF <? e_dirBlockStart e then inr ErrDirTable
  else
    let listingSize := wrap 32 (e_dirListingSize e + 3) in
    if 0xFFFF <? listingSize then inr ErrListing
    else inl (writeCommonHeader InodeBasicDir e mtime ++
      le_bytes 4 (e_dirBlockStart e) ++ le_bytes 4 (e_nlinks e) ++ le_bytes 2 listingSize ++
      le_bytes 2 (e_dirBlockOffset e) ++ le_bytes 4 (e_parentInode e)).

(** How many blocks a file of that size has. *)
Definition expectedBlocks (fileSize blockSize : Z) : Z :=
  wrap 64 (fileSize + blockSize - 1) / blockSize.

Definition encodeBasicFile (e : entry) (mtime blockSize : Z) : list Z + sq_error :=
  if 0xFFFFFFFF <? e_fileBlocksStart e then inr ErrArchiveSize
  else if 0xFFFFFFFF <? e_fileSize e then inr ErrFileSize
  else if negb (zlen (e_fileBlockSizes e) =? expectedBlocks (e_fileSize e) blockSize)
  then inr ErrBlockCount
  else inl (writeCommonHeader InodeBasicFile e mtime ++
    le_bytes 4 (e_fileBlocksStart e) ++ le_bytes 4 InvalidFragment ++ le_bytes 4 0 ++
    le_bytes 4 (e_fileSize e) ++ concat (map (le_bytes 4) (e_fileBlockSizes e))).

Definition encodeBasicSymlink (e : entry) (mtime : Z) : list Z + sq_error :=
  let target := e_symlinkTarget e in
  if 0xFFFF <? zlen target then inr ErrSymlinkSize
  else inl (writeCommonHeader InodeBasicSymlink e mtime ++
    le_bytes 4 (e_nlinks e) ++ le_bytes 4 (zlen target) ++ target).

Definition encodeBasicDevice (e : entry) (mtime : Z) (block : bool) : list Z + sq_error :=
  match encodeDevice (e_devMajor e) (e_devMinor e) with
  | inr err => inr err
  | inl dev =>
      let typ := if block then InodeBasicBlock else InodeBasicChar in
      inl (writeCommonHeader typ e mtime ++ le_bytes 4 (e_nlinks e) ++ le_bytes 4 dev)
  end.

Definition encodeBasicIPC (e : entry) (mtime : Z) (socket : bool) : list Z :=
  let typ := if socket then InodeBasicSocket else InodeBasicFIFO in
  writeCommonHeader typ e mtime ++ le_bytes 4 (e_nlinks e).

(** The [switch] of [writeOneInode]. *)
Definition encodeInode (e : entry) (mtime blockSize : Z) : list Z + sq_error :=
  match e_kind e with
  | kindFile => encodeBasicFile e mtime blockSize
  | kindDir => encodeBasicDir e mtime
  | kindSymlink => encodeBasicSymlink e mtime
  | kindCharDev => encodeBasicDevice e mtime false
  | kindBlockDev => encodeBasicDevice e mtime true
  | kindFIFO => inl (encodeBasicIPC e mtime false)
  | kindSocket => inl (encodeBasicIPC e mtime true)
  | kindHardlink => inr ErrUnsupportedKind
  end.

(** ** Readers *)

(** An unsigned field of [n] bytes in front of a sequence, and [n] raw bytes. *)
Definition get_bytes (n : nat) (s : list Z) : option (list Z * list Z) :=
  if decide (n ≤ length s)%nat then Some (take n s, drop n s) else None.

Definition get (n : nat) (s : list Z) : option (Z * list Z) :=
  '(bs, s) ← get_bytes n s; Some (le_val bs, s).

Fixpoint get_list (n k : nat) (s : list Z) : option (list Z * list Z) :=
  match k with
  | O => Some ([], s)
  | S k => '(x, s) ← get n s; '(l, s) ← get_list n k s; Some (x :: l, s)
  end.

Definition parse_superblock (s : list Z) : option superblock :=
  '(magic, s) ← get 4 s; '(inodes, s) ← get 4 s; '(mtime, s) ← get 4 s;
  '(bsize, s) ← get 4 s; '(frags, s) ← get 4 s; '(comp, s) ← get 2 s;
  '(blog, s) ← get 2 s; '(flags, s) ← get 2 s; '(ids, s) ← get 2 s;
  '(major, s) ← get 2 s; '(minor, s) ← get 2 s; '(root, s) ← get 8 s;
  '(used, s) ← get 8 s; '(idt, s) ← get 8 s; '(xattr, s) ← get 8 s;
  '(inodet, s) ← get 8 s; '(dirt, s) ← get 8 s; '(fragt, s) ← get 8 s;
  '(export, s) ← get 8 s;
  if (magic =? Magic) && (major =? VersionMajor) && (minor =? VersionMinor) &&
     (bsize =? Z.shiftl 1 blog)
  then Some (mkSuperblock inodes mtime bsize frags comp blog flags ids root used idt xattr
               inodet dirt fragt export)
  else None.

(** The part of an inode that depends on its type. *)
Inductive inode_body : Type :=
| BDir (start nlink size offset parent : Z)
| BFile (start size : Z) (blocks : list Z)
| BSymlink (nlink : Z) (target : list Z)
| BDevice (block : bool) (nlink major minor : Z)
| BIpc (socket : bool) (nlink : Z).

Record inode := mkInode {
  i_perm : Z;
  i_uidIdx : Z;
  i_gidIdx : Z;
  i_mtime : Z;
  i_number : Z;
  i_body : inode_body
}.

Definition parse_device (block : bool) (s : list Z) : option inode_body :=
  '(nlink, s) ← get 4 s; '(dev, s) ← get 4 s;
  Some (BDevice block nlink (Z.shiftr dev 8) (Z.land dev 0xff)).

Definition parse_body (typ blockSize : Z) (s : list Z) : option inode_body :=
  if typ =? InodeBasicDir then
    '(start, s) ← get 4 s; '(nlink, s) ← get 4 s; '(size, s) ← get 2 s;
    '(offset, s) ← get 2 s; '(parent, s) ← get 4 s;
    Some (BDir start nlink (size - 3) offset parent)
  else if typ =? InodeBasicFile then
    '(start, s) ← get 4 s; '(frag, s) ← get 4 s; '(offset, s) ← get 4 s; '(size, s) ← get 4 s;
    if frag =? InvalidFragment then
      '(blocks, s) ← get_list 4 (Z.to_nat ((size + blockSize - 1) / blockSize)) s;
      Some (BFile start size blocks)
    else None
  else if typ =? InodeBasicSymlink then
    '(nlink, s) ← get 4 s; '(size, s) ← get 4 s; '(target, s) ← get_bytes (Z.to_nat size) s;
    Some (BSymlink nlink target)
  else if typ =? InodeBasicBlock then parse_device true s
  else if typ =? InodeBasicChar then parse_device false s
  else if typ =? InodeBasicFIFO then '(nlink, s) ← get 4 s; Some (BIpc false nlink)
  else if typ =? InodeBasicSocket then '(nlink, s) ← get 4 s; Some (BIpc true nlink)
  else None.

Definition parse_inode (blockSize : Z) (s : list Z) : option inode :=
  '(typ, s) ← get 2 s; '(perm, s) ← get 2 s; '(uid, s) ← get 2 s; '(gid, s) ← get 2 s;
  '(mtime, s) ← get 4 s; '(number, s) ← get 4 s;
  body ← parse_body typ blockSize s;
  Some (mkInode perm uid gid mtime number body).

(** ** Reading back *)

Create Rewrite HintDb squash.

Definition fits_in (n : nat) (v : Z) : Prop := 0 ≤ v < 256 ^ Z.of_nat n.

Lemma get_bytes_app n bs s : n = length bs → get_bytes n (bs ++ s) = Some (bs, s).
Proof.
  intros ->. unfold get_bytes. rewrite decide_True by (rewrite length_app; lia).
  by rewrite take_app_length, drop_app_length.
Qed.

Lemma length_le_bytes n v : length (le_bytes n v) = n.
Proof. pose proof (zlen_le_bytes n v). unfold zlen in *. lia. Qed.

Lemma get_le_bytes n v s : fits_in n v → get n (le_bytes n v ++ s) = Some (v, s).
Proof.
  intros Hv. unfold get. rewrite get_bytes_app by (by rewrite length_le_bytes). cbn.
  rewrite le_val_le_bytes. by rewrite Z.mod_small.
Qed.

Lemma get_le_bytes_last n v : fits_in n v → get n (le_bytes n v) = Some (v, []).
Proof. intros. rewrite <- (app_nil_r (le_bytes n v)). by apply get_le_bytes. Qed.

Lemma get_list_le_bytes n l s :
  Forall (fits_in n) l → get_list n (length l) (concat (map (le_bytes n) l) ++ s) = Some (l, s).
Proof.
  induction 1 as [|x l Hx Hl IH]; [done|]. cbn. rewrite <- app_assoc, get_le_bytes by done.
  cbn. by rewrite IH.
Qed.

(** Steps of a reader through the fields that were written. *)
Ltac parse_steps :=
  repeat (rewrite <- ?app_assoc; first
    [rewrite get_le_bytes by (first [done|assumption]); cbn [mbind option_bind]
    |rewrite get_le_bytes_last by (first [done|assumption]); cbn [mbind option_bind]]).

Record superblock_ok (sb : superblock) : Prop := {
  sbk_inodes : fits_in 4 (sb_inodeCount sb);
  sbk_mtime : fits_in 4 (sb_modTime sb);
  sbk_bsize : sb_blockSize sb = Z.shiftl 1 (sb_blockLog sb);
  sbk_bfits : fits_in 4 (sb_blockSize sb);
  sbk_frags : fits_in 4 (sb_fragCount sb);
  sbk_comp : fits_in 2 (sb_compressor sb);
  sbk_log : fits_in 2 (sb_blockLog sb);
  sbk_flags : fits_in 2 (sb_flags sb);
  sbk_ids : fits_in 2 (sb_idCount sb);
  sbk_root : fits_in 8 (sb_rootInodeRef sb);
  sbk_used : fits_in 8 (sb_bytesUsed sb);
  sbk_idt : fits_in 8 (sb_idTableStart sb);
  sbk_xattr : fits_in 8 (sb_xattrTableStart sb);
  sbk_inodet : fits_in 8 (sb_inodeTableStart sb);
  sbk_dirt : fits_in 8 (sb_directoryTableStart sb);
  sbk_fragt : fits_in 8 (sb_fragmentTableStart sb);
  sbk_export : fits_in 8 (sb_exportTableStart sb)
}.

Lemma parse_encode_superblock sb s :
  superblock_ok sb → parse_superblock (encode_superblock sb ++ s) = Some sb.
Proof.
  intros []. unfold parse_superblock, encode_superblock. parse_steps.
  rewrite !Z.eqb_refl, (proj2 (Z.eqb_eq _ _) sbk_bsize0). by destruct sb.
Qed.

Lemma zlen_encode_superblock sb : zlen (encode_superblock sb) = superblockSize.
Proof. unfold encode_superblock. autorewrite with bytes. done. Qed.

(** A power of two is one shifted by [blockLogFor]. *)
Lemma blockLogFor_pow2 k : 0 ≤ k → blockLogFor (2 ^ k) = k.
Proof.
  intros Hk. rewrite <- (Z2Nat.id k) by done. generalize (Z.to_nat k) as n. clear.
  induction n as [|n IH]; [done|]. rewrite Nat2Z.inj_succ, Z.pow_succ_r by lia.
  destruct (2 ^ Z.of_nat n) as [|p|p] eqn:E; [pose proof (Z.pow_pos_nonneg 2 (Z.of_nat n)); lia| |
    pose proof (Z.pow_pos_nonneg 2 (Z.of_nat n)); lia].
  change (blockLogFor (2 * Z.pos p)) with (1 + blockLogFor (Z.pos p)). lia.
Qed.

(** What the inode of an entry says. *)
Definition body_of (e : entry) : inode_body :=
  match e_kind e with
  | kindDir => BDir (e_dirBlockStart e) (e_nlinks e) (e_dirListingSize e) (e_dirBlockOffset e)
                 (e_parentInode e)
  | kindFile => BFile (e_fileBlocksStart e) (e_fileSize e) (e_fileBlockSizes e)
  | kindSymlink => BSymlink (e_nlinks e) (e_symlinkTarget e)
  | kindCharDev => BDevice false (e_nlinks e) (e_devMajor e) (e_devMinor e)
  | kindBlockDev => BDevice true (e_nlinks e) (e_devMajor e) (e_devMinor e)
  | kindSocket => BIpc true (e_nlinks e)
  | _ => BIpc false (e_nlinks e)
  end.

Definition inode_of (e : entry) (mtime : Z) : inode :=
  mkInode (Z.land (a_Mode (e_attrs e)) 0xfff) (e_uidIdx e) (e_gidIdx e) mtime
    (e_inodeNumber e) (body_of e).

(** The fields of an entry are in the range of their Go types. *)
Record entry_ok (e : entry) : Prop := {
  ek_mode : 0 ≤ a_Mode (e_attrs e);
  ek_number : fits_in 4 (e_inodeNumber e);
  ek_nlinks : fits_in 4 (e_nlinks e);
  ek_uid : fits_in 2 (e_uidIdx e);
  ek_gid : fits_in 2 (e_gidIdx e);
  ek_start : 0 ≤ e_fileBlocksStart e;
  ek_sizes : Forall (fits_in 4) (e_fileBlockSizes e);
  ek_size : 0 ≤ e_fileSize e;
  ek_major : 0 ≤ e_devMajor e;
  ek_minor : 0 ≤ e_devMinor e;
  ek_dstart : 0 ≤ e_dirBlockStart e;
  ek_doff : fits_in 2 (e_dirBlockOffset e);
  ek_dsize : 0 ≤ e_dirListingSize e < 2 ^ 32 - 3;
  ek_parent : fits_in 4 (e_parentInode e)
}.

Lemma encodePerm_spec e : encodePerm e = Z.land (a_Mode (e_attrs e)) 0xfff.
Proof.
  unfold encodePerm, wrap. set (m := a_Mode (e_attrs e)).
  rewrite <- !Z.land_ones by lia. rewrite <- !Z.land_assoc, <- Z.land_lor_distr_r. done.
Qed.

Lemma land_fits n m k : 0 ≤ m → 0 ≤ k < 256 ^ Z.of_nat n → fits_in n (Z.land m k).
Proof.
  intros Hm Hk. split; [apply Z.land_nonneg; lia|].
  destruct (decide (Z.land m k = 0)) as [->|Hne]; [apply Z.pow_pos_nonneg; lia|].
  assert (0 ≤ Z.land m k) by (apply Z.land_nonneg; lia).
  replace 256 with (2 ^ 8) in * by done. rewrite <- !Z.pow_mul_r in * by lia.
  apply Z.log2_lt_pow2; [lia|]. eapply Z.le_lt_trans; [apply Z.log2_land; lia|].
  destruct (decide (k = 0)) as [->|]; [by rewrite Z.land_0_r in Hne|].
  destruct (decide (8 * Z.of_nat n = 0)) as [E|]; [rewrite E in Hk; lia|].
  eapply Z.le_lt_trans; [apply Z.le_min_r|]. apply Z.log2_lt_pow2; lia.
Qed.

Lemma encodeDevice_spec major minor dev :
  0 ≤ major → 0 ≤ minor → encodeDevice major minor = inl dev →
  fits_in 4 dev ∧ Z.shiftr dev 8 = major ∧ Z.land dev 0xff = minor.
Proof.
  unfold encodeDevice. intros H1 H2. repeat case_match; intros [= <-]. bool_prop.
  rewrite Z.shiftl_mul_pow2, Z.lor_comm, lor_low_high by lia.
  rewrite Z.shiftr_div_pow2 by lia. change 0xff with (Z.ones 8). rewrite Z.land_ones by lia.
  unfold fits_in. Z.to_euclidean_division_equations. lia.
Qed.

#[local] Arguments le_bytes : simpl never.
#[local] Arguments get : simpl never.
#[local] Arguments get_list : simpl never.
#[local] Arguments get_bytes : simpl never.

Lemma parse_common blockSize e mtime typ body s :
  entry_ok e → fits_in 4 mtime → fits_in 2 typ → parse_body typ blockSize s = Some body →
  parse_inode blockSize (writeCommonHeader typ e mtime ++ s) =
    Some (mkInode (Z.land (a_Mode (e_attrs e)) 0xfff) (e_uidIdx e) (e_gidIdx e) mtime
            (e_inodeNumber e) body).
Proof.
  intros [] Hm Ht Hb. unfold parse_inode, writeCommonHeader. rewrite encodePerm_spec.
  assert (fits_in 2 (Z.land (a_Mode (e_attrs e)) 0xfff)) by (by apply land_fits).
  parse_steps. by rewrite Hb.
Qed.

(** Every inode the writer encodes reads back as the entry it stands for. *)
Lemma parse_encodeInode e mtime blockSize bs s :
  entry_ok e → fits_in 4 mtime → 0 < blockSize < 2 ^ 32 →
  encodeInode e mtime blockSize = inl bs →
  parse_inode blockSize (bs ++ s) = Some (inode_of e mtime).
Proof.
  intros He Hm Hbs. unfold encodeInode, inode_of, body_of.
  destruct (e_kind e); try discriminate.
  - unfold encodeBasicFile. repeat case_match; try discriminate; intros <-%(inj inl). bool_prop.
    destruct He. rewrite <- app_assoc. apply parse_common; [by split|done..|]. cbn.
    assert (fits_in 4 (e_fileBlocksStart e)) by (unfold fits_in; cbn; lia).
    assert (fits_in 4 (e_fileSize e)) by (unfold fits_in; cbn; lia).
    parse_steps. cbn.
    match goal with H : zlen _ = expectedBlocks _ _ |- _ => unfold expectedBlocks, wrap in H;
      rewrite Z.mod_small in H by lia; rewrite <- H end.
    unfold zlen. by rewrite Nat2Z.id, get_list_le_bytes.
  - unfold encodeBasicDir. repeat case_match; try discriminate; intros <-%(inj inl). bool_prop.
    destruct He. rewrite <- app_assoc. apply parse_common; [by split|done..|]. cbn.
    unfold wrap in *. rewrite Z.mod_small in * by lia.
    assert (fits_in 4 (e_dirBlockStart e)) by (unfold fits_in; cbn; lia).
    assert (fits_in 2 (e_dirListingSize e + 3)) by (unfold fits_in; cbn; lia).
    parse_steps. cbn. do 2 f_equal. lia.
  - unfold encodeBasicSymlink. repeat case_match; try discriminate; intros <-%(inj inl). bool_prop.
    destruct He. rewrite <- app_assoc. apply parse_common; [by split|done..|]. cbn.
    assert (fits_in 4 (zlen (e_symlinkTarget e)))
      by (pose proof (zlen_nonneg (e_symlinkTarget e)); unfold fits_in; cbn; lia).
    parse_steps. by rewrite get_bytes_app by (unfold zlen; lia).
  - unfold encodeBasicDevice. destruct encodeDevice as [dev|] eqn:E; [|discriminate]; intros <-%(inj inl).
    destruct He. apply encodeDevice_spec in E as (Hd & <- & <-); [|done..].
    rewrite <- app_assoc. apply parse_common; [by split|done..|]. cbn. unfold parse_device.
    by parse_steps.
  - unfold encodeBasicDevice. destruct encodeDevice as [dev|] eqn:E; [|discriminate]; intros <-%(inj inl).
    destruct He. apply encodeDevice_spec in E as (Hd & <- & <-); [|done..].
    rewrite <- app_assoc. apply parse_common; [by split|done..|]. cbn. unfold parse_device.
    by parse_steps.
  - intros <-%(inj inl). destruct He. unfold encodeBasicIPC. rewrite <- app_assoc.
    apply parse_common; [by split|done..|]. cbn. by parse_steps.
  - intros <-%(inj inl). destruct He. unfold encodeBasicIPC. rewrite <- app_assoc.
    apply parse_common; [by split|done..|]. cbn. by parse_steps.
Qed.
