(* ===== verification/SquashMeta.v ===== *)
(** * Squashfs metadata blocks and the ID table

    [metadata.go], [idtable.go] and [compressor.go] of [internal/squashfs], with the
    interfaces they are written against: the class [Compressor] is the Go interface of
    that name, [WriteSeeker] the output.  What the format makes of the bytes is
    [meta_stream]; the lemmas show that a record written at a [metaRef] is found there
    again. *)
From S2P Require Import Prelude SquashFormat.
#[local] Open Scope Z_scope.

(** ** Computations that can fail *)

(** A computation on a state [S] that returns an [A] or an error [E]. *)
Definition fallible (E S A : Type) : Type := S → (A + E) * S.

Abbreviation io := (fallible sq_error).

Definition io_ret {E S A} (a : A) : fallible E S A := λ s, (inl a, s).
Definition io_fail {E S A} (e : E) : fallible E S A := λ s, (inr e, s).

Definition io_bind {E S A B} (m : fallible E S A) (k : A → fallible E S B) : fallible E S B := λ s,
  match m s with (inl a, s') => k a s' | (inr e, s') => (inr e, s') end.

Definition io_gets {E S A} (f : S → A) : fallible E S A := λ s, (inl (f s), s).
Definition io_modify {E S} (f : S → S) : fallible E S unit := λ s, (inl tt, f s).

Declare Scope io_scope.
Delimit Scope io_scope with io.
Notation "'io*' x ':=' m 'in' k" := (io_bind m (λ x, k))
  (at level 10, x pattern, m at level 100, k at level 200) : io_scope.
#[global] Open Scope io_scope.

(** ** Interfaces *)

Inductive compress_result : Type :=
| Compressed (out : list Z)
| Incompressible
| CompressFailed (msg : list Z).

Class Compressor : Type := {
  comp_ID : Z;
  Compress : list Z → compress_result
}.

(** What the reader of the image needs of a compressor: its output decompresses to its
    input and is never empty, and its number fits the superblock. *)
Class Decompressor `{Compressor} : Type := {
  decompress : list Z → option (list Z);
  decompress_Compress src out : Compress src = Compressed out → decompress out = Some src;
  Compress_nonempty src : Compress src ≠ Compressed [];
  comp_ID_fits : fits_in 2 comp_ID
}.

(** [StoredCompressor]. *)
#[export] Instance StoredCompressor : Compressor := {|
  comp_ID := CompressorGzip;
  Compress _ := Incompressible
|}.

#[export] Instance stored_decompressor : @Decompressor StoredCompressor.
Proof. by refine {| decompress _ := None |}. Defined.

(** [GzipCompressor] with the result of the zlib stream as an argument. *)
Definition GzipCompressor (zlib : list Z → list Z + list Z) : Compressor := {|
  comp_ID := CompressorGzip;
  Compress src :=
    match zlib src with
    | inr msg => CompressFailed msg
    | inl out => if zlen src <=? zlen out then Incompressible else Compressed out
    end
|}.

(** [io.WriteSeeker], as far as the package uses it: [Write] and [Seek(0, io.SeekStart)].
    A write reports how much was written and possibly an error. *)
Class WriteSeeker (F : Type) : Type := {
  fs_Write : list Z → F → (Z * option (list Z)) * F;
  fs_Seek : F → option (list Z) * F
}.

(** The contract of [io.Writer] and [io.Seeker] on a file. *)
Class FileLaws (F : Type) `{WriteSeeker F} : Type := {
  contents : F → list Z;
  position : F → Z;
  fs_Write_ok p f n f' :
    fs_Write p f = ((n, None), f') → 0 ≤ position f ≤ zlen (contents f) →
    n = zlen p ∧ contents f' = splice (position f) p (contents f) ∧
    position f' = position f + zlen p;
  fs_Seek_ok f f' :
    fs_Seek f = (None, f') → contents f' = contents f ∧ position f' = 0
}.

(** A file in memory, which never fails. *)
Record mem_file := mkMem { mem_bytes : list Z; mem_pos : Z }.

#[export] Instance mem_WriteSeeker : WriteSeeker mem_file := {|
  fs_Write p f := ((zlen p, None), mkMem (splice (mem_pos f) p (mem_bytes f)) (mem_pos f + zlen p));
  fs_Seek f := (None, mkMem (mem_bytes f) 0)
|}.

#[export] Instance mem_FileLaws : FileLaws mem_file.
Proof.
  refine {| contents := mem_bytes; position := mem_pos |}.
  - by intros p f n f' [= <- <-] _.
  - by intros f f' [= <-].
Defined.

(** A write as a computation on the file. *)
Definition file_write {F} `{WriteSeeker F} (p : list Z) : io F Z := λ f,
  match fs_Write p f with
  | ((n, None), f') => (inl n, f')
  | ((_, Some msg), f') => (inr (ErrIO msg), f')
  end.

(** ** [metaWriter] *)

Record metaBlock := mkBlock {
  mb_data : list Z;
  mb_uncompressed : bool;
  mb_uncompressedSize : Z
}.

Record metaWriter := mkMeta {
  mw_cur : list Z;
  mw_blocks : list metaBlock
}.

Definition newMetaWriter : metaWriter := mkMeta [] [].

Definition Ref (m : metaWriter) : metaRef :=
  mkRef (length (mw_blocks m)) (wrap 16 (zlen (mw_cur m))).

Section MetaWriter.
Context `{Compressor}.

Definition sealCurrent : io metaWriter unit := λ m,
  match mw_cur m with
  | [] => (inl tt, m)
  | _ =>
      let origSize := wrap 16 (zlen (mw_cur m)) in
      let stored data unc := (inl tt, mkMeta [] (mw_blocks m ++ [mkBlock data unc origSize])) in
      match Compress (mw_cur m) with
      | CompressFailed msg => (inr (ErrCompress msg), m)
      | Incompressible => stored (mw_cur m) true
      | Compressed out =>
          if zlen (mw_cur m) <=? zlen out then stored (mw_cur m) true else stored out false
      end
  end.

(** The loop of [Write]; the open block is never full between calls, so every round
    takes a byte of [p] or more ([Write_grows]). *)
Fixpoint write_loop (fuel : nat) (p : list Z) : io metaWriter unit :=
  match p with
  | [] => io_ret tt
  | _ =>
      match fuel with
      | O => io_fail OutOfFuel
      | S fuel =>
          io* free := io_gets (λ m, MetadataBlockSize - zlen (mw_cur m)) in
          let n := Z.to_nat (Z.min (zlen p) free) in
          io* _ := io_modify (λ m, mkMeta (mw_cur m ++ take n p) (mw_blocks m)) in
          io* full := io_gets (λ m, zlen (mw_cur m) =? MetadataBlockSize) in
          io* _ := (if full then sealCurrent else io_ret tt) in
          write_loop fuel (drop n p)
      end
  end.

Definition Write (p : list Z) : io metaWriter unit := write_loop (length p) p.

Definition Flush : io metaWriter unit := sealCurrent.
End MetaWriter.

(** The loop reads [m.blocks[i]] for [i < blockIdx], which would panic for an index past
    the blocks; [take] does not.  The indices it is called with are those of references into
    the stream, which are never past its blocks ([at_ref], [leads], [listing_at]). *)
Definition BlockByteOffset (blockIdx : nat) (m : metaWriter) : Z :=
  foldr (λ b off, 2 + zlen (mb_data b) + off) 0 (take blockIdx (mw_blocks m)).

(** [metaRef.encode]. *)
Definition encode_ref (r : metaRef) (blockByteOffset : Z) : Z :=
  Z.lor (wrap 64 (Z.shiftl blockByteOffset 16)) (r_offset r).

(** The header of a block on disk. *)
Definition block_header (b : metaBlock) : Z :=
  let size := wrap 16 (zlen (mb_data b)) in
  if mb_uncompressed b then Z.lor size MetadataUncompressedBit else size.

Section Emit.
Context {F : Type} `{WriteSeeker F}.

Fixpoint emit_blocks (blocks : list metaBlock) : io F Z :=
  match blocks with
  | [] => io_ret 0
  | b :: blocks =>
      if MetadataBlockSize <? zlen (mb_data b) then io_fail ErrMetaBlock
      else
        io* n1 := file_write (le_bytes 2 (block_header b)) in
        io* n2 := file_write (mb_data b) in
        io* total := emit_blocks blocks in
        io_ret (n1 + n2 + total)
  end.

Definition EmitTo (m : metaWriter) : io F Z := emit_blocks (mw_blocks m).
End Emit.

(** ** The ID table *)

Definition idsPerMetaBlock : Z := MetadataBlockSize / 4.
Definition maxIDs : Z := 0xFFFF.

Record idTable := mkIDs {
  id_index : gmap Z Z;
  id_list : list Z
}.

Definition newIDTable : idTable := mkIDs ∅ [].

Definition Intern (id : Z) : io idTable Z := λ t,
  match id_index t !! id with
  | Some idx => (inl idx, t)
  | None =>
      if maxIDs <=? zlen (id_list t) then (inr ErrTooManyIDs, t)
      else let idx := wrap 16 (zlen (id_list t)) in
           (inl idx, mkIDs (<[id := idx]> (id_index t)) (id_list t ++ [id]))
  end.

Definition Count (t : idTable) : Z := wrap 16 (zlen (id_list t)).

Section IDTable.
Context `{Compressor}.

(** The loop of [WriteData] from index [i] on: the blocks the batches start in. *)
Fixpoint pack_ids (i : Z) (ids : list Z) : io metaWriter (list nat) :=
  match ids with
  | [] => io_ret []
  | id :: ids =>
      io* start := (if i mod idsPerMetaBlock =? 0 then
                      io* _ := (if negb (i =? 0) then Flush else io_ret tt) in
                      io_gets (λ m, [length (mw_blocks m)])
                    else io_ret []) in
      io* _ := Write (le_bytes 4 id) in
      io* rest := pack_ids (i + 1) ids in
      io_ret (start ++ rest)
  end.

Context {F : Type} `{WriteSeeker F}.

Definition WriteData (t : idTable) (fileOffsetBase : Z) : io F (list Z * Z) :=
  match id_list t with
  | [] => io_ret ([], 0)
  | ids =>
      match (io* starts := pack_ids 0 ids in io* _ := Flush in io_ret starts) newMetaWriter with
      | (inr err, _) => io_fail err
      | (inl startBlocks, meta) =>
          io* bytesWritten := EmitTo meta in
          io_ret (map (λ bi, fileOffsetBase + BlockByteOffset bi meta) startBlocks, bytesWritten)
      end
  end.

Definition WriteLookup (blockOffsets : list Z) : io F Z :=
  match blockOffsets with
  | [] => io_ret 0
  | _ => file_write (concat (map (le_bytes 8) blockOffsets))
  end.
End IDTable.

(** ** Reading metadata *)

Section Reader.
Context `{Decompressor}.

Definition read_block (s : list Z) : option (list Z * list Z) :=
  '(h, s) ← get 2 s;
  '(data, s) ← get_bytes (Z.to_nat (Z.land h 0x7fff)) s;
  c ← (if Z.testbit h 15 then Some data else decompress data);
  Some (c, s).

Fixpoint read_blocks (fuel : nat) (s : list Z) : option (list Z) :=
  match s, fuel with
  | [], _ => Some []
  | _, O => None
  | _, S fuel => '(c, s) ← read_block s; rest ← read_blocks fuel s; Some (c ++ rest)
  end.

(** The contents of consecutive metadata blocks that fill [s]. *)
Definition meta_stream (s : list Z) : option (list Z) := read_blocks (length s) s.
End Reader.

(** ** Lemmas *)

Lemma io_bind_inl {E S A B} (m : fallible E S A) (k : A → fallible E S B) s b s' :
  io_bind m k s = (inl b, s') ↔ ∃ a s1, m s = (inl a, s1) ∧ k a s1 = (inl b, s').
Proof.
  unfold io_bind. destruct (m s) as [[a|e] s1]; split; [eauto|by intros (? & ? & [= <- <-] & ?)|done|].
  by intros (? & ? & [=] & _).
Qed.

Lemma io_ret_inl {E S A} (a b : A) (s s' : S) : io_ret (E := E) a s = (inl b, s') → b = a ∧ s' = s.
Proof. by intros [= -> ->]. Qed.

Lemma io_gets_inl {E S A} (g : S → A) b s s' : io_gets (E := E) g s = (inl b, s') → b = g s ∧ s' = s.
Proof. by intros [= <- <-]. Qed.

Lemma io_modify_inl {E S} (g : S → S) u s s' : io_modify (E := E) g s = (inl u, s') → u = tt ∧ s' = g s.
Proof. by intros [= <- <-]. Qed.

(** Take apart a computation that succeeded. *)
Ltac io_inv :=
  repeat match goal with
  | H : io_bind _ _ _ = (inl _, _) |- _ => apply io_bind_inl in H as (? & ? & ? & ?)
  | H : io_ret _ _ = (inl _, _) |- _ => apply io_ret_inl in H as [? ?]; subst
  | H : io_gets _ _ = (inl _, _) |- _ => apply io_gets_inl in H as [? ?]; subst
  | H : io_modify _ _ = (inl _, _) |- _ => apply io_modify_inl in H as [? ?]; subst
  | H : io_fail _ _ = (inl _, _) |- _ => discriminate H
  end.

Section Streams.
Context `{Decompressor}.

(** The uncompressed contents of a block. *)
Definition content (b : metaBlock) : list Z :=
  if mb_uncompressed b then mb_data b else default [] (decompress (mb_data b)).

Record block_ok (b : metaBlock) : Prop := {
  bk_size : zlen (mb_data b) ≤ MetadataBlockSize;
  bk_content : mb_uncompressed b = false → decompress (mb_data b) = Some (content b)
}.

Definition unpacked (bl : list metaBlock) : list Z := concat (map content bl).

(** [m'] is [m] after the bytes [p]. *)
Definition grows (m : metaWriter) (p : list Z) (m' : metaWriter) : Prop :=
  ∃ bl, mw_blocks m' = mw_blocks m ++ bl ∧ Forall block_ok bl ∧
    unpacked bl ++ mw_cur m' = mw_cur m ++ p.

Definition open_ok (m : metaWriter) : Prop := zlen (mw_cur m) < MetadataBlockSize.

Lemma unpacked_app l k : unpacked (l ++ k) = unpacked l ++ unpacked k.
Proof. unfold unpacked. by rewrite map_app, concat_app. Qed.

Lemma grows_refl m : grows m [] m.
Proof. exists []. rewrite !app_nil_r. done. Qed.

Lemma grows_trans m p m1 q m2 : grows m p m1 → grows m1 q m2 → grows m (p ++ q) m2.
Proof.
  intros (b1 & E1 & O1 & C1) (b2 & E2 & O2 & C2). exists (b1 ++ b2).
  rewrite E2, E1, <- app_assoc. split; [done|]. split; [by apply Forall_app|].
  rewrite unpacked_app, <- app_assoc, C2, app_assoc, C1, app_assoc. done.
Qed.

Lemma grows_append m p : grows m p (mkMeta (mw_cur m ++ p) (mw_blocks m)).
Proof. exists []. cbn. by rewrite app_nil_r. Qed.

Lemma sealCurrent_spec m u m' :
  zlen (mw_cur m) ≤ MetadataBlockSize → sealCurrent m = (inl u, m') →
  mw_cur m = [] ∧ m' = m ∨
  ∃ b, block_ok b ∧ content b = mw_cur m ∧ m' = mkMeta [] (mw_blocks m ++ [b]).
Proof.
  intros Hlen. unfold sealCurrent. destruct (mw_cur m) as [|c cs] eqn:E; [intros [= _ <-]; by left|].
  rewrite <- E in *. intros Hs. right.
  assert (Hraw : ∀ n, block_ok (mkBlock (mw_cur m) true n)) by (split; [done|by intros]).
  destruct (Compress (mw_cur m)) as [out| |] eqn:Ec; [|injection Hs as _ <-; eauto|done].
  case_match; [injection Hs as _ <-; eauto|]. bool_prop. injection Hs as _ <-.
  pose proof (decompress_Compress _ _ Ec) as Hd. eexists. split; [|split; [|done]].
  - split; cbn; [lia|]. unfold content. cbn. by rewrite Hd.
  - unfold content. cbn. by rewrite Hd.
Qed.

Lemma sealCurrent_grows m u m' :
  zlen (mw_cur m) ≤ MetadataBlockSize → sealCurrent m = (inl u, m') →
  grows m [] m' ∧ mw_cur m' = [].
Proof.
  intros Hlen [[Hc ->]|(b & Hb & Hc & ->)]%sealCurrent_spec; [|  |done].
  - split; [apply grows_refl|done].
  - split; [|done]. exists [b]. split; [done|]. split; [by constructor|].
    unfold unpacked. cbn. by rewrite !app_nil_r, Hc.
Qed.

(** One round of a write that succeeds. *)
Lemma write_loop_round fuel x p m u m' :
  open_ok m → write_loop (S fuel) (x :: p) m = (inl u, m') →
  ∃ n m1, let m0 := mkMeta (mw_cur m ++ take n (x :: p)) (mw_blocks m) in
    write_loop fuel (drop n (x :: p)) m1 = (inl u, m') ∧
    (zlen (mw_cur m0) = MetadataBlockSize ∧ (∃ v, sealCurrent m0 = (inl v, m1)) ∨
     open_ok m0 ∧ m1 = m0).
Proof.
  unfold open_ok. intros Hm Hw. cbn [write_loop] in Hw. set (q := x :: p) in *.
  apply io_bind_inl in Hw as (free & ? & [-> ->]%io_gets_inl & Hw).
  set (n := Z.to_nat (Z.min (zlen q) (MetadataBlockSize - zlen (mw_cur m)))) in *. io_inv. cbn [mw_cur] in *.
  eexists n, _. split; [eassumption|].
  assert (Hlen : zlen (mw_cur m ++ take n q) ≤ MetadataBlockSize).
  { rewrite zlen_app. unfold n, zlen in *. rewrite length_take. lia. }
  destruct (Z.eqb_spec (zlen (mw_cur m ++ take n q)) MetadataBlockSize) as [Hfull|Hopen]; [by eauto|].
  io_inv. right. cbn. split; [lia|done].
Qed.

Lemma write_loop_grows fuel p m u m' :
  open_ok m → write_loop fuel p m = (inl u, m') → grows m p m' ∧ open_ok m'.
Proof.
  revert p m. induction fuel as [|fuel IH]; intros [|x p] m Hm Hw.
  1, 3: cbn in Hw; io_inv; split; [apply grows_refl|done].
  { done. }
  apply write_loop_round in Hw as (n & m1 & Hw & [[Hfull [v Hs]]|[Ho ->]]); [| |done];
    rewrite <- (take_drop n (x :: p)).
  - apply sealCurrent_grows in Hs as [Hg Hc]; [|lia].
    apply IH in Hw as [Hg' Ho]; [|unfold open_ok; by rewrite Hc]. split; [|done].
    eapply grows_trans; [|done]. rewrite <- (app_nil_r (take n (x :: p))).
    eapply grows_trans; [apply grows_append|done].
  - apply IH in Hw as [Hg' Ho']; [|done]. split; [|done].
    eapply grows_trans; [apply grows_append|done].
Qed.

Lemma Write_grows p m u m' : open_ok m → Write p m = (inl u, m') → grows m p m' ∧ open_ok m'.
Proof. apply write_loop_grows. Qed.

(** A write seals full blocks only. *)
Definition full (b : metaBlock) : Prop := zlen (content b) = MetadataBlockSize.

Lemma write_loop_full fuel p m u m' :
  open_ok m → write_loop fuel p m = (inl u, m') →
  Forall full (mw_blocks m) → Forall full (mw_blocks m').
Proof.
  revert p m. induction fuel as [|fuel IH]; intros [|x p] m Hm Hw Hf.
  1, 3: by cbn in Hw; io_inv.
  { done. }
  apply write_loop_round in Hw as (n & m1 & Hw & [[Hfull [v Hs]]|[Ho ->]]); [|by eapply IH|done].
  apply sealCurrent_spec in Hs as [[Hc ->]|(b & Hb & Hc & ->)]; [by rewrite Hc in Hfull| |lia].
  apply IH in Hw; [done..|]. apply Forall_app. split; [done|]. constructor; [|done].
  unfold full. by rewrite Hc.
Qed.

Lemma Flush_grows m u m' : open_ok m → Flush m = (inl u, m') → grows m [] m' ∧ mw_cur m' = [].
Proof. unfold open_ok. intros. eapply sealCurrent_grows; [lia|done]. Qed.

(** The only error of a write is the compressor's; the rounds are enough. *)
Lemma write_loop_error fuel p m e m' :
  (length p ≤ fuel)%nat → open_ok m → write_loop fuel p m = (inr e, m') → ∃ msg, e = ErrCompress msg.
Proof.
  unfold open_ok. revert p m. induction fuel as [|fuel IH]; intros [|x p] m Hf Hm Hw;
    cbn [write_loop length] in *; [done|lia|done|].
  set (q := x :: p) in *.
  set (n := Z.to_nat (Z.min (zlen q) (MetadataBlockSize - zlen (mw_cur m)))) in *.
  assert (0 < n)%nat by (unfold n, q, zlen in *; cbn; lia).
  assert (length (drop n q) ≤ fuel)%nat by (rewrite length_drop; unfold q; cbn; lia).
  assert (Hlen : zlen (mw_cur m ++ take n q) ≤ MetadataBlockSize).
  { rewrite zlen_app. unfold n, zlen in *. rewrite length_take. lia. }
  unfold io_bind at 1, io_gets at 1 in Hw. cbv beta iota zeta in Hw. fold n in Hw.
  unfold io_bind at 1, io_modify at 1 in Hw. cbv beta iota in Hw.
  unfold io_bind at 1, io_gets at 1 in Hw. cbv beta iota in Hw. cbn [mw_cur] in Hw.
  unfold io_bind in Hw.
  destruct (Z.eqb_spec (zlen (mw_cur m ++ take n q)) MetadataBlockSize) as [Hfull|Hopen].
  - destruct (sealCurrent _) as [[u|e'] m1] eqn:Es.
    + apply sealCurrent_grows in Es as [_ Hc]; [|done]. apply IH in Hw; [done..|]. by rewrite Hc.
    + injection Hw as <- <-. unfold sealCurrent in Es. repeat case_match; simplify_eq; eauto.
  - cbn in Hw. apply IH in Hw; [done..|]. cbn. lia.
Qed.

(** *** Records in a stream *)

Definition tail_from (k : nat) (m : metaWriter) : list Z := unpacked (drop k (mw_blocks m)) ++ mw_cur m.

(** The bytes [rec] are at [r]. *)
Definition at_ref (m : metaWriter) (r : metaRef) (rec : list Z) : Prop :=
  (r_blockIdx r ≤ length (mw_blocks m))%nat ∧
  ∃ suf, drop (Z.to_nat (r_offset r)) (tail_from (r_blockIdx r) m) = rec ++ suf.

Lemma tail_from_grows k m p m' :
  (k ≤ length (mw_blocks m))%nat → grows m p m' → tail_from k m' = tail_from k m ++ p.
Proof.
  intros Hk (bl & Hb & _ & Hc). unfold tail_from. rewrite Hb, drop_app_le by done.
  by rewrite unpacked_app, <- !app_assoc, Hc.
Qed.

Lemma at_ref_grows m r rec p m' : at_ref m r rec → grows m p m' → at_ref m' r rec.
Proof.
  intros [Hk [suf Hs]] Hg. pose proof (tail_from_grows _ _ _ _ Hk Hg) as Ht.
  destruct Hg as (bl & Hb & _). split; [rewrite Hb, length_app; lia|]. rewrite Ht.
  destruct (decide (Z.to_nat (r_offset r) ≤ length (tail_from (r_blockIdx r) m))%nat).
  - rewrite drop_app_le, Hs by done. exists (suf ++ p). by rewrite app_assoc.
  - rewrite drop_ge in Hs by lia. symmetry in Hs. apply app_eq_nil in Hs as [-> _]. eauto.
Qed.

Lemma at_ref_written m rec m' : open_ok m → grows m rec m' → at_ref m' (Ref m) rec.
Proof.
  intros Ho Hg. pose proof (tail_from_grows (length (mw_blocks m)) _ _ _ (le_n _) Hg) as Ht.
  destruct Hg as (bl & Hb & _). unfold at_ref, Ref. cbn [r_blockIdx r_offset]. split; [rewrite Hb, length_app; lia|].
  exists []. unfold open_ok, MetadataBlockSize in Ho. pose proof (zlen_nonneg (mw_cur m)).
  unfold wrap. rewrite Z.mod_small by lia. unfold zlen. rewrite Nat2Z.id, Ht.
  unfold tail_from. rewrite drop_all. cbn. by rewrite drop_app_length, app_nil_r.
Qed.

Lemma Write_at_ref p m u m' :
  open_ok m → Write p m = (inl u, m') → grows m p m' ∧ open_ok m' ∧ at_ref m' (Ref m) p.
Proof.
  intros Ho Hw. apply Write_grows in Hw as [Hg Ho']; [|done]. eauto using at_ref_written.
Qed.

(** *** On disk *)

Definition block_bytes (b : metaBlock) : list Z := le_bytes 2 (block_header b) ++ mb_data b.

Definition emitted (m : metaWriter) : list Z := concat (map block_bytes (mw_blocks m)).

Lemma block_header_spec b : block_ok b →
  fits_in 2 (block_header b) ∧ Z.land (block_header b) 0x7fff = zlen (mb_data b) ∧
  Z.testbit (block_header b) 15 = mb_uncompressed b.
Proof.
  intros [Hs _]. pose proof (zlen_nonneg (mb_data b)). unfold block_header, MetadataBlockSize in *.
  unfold wrap. rewrite Z.mod_small by lia. set (n := zlen (mb_data b)) in *.
  change 0x7fff with (Z.ones 15). rewrite Z.land_ones by lia. rewrite Z.testbit_eqb by lia.
  destruct (mb_uncompressed b).
  - change MetadataUncompressedBit with (1 * 2 ^ 15). rewrite lor_low_high by lia.
    unfold fits_in. split; [cbn; lia|]. Z.to_euclidean_division_equations. lia.
  - unfold fits_in. split; [cbn; lia|]. Z.to_euclidean_division_equations. lia.
Qed.

Lemma read_block_bytes b s : block_ok b → read_block (block_bytes b ++ s) = Some (content b, s).
Proof.
  intros Hb. destruct (block_header_spec b Hb) as (Hf & Hn & Hu). unfold read_block, block_bytes.
  rewrite <- app_assoc, get_le_bytes by done. cbn [mbind option_bind]. rewrite Hn, Hu.
  rewrite get_bytes_app by (unfold zlen; lia). cbn. unfold content. destruct Hb as [_ Hc].
  destruct (mb_uncompressed b); [done|]. by rewrite Hc.
Qed.

Lemma read_blocks_bytes fuel bl :
  Forall block_ok bl → (length bl ≤ fuel)%nat →
  read_blocks fuel (concat (map block_bytes bl)) = Some (unpacked bl).
Proof.
  intros Hb. revert fuel. induction Hb as [|b bl Hb Hbl IH]; intros fuel Hf; [by destruct fuel|].
  destruct fuel as [|fuel]; [cbn in Hf; lia|]. cbn [map concat].
  transitivity ('(c, s) ← read_block (block_bytes b ++ concat (map block_bytes bl));
    rest ← read_blocks fuel s; Some (c ++ rest)); [done|].
  rewrite read_block_bytes by done. cbn. rewrite IH by (cbn in Hf; lia). done.
Qed.

Lemma zlen_block_bytes b : zlen (block_bytes b) = 2 + zlen (mb_data b).
Proof. unfold block_bytes. by autorewrite with bytes. Qed.

Lemma meta_stream_bytes bl :
  Forall block_ok bl → meta_stream (concat (map block_bytes bl)) = Some (unpacked bl).
Proof.
  intros Hb. apply read_blocks_bytes; [done|]. clear Hb.
  induction bl as [|b bl IH]; [done|]. cbn [map concat length]. rewrite length_app.
  pose proof (zlen_block_bytes b). pose proof (zlen_nonneg (mb_data b)). unfold zlen in *. lia.
Qed.

Lemma BlockByteOffset_drop k m :
  drop (Z.to_nat (BlockByteOffset k m)) (emitted m) = concat (map block_bytes (drop k (mw_blocks m))).
Proof.
  unfold BlockByteOffset, emitted. generalize (mw_blocks m) as bl. clear.
  induction k as [|k IH]; intros [|b bl]; cbn [take drop foldr map concat]; [done..|].
  assert (0 ≤ foldr (λ b off, 2 + zlen (mb_data b) + off) 0 (take k bl)).
  { generalize (take k bl). clear. induction l as [|b l IH]; cbn -[Z.add]; [done|].
    pose proof (zlen_nonneg (mb_data b)). lia. }
  pose proof (zlen_nonneg (mb_data b)).
  rewrite Z2Nat.inj_add by lia. rewrite <- drop_drop, <- zlen_block_bytes.
  replace (Z.to_nat (zlen (block_bytes b))) with (length (block_bytes b)) by (unfold zlen; lia).
  by rewrite drop_app_length, IH.
Qed.

(** A record of a finished stream is found through its reference. *)
Lemma at_ref_read m r rec :
  Forall block_ok (mw_blocks m) → mw_cur m = [] → at_ref m r rec →
  ∃ s suf, meta_stream (drop (Z.to_nat (BlockByteOffset (r_blockIdx r) m)) (emitted m)) = Some s ∧
    drop (Z.to_nat (r_offset r)) s = rec ++ suf.
Proof.
  intros Hb Hc [_ [suf Hs]]. unfold tail_from in Hs. rewrite Hc, app_nil_r in Hs.
  eexists _, suf. split; [|exact Hs]. rewrite BlockByteOffset_drop. apply meta_stream_bytes.
  by apply Forall_drop.
Qed.
End Streams.

(** *** The output file *)

Section Files.
Context {F : Type} `{FileLaws F}.

(** Everything written so far, from the start; older bytes may follow. *)
Definition holds (f : F) (w : list Z) : Prop :=
  position f = zlen w ∧ ∃ junk, contents f = w ++ junk.

Lemma file_write_holds p f n f' w :
  holds f w → file_write p f = (inl n, f') → n = zlen p ∧ holds f' (w ++ p).
Proof.
  intros [Hp [junk Hc]]. unfold file_write. repeat case_match; intros [= <- <-].
  rename select (fs_Write _ _ = _) into Hw. apply fs_Write_ok in Hw as (-> & Hc' & Hp').
  - split; [done|]. split; [rewrite Hp', Hp, zlen_app; lia|].
    rewrite Hc', Hc, Hp. unfold splice, zlen. rewrite Nat2Z.id, take_app_length, drop_app_ge by lia.
    eexists. by rewrite <- app_assoc.
  - rewrite Hp, Hc, zlen_app. pose proof (zlen_nonneg w). pose proof (zlen_nonneg junk). lia.
Qed.

Lemma EmitTo_holds m f n f' w :
  holds f w → EmitTo m f = (inl n, f') → n = zlen (emitted m) ∧ holds f' (w ++ emitted m).
Proof.
  unfold EmitTo, emitted. revert f n w. induction (mw_blocks m) as [|b bl IH]; intros f n w Hh He;
    cbn [emit_blocks map concat] in *; [io_inv; by rewrite app_nil_r|].
  case_match; [done|]. io_inv.
  repeat match goal with H : file_write _ ?f = _, Hh : holds ?f _ |- _ =>
    eapply file_write_holds in H as [-> ?]; [|exact Hh] end.
  rename select (emit_blocks _ _ = _) into He.
  eapply IH in He as [-> ?]; [|eassumption]. unfold block_bytes.
  autorewrite with bytes. split; [lia|]. by rewrite <- !app_assoc in *.
Qed.
End Files.

(** *** IDs *)

(** The index inverts the list. *)
Record ids_ok (t : idTable) : Prop := {
  ids_inv : ∀ id idx, id_index t !! id = Some idx ↔ 0 ≤ idx ∧ id_list t !! Z.to_nat idx = Some id;
  ids_bound : zlen (id_list t) ≤ maxIDs
}.

Lemma newIDTable_ok : ids_ok newIDTable.
Proof. split; cbn; [|done]. intros id idx. rewrite lookup_empty, lookup_nil. by split; [|intros [_ ?]]. Qed.

Lemma Intern_spec id t idx t' :
  ids_ok t → Intern id t = (inl idx, t') →
  ids_ok t' ∧ 0 ≤ idx < maxIDs ∧ id_list t' !! Z.to_nat idx = Some id ∧ id_list t `prefix_of` id_list t'.
Proof.
  intros [Hi Hb]. unfold Intern. destruct (id_index t !! id) as [i|] eqn:E.
  { intros [= <- <-]. apply Hi in E as [H0 Hl]. pose proof (lookup_lt_Some _ _ _ Hl).
    unfold zlen in *. split_and!; [by split|lia|lia|done|done]. }
  case_match; intros [= <- <-]. bool_prop. unfold maxIDs in *.
  pose proof (zlen_nonneg (id_list t)). unfold wrap. rewrite Z.mod_small by lia. cbn.
  assert (Hat : (id_list t ++ [id]) !! Z.to_nat (zlen (id_list t)) = Some id)
    by (unfold zlen; rewrite Nat2Z.id; by apply list_lookup_middle).
  split_and!; [|lia|lia|done|by eexists].
  split; cbn [id_index id_list]; [|unfold maxIDs; rewrite zlen_app, zlen_cons; change (zlen []) with 0; lia].
  intros k j. destruct (decide (id = k)) as [<-|Hne].
  - rewrite lookup_insert_eq. split; [intros [= <-]; split; [lia|done]|]. intros [Hj Hk]. f_equal.
    apply lookup_app_Some in Hk as [Hk|[Hk [Hn _]%list_lookup_singleton_Some]].
    + assert (id_index t !! id = Some j) by (by apply Hi). congruence.
    + unfold zlen. lia.
  - rewrite lookup_insert_ne, Hi by done. split; intros [Hj Hk]; split; [done| |done|].
    + by apply lookup_app_l_Some.
    + apply lookup_app_Some in Hk as [Hk|[_ [_ Hn]%list_lookup_singleton_Some]]; [done|congruence].
Qed.

Section IDData.
Context `{Decompressor}.

(** The state of the writer after [i] identifiers. *)
Definition packed (i : Z) (m : metaWriter) : Prop :=
  open_ok m ∧ Forall full (mw_blocks m) ∧ MetadataBlockSize * zlen (mw_blocks m) + zlen (mw_cur m) = 4 * i.

Lemma zlen_unpacked_full bl : Forall full bl → zlen (unpacked bl) = MetadataBlockSize * zlen bl.
Proof.
  induction 1 as [|b bl Hb Hbl IH]; [done|]. change (unpacked (b :: bl)) with (content b ++ unpacked bl).
  rewrite zlen_app, zlen_cons, IH, Hb. unfold MetadataBlockSize. lia.
Qed.

Lemma packed_ref i m : packed i m →
  Ref m = mkRef (Z.to_nat (i / idsPerMetaBlock)) (4 * (i mod idsPerMetaBlock)).
Proof.
  intros (Ho & _ & E). unfold open_ok in Ho. pose proof (zlen_nonneg (mw_cur m)).
  unfold Ref, wrap. change idsPerMetaBlock with 2048. unfold MetadataBlockSize in *.
  rewrite Z.mod_small by lia. unfold zlen in *.
  f_equal; Z.to_euclidean_division_equations; lia.
Qed.

Lemma packed_flush i m : packed i m → i mod idsPerMetaBlock = 0 → Flush m = (inl tt, m).
Proof.
  intros (Ho & _ & E). change idsPerMetaBlock with 2048. intros Hi.
  assert (mw_cur m = []) as Hc.
  { apply length_zero_iff_nil. unfold open_ok, MetadataBlockSize, zlen in *.
    Z.to_euclidean_division_equations. lia. }
  unfold Flush, sealCurrent. by rewrite Hc.
Qed.

Lemma packed_write i id m u m' :
  packed i m → Write (le_bytes 4 id) m = (inl u, m') →
  packed (i + 1) m' ∧ grows m (le_bytes 4 id) m' ∧ at_ref m' (Ref m) (le_bytes 4 id).
Proof.
  intros (Ho & Hf & E) Hw. pose proof (write_loop_full _ _ _ _ _ Ho Hw Hf) as Hf'.
  apply Write_at_ref in Hw as (Hg & Ho' & Hr); [|done]. split; [|done]. split; [done|]. split; [done|].
  pose proof (f_equal zlen (tail_from_grows 0 _ _ _ (Nat.le_0_l _) Hg)) as Hl. unfold tail_from in Hl.
  rewrite !drop_0, !zlen_app, zlen_le_bytes, !zlen_unpacked_full in Hl by done. lia.
Qed.

Definition batches (n : Z) : nat := Z.to_nat ((n + 2047) / 2048).

Lemma pack_ids_spec i ids m starts m' :
  0 ≤ i → packed i m → pack_ids i ids m = (inl starts, m') →
  grows m (concat (map (le_bytes 4) ids)) m' ∧ packed (i + zlen ids) m' ∧
  starts = seq (batches i) (batches (i + zlen ids) - batches i) ∧
  ∀ j id, ids !! j = Some id →
    let k := i + Z.of_nat j in
    at_ref m' (mkRef (Z.to_nat (k / idsPerMetaBlock)) (4 * (k mod idsPerMetaBlock))) (le_bytes 4 id).
Proof.
  revert i m starts. induction ids as [|id ids IH]; intros i m starts Hi Hp Hw; cbn [pack_ids] in Hw.
  { io_inv. change (zlen []) with 0. rewrite Z.add_0_r. split_and!; [apply grows_refl|done| |].
    - by rewrite Nat.sub_diag.
    - intros j id. by rewrite lookup_nil. }
  apply io_bind_inl in Hw as (start & m0 & Hs & Hw).
  assert (m0 = m ∧ start = if i mod idsPerMetaBlock =? 0 then [batches i] else []) as [-> ->].
  { clear Hw IH. destruct (Z.eqb_spec (i mod idsPerMetaBlock) 0) as [E|E]; io_inv; [|done].
    rename select metaWriter into m1. assert (m1 = m) as ->.
    { destruct (negb (i =? 0)); [|by io_inv].
      match goal with H : Flush _ = _ |- _ => rewrite (packed_flush i m) in H by done; by injection H end. }
    split; [done|]. f_equal. pose proof (packed_ref _ _ Hp) as Hr. injection Hr as -> _.
    unfold batches. change idsPerMetaBlock with 2048 in *. f_equal.
    Z.to_euclidean_division_equations. lia. }
  io_inv. rename select (pack_ids _ _ _ = _) into Hw.
  rename select (Write _ _ = _) into Hid. apply (packed_write i) in Hid as (Hp' & Hg & Hr); [|done].
  apply IH in Hw as (Hg' & Hp'' & -> & Hids); [|lia|done]. clear IH.
  rewrite zlen_cons. replace (i + (1 + zlen ids)) with (i + 1 + zlen ids) by lia.
  split_and!; [|done| |].
  - eapply grows_trans; eauto.
  - pose proof (zlen_nonneg ids). unfold batches. change idsPerMetaBlock with 2048.
    destruct (Z.eqb_spec (i mod 2048) 0) as [E|E].
    + replace ((i + 1 + 2047) / 2048) with ((i + 2047) / 2048 + 1) by (Z.to_euclidean_division_equations; lia).
      replace (Z.to_nat ((i + 1 + zlen ids + 2047) / 2048) - Z.to_nat ((i + 2047) / 2048))%nat
        with (S (Z.to_nat ((i + 1 + zlen ids + 2047) / 2048) - Z.to_nat ((i + 2047) / 2048 + 1)))
        by (Z.to_euclidean_division_equations; lia).
      cbn. f_equal. f_equal; (Z.to_euclidean_division_equations; lia).
    + by replace ((i + 1 + 2047) / 2048) with ((i + 2047) / 2048) by (Z.to_euclidean_division_equations; lia).
  - intros [|j] id' Hj; cbn zeta.
    + injection Hj as <-. rewrite Z.add_0_r. rewrite <- (packed_ref i m) by done.
      eapply at_ref_grows; eauto.
    + specialize (Hids j id' Hj). cbn zeta in Hids.
      by replace (i + Z.of_nat (S j)) with (i + 1 + Z.of_nat j) by lia.
Qed.

Lemma grows_new p m : grows newMetaWriter p m → Forall block_ok (mw_blocks m).
Proof. by intros (bl & -> & Hb & _). Qed.

Lemma WriteData_spec {F} `{FileLaws F} t base (f : F) offs n f' w :
  holds f w → id_list t ≠ [] → WriteData t base f = (inl (offs, n), f') →
  ∃ m, Forall block_ok (mw_blocks m) ∧ mw_cur m = [] ∧
    n = zlen (emitted m) ∧ holds f' (w ++ emitted m) ∧
    offs = map (λ k, base + BlockByteOffset k m) (seq 0 (batches (zlen (id_list t)))) ∧
    ∀ i id, id_list t !! i = Some id →
      at_ref m (mkRef (Z.to_nat (Z.of_nat i / idsPerMetaBlock)) (4 * (Z.of_nat i mod idsPerMetaBlock)))
        (le_bytes 4 id).
Proof.
  intros Hh Hne. unfold WriteData. destruct (id_list t) as [|x ids] eqn:E; [done|]. rewrite <- E. clear Hne E.
  case_match eqn:Hrun. case_match; [|done]. intros Hw. io_inv. simplify_eq.
  rename select (pack_ids _ _ _ = _) into Hp. rename select (Flush _ = _) into Hfl.
  rename select (EmitTo _ _ = _) into He.
  assert (packed 0 newMetaWriter) as Hp0 by (split_and!; [done|constructor|done]).
  apply pack_ids_spec in Hp as (Hg & Hpk & -> & Hids); [|done..].
  apply Flush_grows in Hfl as [Hg' Hc]; [|apply Hpk].
  eapply EmitTo_holds in He as [-> Hh']; [|done].
  eexists. split_and!; [by eapply grows_new, grows_trans|done|done|done| |].
  - by rewrite Nat.sub_0_r.
  - intros i id Hi. eapply at_ref_grows; [|done]. by apply (Hids i id).
Qed.
End IDData.
