(* ===== verification/SquashDir.v ===== *)
(** * Squashfs directory listings

    [internal/squashfs/directory.go]: the entries of a directory in name order, batched
    under headers that share a metadata block and a base inode number.  [parse_listing]
    is the format's reading of a listing. *)
From S2P Require Import Prelude GoSort SquashFormat SquashMeta.
From stdpp Require Import sorting.
#[local] Open Scope Z_scope.

Definition maxDirEntriesPerHeader : Z := 256.

Record dirEntry := mkDirEntry {
  d_name : list Z;
  d_childInode : Z;
  d_inodeBlockByte : Z;
  d_inodeBlockOff : Z;
  d_basicType : Z
}.

(** [a < b] on Go strings. *)
Fixpoint string_less (a b : list Z) : bool :=
  match a, b with
  | _, [] => false
  | [], _ :: _ => true
  | x :: a, y :: b => if x =? y then string_less a b else x <? y
  end.

Definition name_less (x y : dirEntry) : bool := string_less (d_name x) (d_name y).

(** The conditions under which an entry can follow [base] under one header. *)
Definition shares_header (base n : dirEntry) : bool :=
  let delta := d_childInode n - d_childInode base in
  (d_inodeBlockByte n =? d_inodeBlockByte base) && negb ((32767 <? delta) || (delta <? -32768)).

(** How many entries of [l] follow [base], at most [k]. *)
Fixpoint probe (k : nat) (base : dirEntry) (l : list dirEntry) : nat :=
  match k, l with
  | S k, n :: l => if shares_header base n then S (probe k base l) else O
  | _, _ => O
  end.

Definition header_bytes (base : dirEntry) (count : Z) : list Z :=
  le_bytes 4 (count - 1) ++ le_bytes 4 (d_inodeBlockByte base) ++ le_bytes 4 (d_childInode base).

Definition entry_bytes (base e : dirEntry) : list Z :=
  le_bytes 2 (d_inodeBlockOff e) ++ le_bytes 2 (d_childInode e - d_childInode base) ++
  le_bytes 2 (d_basicType e) ++ le_bytes 2 (zlen (d_name e) - 1) ++ d_name e.

Section Listing.
Context `{Compressor}.

(** The entries of one header; the result is [listingBytes] after them. *)
Fixpoint write_entries (base : dirEntry) (l : list dirEntry) (listingBytes : Z) : io metaWriter Z :=
  match l with
  | [] => io_ret listingBytes
  | e :: l =>
      if (zlen (d_name e) =? 0) || (256 <? zlen (d_name e)) then io_fail ErrEntryName
      else
        io* _ := Write (entry_bytes base e) in
        write_entries base l (wrap 32 (listingBytes + zlen (entry_bytes base e)))
  end.

(** The loop over headers; each takes at least one entry. *)
Fixpoint write_headers (fuel : nat) (l : list dirEntry) (listingBytes : Z) : io metaWriter Z :=
  match l with
  | [] => io_ret listingBytes
  | base :: rest =>
      match fuel with
      | O => io_fail OutOfFuel
      | S fuel =>
          let count := S (probe (Z.to_nat maxDirEntriesPerHeader - 1) base rest) in
          io* _ := Write (header_bytes base (Z.of_nat count)) in
          io* n := write_entries base (take count l) (wrap 32 (listingBytes + 12)) in
          write_headers fuel (drop count l) n
      end
  end.

Definition writeDirListing (entries : list dirEntry) : io metaWriter (metaRef * Z) :=
  let entries := SliceStable name_less entries in
  io* startRef := io_gets Ref in
  io* listingBytes := write_headers (length entries) entries 0 in
  io_ret (startRef, listingBytes).
End Listing.

(** [basicTypeFor], with the kind of a hard link's target. *)
Definition basicTypeFor (kind : entryKind) (target : option entryKind) : Z :=
  let k := match kind, target with kindHardlink, Some k => k | _, _ => kind end in
  match k with
  | kindFile => InodeBasicFile
  | kindDir => InodeBasicDir
  | kindSymlink => InodeBasicSymlink
  | kindBlockDev => InodeBasicBlock
  | kindCharDev => InodeBasicChar
  | kindFIFO => InodeBasicFIFO
  | kindSocket => InodeBasicSocket
  | kindHardlink => 0
  end.

(** ** The reader *)

(** A 16-bit two's-complement number. *)
Definition int16_of (v : Z) : Z := if v <? 32768 then v else v - 65536.

Fixpoint parse_entries (k : nat) (start base : Z) (s : list Z) : option (list dirEntry * list Z) :=
  match k with
  | O => Some ([], s)
  | S k =>
      '(off, s) ← get 2 s; '(delta, s) ← get 2 s; '(typ, s) ← get 2 s; '(len, s) ← get 2 s;
      '(name, s) ← get_bytes (Z.to_nat (len + 1)) s;
      '(l, s) ← parse_entries k start base s;
      Some (mkDirEntry name (base + int16_of delta) start off typ :: l, s)
  end.

Fixpoint parse_groups (fuel : nat) (s : list Z) : option (list dirEntry) :=
  match s, fuel with
  | [], _ => Some []
  | _, O => None
  | _, S fuel =>
      '(count, s) ← get 4 s; '(start, s) ← get 4 s; '(base, s) ← get 4 s;
      if 255 <? count then None
      else
        '(l, s) ← parse_entries (Z.to_nat (count + 1)) start base s;
        rest ← parse_groups fuel s;
        Some (l ++ rest)
  end.

Definition parse_listing (s : list Z) : option (list dirEntry) := parse_groups (length s) s.

(** ** Reading back *)

#[local] Arguments le_bytes : simpl never.
#[local] Arguments get : simpl never.
#[local] Arguments get_bytes : simpl never.

Record dirEntry_ok (e : dirEntry) : Prop := {
  dk_child : fits_in 4 (d_childInode e);
  dk_block : fits_in 4 (d_inodeBlockByte e);
  dk_off : fits_in 2 (d_inodeBlockOff e);
  dk_type : fits_in 2 (d_basicType e)
}.

(** The bytes of the entries under one header, and of a listing. *)
Definition group_bytes (base : dirEntry) (l : list dirEntry) : list Z := concat (map (entry_bytes base) l).

Lemma get_signed d s : -32768 ≤ d ≤ 32767 →
  ∃ v, get 2 (le_bytes 2 d ++ s) = Some (v, s) ∧ int16_of v = d.
Proof.
  intros Hd. exists (d mod 65536). unfold get. rewrite get_bytes_app by (by rewrite length_le_bytes).
  cbn [mbind option_bind]. rewrite le_val_le_bytes. split; [done|]. unfold int16_of.
  case_match; bool_prop; Z.to_euclidean_division_equations; lia.
Qed.

Lemma parse_group base l s :
  Forall dirEntry_ok l → Forall (λ e, shares_header base e = true) l →
  Forall (λ e, 0 < zlen (d_name e) ≤ 256) l →
  parse_entries (length l) (d_inodeBlockByte base) (d_childInode base) (group_bytes base l ++ s) =
    Some (l, s).
Proof.
  induction l as [|e l IH]; [done|]. rewrite !Forall_cons. intros [Hk Hks] [Hs Hss] [Hn Hns].
  unfold group_bytes. cbn [map concat length parse_entries]. fold (group_bytes base l).
  unfold shares_header in Hs. apply andb_true_iff in Hs as [Hb Hd].
  apply negb_true_iff, orb_false_iff in Hd as [Hd1 Hd2]. bool_prop.
  unfold entry_bytes. destruct Hk. parse_steps. rewrite <- ?app_assoc.
  destruct (get_signed (d_childInode e - d_childInode base)
    (le_bytes 2 (d_basicType e) ++ le_bytes 2 (zlen (d_name e) - 1) ++ d_name e ++ group_bytes base l ++ s))
    as (v & Hv & Hi); [lia|]. rewrite Hv. cbn [mbind option_bind].
  assert (fits_in 2 (zlen (d_name e) - 1)) by (unfold fits_in; cbn; lia). parse_steps.
  rewrite get_bytes_app by (unfold zlen; lia). cbn [mbind option_bind].
  rewrite IH by done. cbn. rewrite Hi, <- Hb. do 2 f_equal. destruct e; cbn. do 2 f_equal. lia.
Qed.

Lemma probe_shares k base l : Forall (λ e, shares_header base e = true) (take (probe k base l) l).
Proof.
  revert l. induction k as [|k IH]; intros [|n l]; cbn; try constructor.
  case_match; constructor; auto.
Qed.

Lemma probe_le k base l : (probe k base l ≤ k)%nat.
Proof.
  revert l. induction k as [|k IH]; intros [|n l]; cbn; try lia.
  case_match; [specialize (IH l)|]; lia.
Qed.

Lemma shares_header_refl base : shares_header base base = true.
Proof. unfold shares_header. rewrite Z.eqb_refl, Z.sub_diag. done. Qed.

Lemma wrap_wrap_add a b : wrap 32 (wrap 32 a + b) = wrap 32 (a + b).
Proof. unfold wrap. by rewrite Zplus_mod_idemp_l. Qed.

Lemma zlen_entry_bytes base e : zlen (entry_bytes base e) = 8 + zlen (d_name e).
Proof. unfold entry_bytes. autorewrite with bytes. lia. Qed.

Section Correct.
Context `{Decompressor}.

Lemma write_entries_spec base l n0 m n m' :
  open_ok m → n0 = wrap 32 n0 → write_entries base l n0 m = (inl n, m') →
  grows m (group_bytes base l) m' ∧ open_ok m' ∧ n = wrap 32 (n0 + zlen (group_bytes base l)) ∧
  Forall (λ e, 0 < zlen (d_name e) ≤ 256) l ∧
  8 * zlen l ≤ zlen (group_bytes base l) ≤ 264 * zlen l.
Proof.
  revert n0 m. induction l as [|e l IH]; intros n0 m Ho Hn Hw; cbn [write_entries] in Hw.
  { io_inv. change (group_bytes base []) with (@nil Z). change (zlen []) with 0.
    rewrite Z.add_0_r. split_and!; [apply grows_refl|done|done|constructor|lia|lia]. }
  case_match eqn:Hname; [done|]. bool_prop. io_inv.
  rename select (Write _ _ = _) into Hw1. rename select (write_entries _ _ _ _ = _) into Hw.
  apply Write_grows in Hw1 as [Hg Ho1]; [|done].
  apply IH in Hw as (Hg' & Ho' & -> & Hns & Hb); [|done|unfold wrap; by rewrite Zmod_mod].
  change (group_bytes base (e :: l)) with (entry_bytes base e ++ group_bytes base l).
  rewrite wrap_wrap_add, zlen_cons, zlen_app, !zlen_entry_bytes.
  pose proof (zlen_nonneg (d_name e)).
  split_and!; [by eapply grows_trans|done|f_equal; lia|constructor; [lia|done]|lia|lia].
Qed.

Lemma write_headers_spec fuel l n0 m n m' :
  open_ok m → n0 = wrap 32 n0 → write_headers fuel l n0 m = (inl n, m') →
  ∃ bs, grows m bs m' ∧ open_ok m' ∧ n = wrap 32 (n0 + zlen bs) ∧
    8 * zlen l ≤ zlen bs ≤ 276 * zlen l ∧
    (Forall dirEntry_ok l → ∀ f, (length l ≤ f)%nat → parse_groups f bs = Some l).
Proof.
  revert l n0 m. induction fuel as [|fuel IH]; intros [|base rest] n0 m Ho Hn Hw; cbn [write_headers] in Hw.
  1, 3: io_inv; exists []; change (@zlen Z []) with 0; change (@zlen dirEntry []) with 0;
    rewrite Z.add_0_r; split_and!; [apply grows_refl|done|done|lia|lia|by intros _ []].
  { done. }
  set (k := probe (Z.to_nat maxDirEntriesPerHeader - 1) base rest) in *. io_inv.
  rename select (Write _ _ = _) into Hh. rename select (write_entries _ _ _ _ = _) into He.
  rename select (write_headers _ _ _ _ = _) into Hw.
  apply Write_grows in Hh as [Hg Ho1]; [|done].
  apply write_entries_spec in He as (Hg1 & Ho2 & -> & Hns & Hb); [|done|unfold wrap; by rewrite Zmod_mod].
  apply IH in Hw as (bs & Hg2 & Ho3 & -> & Hbs & Hparse); [|done|unfold wrap; by rewrite Zmod_mod]. clear IH.
  assert (Hk : (length (take (S k) (base :: rest)) = S k)%nat).
  { pose proof (probe_shares (Z.to_nat maxDirEntriesPerHeader - 1) base rest).
    rewrite length_take. cbn. unfold k. clear. revert rest. generalize (Z.to_nat maxDirEntriesPerHeader - 1)%nat.
    induction n as [|n IH]; intros [|r rest]; cbn; try lia. case_match; [|lia]. specialize (IH rest). lia. }
  assert (k ≤ 255)%nat by apply probe_le.
  exists (header_bytes base (Z.of_nat (S k)) ++ group_bytes base (take (S k) (base :: rest)) ++ bs).
  assert (zlen (header_bytes base (Z.of_nat (S k))) = 12) as Hhl
    by (unfold header_bytes; by autorewrite with bytes).
  assert (zlen (base :: rest) = zlen (take (S k) (base :: rest)) + zlen (drop (S k) (base :: rest))) as Hl
    by (rewrite <- zlen_app; by rewrite take_drop).
  split_and!; [by eauto using grows_trans|done| | | |].
  - rewrite !zlen_app, Hhl, wrap_wrap_add, <- (Z.add_assoc (wrap 32 _)), wrap_wrap_add. f_equal. lia.
  - rewrite !zlen_app. lia.
  - rewrite !zlen_app. unfold zlen in *. lia.
  - intros Hok [|f] Hf; [cbn in Hf; lia|].
    assert (Hh4 : fits_in 4 (Z.of_nat (S k) - 1)) by (unfold fits_in; cbn; lia).
    pose proof Hok as [[] _]%Forall_cons.
    transitivity ('(count, s) ← get 4 (header_bytes base (Z.of_nat (S k)) ++
        group_bytes base (take (S k) (base :: rest)) ++ bs);
      '(start, s) ← get 4 s; '(b, s) ← get 4 s;
      if 255 <? count then None
      else '(l, s) ← parse_entries (Z.to_nat (count + 1)) start b s;
           r ← parse_groups f s; Some (l ++ r)); [done|].
    unfold header_bytes. parse_steps.
    destruct (Z.ltb_spec 255 (Z.of_nat (S k) - 1)); [lia|].
    replace (Z.to_nat (Z.of_nat (S k) - 1 + 1)) with (length (take (S k) (base :: rest))) by lia.
    rewrite parse_group; [|by apply Forall_take| |done].
    + cbn [mbind option_bind]. rewrite Hparse; [exact (f_equal Some (take_drop (S k) (base :: rest)))|by apply Forall_drop|].
      rewrite length_drop. cbn in *. lia.
    + constructor; [apply shares_header_refl|]. apply probe_shares.
Qed.

(** A listing reads back as its entries in name order. *)
Lemma writeDirListing_spec entries m r n m' :
  open_ok m → writeDirListing entries m = (inl (r, n), m') →
  ∃ bs, grows m bs m' ∧ open_ok m' ∧ r = Ref m ∧ n = wrap 32 (zlen bs) ∧ zlen bs ≤ 276 * zlen entries ∧
    (Forall dirEntry_ok entries → parse_listing bs = Some (SliceStable name_less entries)).
Proof.
  intros Ho Hw. unfold writeDirListing in Hw. io_inv. simplify_eq.
  rename select (write_headers _ _ _ _ = _) into Hw.
  apply write_headers_spec in Hw as (bs & Hg & Ho' & -> & Hb & Hp); [|done..].
  assert (zlen (SliceStable name_less entries) = zlen entries) as E
    by (unfold zlen; by rewrite SliceStable_perm).
  exists bs. split_and!; [done..|lia|]. intros Hok. apply Hp.
  - by rewrite SliceStable_perm.
  - unfold zlen in *. lia.
Qed.
End Correct.

(** ** Go's order on strings *)

Lemma string_less_asym x y : string_less x y = true → string_less y x = false.
Proof.
  revert y. induction x as [|a x IH]; intros [|b y]; cbn; try done.
  destruct (Z.eqb_spec a b), (Z.eqb_spec b a); try congruence; [by auto|]. rewrite Z.ltb_lt, Z.ltb_ge. lia.
Qed.

Lemma string_less_weak x y z : string_less y x = false → string_less z y = false → string_less z x = false.
Proof.
  revert y z. induction x as [|a x IH]; intros [|b y] [|c z]; cbn; try done.
  destruct (Z.eqb_spec b a), (Z.eqb_spec c b), (Z.eqb_spec c a); subst; try done; rewrite ?Z.ltb_ge; try lia.
  by apply IH.
Qed.

Lemma string_less_total x y : string_less x y = false → string_less y x = false → x = y.
Proof.
  revert y. induction x as [|a x IH]; intros [|b y]; cbn; try done.
  destruct (Z.eqb_spec a b), (Z.eqb_spec b a); subst; try congruence; rewrite ?Z.ltb_ge; [|lia].
  intros. f_equal. by apply IH.
Qed.

Lemma names_sorted ds l :
  map d_name ds ≡ₚ l → map d_name (SliceStable name_less ds) = SliceStable string_less l.
Proof.
  intros Hp. unfold name_less. rewrite (map_SliceStable d_name string_less).
  apply SliceStable_perm_eq; [apply string_less_asym|apply string_less_weak|apply string_less_total|done].
Qed.
