(* ===== verification/SquashWriter.v ===== *)
(** * The squashfs writer

    [internal/squashfs/writer.go]: options, the [Create*] methods, the streaming of file
    contents and [Close].  The compressor is the class instance in scope; the output is any
    [WriteSeeker].  Pointers to entries are paths (see [entry]).  Recursion over the tree
    of entries takes as fuel the length of the longest path, which bounds the depth. *)
From S2P Require Import Prelude GoSort SquashFormat SquashMeta SquashDir.
From stdpp Require Import sorting.
#[local] Open Scope Z_scope.

(** ** Paths *)

Definition slash : Z := 47.
Definition dot : Z := 46.
Definition root_path : list Z := [slash].

(** [strings.Split(p, "/")]. *)
Fixpoint split_slash (p : list Z) : list (list Z) :=
  match p with
  | [] => [[]]
  | c :: p =>
      if c =? slash then [] :: split_slash p
      else match split_slash p with
           | part :: parts => (c :: part) :: parts
           | [] => [[c]]
           end
  end.

(** The components of an absolute path. *)
Definition components (p : list Z) : list (list Z) := split_slash (tail p).

Definition path_of (parts : list (list Z)) : list Z :=
  match parts with [] => root_path | _ => concat (map (cons slash) parts) end.

(** [path.Base] and [path.Dir] of a canonical absolute path other than the root. *)
Definition Base (p : list Z) : list Z := List.last (components p) root_path.
Definition Dir (p : list Z) : list Z := path_of (removelast (components p)).

Definition bad_part (part : list Z) : bool :=
  bool_decide (part = [] ∨ part = [dot] ∨ part = [dot; dot]).

Definition validatePath (p : list Z) : option sq_error :=
  if bool_decide (p = [] ∨ p = root_path) then Some ErrInvalidPath
  else if negb (bool_decide (head p = Some slash)) then Some ErrInvalidPath
  else if bool_decide (last p = Some slash) then Some ErrInvalidPath
  else if existsb bad_part (split_slash (tail p)) then Some ErrInvalidPath
  else None.

(** ** State *)

(** The writer returned by [CreateFile]. *)
Record fileWriter := mkFile { fw_e : list Z; fw_buf : list Z }.

Abbreviation entries := (gmap (list Z) entry).

Record Writer (F : Type) := mkWriter {
  w_out : F;
  w_blockSize : Z;
  w_mtime : option Z;
  w_closed : bool;
  w_finished : bool;
  w_outPos : Z;
  w_entries : entries;
  w_entryOrder : list (list Z);
  w_curFile : option fileWriter;
  w_ids : idTable
}.
Arguments mkWriter {_} _ _ _ _ _ _ _ _ _ _.
Arguments w_out {_} _.
Arguments w_blockSize {_} _.
Arguments w_mtime {_} _.
Arguments w_closed {_} _.
Arguments w_finished {_} _.
Arguments w_outPos {_} _.
Arguments w_entries {_} _.
Arguments w_entryOrder {_} _.
Arguments w_curFile {_} _.
Arguments w_ids {_} _.

(** *** Field updates *)

Definition set_out {F : Type} (out : F) (pos : Z) (w : Writer F) : Writer F :=
  mkWriter out (w_blockSize w) (w_mtime w) (w_closed w) (w_finished w) pos (w_entries w)
    (w_entryOrder w) (w_curFile w) (w_ids w).
Definition set_closed {F : Type} (b : bool) (w : Writer F) : Writer F :=
  mkWriter (w_out w) (w_blockSize w) (w_mtime w) b (w_finished w) (w_outPos w) (w_entries w)
    (w_entryOrder w) (w_curFile w) (w_ids w).
Definition set_finished {F : Type} (b : bool) (w : Writer F) : Writer F :=
  mkWriter (w_out w) (w_blockSize w) (w_mtime w) (w_closed w) b (w_outPos w) (w_entries w)
    (w_entryOrder w) (w_curFile w) (w_ids w).
Definition set_entries {F : Type} (ents : entries) (w : Writer F) : Writer F :=
  mkWriter (w_out w) (w_blockSize w) (w_mtime w) (w_closed w) (w_finished w) (w_outPos w) ents
    (w_entryOrder w) (w_curFile w) (w_ids w).
Definition set_curFile {F : Type} (fw : option fileWriter) (w : Writer F) : Writer F :=
  mkWriter (w_out w) (w_blockSize w) (w_mtime w) (w_closed w) (w_finished w) (w_outPos w) (w_entries w)
    (w_entryOrder w) fw (w_ids w).
Definition set_ids {F : Type} (ids : idTable) (w : Writer F) : Writer F :=
  mkWriter (w_out w) (w_blockSize w) (w_mtime w) (w_closed w) (w_finished w) (w_outPos w) (w_entries w)
    (w_entryOrder w) (w_curFile w) ids.

Definition add_entry {F : Type} (p : list Z) (e : entry) (w : Writer F) : Writer F :=
  mkWriter (w_out w) (w_blockSize w) (w_mtime w) (w_closed w) (w_finished w) (w_outPos w)
    (<[p := e]> (w_entries w)) (w_entryOrder w ++ [p]) (w_curFile w) (w_ids w).

Definition no_attrs : Attrs := mkAttrs [] 0 0 0 None.

(** [&entry{path, kind, attrs}] and the fields the kinds add. *)
Definition new_entry (p : list Z) (k : entryKind) (attrs : Attrs) (start : Z) (target : list Z)
    (link : option (list Z)) (major minor : Z) : entry :=
  mkEntry p k attrs 0 (mkRef 0 0) 0 0 0 start [] 0 target link major minor [] 0 0 0 0.

Definition upd_file (sizes : list Z) (size : Z) (e : entry) : entry :=
  mkEntry (e_path e) (e_kind e) (e_attrs e) (e_inodeNumber e) (e_inodeRef e) (e_nlinks e)
    (e_uidIdx e) (e_gidIdx e) (e_fileBlocksStart e) sizes size (e_symlinkTarget e)
    (e_hardlinkTarget e) (e_devMajor e) (e_devMinor e) (e_children e) (e_dirBlockStart e)
    (e_dirBlockOffset e) (e_dirListingSize e) (e_parentInode e).
Definition upd_children (l : list (list Z)) (e : entry) : entry :=
  mkEntry (e_path e) (e_kind e) (e_attrs e) (e_inodeNumber e) (e_inodeRef e) (e_nlinks e)
    (e_uidIdx e) (e_gidIdx e) (e_fileBlocksStart e) (e_fileBlockSizes e) (e_fileSize e)
    (e_symlinkTarget e) (e_hardlinkTarget e) (e_devMajor e) (e_devMinor e) l (e_dirBlockStart e)
    (e_dirBlockOffset e) (e_dirListingSize e) (e_parentInode e).
Definition upd_number (n parent : Z) (e : entry) : entry :=
  mkEntry (e_path e) (e_kind e) (e_attrs e) n (e_inodeRef e) (e_nlinks e)
    (e_uidIdx e) (e_gidIdx e) (e_fileBlocksStart e) (e_fileBlockSizes e) (e_fileSize e)
    (e_symlinkTarget e) (e_hardlinkTarget e) (e_devMajor e) (e_devMinor e) (e_children e)
    (e_dirBlockStart e) (e_dirBlockOffset e) (e_dirListingSize e) parent.
Definition upd_nlinks (n : Z) (e : entry) : entry :=
  mkEntry (e_path e) (e_kind e) (e_attrs e) (e_inodeNumber e) (e_inodeRef e) n
    (e_uidIdx e) (e_gidIdx e) (e_fileBlocksStart e) (e_fileBlockSizes e) (e_fileSize e)
    (e_symlinkTarget e) (e_hardlinkTarget e) (e_devMajor e) (e_devMinor e) (e_children e)
    (e_dirBlockStart e) (e_dirBlockOffset e) (e_dirListingSize e) (e_parentInode e).
Definition upd_ids (u g : Z) (e : entry) : entry :=
  mkEntry (e_path e) (e_kind e) (e_attrs e) (e_inodeNumber e) (e_inodeRef e) (e_nlinks e)
    u g (e_fileBlocksStart e) (e_fileBlockSizes e) (e_fileSize e)
    (e_symlinkTarget e) (e_hardlinkTarget e) (e_devMajor e) (e_devMinor e) (e_children e)
    (e_dirBlockStart e) (e_dirBlockOffset e) (e_dirListingSize e) (e_parentInode e).
Definition upd_ref (r : metaRef) (e : entry) : entry :=
  mkEntry (e_path e) (e_kind e) (e_attrs e) (e_inodeNumber e) r (e_nlinks e)
    (e_uidIdx e) (e_gidIdx e) (e_fileBlocksStart e) (e_fileBlockSizes e) (e_fileSize e)
    (e_symlinkTarget e) (e_hardlinkTarget e) (e_devMajor e) (e_devMinor e) (e_children e)
    (e_dirBlockStart e) (e_dirBlockOffset e) (e_dirListingSize e) (e_parentInode e).
Definition upd_link (r : metaRef) (n : Z) (e : entry) : entry :=
  upd_ref r (upd_number n (e_parentInode e) e).
Definition upd_listing (start off size : Z) (e : entry) : entry :=
  mkEntry (e_path e) (e_kind e) (e_attrs e) (e_inodeNumber e) (e_inodeRef e) (e_nlinks e)
    (e_uidIdx e) (e_gidIdx e) (e_fileBlocksStart e) (e_fileBlockSizes e) (e_fileSize e)
    (e_symlinkTarget e) (e_hardlinkTarget e) (e_devMajor e) (e_devMinor e) (e_children e)
    start off size (e_parentInode e).

(** Run [f] on every element in turn. *)
Fixpoint io_for {E S A} (f : A → fallible E S unit) (l : list A) : fallible E S unit :=
  match l with
  | [] => io_ret tt
  | x :: l => io* _ := f x in io_for f l
  end.

Fixpoint io_fold {E S A B} (f : B → A → fallible E S B) (b : B) (l : list A) : fallible E S B :=
  match l with
  | [] => io_ret b
  | x :: l => io* b := f b x in io_fold f b l
  end.

(** A pointer that is certainly not nil. *)
Definition deref {S} (lookup : S → entries) (p : list Z) : io S entry := λ s,
  match lookup s !! p with Some e => (inl e, s) | None => (inr NilPointer, s) end.

Section Writer.
Context `{Compressor} {F : Type} `{WriteSeeker F}.

(** ** Construction *)

(** [Option]; the argument of [WithCompressor] says whether it is the compressor in scope
    or nil. *)
Inductive Option_ : Type :=
| WithBlockSize (n : Z)
| WithCompressor (given : bool)
| WithFixedMtime (t : option Z).

Record writerConfig := mkConfig {
  cfg_blockSize : Z;
  cfg_compressor : bool;
  cfg_mtime : option Z
}.

Definition apply_option (cfg : writerConfig) (opt : Option_) : writerConfig + sq_error :=
  match opt with
  | WithBlockSize n =>
      if (n <? MinBlockSize) || (MaxBlockSize <? n) then inr ErrBlockSizeRange
      else if negb (Z.land n (n - 1) =? 0) then inr ErrBlockSizePower
      else inl (mkConfig n (cfg_compressor cfg) (cfg_mtime cfg))
  | WithCompressor given =>
      if given then inl (mkConfig (cfg_blockSize cfg) true (cfg_mtime cfg)) else inr ErrNoCompressor
  | WithFixedMtime t => inl (mkConfig (cfg_blockSize cfg) (cfg_compressor cfg) t)
  end.

Fixpoint apply_options (cfg : writerConfig) (opts : list Option_) : writerConfig + sq_error :=
  match opts with
  | [] => inl cfg
  | opt :: opts =>
      match apply_option cfg opt with inr err => inr err | inl cfg => apply_options cfg opts end
  end.

Definition file_seek : io F unit := λ f,
  match fs_Seek f with (None, f) => (inl tt, f) | (Some msg, f) => (inr (ErrIO msg), f) end.

Definition NewWriter (opts : list Option_) (out : F) : Writer F + sq_error :=
  match apply_options (mkConfig DefaultBlockSize false None) opts with
  | inr err => inr err
  | inl cfg =>
      if negb (cfg_compressor cfg) then inr ErrNoCompressor
      else
        match (io* _ := file_seek in file_write (replicate (Z.to_nat superblockSize) 0)) out with
        | (inr err, _) => inr err
        | (inl _, out) =>
            inl (mkWriter out (cfg_blockSize cfg) (cfg_mtime cfg) false false superblockSize ∅ [] None
                   newIDTable)
        end
  end.

(** ** File contents *)

(** [emitBlock] of the current file: compress the buffer, write it, record its size. *)
Definition emitBlock : io (Writer F) unit := λ w,
  match w_curFile w with
  | None => (inr NilPointer, w)
  | Some fw =>
      if bool_decide (fw_buf fw = []) then (inl tt, w)
      else
        let put disk sizeWord :=
          let '((n, werr), out) := fs_Write disk (w_out w) in
          let w := set_out out (w_outPos w + n) w in
          match werr with
          | Some msg => (inr (ErrIO msg), w)
          | None =>
              let add e := upd_file (e_fileBlockSizes e ++ [sizeWord]) (e_fileSize e) e in
              (inl tt, set_curFile (Some (mkFile (fw_e fw) []))
                         (set_entries (alter add (fw_e fw) (w_entries w)) w))
          end in
        let raw := put (fw_buf fw) (Z.lor (wrap 32 (zlen (fw_buf fw))) DataBlockUncompressedBit) in
        match Compress (fw_buf fw) with
        | Incompressible => raw
        | CompressFailed msg => (inr (ErrCompress msg), w)
        | Compressed out => if zlen (fw_buf fw) <=? zlen out then raw else put out (wrap 32 (zlen out))
        end
  end.

(** The loop of [fileWriter.Write].  A round takes a byte or more, but for the first one
    after a failed call, which left the buffer full. *)
Fixpoint file_loop (fuel : nat) (p : list Z) : io (Writer F) unit :=
  match p with
  | [] => io_ret tt
  | _ =>
      match fuel with
      | O => io_fail OutOfFuel
      | S fuel => λ w,
          match w_curFile w with
          | None => (inr NilPointer, w)
          | Some fw =>
              let need := w_blockSize w - zlen (fw_buf fw) in
              let n := Z.to_nat (Z.min (zlen p) need) in
              let buf := fw_buf fw ++ take n p in
              let w := set_curFile (Some (mkFile (fw_e fw) buf)) w in
              (io* _ := (if zlen buf =? w_blockSize w then emitBlock else io_ret tt) in
               file_loop fuel (drop n p)) w
          end
      end
  end.

(** [fileWriter.Write] on the writer that [CreateFile] returned for [file]: it is stale
    once another file is current or none is. *)
Definition FileWrite (file p : list Z) : io (Writer F) Z :=
  io* cur := io_gets w_curFile in
  io* closed := io_gets w_closed in
  if negb (bool_decide (fw_e <$> cur = Some file)) then io_fail ErrStaleEntry
  else if closed : bool then io_fail ErrClosed
  else
    io* _ := file_loop (S (length p)) p in
    io* _ := io_modify (λ w, set_entries
      (alter (λ e, upd_file (e_fileBlockSizes e) (wrap 64 (e_fileSize e + zlen p)) e) file (w_entries w)) w) in
    io_ret (zlen p).

Definition flushTail : io (Writer F) unit := emitBlock.

Definition flushCurFile : io (Writer F) unit :=
  io* cur := io_gets w_curFile in
  match cur with
  | None => io_ret tt
  | Some _ =>
      io* _ := flushTail in
      io_modify (set_curFile None)
  end.

(** ** Entries *)

Definition beginEntry (p : list Z) : io (Writer F) unit :=
  io* closed := io_gets w_closed in
  if closed : bool then io_fail ErrClosed
  else
    io* _ := flushCurFile in
    match validatePath p with
    | Some err => io_fail err
    | None =>
        io* ents := io_gets w_entries in
        if bool_decide (is_Some (ents !! p)) then io_fail (ErrDuplicate p) else io_ret tt
    end.

Definition CreateFile (attrs : Attrs) : io (Writer F) (list Z) :=
  io* _ := beginEntry (a_Path attrs) in
  io* pos := io_gets w_outPos in
  io* _ := io_modify (add_entry (a_Path attrs) (new_entry (a_Path attrs) kindFile attrs pos [] None 0 0)) in
  io* _ := io_modify (set_curFile (Some (mkFile (a_Path attrs) []))) in
  io_ret (a_Path attrs).

Definition CreateDir (attrs : Attrs) : io (Writer F) unit :=
  io* _ := beginEntry (a_Path attrs) in
  io_modify (add_entry (a_Path attrs) (new_entry (a_Path attrs) kindDir attrs 0 [] None 0 0)).

Definition CreateSymlink (attrs : Attrs) (target : list Z) : io (Writer F) unit :=
  io* _ := beginEntry (a_Path attrs) in
  if bool_decide (target = []) then io_fail ErrEmptySymlink
  else io_modify (add_entry (a_Path attrs) (new_entry (a_Path attrs) kindSymlink attrs 0 target None 0 0)).

Definition CreateHardlink (linkPath target : list Z) : io (Writer F) unit :=
  io* closed := io_gets w_closed in
  if closed : bool then io_fail ErrClosed
  else
    io* _ := flushCurFile in
    match validatePath linkPath with
    | Some err => io_fail err
    | None =>
        match validatePath target with
        | Some err => io_fail err
        | None =>
            io* ents := io_gets w_entries in
            if bool_decide (is_Some (ents !! linkPath)) then io_fail (ErrDuplicate linkPath)
            else if negb (bool_decide (e_kind <$> ents !! target = Some kindFile))
            then io_fail ErrHardlinkTarget
            else io_modify (add_entry linkPath
                   (new_entry linkPath kindHardlink no_attrs 0 [] (Some target) 0 0))
        end
    end.

(** [CreateCharDevice] and [CreateBlockDevice]. *)
Definition create_device (k : entryKind) (attrs : Attrs) (major minor : Z) : io (Writer F) unit :=
  io* _ := beginEntry (a_Path attrs) in
  io_modify (add_entry (a_Path attrs) (new_entry (a_Path attrs) k attrs 0 [] None major minor)).

Definition CreateCharDevice : Attrs → Z → Z → io (Writer F) unit := create_device kindCharDev.
Definition CreateBlockDevice : Attrs → Z → Z → io (Writer F) unit := create_device kindBlockDev.

Definition CreateFIFO (attrs : Attrs) : io (Writer F) unit :=
  io* _ := beginEntry (a_Path attrs) in
  io_modify (add_entry (a_Path attrs) (new_entry (a_Path attrs) kindFIFO attrs 0 [] None 0 0)).

Definition CreateSocket (attrs : Attrs) : io (Writer F) unit :=
  io* _ := beginEntry (a_Path attrs) in
  io_modify (add_entry (a_Path attrs) (new_entry (a_Path attrs) kindSocket attrs 0 [] None 0 0)).
End Writer.

(** ** The tree of entries *)

(** The length of the longest path: no chain of directories is longer. *)
Definition depth_fuel (ents : entries) : nat := map_fold (λ p _ n, Nat.max (length p) n) 1%nat ents.

Definition synthetic_root (mtime : option Z) : entry :=
  new_entry root_path kindDir (mkAttrs [] 0x1ed 0 0 mtime) 0 [] None 0 0.

(** One entry of the first loop of [buildTree]. *)
Definition link_child (ents : entries) (p : list Z) : entries + sq_error :=
  if bool_decide (p = root_path) then inl ents
  else match ents !! Dir p with
       | None => inr (ErrNoParent p)
       | Some parent =>
           if bool_decide (e_kind parent = kindDir)
           then inl (<[Dir p := upd_children (e_children parent ++ [p]) parent]> ents)
           else inr (ErrParentNotDir p)
       end.

Fixpoint link_children (ents : entries) (order : list (list Z)) : entries + sq_error :=
  match order with
  | [] => inl ents
  | p :: order =>
      match link_child ents p with inr err => inr err | inl ents => link_children ents order end
  end.

Definition is_dir (ents : entries) (p : list Z) : bool := bool_decide (e_kind <$> ents !! p = Some kindDir).

Definition base_less (p q : list Z) : bool := string_less (Base p) (Base q).

(** A pass over the entries: the entries after it, or its error. *)
Definition exec {S A} (m : io S A) (s : S) : S + sq_error :=
  match m s with (inl _, s') => inl s' | (inr err, _) => inr err end.

(** [sort.Slice] on the children; base names of siblings are distinct. *)
Fixpoint sortRec (fuel : nat) (d : list Z) : io entries unit :=
  match fuel with
  | O => io_fail OutOfFuel
  | S fuel =>
      io* _ := io_modify (alter (λ e, upd_children (SliceStable base_less (e_children e)) e) d) in
      io* e := deref id d in
      io_for (λ c,
        io* dir := io_gets (λ ents, is_dir ents c) in
        if dir : bool then sortRec fuel c else io_ret tt) (e_children e)
  end.

Definition buildTree (mtime : option Z) (order : list (list Z)) (ents : entries) : entries + sq_error :=
  let ents := match ents !! root_path with
              | Some _ => ents
              | None => <[root_path := synthetic_root mtime]> ents
              end in
  match link_children ents order with
  | inr err => inr err
  | inl ents => exec (sortRec (depth_fuel ents) root_path) ents
  end.

(** The [walk] of [assignInodeNumbers]; the first component of the state is [next]. *)
Fixpoint number_walk (fuel : nat) (p : list Z) (parent : Z) : io (Z * entries) unit :=
  match fuel with
  | O => io_fail OutOfFuel
  | S fuel =>
      io* e := deref snd p in
      if bool_decide (e_kind e = kindHardlink) then io_ret tt
      else
        io* number := io_gets fst in
        io* _ := io_modify (λ '(next, ents), (wrap 32 (next + 1), <[p := upd_number next parent e]> ents)) in
        if bool_decide (e_kind e = kindDir)
        then io_for (λ c, number_walk fuel c number) (e_children e)
        else io_ret tt
  end.

Definition assignInodeNumbers (ents : entries) : entries + sq_error :=
  match exec (number_walk (depth_fuel ents) root_path 1) (1, ents) with
  | inl (_, ents) => inl ents
  | inr err => inr err
  end.

(** One entry of the first loop of [computeLinkCounts]. *)
Definition count_link (ents : entries) (p : list Z) : entries :=
  match ents !! p with
  | None => ents
  | Some e =>
      match e_kind e with
      | kindFile | kindSymlink | kindCharDev | kindBlockDev | kindFIFO | kindSocket =>
          <[p := upd_nlinks 1 e]> ents
      | kindHardlink =>
          match e_hardlinkTarget e with
          | Some t => alter (λ e, upd_nlinks (wrap 32 (e_nlinks e + 1)) e) t ents
          | None => ents
          end
      | kindDir => ents
      end
  end.

(** The [walk] over directories. *)
Fixpoint link_walk (fuel : nat) (d : list Z) : io entries unit :=
  match fuel with
  | O => io_fail OutOfFuel
  | S fuel =>
      io* e := deref id d in
      io* subdirs := io_fold (λ n c,
        io* dir := io_gets (λ ents, is_dir ents c) in
        if dir : bool then io* _ := link_walk fuel c in io_ret (wrap 32 (n + 1)) else io_ret n)
        0 (e_children e) in
      io_modify (alter (upd_nlinks (wrap 32 (2 + subdirs))) d)
  end.

(** [order] is the order in which Go visits the map. *)
Definition computeLinkCounts (order : list (list Z)) (ents : entries) : entries + sq_error :=
  let ents := foldl count_link ents order in
  exec (link_walk (depth_fuel ents) root_path) ents.

(** ** Identifiers and times *)

Definition intern_owner (p : list Z) : io (entries * idTable) unit :=
  io* e := deref fst p in
  let on_ids id : io (entries * idTable) Z :=
    λ '(ents, ids), let '(res, ids) := Intern id ids in (res, (ents, ids)) in
  io* u := on_ids (a_UID (e_attrs e)) in
  io* g := on_ids (a_GID (e_attrs e)) in
  io_modify (λ '(ents, ids), (<[p := upd_ids u g e]> ents, ids)).

Definition internIDs (order : list (list Z)) : io (entries * idTable) unit :=
  io* _ := io_for (λ p,
    io* e := deref fst p in
    if bool_decide (e_kind e = kindHardlink) then io_ret tt else intern_owner p) order in
  io* root := deref fst root_path in
  if (e_uidIdx root =? 0) && (e_gidIdx root =? 0) then intern_owner root_path else io_ret tt.

Definition entryMtime (fixed : option Z) (e : entry) : Z + sq_error :=
  let t := match fixed with Some _ => fixed | None => a_Mtime (e_attrs e) end in
  match t with
  | None => inl 0
  | Some sec => if (sec <? 0) || (0xFFFFFFFF <? sec) then inr ErrMtime else inl sec
  end.

Definition clamp32 (sec : Z) : Z := if sec <? 0 then 0 else if 0xFFFFFFFF <? sec then 0xFFFFFFFF else sec.

Definition imageMtime (fixed : option Z) (ents : entries) : Z :=
  match fixed with
  | Some sec => clamp32 sec
  | None => clamp32 (map_fold (λ _ e m, match a_Mtime (e_attrs e) with Some s => Z.max s m | None => m end) 0 ents)
  end.

Definition totalInodeCount (ents : entries) : Z :=
  wrap 32 (map_fold (λ _ e n, if bool_decide (e_kind e = kindHardlink) then n else n + 1) 0 ents).

(** ** The tables *)

(** What [Close] works on: the entries and the two tables. *)
Record tables := mkTables {
  t_entries : entries;
  t_inodeMeta : metaWriter;
  t_dirMeta : metaWriter
}.

Definition upd_entry (p : list Z) (f : entry → entry) : io tables unit :=
  io_modify (λ t, mkTables (alter f p (t_entries t)) (t_inodeMeta t) (t_dirMeta t)).

Definition on_inodes {A} (m : io metaWriter A) : io tables A := λ t,
  let '(res, im) := m (t_inodeMeta t) in (res, mkTables (t_entries t) im (t_dirMeta t)).

Definition on_dirs {A} (m : io metaWriter A) : io tables A := λ t,
  let '(res, dm) := m (t_dirMeta t) in (res, mkTables (t_entries t) (t_inodeMeta t) dm).

Definition lift {S A} (r : A + sq_error) : io S A := λ s, (r, s).

Section Tables.
Context `{Compressor} (fixed : option Z) (blockSize : Z).

Definition writeOneInode (p : list Z) : io tables unit :=
  io* e := deref t_entries p in
  io* mtime := lift (entryMtime fixed e) in
  io* body := lift (encodeInode e mtime blockSize) in
  io* r := io_gets (λ t, Ref (t_inodeMeta t)) in
  io* _ := upd_entry p (upd_ref r) in
  on_inodes (Write body).

Definition writeLeafInodes (order : list (list Z)) : io tables unit :=
  io_for (λ p,
    io* e := deref t_entries p in
    if bool_decide (e_kind e = kindDir ∨ e_kind e = kindHardlink) then io_ret tt
    else writeOneInode p) order.

(** The loop of [Close] that gives hard links the place of their target. *)
Definition resolveHardlinks (order : list (list Z)) : io tables unit :=
  io_for (λ p,
    io* e := deref t_entries p in
    if bool_decide (e_kind e = kindHardlink) then
      io* tgt := deref t_entries (default [] (e_hardlinkTarget e)) in
      upd_entry p (upd_link (e_inodeRef tgt) (e_inodeNumber tgt))
    else io_ret tt) order.

(** The entry of a child in its directory's listing. *)
Definition dir_entry (c : list Z) : io tables dirEntry :=
  io* e := deref t_entries c in
  io* tgt := io_gets (λ t, e_hardlinkTarget e ≫= λ p, t_entries t !! p) in
  let ref := match e_kind e, tgt with kindHardlink, Some tgt => e_inodeRef tgt | _, _ => e_inodeRef e end in
  io* blockByte := io_gets (λ t, BlockByteOffset (r_blockIdx ref) (t_inodeMeta t)) in
  if 0xFFFFFFFF <? blockByte then io_fail ErrInodeTable
  else io_ret (mkDirEntry (Base c) (e_inodeNumber e) blockByte (r_offset (e_inodeRef e))
                 (basicTypeFor (e_kind e) (e_kind <$> tgt))).

Fixpoint dir_entries (l : list (list Z)) : io tables (list dirEntry) :=
  match l with
  | [] => io_ret []
  | c :: l => io* d := dir_entry c in io* ds := dir_entries l in io_ret (d :: ds)
  end.

(** What [walk] does with a directory whose subdirectories are done. *)
Definition writeDir (d : list Z) : io tables unit :=
  io* e := deref t_entries d in
  io* ds := dir_entries (e_children e) in
  io* (startRef, listingBytes) := on_dirs (writeDirListing ds) in
  io* start := io_gets (λ t, BlockByteOffset (r_blockIdx startRef) (t_dirMeta t)) in
  io* _ := upd_entry d (upd_listing start (r_offset startRef) listingBytes) in
  writeOneInode d.

Fixpoint dir_walk (fuel : nat) (d : list Z) : io tables unit :=
  match fuel with
  | O => io_fail OutOfFuel
  | S fuel =>
      io* e := deref t_entries d in
      io* _ := io_for (λ c,
        io* dir := io_gets (λ t, is_dir (t_entries t) c) in
        if dir : bool then dir_walk fuel c else io_ret tt) (e_children e) in
      writeDir d
  end.

(** The two passes and the final [Flush]es. *)
Definition writeTables (fuel : nat) (order : list (list Z)) : io tables unit :=
  io* _ := writeLeafInodes order in
  io* _ := resolveHardlinks order in
  io* _ := dir_walk fuel root_path in
  io* _ := on_inodes Flush in
  on_dirs Flush.
End Tables.

(** ** [Close] *)

Definition padAlignment : Z := 4096.

Section Close.
Context `{Compressor} {F : Type} `{WriteSeeker F}.

(** A write to the output by a callee, which reports how many bytes it wrote. *)
Definition emit_to {A} (m : io F A) (bytes : A → Z) : io (Writer F) A := λ w,
  match m (w_out w) with
  | (inl a, out) => (inl a, set_out out (w_outPos w + bytes a) w)
  | (inr err, out) => (inr err, set_out out (w_outPos w) w)
  end.

(** The part of [Close] that changes the entries only. *)
Definition finish_entries (order : list (list Z)) (w : Writer F) : (entries * idTable) + sq_error :=
  match buildTree (w_mtime w) (w_entryOrder w) (w_entries w) with
  | inr err => inr err
  | inl ents =>
      match assignInodeNumbers ents with
      | inr err => inr err
      | inl ents =>
          match computeLinkCounts order ents with
          | inr err => inr err
          | inl ents => exec (internIDs (w_entryOrder w)) (ents, w_ids w)
          end
      end
  end.

(** The part of [Close] that writes the tables and the superblock. *)
Definition emit_image (t : tables) : io (Writer F) unit :=
  io* w0 := io_gets id in
  let inodeTableStart := w_outPos w0 in
  io* _ := emit_to (EmitTo (t_inodeMeta t)) (λ n, n) in
  io* directoryTableStart := io_gets w_outPos in
  io* _ := emit_to (EmitTo (t_dirMeta t)) (λ n, n) in
  io* idDataStart := io_gets w_outPos in
  io* (blockOffsets, _) := emit_to (WriteData (w_ids w0) idDataStart) snd in
  io* idTableStart := io_gets w_outPos in
  io* _ := emit_to (WriteLookup blockOffsets) (λ n, n) in
  io* bytesUsed := io_gets w_outPos in
  let rem := bytesUsed mod padAlignment in
  io* _ := (if negb (rem =? 0)
            then emit_to (file_write (replicate (Z.to_nat (padAlignment - rem)) 0)) (λ n, n)
            else io_ret 0) in
  io* root := deref (λ _, t_entries t) root_path in
  let rootBlockByte := BlockByteOffset (r_blockIdx (e_inodeRef root)) (t_inodeMeta t) in
  let sb := mkSuperblock (totalInodeCount (t_entries t)) (imageMtime (w_mtime w0) (t_entries t))
    (w_blockSize w0) 0 (wrap 16 comp_ID) (blockLogFor (w_blockSize w0))
    (Z.lor FlagNoFragments FlagNoXattrs) (Count (w_ids w0))
    (encode_ref (e_inodeRef root) rootBlockByte) bytesUsed idTableStart 0xFFFFFFFFFFFFFFFF
    inodeTableStart directoryTableStart 0xFFFFFFFFFFFFFFFF 0xFFFFFFFFFFFFFFFF in
  io* _ := emit_to file_seek (λ _, 0) in
  io* _ := emit_to (file_write (encode_superblock sb)) (λ _, 0) in
  io_modify (set_finished true).

Definition Close (order : list (list Z)) : io (Writer F) unit :=
  io* closed := io_gets w_closed in
  if closed : bool then io_fail ErrClosed
  else
    io* _ := flushCurFile in
    io* _ := io_modify (set_closed true) in
    io* w := io_gets id in
    io* (ents, ids) := lift (finish_entries order w) in
    io* _ := io_modify (λ w, set_ids ids (set_entries ents w)) in
    match writeTables (w_mtime w) (w_blockSize w) (depth_fuel ents) (w_entryOrder w)
            (mkTables ents newMetaWriter newMetaWriter) with
    | (inr err, _) => io_fail err
    | (inl _, t) =>
        io* _ := io_modify (set_entries (t_entries t)) in
        emit_image t
    end.
End Close.
