(* ===== verification/SquashFiles.v ===== *)
(** * What a squashfs image means, and the contents of its files

    The specification of the writer: a file system is a map from paths to nodes, the
    calls of the API change it ([spec_op]), and an image is read by following the format
    from the superblock ([stat]).  The second half is the first step of the proof that
    the two agree: what the [Create*] methods and [FileWrite] leave in the writer. *)
From S2P Require Import Prelude GoSort SquashFormat SquashMeta SquashDir SquashWriter.
From stdpp Require Import sorting.
#[local] Open Scope Z_scope.

(** ** File systems *)

Inductive node_body : Type :=
| NFile (data : list Z)
| NDir
| NSymlink (target : list Z)
| NDevice (block : bool) (major minor : Z)
| NIpc (socket : bool)
| NLink (target : list Z).

Record node := mkNode { n_attrs : Attrs; n_body : node_body }.

Abbreviation filesystem := (gmap (list Z) node).

(** The calls of the API. *)
Inductive op : Type :=
| OpFile (attrs : Attrs)
| OpWrite (file data : list Z)
| OpDir (attrs : Attrs)
| OpSymlink (attrs : Attrs) (target : list Z)
| OpHardlink (link target : list Z)
| OpDevice (block : bool) (attrs : Attrs) (major minor : Z)
| OpIpc (socket : bool) (attrs : Attrs).

Definition append_data (data : list Z) (n : node) : node :=
  match n_body n with NFile d => mkNode (n_attrs n) (NFile (d ++ data)) | _ => n end.

Definition spec_op (o : op) (fs : filesystem) : filesystem :=
  match o with
  | OpFile a => <[a_Path a := mkNode a (NFile [])]> fs
  | OpWrite file data => alter (append_data data) file fs
  | OpDir a => <[a_Path a := mkNode a NDir]> fs
  | OpSymlink a target => <[a_Path a := mkNode a (NSymlink target)]> fs
  | OpHardlink link target => <[link := mkNode no_attrs (NLink target)]> fs
  | OpDevice block a major minor => <[a_Path a := mkNode a (NDevice block major minor)]> fs
  | OpIpc socket a => <[a_Path a := mkNode a (NIpc socket)]> fs
  end.

Definition run_op `{Compressor} {F : Type} `{WriteSeeker F} (o : op) : io (Writer F) unit :=
  match o with
  | OpFile a => io* _ := CreateFile a in io_ret tt
  | OpWrite file data => io* _ := FileWrite file data in io_ret tt
  | OpDir a => CreateDir a
  | OpSymlink a target => CreateSymlink a target
  | OpHardlink link target => CreateHardlink link target
  | OpDevice block a major minor =>
      (if block then CreateBlockDevice else CreateCharDevice) a major minor
  | OpIpc socket a => (if socket then CreateSocket else CreateFIFO) a
  end.

(** ** Images *)

(** What the reader sees at a path. *)
Inductive view_body : Type :=
| VFile (data : list Z)
| VDir (names : list (list Z))
| VSymlink (target : list Z)
| VDevice (block : bool) (major minor : Z)
| VIpc (socket : bool).

Record view := mkView {
  v_perm : Z;
  v_uid : Z;
  v_gid : Z;
  v_mtime : Z;
  v_body : view_body
}.

#[export] Instance view_body_eq_dec : EqDecision view_body.
Proof. solve_decision. Defined.
#[export] Instance view_eq_dec : EqDecision view.
Proof. solve_decision. Defined.

Section Reader.
Context `{Decompressor}.

(** Data blocks from the start of [s]; the size word has the length and the flag of a
    block that is stored raw.  A word of zero would be a hole, which the writer does not
    produce. *)
Fixpoint read_data (s : list Z) (words : list Z) : option (list Z * list Z) :=
  match words with
  | [] => Some ([], s)
  | w :: words =>
      if w =? 0 then None
      else
        '(d, s) ← get_bytes (Z.to_nat (Z.land w 0xffffff)) s;
        c ← (if Z.testbit w 24 then Some d else decompress d);
        '(rest, s) ← read_data s words;
        Some (c ++ rest, s)
  end.

Definition region (img : list Z) (a b : Z) : list Z := slice a (b - a) img.

Definition meta_at (table : list Z) (block off : Z) : option (list Z) :=
  s ← meta_stream (drop (Z.to_nat block) table);
  Some (drop (Z.to_nat off) s).

Context (img : list Z) (sb : superblock).

Definition read_inode (block off : Z) : option inode :=
  s ← meta_at (region img (sb_inodeTableStart sb) (sb_directoryTableStart sb)) block off;
  parse_inode (sb_blockSize sb) s.

(** The first ID block ends the directory table. *)
Definition read_dir (i : inode) : option (list dirEntry) :=
  match i_body i with
  | BDir start _ size off _ =>
      '(first, _) ← get 8 (drop (Z.to_nat (sb_idTableStart sb)) img);
      s ← meta_at (region img (sb_directoryTableStart sb) first) start off;
      '(bs, _) ← get_bytes (Z.to_nat size) s;
      parse_listing bs
  | _ => None
  end.

Definition read_id (idx : Z) : option Z :=
  '(start, _) ← get 8 (drop (Z.to_nat (sb_idTableStart sb + 8 * (idx / idsPerMetaBlock))) img);
  s ← meta_stream (region img start (sb_idTableStart sb));
  '(id, _) ← get 4 (drop (Z.to_nat (4 * (idx mod idsPerMetaBlock))) s);
  Some id.

(** The place of the inode at the end of a chain of names. *)
Fixpoint walk_path (block off : Z) (parts : list (list Z)) : option (Z * Z) :=
  match parts with
  | [] => Some (block, off)
  | part :: parts =>
      i ← read_inode block off;
      l ← read_dir i;
      d ← List.find (λ d, bool_decide (d_name d = part)) l;
      walk_path (d_inodeBlockByte d) (d_inodeBlockOff d) parts
  end.

Definition read_body (i : inode) : option view_body :=
  match i_body i with
  | BFile start size words =>
      '(data, _) ← read_data (drop (Z.to_nat start) img) words;
      if zlen data =? size then Some (VFile data) else None
  | BDir _ _ _ _ _ => l ← read_dir i; Some (VDir (map d_name l))
  | BSymlink _ target => Some (VSymlink target)
  | BDevice block _ major minor => Some (VDevice block major minor)
  | BIpc socket _ => Some (VIpc socket)
  end.

Definition read_view (block off : Z) : option view :=
  i ← read_inode block off;
  uid ← read_id (i_uidIdx i);
  gid ← read_id (i_gidIdx i);
  body ← read_body i;
  Some (mkView (i_perm i) uid gid (i_mtime i) body).
End Reader.

(** What the image has at the path with components [parts]. *)
Definition stat `{Decompressor} (img : list Z) (parts : list (list Z)) : option view :=
  sb ← parse_superblock img;
  '(block, off) ← walk_path img sb (Z.shiftr (sb_rootInodeRef sb) 16)
                    (Z.land (sb_rootInodeRef sb) 0xffff) parts;
  read_view img sb block off.

(** What it should have: [fixed] is the modification time given for all entries. *)
Definition names_in (fs : filesystem) (d : list Z) : list (list Z) :=
  SliceStable string_less
    (map Base (filter (λ p, p ≠ root_path ∧ Dir p = d) (map_to_list fs).*1)).

Definition node_view (fixed : option Z) (fs : filesystem) (p : list Z) (n : node) : option view :=
  let a := n_attrs n in
  let mtime := default 0 (match fixed with Some _ => fixed | None => a_Mtime a end) in
  let as_ body := Some (mkView (Z.land (a_Mode a) 0xfff) (a_UID a) (a_GID a) mtime body) in
  match n_body n with
  | NFile data => as_ (VFile data)
  | NDir => as_ (VDir (names_in fs p))
  | NSymlink target => as_ (VSymlink target)
  | NDevice block major minor => as_ (VDevice block major minor)
  | NIpc socket => as_ (VIpc socket)
  | NLink _ => None
  end.

(** A hard link shows the file it names. *)
Definition fs_view (fixed : option Z) (fs : filesystem) (p : list Z) : option view :=
  n ← fs !! p;
  match n_body n with
  | NLink target => n' ← fs !! target; node_view fixed fs target n'
  | _ => node_view fixed fs p n
  end.

(** The root directory that [Close] adds. *)
Definition with_root (fixed : option Z) (fs : filesystem) : filesystem :=
  <[root_path := mkNode (mkAttrs [] 0x1ed 0 0 fixed) NDir]> fs.

(** ** Streaming a file *)

Section Streaming.
Context `{Decompressor} {F : Type} `{FileLaws F}.

Lemma read_data_app s words data rest t :
  read_data s words = Some (data, rest) → read_data (s ++ t) words = Some (data, rest ++ t).
Proof.
  revert s data. induction words as [|w words IH]; intros s data; cbn; [by intros [= <- <-]|].
  case_match; [done|]. unfold get_bytes.
  destruct (decide (_ ≤ length s)%nat) as [Hle|]; [|done]. cbn.
  rewrite decide_True by (rewrite length_app; lia). cbn.
  rewrite take_app_le, drop_app_le by done.
  destruct (if Z.testbit w 24 then _ else _); [|done]. cbn.
  destruct (read_data _ words) as [[d r]|] eqn:E; [|done]. cbn. intros [= <- <-].
  by rewrite (IH _ _ E).
Qed.

Lemma read_data_snoc s words d1 words' d2 r1 r2 :
  read_data s words = Some (d1, r1) → read_data r1 words' = Some (d2, r2) →
  read_data s (words ++ words') = Some (d1 ++ d2, r2).
Proof.
  revert s d1. induction words as [|w words IH]; intros s d1; cbn; [by intros [= <- <-]|].
  case_match; [done|]. destruct (get_bytes _ s) as [[d s']|]; [|done]. cbn.
  destruct (if Z.testbit w 24 then _ else _); [|done]. cbn.
  destruct (read_data s' words) as [[e r]|] eqn:E; [|done]. cbn. intros [= <- <-] Hr.
  rewrite (IH _ _ E Hr). cbn. by rewrite app_assoc.
Qed.

Definition add_words (words : list Z) (e : entry) : entry :=
  upd_file (e_fileBlockSizes e ++ words) (e_fileSize e) e.

Lemma add_words_nil e : add_words [] e = e.
Proof. unfold add_words. rewrite app_nil_r. by destruct e. Qed.

Lemma add_words_app l k e : add_words k (add_words l e) = add_words (l ++ k) e.
Proof. unfold add_words. cbn. by rewrite app_assoc. Qed.

(** The writer after [words] were added to the file [p]. *)
Definition streamed (p : list Z) (words buf : list Z) (out : F) (n : Z) (w : Writer F) : Writer F :=
  set_curFile (Some (mkFile p buf))
    (set_entries (alter (add_words words) p (w_entries w)) (set_out out (w_outPos w + n) w)).

(** The current file [p] took in [data]: blocks went to the output, which was [wr] and is
    [wr'], and the rest is in the buffer. *)
Definition streams (p wr : list Z) (w : Writer F) (data wr' : list Z) (w' : Writer F) : Prop :=
  ∃ buf disk words dec buf' out',
    w_curFile w = Some (mkFile p buf) ∧ wr' = wr ++ disk ∧ holds out' wr' ∧
    w' = streamed p words buf' out' (zlen disk) w ∧
    Forall (fits_in 4) words ∧ (∀ s, read_data (disk ++ s) words = Some (dec, s)) ∧
    dec ++ buf' = buf ++ data.

Lemma streamed_id p buf (w : Writer F) :
  streamed p [] buf (w_out w) 0 w = set_curFile (Some (mkFile p buf)) w.
Proof.
  unfold streamed. rewrite Z.add_0_r, alter_id; [by destruct w|]. intros e _. apply add_words_nil.
Qed.

Lemma streamed_streamed p l1 b1 o1 n1 l2 b2 o2 n2 (w : Writer F) :
  streamed p l2 b2 o2 n2 (streamed p l1 b1 o1 n1 w) = streamed p (l1 ++ l2) b2 o2 (n1 + n2) w.
Proof.
  unfold streamed. destruct w. cbn. rewrite alter_alter_eq, Z.add_assoc. unfold set_curFile, set_entries, set_out.
  cbn. f_equal. apply alter_ext. intros e _. apply add_words_app.
Qed.

Lemma streams_buffer p wr w buf data :
  holds (w_out w) wr → w_curFile w = Some (mkFile p buf) →
  streams p wr w data wr (set_curFile (Some (mkFile p (buf ++ data))) w).
Proof.
  intros Hh Hc. exists buf, [], [], [], (buf ++ data), (w_out w).
  split_and!; [done|by rewrite app_nil_r|done|by rewrite streamed_id|constructor|done|done].
Qed.

Lemma streams_trans p wr w d1 wr1 w1 d2 wr2 w2 :
  streams p wr w d1 wr1 w1 → streams p wr1 w1 d2 wr2 w2 → streams p wr w (d1 ++ d2) wr2 w2.
Proof.
  intros (buf & k1 & l1 & c1 & b1 & o1 & Hc & -> & Hh & -> & Hf & Hr & Hd)
    (buf' & k2 & l2 & c2 & b2 & o2 & [= <-] & -> & Hh' & -> & Hf' & Hr' & Hd').
  exists buf, (k1 ++ k2), (l1 ++ l2), (c1 ++ c2), b2, o2. split_and!; [done|by rewrite app_assoc|done| | | |].
  - by rewrite streamed_streamed, zlen_app.
  - by apply Forall_app.
  - intros s. rewrite <- app_assoc. by eapply read_data_snoc.
  - by rewrite <- app_assoc, Hd', app_assoc, Hd, app_assoc.
Qed.

(** The size words of a block. *)
Lemma read_raw d s : 0 < zlen d < 2 ^ 24 →
  let w := Z.lor (wrap 32 (zlen d)) DataBlockUncompressedBit in
  fits_in 4 w ∧ read_data (d ++ s) [w] = Some (d, s).
Proof.
  intros Hd. cbn zeta. unfold wrap. rewrite Z.mod_small by lia.
  change DataBlockUncompressedBit with (1 * 2 ^ 24). rewrite lor_low_high by lia.
  split; [unfold fits_in; change (256 ^ Z.of_nat 4) with (2 ^ 32); lia|]. cbn [read_data].
  destruct (Z.eqb_spec (zlen d + 1 * 2 ^ 24) 0); [lia|].
  change 0xffffff with (Z.ones 24). rewrite Z.land_ones, Z.testbit_eqb by lia.
  replace ((zlen d + 1 * 2 ^ 24) mod 2 ^ 24) with (zlen d) by (Z.to_euclidean_division_equations; lia).
  rewrite get_bytes_app by (unfold zlen; lia). cbn [mbind option_bind].
  replace ((zlen d + 1 * 2 ^ 24) / 2 ^ 24 mod 2) with 1 by (Z.to_euclidean_division_equations; lia).
  cbn. by rewrite app_nil_r.
Qed.

Lemma read_compressed d c s : 0 < zlen d < 2 ^ 24 → decompress d = Some c →
  fits_in 4 (wrap 32 (zlen d)) ∧ read_data (d ++ s) [wrap 32 (zlen d)] = Some (c, s).
Proof.
  intros Hd Hc. unfold wrap. rewrite Z.mod_small by lia.
  split; [unfold fits_in; change (256 ^ Z.of_nat 4) with (2 ^ 32); lia|]. cbn [read_data].
  destruct (Z.eqb_spec (zlen d) 0); [lia|].
  change 0xffffff with (Z.ones 24). rewrite Z.land_ones, Z.testbit_eqb by lia.
  rewrite (Z.mod_small (zlen d)) by lia. rewrite get_bytes_app by (unfold zlen; lia). cbn [mbind option_bind].
  rewrite Z.div_small, Hc by lia. change (0 mod 2 =? 1) with false. cbn. by rewrite app_nil_r.
Qed.

Lemma emitBlock_streams p wr w buf u w' :
  holds (w_out w) wr → w_curFile w = Some (mkFile p buf) → zlen buf < 2 ^ 24 →
  emitBlock w = (inl u, w') →
  ∃ wr', streams p wr w [] wr' w' ∧ w_curFile w' = Some (mkFile p []).
Proof.
  intros Hh Hc Hl. unfold emitBlock. rewrite Hc. cbn [fw_buf fw_e].
  case_bool_decide as Hb; cbv beta iota.
  { intros [= _ <-]. exists wr. rewrite Hb in *. split; [|done].
    replace w with (set_curFile (Some (mkFile p ([] ++ []))) w) at 2 by (destruct w; cbn in *; by subst).
    by apply streams_buffer. }
  assert (0 < zlen buf) by (destruct buf; [done|]; rewrite zlen_cons; pose proof (zlen_nonneg buf); lia).
  assert (Hput : ∀ disk word, (∀ s, read_data (disk ++ s) [word] = Some (buf, s)) → fits_in 4 word →
    (let '((n, werr), out) := fs_Write disk (w_out w) in
     let w := set_out out (w_outPos w + n) w in
     match werr with
     | Some msg => (inr (ErrIO msg), w)
     | None => (inl tt, set_curFile (Some (mkFile p []))
         (set_entries (alter (λ e, upd_file (e_fileBlockSizes e ++ [word]) (e_fileSize e) e) p (w_entries w)) w))
     end) = (inl u, w') →
    ∃ wr', streams p wr w [] wr' w' ∧ w_curFile w' = Some (mkFile p [])).
  { intros disk word Hr Hf. destruct (fs_Write disk (w_out w)) as [[n [msg|]] out] eqn:Ew; [done|].
    intros [= _ <-]. exists (wr ++ disk). split; [|done].
    assert (file_write disk (w_out w) = (inl n, out)) as Hw by (unfold file_write; by rewrite Ew).
    eapply file_write_holds in Hw as [-> Hh']; [|done].
    exists buf, disk, [word], buf, [], out. split_and!; [done..|by constructor|done|done]. }
  assert (Hraw := read_raw buf). cbn zeta in Hraw.
  destruct (Compress buf) as [out| |msg] eqn:Ec; [|apply Hput; [intros s|]; by apply Hraw|done].
  case_match; [apply Hput; [intros s|]; by apply Hraw|]. bool_prop.
  assert (0 < zlen out) by (destruct out; [by apply Compress_nonempty in Ec|]; rewrite zlen_cons;
    pose proof (zlen_nonneg out); lia).
  apply decompress_Compress in Ec. apply Hput; [intros s|]; apply (read_compressed _ buf); try done; lia.
Qed.

Lemma file_loop_streams fuel p wr w data buf u w' :
  holds (w_out w) wr → w_curFile w = Some (mkFile p buf) → zlen buf < w_blockSize w < 2 ^ 24 →
  file_loop fuel data w = (inl u, w') →
  ∃ wr' buf', streams p wr w data wr' w' ∧ w_curFile w' = Some (mkFile p buf') ∧ zlen buf' < w_blockSize w.
Proof.
  revert data wr w buf. induction fuel as [|fuel IH]; intros [|x data] wr w buf Hh Hc Hl Hw; cbn [file_loop] in Hw.
  1, 3: io_inv; exists wr, buf; split_and!; [|done|lia];
    replace w with (set_curFile (Some (mkFile p (buf ++ []))) w) at 2
      by (rewrite app_nil_r; destruct w; cbn in *; by subst); by apply streams_buffer.
  { done. }
  rewrite Hc in Hw. cbn [fw_buf fw_e] in Hw. set (q := x :: data) in *.
  set (n := Z.to_nat (Z.min (zlen q) (w_blockSize w - zlen buf))) in *.
  set (w0 := set_curFile (Some (mkFile p (buf ++ take n q))) w) in *.
  assert (Hs0 : streams p wr w (take n q) wr w0) by (by apply streams_buffer).
  assert (Hlen : zlen (buf ++ take n q) ≤ w_blockSize w).
  { rewrite zlen_app. unfold n, zlen in *. rewrite length_take. lia. }
  apply io_bind_inl in Hw as (v & w1 & He & Hw). rewrite <- (take_drop n q).
  change (w_blockSize w0) with (w_blockSize w) in He.
  destruct (Z.eqb_spec (zlen (buf ++ take n q)) (w_blockSize w)) as [Hfull|Hopen].
  - eapply emitBlock_streams in He as (wr1 & Hs1 & Hc1); [|done|done|lia].
    assert (w_blockSize w1 = w_blockSize w) as Eb.
    { destruct Hs1 as (? & ? & ? & ? & ? & ? & _ & _ & _ & -> & _). done. }
    assert (holds (w_out w1) wr1) as Hh1.
    { destruct Hs1 as (? & ? & ? & ? & ? & ? & _ & _ & ? & -> & _). done. }
    eapply IH in Hw as (wr' & buf' & Hs' & Hc' & Hl'); [|done|done|rewrite Eb; change (zlen []) with 0; pose proof (zlen_nonneg buf); lia].
    exists wr', buf'. rewrite Eb in Hl'. split; [|done].
    eapply streams_trans; [|done]. rewrite <- (app_nil_r (take n q)). by eapply streams_trans.
  - io_inv. eapply IH in Hw as (wr' & buf' & Hs' & Hc' & Hl'); [|done|done|change (w_blockSize w0) with (w_blockSize w); lia].
    exists wr', buf'. split; [|done]. by eapply streams_trans.
Qed.
End Streaming.

(** ** What the calls leave in the writer *)

Definition kind_of (b : node_body) : entryKind :=
  match b with
  | NFile _ => kindFile
  | NDir => kindDir
  | NSymlink _ => kindSymlink
  | NDevice block _ _ => if block then kindBlockDev else kindCharDev
  | NIpc socket => if socket then kindSocket else kindFIFO
  | NLink _ => kindHardlink
  end.

(** The entry of a node, file contents apart. *)
Definition entry_for (p : list Z) (n : node) (start : Z) : entry :=
  let k := kind_of (n_body n) in
  match n_body n with
  | NSymlink t => new_entry p k (n_attrs n) 0 t None 0 0
  | NDevice _ major minor => new_entry p k (n_attrs n) 0 [] None major minor
  | NLink t => new_entry p k (n_attrs n) 0 [] (Some t) 0 0
  | NFile _ => new_entry p k (n_attrs n) start [] None 0 0
  | _ => new_entry p k (n_attrs n) 0 [] None 0 0
  end.

Section Writing.
Context `{Decompressor} {F : Type} `{FileLaws F} (fixed : option Z).

(** The blocks of a file hold [data], but for what is still in the buffer. *)
Definition file_matches (wr : list Z) (pending : option (list Z)) (p : list Z) (n : node)
    (data : list Z) (size : Z) (e : entry) : Prop :=
  ∃ start words dec rest,
    e = upd_file words size (entry_for p n start) ∧
    superblockSize ≤ start ≤ zlen wr ∧ Forall (fits_in 4) words ∧
    read_data (drop (Z.to_nat start) wr) words = Some (dec, rest) ∧
    data = dec ++ default [] pending ∧ (is_Some pending → rest = []).

Definition matches (wr : list Z) (pending : option (list Z)) (p : list Z) (n : node) (e : entry) : Prop :=
  match n_body n with
  | NFile data => file_matches wr pending p n data (wrap 64 (zlen data)) e
  | _ => e = entry_for p n 0
  end.

Definition pending (w : Writer F) (p : list Z) : option (list Z) :=
  fw ← w_curFile w; if bool_decide (fw_e fw = p) then Some (fw_buf fw) else None.

Lemma file_matches_grow wr disk p n data size e :
  file_matches wr None p n data size e → file_matches (wr ++ disk) None p n data size e.
Proof.
  intros (start & words & dec & rest & -> & Hs & Hf & Hr & -> & _).
  exists start, words, dec, (rest ++ disk). rewrite zlen_app. pose proof (zlen_nonneg disk).
  split_and!; [done|lia|lia|done| |done|by intros []].
  rewrite drop_app_le by (unfold zlen in *; lia). by apply read_data_app.
Qed.

Lemma matches_grow wr disk p n e : matches wr None p n e → matches (wr ++ disk) None p n e.
Proof. unfold matches. destruct (n_body n); try done. apply file_matches_grow. Qed.

Lemma file_matches_stream wr buf disk words dec buf' d p n data size e :
  file_matches wr (Some buf) p n data size e →
  Forall (fits_in 4) words → (∀ s, read_data (disk ++ s) words = Some (dec, s)) →
  dec ++ buf' = buf ++ d →
  file_matches (wr ++ disk) (Some buf') p n (data ++ d) size (add_words words e).
Proof.
  intros (start & ws & dec0 & rest & -> & Hs & Hf & Hr & -> & Hp) Hws Hd Hb.
  rewrite (Hp ltac:(eauto)) in Hr. exists start, (ws ++ words), (dec0 ++ dec), [].
  rewrite zlen_app. pose proof (zlen_nonneg disk).
  split_and!; [done|lia|lia|by apply Forall_app| | |done].
  - rewrite drop_app_le by (unfold zlen in *; lia). eapply read_data_snoc; [by apply read_data_app|].
    cbn. rewrite <- (app_nil_r disk). apply Hd.
  - cbn. by rewrite <- !app_assoc, Hb.
Qed.

(** The state between two calls: the writer [w] stands for the file system [fs], and
    [wr] is what it has written. *)
Record writing (w : Writer F) (fs : filesystem) (wr : list Z) : Prop := {
  wi_open : w_closed w = false;
  wi_mtime : w_mtime w = fixed;
  wi_holds : holds (w_out w) wr;
  wi_pos : w_outPos w = zlen wr;
  wi_super : superblockSize ≤ zlen wr;
  wi_bsize : 2 ^ 12 ≤ w_blockSize w ≤ 2 ^ 20;
  wi_pow : ∃ k, 0 ≤ k ∧ w_blockSize w = 2 ^ k;
  wi_nodup : NoDup (w_entryOrder w);
  wi_order : ∀ p, p ∈ w_entryOrder w ↔ is_Some (fs !! p);
  wi_entries : ∀ p e, w_entries w !! p = Some e → is_Some (fs !! p);
  wi_match : ∀ p n, fs !! p = Some n → ∃ e, w_entries w !! p = Some e ∧ matches wr (pending w p) p n e;
  wi_valid : ∀ p, is_Some (fs !! p) → validatePath p = None;
  wi_cur : ∀ fw, w_curFile w = Some fw →
    zlen (fw_buf fw) < w_blockSize w ∧ ∃ n d, fs !! fw_e fw = Some n ∧ n_body n = NFile d;
  wi_links : ∀ p n t, fs !! p = Some n → n_body n = NLink t →
    ∃ n' d, fs !! t = Some n' ∧ n_body n' = NFile d;
  wi_ids : w_ids w = newIDTable
}.

(** Streaming into the current file: the others keep their contents, it gets more. *)
Lemma streams_entries w fs wr p data wr' w' :
  writing w fs wr → streams p wr w data wr' w' →
  (∀ q n, fs !! q = Some n → q ≠ p →
     ∃ e, w_entries w' !! q = Some e ∧ matches wr' None q n e) ∧
  (∀ n d, fs !! p = Some n → n_body n = NFile d →
     ∃ e buf', w_curFile w' = Some (mkFile p buf') ∧ w_entries w' !! p = Some e ∧
       file_matches wr' (Some buf') p n (d ++ data) (wrap 64 (zlen d)) e).
Proof.
  intros Hw (buf & disk & words & dec & buf' & out' & Hc & -> & Hh & -> & Hf & Hr & Hd). split.
  - intros q n Hq Hne. destruct (wi_match _ _ _ Hw _ _ Hq) as (e & He & Hm). exists e. cbn.
    rewrite lookup_alter_ne by done. split; [done|]. apply matches_grow.
    unfold pending in Hm. rewrite Hc in Hm. cbn in Hm. by rewrite bool_decide_eq_false_2 in Hm by done.
  - intros n d Hp Hn. destruct (wi_match _ _ _ Hw _ _ Hp) as (e & He & Hm).
    exists (add_words words e), buf'. cbn. rewrite lookup_alter_eq, He. split_and!; [done..|].
    unfold pending, matches in Hm. rewrite Hc, Hn in Hm. cbn in Hm.
    rewrite bool_decide_eq_true_2 in Hm by done. by eapply file_matches_stream.
Qed.

Lemma flushCurFile_writing w fs wr u w' :
  writing w fs wr → flushCurFile w = (inl u, w') →
  ∃ wr', writing w' fs wr' ∧ w_curFile w' = None.
Proof.
  intros Hw Hfl. unfold flushCurFile in Hfl. apply io_bind_inl in Hfl as (cur & ? & [-> ->]%io_gets_inl & Hfl).
  destruct (w_curFile w) as [[p buf]|] eqn:Hc; [|io_inv; eauto].
  destruct (wi_cur _ _ _ Hw _ Hc) as (Hb & n & d & Hp & Hn). cbn in *. io_inv.
  rename select (flushTail _ = _) into He.
  pose proof (wi_bsize _ _ _ Hw) as Hbs.
  eapply emitBlock_streams in He as (wr' & Hs & Hc'); [|apply Hw|done|lia].
  exists wr'. split; [|done].
  destruct (streams_entries _ _ _ _ _ _ _ Hw Hs) as [Hother Hthis].
  destruct Hs as (buf0 & disk & words & dec & buf' & out' & Hc0 & -> & Hh & -> & Hf & Hr & Hd).
  cbn in Hc'. injection Hc' as ->. destruct Hw. split; cbn; try done.
  - by rewrite wi_pos0, zlen_app.
  - rewrite zlen_app. pose proof (zlen_nonneg disk). lia.
  - intros q e. destruct (decide (q = p)) as [->|]; [by eauto|rewrite lookup_alter_ne by done; apply wi_entries0].
  - intros q m Hq. unfold pending. cbn. destruct (decide (q = p)) as [->|Hne]; [|by apply Hother].
    destruct (Hthis _ _ Hp Hn) as (e & b & Hb' & He & Hm). cbn in Hb'. simplify_eq.
    rewrite app_nil_r in Hm. exists e. split; [done|]. unfold matches. rewrite Hn.
    destruct Hm as (st & ws & dc & rs & ? & ? & ? & ? & Hdd & ?).
    exists st, ws, dc, rs. split_and!; try done; try lia; by intros [].
Qed.

Lemma FileWrite_writing w fs wr file data u w' :
  writing w fs wr → FileWrite file data w = (inl u, w') →
  ∃ wr', writing w' (alter (append_data data) file fs) wr'.
Proof.
  intros Hw Hwr. unfold FileWrite in Hwr.
  apply io_bind_inl in Hwr as (cur & ? & [-> ->]%io_gets_inl & Hwr).
  apply io_bind_inl in Hwr as (cl & ? & [-> ->]%io_gets_inl & Hwr).
  rewrite (wi_open _ _ _ Hw) in Hwr. case_bool_decide as Hc; [|done]. cbn [negb] in Hwr.
  destruct (w_curFile w) as [[p buf]|] eqn:Hcur; [|done]. cbn in Hc. injection Hc as ->.
  destruct (wi_cur _ _ _ Hw _ Hcur) as (Hb & n & d & Hp & Hn). cbn [fw_buf fw_e] in *. io_inv.
  rename select (file_loop _ _ _ = _) into He. pose proof (wi_bsize _ _ _ Hw) as Hbs.
  eapply file_loop_streams in He as (wr' & buf' & Hs & Hc' & Hl); [|apply Hw|done|lia].
  exists wr'. destruct (streams_entries _ _ _ _ _ _ _ Hw Hs) as [Hother Hthis].
  destruct Hs as (buf0 & disk & words & dec & buf1 & out' & Hc0 & -> & Hh & -> & Hf & Hr & Hd).
  cbn in Hc'. injection Hc' as ->.
  assert (Hdom : ∀ q, is_Some (alter (append_data data) file fs !! q) ↔ is_Some (fs !! q)).
  { intros q. rewrite lookup_alter. case_decide; subst; [by rewrite fmap_is_Some|done]. }
  destruct Hw. split; cbn; try done.
  - by rewrite wi_pos0, zlen_app.
  - rewrite zlen_app. pose proof (zlen_nonneg disk). lia.
  - intros q. by rewrite Hdom.
  - intros q e. rewrite Hdom. destruct (decide (q = file)) as [->|]; [eauto|].
    rewrite !lookup_alter_ne by done. apply wi_entries0.
  - intros q m Hq. unfold pending. cbn. destruct (decide (q = file)) as [->|Hne].
    + rewrite lookup_alter_eq, Hp in Hq. cbn in Hq. injection Hq as <-.
      destruct (Hthis _ _ Hp Hn) as (e & b & Hb' & He & Hm). cbn in Hb', He. injection Hb' as <-.
      rewrite lookup_alter_eq, He, bool_decide_eq_true_2 by done. cbn. eexists. split; [done|].
      unfold append_data. rewrite Hn. unfold matches. cbn.
      destruct Hm as (st & ws & dc & rs & -> & Hrest). exists st, ws, dc, rs. split; [|done].
      unfold entry_for. rewrite Hn. cbn. unfold upd_file, wrap. cbn. rewrite zlen_app, Zplus_mod_idemp_l. done.
    + rewrite lookup_alter_ne in Hq by done. rewrite bool_decide_eq_false_2 by done.
      rewrite lookup_alter_ne by done. by apply Hother.
  - intros q. rewrite Hdom. apply wi_valid0.
  - intros fw [= <-]. cbn. split; [done|]. rewrite lookup_alter_eq, Hp. cbn. unfold append_data. rewrite Hn.
    by eexists _, _.
  - intros q m t Hq Ht. assert (Hq' : ∃ m0, fs !! q = Some m0 ∧ n_body m0 = NLink t).
    { destruct (decide (q = file)) as [->|Hne]; [|by rewrite lookup_alter_ne in Hq by done; eauto].
      rewrite lookup_alter_eq, Hp in Hq. cbn in Hq. injection Hq as <-. unfold append_data in Ht.
      by rewrite Hn in Ht. }
    destruct Hq' as (m0 & Hq' & Ht'). destruct (wi_links0 _ _ _ Hq' Ht') as (n' & d' & Hl' & Hn').
    destruct (decide (t = file)) as [->|Hne'].
    + rewrite lookup_alter_eq, Hp. cbn. unfold append_data. rewrite Hn. by eexists _, _.
    + rewrite lookup_alter_ne by done. eauto.
Qed.

Lemma writing_absent w fs wr p : writing w fs wr → w_entries w !! p = None → fs !! p = None.
Proof.
  intros Hw He. destruct (fs !! p) as [n|] eqn:Hp; [|done].
  destruct (wi_match _ _ _ Hw _ _ Hp) as (e & He' & _). congruence.
Qed.

Lemma beginEntry_writing w fs wr p u w' :
  writing w fs wr → beginEntry p w = (inl u, w') →
  ∃ wr', writing w' fs wr' ∧ w_curFile w' = None ∧ fs !! p = None ∧ validatePath p = None.
Proof.
  intros Hw Hb. unfold beginEntry in Hb. apply io_bind_inl in Hb as (cl & ? & [-> ->]%io_gets_inl & Hb).
  rewrite (wi_open _ _ _ Hw) in Hb. apply io_bind_inl in Hb as (v & w1 & Hfl & Hb).
  apply (flushCurFile_writing _ _ _ _ _ Hw) in Hfl as (wr' & Hw' & Hc).
  destruct (validatePath p) eqn:Hv; [done|]. io_inv. case_bool_decide as Hex; [done|]. io_inv.
  exists wr'. split_and!; [done..| |done]. eapply writing_absent; [done|]. by apply eq_None_not_Some.
Qed.

#[local] Arguments pending : simpl never.

(** A new entry; for a file the current one becomes [cur]. *)
Lemma add_entry_writing w fs wr p n cur :
  writing w fs wr → w_curFile w = None → fs !! p = None → validatePath p = None →
  (∀ t, n_body n = NLink t → ∃ n' d, fs !! t = Some n' ∧ n_body n' = NFile d) →
  (∀ d, n_body n = NFile d → d = []) →
  (cur = None ∨ cur = Some (mkFile p []) ∧ n_body n = NFile []) →
  writing (set_curFile cur (add_entry p (entry_for p n (w_outPos w)) w)) (<[p := n]> fs) wr.
Proof.
  intros [] Hc Hp Hv Hlink Hfile Hcur.
  assert (Hpend : ∀ q, q ≠ p → pending (set_curFile cur (add_entry p (entry_for p n (w_outPos w)) w)) q = None).
  { intros q Hq. destruct Hcur as [->|[-> _]]; [done|]. unfold pending. cbn. by rewrite bool_decide_eq_false_2. }
  split; cbn; try done.
  - apply NoDup_app. split_and!; [done| |apply NoDup_singleton].
    intros q Hq ->%list_elem_of_singleton. apply wi_order0 in Hq. rewrite Hp in Hq. by destruct Hq.
  - intros q. rewrite elem_of_app, list_elem_of_singleton, wi_order0. destruct (decide (q = p)) as [->|Hne].
    + rewrite lookup_insert_eq. split; [eauto|by right].
    + rewrite lookup_insert_ne by done. split; [by intros [|]|by left].
  - intros q e. destruct (decide (q = p)) as [->|Hne]; [rewrite !lookup_insert_eq; eauto|].
    rewrite !lookup_insert_ne by done. apply wi_entries0.
  - intros q m. destruct (decide (q = p)) as [->|Hne].
    + rewrite !lookup_insert_eq. intros [= <-]. eexists. split; [done|]. unfold matches.
      destruct (n_body n) as [d| |?|???|?|?] eqn:Hn; try (unfold entry_for; by rewrite Hn).
      rewrite (Hfile d eq_refl). exists (w_outPos w), [], [], [].
      rewrite wi_pos0. split_and!; [unfold entry_for; by rewrite Hn|lia|lia|constructor| | |done].
      * cbn. unfold zlen. by rewrite Nat2Z.id, drop_all.
      * unfold pending. destruct Hcur as [->|[-> _]]; [done|]. cbn. by rewrite bool_decide_eq_true_2.
    + rewrite !lookup_insert_ne, Hpend by done. intros Hq. destruct (wi_match0 _ _ Hq) as (e & He & Hm).
      exists e. split; [done|]. unfold pending in Hm. by rewrite Hc in Hm.
  - intros q. destruct (decide (q = p)) as [->|Hne]; [done|]. rewrite lookup_insert_ne by done. apply wi_valid0.
  - intros fw ->. destruct Hcur as [?|[[= ->] Hn]]; [done|]. cbn.
    split; [change (zlen []) with 0; lia|]. exists n, []. by rewrite lookup_insert_eq.
  - intros q m t Hq Ht. assert (∃ n' d, fs !! t = Some n' ∧ n_body n' = NFile d) as (n' & d & Hl & Hd).
    { destruct (decide (q = p)) as [->|Hne].
      - rewrite lookup_insert_eq in Hq. injection Hq as <-. eauto.
      - rewrite lookup_insert_ne in Hq by done. eauto. }
    exists n', d. rewrite lookup_insert_ne; [done|]. intros ->. by rewrite Hp in Hl.
Qed.

Lemma set_curFile_None (w : Writer F) : w_curFile w = None → set_curFile None w = w.
Proof. destruct w. cbn. by intros ->. Qed.

(** Every call that succeeds does to the writer what it does to the file system. *)
Lemma run_op_writing o w fs wr u w' :
  writing w fs wr → run_op o w = (inl u, w') → ∃ wr', writing w' (spec_op o fs) wr'.
Proof.
  assert (Hnew : ∀ p n u v w0 w1, writing w fs wr → beginEntry p w = (inl v, w0) →
    match n_body n with NFile _ | NLink _ => False | _ => True end →
    io_modify (E := sq_error) (add_entry p (entry_for p n 0)) w0 = (inl u, w1) →
    ∃ wr', writing w1 (<[p := n]> fs) wr').
  { intros p n u0 v w0 w1 Hw Hb Hn [_ ->]%io_modify_inl.
    apply (beginEntry_writing _ _ _ _ _ _ Hw) in Hb as (wr' & Hw' & Hc & Hp & Hv). exists wr'.
    assert (He : entry_for p n 0 = entry_for p n (w_outPos w0)) by (unfold entry_for; by destruct (n_body n)).
    rewrite He, <- (set_curFile_None (add_entry p _ w0)) by done.
    apply add_entry_writing; try done; [| |by left]; intros t Ht; by rewrite Ht in Hn. }
  intros Hw Hop. destruct o; cbn [run_op spec_op] in Hop |- *.
  - unfold CreateFile in Hop. io_inv. rename select (beginEntry _ _ = _) into Hb.
    apply (beginEntry_writing _ _ _ _ _ _ Hw) in Hb as (wr' & Hw' & Hc & Hp & Hv). exists wr'.
    apply (add_entry_writing _ _ _ _ (mkNode attrs (NFile []))); try done; [by intros d [= <-]|by right].
  - io_inv. by eapply FileWrite_writing.
  - unfold CreateDir in Hop. io_inv. by eapply (Hnew _ (mkNode attrs NDir)).
  - unfold CreateSymlink in Hop. apply io_bind_inl in Hop as (? & ? & Hb & Hop). case_bool_decide; [done|].
    by eapply (Hnew _ (mkNode attrs (NSymlink target))).
  - unfold CreateHardlink in Hop. apply io_bind_inl in Hop as (cl & ? & [-> ->]%io_gets_inl & Hop).
    rewrite (wi_open _ _ _ Hw) in Hop. apply io_bind_inl in Hop as (v & w1 & Hfl & Hop).
    apply (flushCurFile_writing _ _ _ _ _ Hw) in Hfl as (wr' & Hw' & Hc). exists wr'.
    destruct (validatePath link) eqn:Hv; [done|]. destruct (validatePath target); [done|].
    apply io_bind_inl in Hop as (ents & ? & [-> ->]%io_gets_inl & Hop).
    case_bool_decide as Hex; [done|]. case_bool_decide as Hk; [|done]. cbn in Hop.
    apply io_modify_inl in Hop as [_ ->]. apply eq_None_not_Some in Hex.
    rewrite <- (set_curFile_None (add_entry _ _ _)) by done.
    apply (add_entry_writing _ _ _ link (mkNode no_attrs (NLink target)) None); try done; [| |by left].
    + by eapply writing_absent.
    + intros t [= <-]. cbn in *. destruct (w_entries w1 !! target) as [e|] eqn:He; [|done].
      destruct (wi_entries _ _ _ Hw' _ _ He) as [n Hn]. exists n.
      destruct (wi_match _ _ _ Hw' _ _ Hn) as (e' & He' & Hm). simplify_eq. cbn in Hk. injection Hk as Hk.
      unfold matches in Hm. destruct (n_body n) as [d| |?|[]??|[]|?] eqn:Hb; [by eauto|..]; subst e;
        unfold entry_for in Hk; by rewrite Hb in Hk.
  - destruct block; unfold CreateBlockDevice, CreateCharDevice, create_device in Hop; io_inv.
    + by eapply (Hnew _ (mkNode attrs (NDevice true major minor))).
    + by eapply (Hnew _ (mkNode attrs (NDevice false major minor))).
  - destruct socket; unfold CreateSocket, CreateFIFO in Hop; io_inv.
    + by eapply (Hnew _ (mkNode attrs (NIpc true))).
    + by eapply (Hnew _ (mkNode attrs (NIpc false))).
Qed.
End Writing.

(** ** Construction *)

Lemma power_of_two n : 0 < n → Z.land n (n - 1) = 0 → n = 2 ^ Z.log2 n.
Proof.
  intros Hn Hl. destruct (Z.log2_spec n Hn) as [H1 H2]. apply Z.le_antisymm; [|done].
  apply Z.le_ngt. intros Hlt.
  assert (Z.log2 (n - 1) = Z.log2 n) as E by (apply Z.log2_unique; [apply Z.log2_nonneg|lia]).
  assert (Z.testbit (Z.land n (n - 1)) (Z.log2 n) = true) as Hb.
  { rewrite Z.land_spec, Z.bit_log2 by done. rewrite <- E, Z.bit_log2; [done|].
    pose proof (Z.pow_pos_nonneg 2 (Z.log2 n) ltac:(lia) (Z.log2_nonneg n)). lia. }
  by rewrite Hl, Z.bits_0 in Hb.
Qed.

Lemma apply_options_ok opts cfg cfg' :
  apply_options cfg opts = inl cfg' →
  2 ^ 12 ≤ cfg_blockSize cfg ≤ 2 ^ 20 ∧ (∃ k, 0 ≤ k ∧ cfg_blockSize cfg = 2 ^ k) →
  2 ^ 12 ≤ cfg_blockSize cfg' ≤ 2 ^ 20 ∧ (∃ k, 0 ≤ k ∧ cfg_blockSize cfg' = 2 ^ k).
Proof.
  revert cfg. induction opts as [|[n|[]|t] opts IH]; intros cfg Hc Hok; cbn in Hc; [by injection Hc as <-|..];
    try (eapply IH; [exact Hc|done]); try done.
  destruct ((n <? MinBlockSize) || (MaxBlockSize <? n)) eqn:Er; [done|].
  destruct (negb (Z.land n (n - 1) =? 0)) eqn:Ep; [done|]. bool_prop.
  unfold MinBlockSize, MaxBlockSize in *. eapply IH; [exact Hc|]. cbn. split; [lia|].
  exists (Z.log2 n). split; [apply Z.log2_nonneg|]. apply power_of_two; [lia|done].
Qed.

Section Construction.
Context `{Decompressor} {F : Type} `{FileLaws F}.

Lemma file_seek_ok (f : F) u f' :
  file_seek f = (inl u, f') → position f' = 0 ∧ contents f' = contents f.
Proof.
  unfold file_seek. repeat case_match; intros [= _ <-].
  rename select (fs_Seek _ = _) into Hs. by apply fs_Seek_ok in Hs as [-> ->].
Qed.

Lemma NewWriter_writing opts (f : F) w :
  NewWriter opts f = inl w →
  writing (w_mtime w) w ∅ (replicate (Z.to_nat superblockSize) 0) ∧ w_entryOrder w = [].
Proof.
  unfold NewWriter. destruct (apply_options _ opts) as [cfg|] eqn:Ec; [|done].
  destruct (negb (cfg_compressor cfg)); [done|].
  destruct ((io* _ := file_seek in _) f) as [[n|] out] eqn:Eo; [|done]. intros [= <-]. split; [|done].
  apply apply_options_ok in Ec as [Hb Hk]; [|split; [done|]; by exists 17]. io_inv.
  rename select (file_seek _ = _) into Hs. rename select (file_write _ _ = _) into Hw.
  apply file_seek_ok in Hs as [Hp Hc].
  match goal with H : position ?g = 0 |- _ => assert (holds g []) as Hh by (split; [done|by eexists]) end.
  eapply file_write_holds in Hw as [_ Hw]; [|done].
  split; cbn; try done; try (intros *; rewrite lookup_empty; by intros ?).
  - constructor.
  - intros p. rewrite lookup_empty, elem_of_nil. split; [done|by intros []].
Qed.
End Construction.
