(* ===== verification/SquashTree.v ===== *)
(** * The tree of a squashfs image

    What the passes of [Close] over the entries do: [buildTree], [assignInodeNumbers],
    [computeLinkCounts] and [internIDs] fill in fields and leave alone what the calls of the
    API put there ([finish_entries_spec]); [writeTables] leaves for every entry an inode
    and for every directory a listing that leads to the inodes of its children
    ([writeTables_spec]). *)
From S2P Require Import Prelude GoSort SquashFormat SquashMeta SquashDir SquashWriter SquashFiles.
From stdpp Require Import sorting.
#[local] Open Scope Z_scope.

(** ** Derived fields *)

(** An entry without the fields [Close] computes. *)
Definition core (e : entry) : entry :=
  mkEntry (e_path e) (e_kind e) (e_attrs e) 0 (mkRef 0 0) 0 0 0 (e_fileBlocksStart e)
    (e_fileBlockSizes e) (e_fileSize e) (e_symlinkTarget e) (e_hardlinkTarget e) (e_devMajor e)
    (e_devMinor e) [] 0 0 0 0.

(** An update of a number, a link count or the order of the children. *)
Inductive upd : entry → entry → Prop :=
| upd_c l e : l ≡ₚ e_children e → upd e (upd_children l e)
| upd_n n q e : fits_in 4 n → fits_in 4 q → upd e (upd_number n q e)
| upd_l n e : fits_in 4 n → upd e (upd_nlinks n e).

(** Entries that differ by such updates. *)
Definition touched (m m' : entries) : Prop := ∀ p, option_Forall2 (rtc upd) (m !! p) (m' !! p).

#[export] Instance touched_refl : Reflexive touched.
Proof. intros m p. destruct (m !! p); constructor. done. Qed.

#[export] Instance touched_trans : Transitive touched.
Proof.
  intros m1 m2 m3 H12 H23 p. specialize (H12 p). specialize (H23 p).
  inversion H12; inversion H23; simplify_eq; try congruence; constructor. etrans; [done|]. congruence.
Qed.

Lemma touched_alter m p f : (∀ e, upd e (f e)) → touched m (alter f p m).
Proof.
  intros Hf q. destruct (decide (q = p)) as [->|Hne]; [|by rewrite lookup_alter_ne].
  rewrite lookup_alter_eq. destruct (m !! p) as [e|]; constructor. by apply rtc_once.
Qed.

Lemma touched_insert m p e e' : m !! p = Some e → upd e e' → touched m (<[p := e']> m).
Proof.
  intros He Hu q. destruct (decide (q = p)) as [->|Hne]; [|by rewrite lookup_insert_ne].
  rewrite lookup_insert_eq, He. constructor. by apply rtc_once.
Qed.

Lemma touched_foldl {A} (f : entries → A → entries) l m :
  (∀ m c, touched m (f m c)) → touched m (foldl f m l).
Proof.
  intros Hf. revert m. induction l as [|c l IH]; intros m; cbn; [done|]. by rewrite <- IH.
Qed.

Lemma touched_lookup m m' p e : touched m m' → m !! p = Some e → ∃ e', m' !! p = Some e' ∧ rtc upd e e'.
Proof. intros Ht He. specialize (Ht p). rewrite He in Ht. inversion Ht; subst. eauto. Qed.

Lemma touched_lookup_inv m m' p e' : touched m m' → m' !! p = Some e' → ∃ e, m !! p = Some e ∧ rtc upd e e'.
Proof. intros Ht He. specialize (Ht p). rewrite He in Ht. inversion Ht; subst. eauto. Qed.

Record same_data (e e' : entry) : Prop := {
  sd_core : core e' = core e;
  sd_children : e_children e' ≡ₚ e_children e
}.

(** Link counts and numbers are unsigned 32-bit, the place of a listing is in range. *)
Definition ranged (e : entry) : Prop :=
  (fits_in 4 (e_inodeNumber e) ∧ fits_in 4 (e_nlinks e) ∧ fits_in 4 (e_parentInode e)) ∧
  0 ≤ e_dirBlockStart e ∧ fits_in 2 (e_dirBlockOffset e) ∧ 0 ≤ e_dirListingSize e < 2 ^ 32 - 3.

Lemma rtc_upd_data e e' : rtc upd e e' → same_data e e'.
Proof.
  induction 1 as [e|e e1 e2 Hu _ [IH1 IH2]]; [done|].
  destruct Hu; split; [by rewrite IH1|by rewrite IH2|by rewrite IH1|done|by rewrite IH1|done].
Qed.

Lemma rtc_upd_ranged e e' : rtc upd e e' → ranged e → ranged e'.
Proof.
  unfold ranged. induction 1 as [|e e1 e2 Hu _ IH]; [done|]. intros He. apply IH.
  destruct He as [(? & ? & ?) ?]. destruct Hu; cbn; done.
Qed.

Lemma rtc_upd_ids e e' : rtc upd e e' → e_uidIdx e' = e_uidIdx e ∧ e_gidIdx e' = e_gidIdx e.
Proof. induction 1 as [|e e1 e2 Hu _ [-> ->]]; [done|]. by destruct Hu. Qed.

Lemma fits_wrap32 v : fits_in 4 (wrap 32 v).
Proof. unfold fits_in, wrap. change (256 ^ Z.of_nat 4) with (2 ^ 32). apply Z.mod_pos_bound. lia. Qed.

(** ** The passes *)

(** Computations that stay in a preorder. *)
Definition within {S A} (R : S → S → Prop) (m : io S A) : Prop := ∀ s a s', m s = (inl a, s') → R s s'.

Lemma within_bind {S A B} (R : S → S → Prop) `{!Transitive R} (m : io S A) (k : A → io S B) :
  within R m → (∀ a, within R (k a)) → within R (io_bind m k).
Proof. intros Hm Hk s b s' (a & s1 & H1 & H2)%io_bind_inl. etrans; [by eapply Hm|by eapply Hk]. Qed.

Lemma within_ret {S A} (R : S → S → Prop) `{!Reflexive R} (a : A) : within R (io_ret a).
Proof. by intros s b s' [_ ->]%io_ret_inl. Qed.

Lemma within_gets {S A} (R : S → S → Prop) `{!Reflexive R} (g : S → A) : within R (io_gets g).
Proof. by intros s b s' [_ ->]%io_gets_inl. Qed.

Lemma within_deref {S} (R : S → S → Prop) `{!Reflexive R} (lookup : S → entries) p : within R (deref lookup p).
Proof. intros s b s'. unfold deref. by destruct (lookup s !! p); intros [= _ <-]. Qed.

Lemma within_fold {S A B} (R : S → S → Prop) `{!PreOrder R} (f : B → A → io S B) l :
  (∀ b x, within R (f b x)) → ∀ b, within R (io_fold f b l).
Proof.
  intros Hf. induction l as [|x l IH]; intros b; cbn [io_fold]; [by apply within_ret; apply _|].
  by apply within_bind; [apply _|apply Hf|].
Qed.

Lemma within_for {S A} (R : S → S → Prop) `{!PreOrder R} (f : A → io S unit) l :
  (∀ x, within R (f x)) → within R (io_for f l).
Proof.
  intros Hf. induction l as [|x l IH]; cbn [io_for]; [by apply within_ret; apply _|].
  by apply within_bind; [apply _|apply Hf|].
Qed.

Lemma exec_inl {S A} (m : io S A) s s' : exec m s = inl s' → ∃ a, m s = (inl a, s').
Proof. unfold exec. destruct (m s) as [[a|] s1]; intros [= <-]. eauto. Qed.

#[export] Instance touched_preorder : PreOrder touched.
Proof. split; apply _. Qed.

Lemma sortRec_touched fuel d : within touched (sortRec fuel d).
Proof.
  revert d. induction fuel as [|fuel IH]; intros d; cbn [sortRec]; [done|].
  apply within_bind; [apply _| |intros _; apply within_bind; [apply _|by apply within_deref; apply _|]].
  - intros m u m' [_ ->]%io_modify_inl. apply touched_alter. intros e. apply upd_c. apply SliceStable_perm.
  - intros e. apply within_for; [apply _|]. intros c. apply within_bind; [apply _|by apply within_gets; apply _|].
    intros [|]; [apply IH|by apply within_ret; apply _].
Qed.

(** The state of [number_walk]. *)
Definition numbered (s s' : Z * entries) : Prop :=
  fits_in 4 (fst s) → fits_in 4 (fst s') ∧ touched (snd s) (snd s').

#[export] Instance numbered_preorder : PreOrder numbered.
Proof.
  split; [by intros s Hs|]. intros s1 s2 s3 H12 H23 H1. destruct (H12 H1) as [H2 Ht]. destruct (H23 H2) as [H3 Ht'].
  split; [done|by etrans].
Qed.

Lemma number_walk_touched fuel : ∀ p parent, fits_in 4 parent → within numbered (number_walk fuel p parent).
Proof.
  induction fuel as [|fuel IH]; intros p parent Hp; cbn [number_walk]; [done|].
  intros [next m] u s' (e & s1 & Hd & Hw)%io_bind_inl. unfold deref in Hd. cbn [snd] in Hd.
  destruct (m !! p) as [e'|] eqn:He; [|done]. injection Hd as <- <-. intros Hn. cbn [fst] in Hn.
  case_bool_decide; [by io_inv|].
  apply io_bind_inl in Hw as (number & ? & [-> ->]%io_gets_inl & Hw). cbn [fst] in Hw.
  apply io_bind_inl in Hw as (? & ? & [_ ->]%io_modify_inl & Hw).
  assert (Ht : touched m (<[p := upd_number next parent e']> m)) by (eapply touched_insert; [done|by constructor]).
  pose proof (fits_wrap32 (next + 1)) as Hn1.
  case_bool_decide; [|io_inv; by split].
  apply (within_for numbered) in Hw; [|intros c; by apply IH]. destruct (Hw Hn1) as [Hn' Ht'].
  split; [done|]. cbn [snd] in *. by etrans.
Qed.

Lemma assignInodeNumbers_touched m m' : assignInodeNumbers m = inl m' → touched m m'.
Proof.
  unfold assignInodeNumbers. destruct (exec _ _) as [[n m1]|] eqn:E; intros [= <-].
  apply exec_inl in E as [u E]. by apply number_walk_touched in E as [_ ?].
Qed.

Lemma count_link_touched m p : touched m (count_link m p).
Proof.
  unfold count_link. destruct (m !! p) as [e|] eqn:He; [|done].
  assert (touched m (<[p := upd_nlinks 1 e]> m)) by (eapply touched_insert; [done|by constructor]).
  destruct (e_kind e); try done. destruct (e_hardlinkTarget e); [|done].
  apply touched_alter. intros e'. constructor. apply fits_wrap32.
Qed.

Lemma link_walk_touched fuel d : within touched (link_walk fuel d).
Proof.
  revert d. induction fuel as [|fuel IH]; intros d; cbn [link_walk]; [done|].
  apply within_bind; [apply _|by apply within_deref; apply _|]. intros e.
  apply within_bind; [apply _| |].
  - apply within_fold; [apply _|]. intros n c. apply within_bind; [apply _|by apply within_gets; apply _|].
    intros [|]; [|by apply within_ret; apply _]. apply within_bind; [apply _|apply IH|].
    intros _. by apply within_ret; apply _.
  - intros n m u m' [_ ->]%io_modify_inl. apply touched_alter. intros e'. constructor. apply fits_wrap32.
Qed.

Lemma computeLinkCounts_touched order m m' : computeLinkCounts order m = inl m' → touched m m'.
Proof.
  unfold computeLinkCounts. intros [u E]%exec_inl. apply link_walk_touched in E. etrans; [|exact E].
  apply touched_foldl. apply count_link_touched.
Qed.

Lemma passes_touched fuel order m ms mn m' :
  exec (sortRec fuel root_path) m = inl ms → assignInodeNumbers ms = inl mn → computeLinkCounts order mn = inl m' →
  touched m m'.
Proof.
  intros [u Es]%exec_inl En Ec. apply sortRec_touched in Es. etrans; [exact Es|].
  etrans; [by apply assignInodeNumbers_touched|by eapply computeLinkCounts_touched].
Qed.

Lemma link_children_spec order m m' :
  root_path ∉ order → link_children m order = inl m' →
  (∀ d, m' !! d = (λ e, upd_children (e_children e ++ filter (λ p, Dir p = d) order) e) <$> m !! d) ∧
  ∀ p, p ∈ order → ∃ e, m !! Dir p = Some e ∧ e_kind e = kindDir.
Proof.
  revert m. induction order as [|p order IH]; intros m Hr Hl; cbn in Hl.
  { simplify_eq. split; [|by intros p ?%elem_of_nil]. intros d. destruct (m' !! d) as [e|]; [|done].
    cbn. rewrite app_nil_r. by destruct e. }
  apply not_elem_of_cons in Hr as [Hp Hr]. unfold link_child in Hl. rewrite bool_decide_eq_false_2 in Hl by done.
  destruct (m !! Dir p) as [parent|] eqn:Hd; [|done]. case_bool_decide as Hk; [|done].
  apply IH in Hl as [Hch Hdir]; [|done]. split.
  - intros d. rewrite Hch, filter_cons. destruct (decide (Dir p = d)) as [<-|Hne].
    + rewrite lookup_insert_eq, Hd. cbn. by rewrite <- app_assoc.
    + by rewrite lookup_insert_ne.
  - intros q [->|Hq]%elem_of_cons; [eauto|]. apply Hdir in Hq as (e & He & Hke).
    destruct (decide (Dir q = Dir p)) as [->|Hne]; [eauto|]. rewrite lookup_insert_ne in He by done. eauto.
Qed.

(** ** Owners *)

(** The indices of an entry lead to its owner and group. *)
Definition owned (t : idTable) (e : entry) : Prop :=
  (fits_in 2 (e_uidIdx e) ∧ fits_in 2 (e_gidIdx e)) ∧
  id_list t !! Z.to_nat (e_uidIdx e) = Some (a_UID (e_attrs e)) ∧
  id_list t !! Z.to_nat (e_gidIdx e) = Some (a_GID (e_attrs e)).

Definition claims (t : idTable) (e e' : entry) : Prop :=
  e' = e ∨ ∃ u g, e' = upd_ids u g e ∧ owned t e'.

Lemma owned_prefix t t' e : id_list t `prefix_of` id_list t' → owned t e → owned t' e.
Proof. intros Hp [Hf [Hu Hg]]. split; [done|]. split; by eapply prefix_lookup_Some. Qed.

Lemma claims_trans t t' e1 e2 e3 :
  id_list t `prefix_of` id_list t' → claims t e1 e2 → claims t' e2 e3 → claims t' e1 e3.
Proof.
  intros Hp [->|(u & g & -> & Ho)] [->|(u' & g' & -> & Ho')]; [by left|by right; eauto| |].
  - right. exists u, g. split; [done|]. by eapply owned_prefix.
  - right. exists u', g'. by split.
Qed.

(** What a pass over owners does to the entries and the table. *)
Definition interned (s s' : entries * idTable) : Prop :=
  ids_ok (snd s') ∧ id_list (snd s) `prefix_of` id_list (snd s') ∧
  ∀ p, option_Forall2 (claims (snd s')) (fst s !! p) (fst s' !! p).

Lemma interned_refl m t : ids_ok t → interned (m, t) (m, t).
Proof. intros Hok. split_and!; [done|done|]. intros p. cbn. destruct (m !! p); constructor. by left. Qed.

Lemma interned_trans s1 s2 s3 : interned s1 s2 → interned s2 s3 → interned s1 s3.
Proof.
  intros (H1 & P1 & C1) (H2 & P2 & C2). split_and!; [done|by etrans|]. intros p.
  specialize (C1 p). specialize (C2 p). inversion C1; inversion C2; simplify_eq; try congruence; constructor.
  eapply claims_trans; [exact P2|done|]. congruence.
Qed.

Lemma interned_owned s s' p e :
  interned s s' → fst s !! p = Some e → owned (snd s) e → ∃ e', fst s' !! p = Some e' ∧ owned (snd s') e'.
Proof.
  intros (_ & Hp & Hc) He Ho. specialize (Hc p). rewrite He in Hc. inversion Hc as [? e' Hcl|]; subst.
  exists e'. split; [done|]. destruct Hcl as [->|(u & g & -> & ?)]; [by eapply owned_prefix|done].
Qed.

Lemma intern_owner_spec p m t u s' :
  ids_ok t → intern_owner p (m, t) = (inl u, s') →
  interned (m, t) s' ∧ ∃ e, fst s' !! p = Some e ∧ owned (snd s') e.
Proof.
  intros Hok Hi. unfold intern_owner, deref in Hi. apply io_bind_inl in Hi as (e & [m1 t1] & He & Hi).
  cbn in He. destruct (m !! p) as [e'|] eqn:Hp; simplify_eq.
  apply io_bind_inl in Hi as (ui & [m2 t2] & Hu & Hi). apply io_bind_inl in Hi as (gi & [m3 t3] & Hg & Hi).
  apply io_modify_inl in Hi as [_ ->].
  destruct (Intern (a_UID (e_attrs e)) t1) as [ru tu] eqn:Eu. simplify_eq.
  destruct (Intern (a_GID (e_attrs e)) t2) as [rg tg] eqn:Eg. simplify_eq.
  apply Intern_spec in Eu as (Hok1 & Hub & Hul & Hup); [|done].
  apply Intern_spec in Eg as (Hok2 & Hgb & Hgl & Hgp); [|done]. unfold maxIDs in *.
  assert (Ho : owned t3 (upd_ids ui gi e)).
  { split; [unfold fits_in; cbn; lia|]. cbn. split; [by eapply prefix_lookup_Some|done]. }
  split; [|exists (upd_ids ui gi e); cbn; by rewrite lookup_insert_eq].
  split_and!; cbn; [done|by etrans|]. intros q. destruct (decide (q = p)) as [->|Hne].
  - rewrite lookup_insert_eq, Hp. constructor. right. eauto.
  - rewrite lookup_insert_ne by done. destruct (m3 !! q); constructor. by left.
Qed.

Lemma intern_loop_spec order m t u s' :
  ids_ok t →
  io_for (λ p, io* e := deref fst p in
    if bool_decide (e_kind e = kindHardlink) then io_ret tt else intern_owner p) order (m, t) = (inl u, s') →
  interned (m, t) s' ∧
  ∀ p e, p ∈ order → fst s' !! p = Some e → e_kind e ≠ kindHardlink → owned (snd s') e.
Proof.
  revert m t. induction order as [|p order IH]; intros m t Hok Hl; cbn [io_for] in Hl.
  { io_inv. split; [by apply interned_refl|]. by intros p e ?%elem_of_nil. }
  apply io_bind_inl in Hl as (v & [m1 t1] & Hp & Hl).
  apply io_bind_inl in Hp as (e0 & s0 & Hd & Hp). unfold deref in Hd. cbn in Hd.
  destruct (m !! p) as [e1|] eqn:Hmp; simplify_eq.
  assert (H1 : interned (m, t) (m1, t1) ∧ (e_kind e0 ≠ kindHardlink → ∃ e, m1 !! p = Some e ∧ owned t1 e)).
  { case_bool_decide as Hk; [io_inv; simplify_eq; split; [by apply interned_refl|done]|].
    apply intern_owner_spec in Hp as [? ?]; [|done]. by split. }
  destruct H1 as [Hi1 Ho1]. apply IH in Hl as [Hi2 Ho2]; [|apply Hi1]. clear IH.
  split; [by eapply interned_trans|]. intros q e Hq He Hk.
  apply elem_of_cons in Hq as [->|Hq]; [|by eauto].
  destruct Ho1 as (e2 & He2 & Ho).
  - destruct (interned_trans _ _ _ Hi1 Hi2) as (_ & _ & Hc). specialize (Hc p). cbn in Hc.
    rewrite Hmp, He in Hc. inversion Hc as [?? Hcl|]; subst. by destruct Hcl as [->|(? & ? & -> & _)].
  - destruct (interned_owned _ _ p _ Hi2 He2 Ho) as (e3 & He3 & Ho3). congruence.
Qed.

Lemma internIDs_spec order m t u s' root :
  ids_ok t → m !! root_path = Some root → e_uidIdx root = 0 → e_gidIdx root = 0 →
  internIDs order (m, t) = (inl u, s') →
  interned (m, t) s' ∧
  ∀ p e, p ∈ order ∨ p = root_path → fst s' !! p = Some e → e_kind e ≠ kindHardlink → owned (snd s') e.
Proof.
  intros Hok Hroot Hu Hg Hi. unfold internIDs in Hi. apply io_bind_inl in Hi as (v & [m1 t1] & Hl & Hi).
  apply intern_loop_spec in Hl as [Hi1 Ho1]; [|done].
  apply io_bind_inl in Hi as (r & s0 & Hd & Hi). unfold deref in Hd. cbn in Hd.
  destruct (m1 !! root_path) as [r1|] eqn:Hr; simplify_eq.
  assert (H2 : interned (m1, t1) s' ∧ ∃ e, fst s' !! root_path = Some e ∧ owned (snd s') e).
  { case_match eqn:Ez; [apply intern_owner_spec in Hi; [done|apply Hi1]|]. io_inv.
    split; [apply interned_refl, Hi1|]. exists r. split; [done|].
    destruct Hi1 as (_ & _ & Hc). specialize (Hc root_path). cbn in Hc. rewrite Hroot, Hr in Hc.
    inversion Hc as [?? Hcl|]; subst. destruct Hcl as [->|(? & ? & -> & ?)]; [|done].
    by rewrite Hu, Hg in Ez. }
  destruct H2 as [Hi2 (e2 & He2 & Ho2)]. split; [by eapply interned_trans|].
  intros p e [Hp| ->] He Hk; [|congruence].
  destruct Hi2 as (_ & Hpre & Hc). specialize (Hc p). rewrite He in Hc. cbn in Hc.
  inversion Hc as [e1 ? Hcl He1|]; subst.
  destruct Hcl as [->|(? & ? & -> & ?)]; [|done]. eapply owned_prefix; [done|]. cbn in *. eapply Ho1; eauto.
Qed.

(** ** After the passes *)

Section Finish.
Context `{Decompressor} {F : Type} `{FileLaws F}.

Record finished (wr : list Z) (fs : filesystem) (order : list (list Z)) (t : idTable) (m : entries) : Prop := {
  fi_ids : ids_ok t;
  fi_dom : ∀ p, is_Some (m !! p) → is_Some (fs !! p);
  fi_entry : ∀ p n, fs !! p = Some n → ∃ e, m !! p = Some e ∧
    matches wr None p n (core e) ∧ ranged e ∧ e_children e ≡ₚ filter (λ q, Dir q = p) order ∧
    ((∀ l, n_body n ≠ NLink l) → owned t e);
  fi_parent : ∀ p, p ∈ order → ∃ n, fs !! Dir p = Some n ∧ n_body n = NDir
}.

Lemma matches_core wr pend p n e : matches wr pend p n e →
  core e = e ∧ e_children e = [] ∧ ranged e ∧ e_uidIdx e = 0 ∧ e_gidIdx e = 0 ∧ e_kind e = kind_of (n_body n).
Proof.
  unfold matches. destruct (n_body n) as [d| |t|b mj mn|s|t] eqn:Hn.
  - intros (start & words & dec & rest & -> & _). unfold entry_for. by rewrite Hn.
  - intros ->. unfold entry_for. by rewrite Hn.
  - intros ->. unfold entry_for. by rewrite Hn.
  - intros ->. unfold entry_for. by rewrite Hn.
  - intros ->. unfold entry_for. by rewrite Hn.
  - intros ->. unfold entry_for. by rewrite Hn.
Qed.

Lemma finish_entries_spec w fs wr order m t :
  writing (w_mtime w) w fs wr → w_curFile w = None → finish_entries order w = inl (m, t) →
  finished wr (with_root (w_mtime w) fs) (w_entryOrder w) t m.
Proof.
  intros Hw Hc Hf. unfold finish_entries, buildTree in Hf.
  assert (Hroot : fs !! root_path = None).
  { apply eq_None_not_Some. intros Hr. by apply (wi_valid _ _ _ _ Hw) in Hr. }
  assert (Hroote : w_entries w !! root_path = None).
  { destruct (w_entries w !! root_path) as [e|] eqn:He; [|done].
    apply (wi_entries _ _ _ _ Hw) in He as [? He]. congruence. }
  assert (Hnin : root_path ∉ w_entryOrder w).
  { intros Hr. apply (wi_order _ _ _ _ Hw) in Hr as [? Hr]. congruence. }
  rewrite Hroote in Hf. set (m1 := <[root_path := synthetic_root (w_mtime w)]> (w_entries w)) in *.
  destruct (link_children m1 (w_entryOrder w)) as [m2|] eqn:El; [|done].
  apply link_children_spec in El as [Hch Hdir]; [|done].
  destruct (exec (sortRec _ _) m2) as [ms|] eqn:Es; [|done]. destruct (assignInodeNumbers ms) as [mn|] eqn:En; [|done].
  destruct (computeLinkCounts order mn) as [m4|] eqn:Elc; [|done].
  assert (Ht : touched m2 m4) by (by eapply passes_touched).
  assert (Hst : ∀ p n, with_root (w_mtime w) fs !! p = Some n → ∃ e, m1 !! p = Some e ∧ matches wr None p n e).
  { intros p n. unfold with_root, m1. destruct (decide (p = root_path)) as [->|Hne].
    - rewrite !lookup_insert_eq. intros [= <-]. by eexists.
    - rewrite !lookup_insert_ne by done. intros Hp. destruct (wi_match _ _ _ _ Hw _ _ Hp) as (e & He & Hm).
      exists e. split; [done|]. unfold pending in Hm. by rewrite Hc in Hm. }
  assert (Hin : ∀ p e, m1 !! p = Some e → is_Some (with_root (w_mtime w) fs !! p)).
  { intros p e. unfold with_root, m1. destruct (decide (p = root_path)) as [->|Hne].
    - rewrite !lookup_insert_eq. eauto.
    - rewrite !lookup_insert_ne by done. apply (wi_entries _ _ _ _ Hw). }
  assert (Hfin : ∀ p n, with_root (w_mtime w) fs !! p = Some n → ∃ e, m4 !! p = Some e ∧
    matches wr None p n (core e) ∧ ranged e ∧ e_children e ≡ₚ filter (λ q, Dir q = p) (w_entryOrder w) ∧
    e_uidIdx e = 0 ∧ e_gidIdx e = 0 ∧ e_kind e = kind_of (n_body n)).
  { intros p n Hp. destruct (Hst _ _ Hp) as (e1 & He1 & Hm).
    pose proof (matches_core _ _ _ _ _ Hm) as (Hcore & Hkids & Hrg & Hu & Hg & Hk).
    pose proof (Hch p) as He2. rewrite He1 in He2. cbn in He2.
    destruct (touched_lookup _ _ _ _ Ht He2) as (e4 & He4 & Hrtc). exists e4.
    destruct (rtc_upd_data _ _ Hrtc) as [Hc4 Hk4]. destruct (rtc_upd_ids _ _ Hrtc) as [Hu4 Hg4].
    assert (Hce : core e4 = e1) by (rewrite Hc4, <- Hcore; done).
    split_and!; [done|by rewrite Hce| | |by rewrite Hu4|by rewrite Hg4|].
    - eapply rtc_upd_ranged; [done|]. exact Hrg.
    - rewrite Hk4. cbn. by rewrite Hkids.
    - rewrite <- Hk. by rewrite <- Hce. }
  apply exec_inl in Hf as [u Ei].
  destruct (Hfin root_path (mkNode (mkAttrs [] 0x1ed 0 0 (w_mtime w)) NDir)) as (r & Hr & _ & _ & _ & Hu & Hg & _);
    [unfold with_root; by rewrite lookup_insert_eq|].
  rewrite (wi_ids _ _ _ _ Hw) in Ei.
  eapply internIDs_spec in Ei as [(Hids & _ & Hcl) Hown]; [|apply newIDTable_ok|exact Hr|done|done].
  cbn in *. split; [done| | |].
  - intros p [e He]. specialize (Hcl p). rewrite He in Hcl. inversion Hcl as [e4 ? _ He4|]; subst.
    symmetry in He4. destruct (touched_lookup_inv _ _ _ _ Ht He4) as (e2 & He2 & _).
    rewrite Hch in He2. apply fmap_Some in He2 as (e1 & He1 & _). eauto.
  - intros p n Hp. destruct (Hfin _ _ Hp) as (e4 & He4 & Hm & Hrg & Hkids & _ & _ & Hk).
    specialize (Hcl p). rewrite He4 in Hcl. inversion Hcl as [? e He|]; subst. exists e.
    assert (core e = core e4 ∧ ranged e ∧ e_children e = e_children e4 ∧ e_kind e = e_kind e4) as (Ec & Hr' & Ek & Ekk)
      by (by destruct He as [->|(? & ? & -> & _)]).
    split_and!; [done|by rewrite Ec|done|by rewrite Ek|].
    intros Hnl. eapply Hown; [|done|].
    + destruct (decide (p = root_path)) as [->|Hne]; [by right|left]. apply (wi_order _ _ _ _ Hw).
      unfold with_root in Hp. rewrite lookup_insert_ne in Hp by done. eauto.
    + rewrite Ekk, Hk. destruct (n_body n) as [| | |[]| []|l]; try done. by destruct (Hnl l).
  - intros p Hp. destruct (Hdir p Hp) as (e & He & Hk). destruct (Hin _ _ He) as [n Hn]. exists n. split; [done|].
    destruct (Hst _ _ Hn) as (e' & He' & Hm). assert (e' = e) as -> by congruence.
    apply matches_core in Hm as (_ & _ & _ & _ & _ & Hk'). rewrite Hk in Hk'.
    by destruct (n_body n) as [| | |[]| []|].
Qed.
End Finish.

(** ** The tables *)

(** Where a hard link leads. *)
Definition resolve (fs : filesystem) (p : list Z) : list Z :=
  match fs !! p with
  | Some n => match n_body n with NLink t => t | _ => p end
  | None => p
  end.

Definition ref_ok (r : metaRef) : Prop := 0 ≤ r_offset r < MetadataBlockSize.

(** The fields of a node are in the range of their Go types. *)
Definition node_ok (n : node) : Prop :=
  0 ≤ a_Mode (n_attrs n) ∧ fits_in 4 (a_UID (n_attrs n)) ∧ fits_in 4 (a_GID (n_attrs n)) ∧
  match n_body n with NDevice _ major minor => 0 ≤ major ∧ 0 ≤ minor | _ => True end.

Section Tables.
Context `{Decompressor} {F : Type} `{FileLaws F}.
Context (fixed : option Z) (blockSize : Z) (wr : list Z) (fs : filesystem) (order : list (list Z)) (ids : idTable).
Context (fs_links : ∀ p n t, fs !! p = Some n → n_body n = NLink t → ∃ n' d, fs !! t = Some n' ∧ n_body n' = NFile d).
Context (fs_ok : ∀ p n, fs !! p = Some n → node_ok n).
Context (order_small : zlen order ≤ 2 ^ 23).

(** A line of a listing leads to the inode of the child. *)
Definition leads (im : metaWriter) (S : metaRef → list Z → Prop) (d : dirEntry) (c : list Z) : Prop :=
  d_name d = Base c ∧ ∃ r, d_inodeBlockByte d = BlockByteOffset (r_blockIdx r) im ∧
    (r_blockIdx r ≤ length (mw_blocks im))%nat ∧ d_inodeBlockOff d = r_offset r ∧ S r (resolve fs c).

(** The listing of a directory: in the table where its entry says, and leading to its
    children. *)
Definition listing_at (im dm : metaWriter) (S : metaRef → list Z → Prop) (e : entry) : Prop :=
  ∃ r bs ds,
    e_dirBlockStart e = BlockByteOffset (r_blockIdx r) dm ∧ (r_blockIdx r ≤ length (mw_blocks dm))%nat ∧
    e_dirBlockOffset e = r_offset r ∧ e_dirListingSize e = zlen bs ∧ at_ref dm r bs ∧
    parse_listing bs = Some (SliceStable name_less ds) ∧ Forall2 (leads im S) ds (e_children e).

(** The inode of the node at [p] is at [r]. *)
Definition inode_at (im dm : metaWriter) (S : metaRef → list Z → Prop) (r : metaRef) (p : list Z) : Prop :=
  ∃ n e mtime bs, fs !! p = Some n ∧ matches wr None p n (core e) ∧ ranged e ∧ owned ids e ∧
    e_children e ≡ₚ filter (λ q, Dir q = p) order ∧
    entryMtime fixed e = inl mtime ∧ encodeInode e mtime blockSize = inl bs ∧
    at_ref im r bs ∧ ref_ok r ∧ (n_body n = NDir → listing_at im dm S e).

(** Pairs of a place and a path, closed under the listings. *)
Definition represented (im dm : metaWriter) (S : metaRef → list Z → Prop) : Prop :=
  ∀ r p, S r p → inode_at im dm S r p.

Definition with_pair (S : metaRef → list Z → Prop) (r : metaRef) (p : list Z) : metaRef → list Z → Prop :=
  λ r' p', S r' p' ∨ r' = r ∧ p' = p.

Lemma BlockByteOffset_grows k m p m' :
  (k ≤ length (mw_blocks m))%nat → grows m p m' → BlockByteOffset k m' = BlockByteOffset k m.
Proof. intros Hk (bl & Hb & _). unfold BlockByteOffset. by rewrite Hb, take_app_le. Qed.

Lemma grows_length m p m' : grows m p m' → (length (mw_blocks m) ≤ length (mw_blocks m'))%nat.
Proof. intros (bl & -> & _). rewrite length_app. lia. Qed.

Lemma leads_mono im p im' (S S' : metaRef → list Z → Prop) d c :
  grows im p im' → (∀ r q, S r q → S' r q) → leads im S d c → leads im' S' d c.
Proof.
  intros Hg HS [Hn (r & Hb & Hk & Ho & Hr)]. split; [done|]. exists r.
  pose proof (grows_length _ _ _ Hg). rewrite (BlockByteOffset_grows _ _ _ _ Hk Hg).
  split_and!; [done|lia|done|by apply HS].
Qed.

Lemma listing_at_mono im p im' dm q dm' (S S' : metaRef → list Z → Prop) e :
  grows im p im' → grows dm q dm' → (∀ r q, S r q → S' r q) → listing_at im dm S e → listing_at im' dm' S' e.
Proof.
  intros Hg Hg' HS (r & bs & ds & Hb & Hk & Ho & Hz & Ha & Hp & Hl). exists r, bs, ds.
  pose proof (grows_length _ _ _ Hg'). rewrite (BlockByteOffset_grows _ _ _ _ Hk Hg').
  split_and!; [done|lia|done|done|by eapply at_ref_grows|done|].
  eapply Forall2_impl; [exact Hl|]. intros d c. by eapply leads_mono.
Qed.

Lemma inode_at_mono im p im' dm q dm' (S S' : metaRef → list Z → Prop) r x :
  grows im p im' → grows dm q dm' → (∀ r q, S r q → S' r q) → inode_at im dm S r x → inode_at im' dm' S' r x.
Proof.
  intros Hg Hg' HS (n & e & mtime & bs & Hn & Hm & Hr & Ho & Hk & Ht & He & Ha & Hro & Hd).
  exists n, e, mtime, bs. do 7 (split; [done|]). split; [by eapply at_ref_grows|]. split; [done|].
  intros Hdir. eapply listing_at_mono; [done..|]. by apply Hd.
Qed.

Lemma represented_grows im p im' dm q dm' S :
  grows im p im' → grows dm q dm' → represented im dm S → represented im' dm' S.
Proof. intros Hg Hg' HS r x Hr. eapply inode_at_mono; [done..|]. by apply HS. Qed.

(** The state of [Close] while it writes the tables; the paths in [V] have their inode. *)
Record tabling (S : metaRef → list Z → Prop) (V : list Z → Prop) (t : tables) : Prop := {
  tb_fin : finished wr fs order ids (t_entries t);
  tb_iopen : open_ok (t_inodeMeta t);
  tb_dopen : open_ok (t_dirMeta t);
  tb_iblocks : Forall block_ok (mw_blocks (t_inodeMeta t));
  tb_dblocks : Forall block_ok (mw_blocks (t_dirMeta t));
  tb_repr : represented (t_inodeMeta t) (t_dirMeta t) S;
  tb_have : ∀ p, V p → ∃ e, t_entries t !! p = Some e ∧ S (e_inodeRef e) (resolve fs p);
  tb_links : ∀ p n l, V p → fs !! p = Some n → n_body n = NLink l →
    ∃ e e', t_entries t !! p = Some e ∧ t_entries t !! l = Some e' ∧ e_inodeRef e = e_inodeRef e'
}.

Lemma finished_alter m p f :
  finished wr fs order ids m →
  (∀ e, m !! p = Some e → core (f e) = core e ∧ (ranged e → ranged (f e)) ∧
     e_children (f e) = e_children e ∧ e_uidIdx (f e) = e_uidIdx e ∧ e_gidIdx (f e) = e_gidIdx e) →
  finished wr fs order ids (alter f p m).
Proof.
  intros [H3 H4 H5 H6] Hf. split; [done| | |done].
  - intros q. rewrite lookup_alter. case_decide; subst; [rewrite fmap_is_Some|]; apply H4.
  - intros q n Hq. destruct (H5 q n Hq) as (e & He & Hm & Hr & Hk & Ho). rewrite lookup_alter.
    case_decide; subst; [|by eauto 10]. rewrite He. destruct (Hf e He) as (Hc & Hr' & Hk' & Hu & Hg).
    exists (f e). split; [done|]. rewrite Hc, Hk'. split_and!; [done|by apply Hr'|done|].
    intros Hnl. destruct (Ho Hnl) as [[? ?] [? ?]]. unfold owned. rewrite Hu, Hg.
    assert (e_attrs (f e) = e_attrs e) as -> by (by injection Hc). done.
Qed.

Lemma grows_blocks m p m' : grows m p m' → Forall block_ok (mw_blocks m) → Forall block_ok (mw_blocks m').
Proof. intros (bl & -> & Hb & _) Hm. by apply Forall_app. Qed.

Lemma Ref_ok m : open_ok m → ref_ok (Ref m).
Proof.
  unfold open_ok, ref_ok, Ref, wrap, MetadataBlockSize. cbn. intros Ho. pose proof (zlen_nonneg (mw_cur m)).
  rewrite Z.mod_small; lia.
Qed.

Lemma resolve_not_link p n : fs !! p = Some n → (∀ l, n_body n ≠ NLink l) → resolve fs p = p.
Proof.
  intros Hp Hn. unfold resolve. rewrite Hp. destruct (n_body n) as [| | | | |l]; try done. by destruct (Hn l).
Qed.

Lemma deref_inl {S} (lookup : S → entries) p s e s' :
  deref lookup p s = (inl e, s') → s' = s ∧ lookup s !! p = Some e.
Proof. unfold deref. destruct (lookup s !! p) eqn:E; intros [= <- <-]. done. Qed.

Lemma lift_inl {S A} (r : A + sq_error) (s : S) a s' : lift r s = (inl a, s') → s' = s ∧ r = inl a.
Proof. unfold lift. by intros [= -> ->]. Qed.

Lemma on_inodes_inl {A} (m : io metaWriter A) t a t' :
  on_inodes m t = (inl a, t') →
  ∃ im, m (t_inodeMeta t) = (inl a, im) ∧ t' = mkTables (t_entries t) im (t_dirMeta t).
Proof. unfold on_inodes. destruct (m (t_inodeMeta t)) as [res im]. intros [= -> <-]. eauto. Qed.

Lemma on_dirs_inl {A} (m : io metaWriter A) t a t' :
  on_dirs m t = (inl a, t') →
  ∃ dm, m (t_dirMeta t) = (inl a, dm) ∧ t' = mkTables (t_entries t) (t_inodeMeta t) dm.
Proof. unfold on_dirs. destruct (m (t_dirMeta t)) as [res dm]. intros [= -> <-]. eauto. Qed.

Lemma writeOneInode_spec S V t p n e u t' :
  tabling S V t → fs !! p = Some n → (∀ l, n_body n ≠ NLink l) → t_entries t !! p = Some e →
  (n_body n = NDir → listing_at (t_inodeMeta t) (t_dirMeta t) S e) →
  (∀ q m l, V q → fs !! q = Some m → n_body m = NLink l → l ≠ p) →
  writeOneInode fixed blockSize p t = (inl u, t') →
  ∃ S', tabling S' (λ q, V q ∨ q = p) t'.
Proof.
  intros [Hfin Hio Hdo Hib Hdb Hrep Hhave Hlinks] Hp Hnl He Hdir Htgt Hw. unfold writeOneInode in Hw.
  apply io_bind_inl in Hw as (e' & ? & [-> He']%deref_inl & Hw). assert (e' = e) as -> by congruence. clear He'.
  apply io_bind_inl in Hw as (mtime & ? & [-> Hmt]%lift_inl & Hw).
  apply io_bind_inl in Hw as (bs & ? & [-> Hbs]%lift_inl & Hw).
  apply io_bind_inl in Hw as (r & ? & [-> ->]%io_gets_inl & Hw).
  apply io_bind_inl in Hw as (? & ? & [_ ->]%io_modify_inl & Hw).
  apply on_inodes_inl in Hw as (im & Hw & ->). cbn [t_inodeMeta t_entries t_dirMeta] in *.
  apply Write_at_ref in Hw as (Hg & Ho & Ha); [|done].
  set (r := Ref (t_inodeMeta t)) in *. exists (with_pair S r p).
  destruct (fi_entry _ _ _ _ _ Hfin _ _ Hp) as (e0 & He0 & Hm & Hrg & Hk & Hown).
  assert (e0 = e) as -> by congruence. clear He0.
  assert (HS : ∀ r q, S r q → with_pair S (Ref (t_inodeMeta t)) p r q) by (by left).
  split; cbn; try done.
  - apply finished_alter; [done|]. by intros e'' _.
  - by eapply grows_blocks.
  - intros r' q [Hr| [-> ->]].
    + eapply inode_at_mono; [done|apply grows_refl|done|]. by apply Hrep.
    + exists n, e, mtime, bs. split; [done|]. do 6 (split; [by auto|]). split; [done|].
      split; [by apply Ref_ok|]. intros Hd. eapply listing_at_mono; [done|apply grows_refl|done|]. by apply Hdir.
  - intros q Hq. destruct (decide (q = p)) as [->|Hne].
    + rewrite lookup_alter_eq, He. eexists. split; [done|]. cbn. rewrite (resolve_not_link p n) by done. by right.
    + rewrite lookup_alter_ne by done. destruct Hq as [Hq|Hq]; [|done]. destruct (Hhave q Hq) as (eq & ? & ?).
      exists eq. split; [done|]. by left.
  - intros q m l Hq Hqm Hl. assert (q ≠ p) by (intros ->; assert (m = n) as -> by congruence; by apply Hnl in Hl).
    destruct Hq as [Hq|Hq]; [|done]. rewrite !lookup_alter_ne; [by eapply Hlinks| |done].
    intros ->. by eapply Htgt.
Qed.

Definition is_link (p : list Z) : Prop := ∃ n l, fs !! p = Some n ∧ n_body n = NLink l.
Definition is_folder (p : list Z) : Prop := ∃ n, fs !! p = Some n ∧ n_body n = NDir.

Lemma finished_kind m p n e :
  finished wr fs order ids m → fs !! p = Some n → m !! p = Some e → e_kind e = kind_of (n_body n).
Proof.
  intros Hf Hp He. destruct (fi_entry _ _ _ _ _ Hf _ _ Hp) as (e' & He' & Hm & _).
  assert (e' = e) as -> by congruence. by apply matches_core in Hm as (_ & _ & _ & _ & _ & Hk).
Qed.

Lemma tabling_weaken S V V' t : (∀ q, V' q → V q) → tabling S V t → tabling S V' t.
Proof. intros HV []. split; eauto. Qed.

Lemma writeLeafInodes_spec S V t l u t' :
  tabling S V t → (∀ q, V q → ¬ is_link q) → (∀ q, q ∈ l → is_Some (fs !! q)) →
  writeLeafInodes fixed blockSize l t = (inl u, t') →
  ∃ S' V', tabling S' V' t' ∧ (∀ q, V q → V' q) ∧ (∀ q, V' q → ¬ is_link q) ∧
    ∀ q, q ∈ l → ¬ is_link q → ¬ is_folder q → V' q.
Proof.
  revert S V t. induction l as [|p l IH]; intros S V t Ht HV Hl Hw; unfold writeLeafInodes in Hw;
    cbn [io_for] in Hw.
  { io_inv. exists S, V. split_and!; try done. by intros q ?%elem_of_nil. }
  apply io_bind_inl in Hw as (v & t1 & Hp & Hw).
  apply io_bind_inl in Hp as (e & ? & [-> He]%deref_inl & Hp).
  destruct (Hl p ltac:(by left)) as [n Hn].
  pose proof (finished_kind _ _ _ _ (tb_fin _ _ _ Ht) Hn He) as Hk.
  assert (Hone : ∃ S1 V1, tabling S1 V1 t1 ∧ (∀ q, V q → V1 q) ∧ (∀ q, V1 q → ¬ is_link q) ∧
    (¬ is_link p → ¬ is_folder p → V1 p)).
  { case_bool_decide as Hd.
    - io_inv. exists S, V. split_and!; try done. intros Hnl Hnd. exfalso. rewrite Hk in Hd.
      destruct (n_body n) as [| | |[]|[]|t0] eqn:Hb; destruct Hd; try done.
      + apply Hnd. by exists n.
      + apply Hnl. by exists n, t0.
    - assert (Hnl : ∀ t0, n_body n ≠ NLink t0) by (intros t0 Hb; apply Hd; right; by rewrite Hk, Hb).
      assert (Hnd : n_body n ≠ NDir) by (intros Hb; apply Hd; left; by rewrite Hk, Hb).
      eapply writeOneInode_spec in Hp as [S1 Ht1]; [|done|done|done|done|done|].
      + exists S1, (λ q, V q ∨ q = p). split_and!; [done|by left| |by right].
        intros q [Hq| ->]; [by apply HV|]. intros (n' & l0 & Hn' & Hb). assert (n' = n) as -> by congruence.
        by apply Hnl in Hb.
      + intros q m l0 Hq Hm Hb. exfalso. eapply HV; [done|]. by exists m, l0. }
  destruct Hone as (S1 & V1 & Ht1 & Hsub & HV1 & Hp1).
  eapply IH in Hw as (S2 & V2 & Ht2 & Hsub2 & HV2 & Hp2); [|done|done|intros q Hq; apply Hl; by right].
  exists S2, V2. split_and!; [done|by eauto|done|]. intros q [->|Hq]%elem_of_cons; eauto.
Qed.

Lemma resolveHardlinks_spec S V t l u t' :
  tabling S V t → (∀ q n d, fs !! q = Some n → n_body n = NFile d → V q) →
  (∀ q, q ∈ l → is_Some (fs !! q)) → resolveHardlinks l t = (inl u, t') →
  ∃ V', tabling S V' t' ∧ (∀ q, V q → V' q) ∧ ∀ q, q ∈ l → is_link q → V' q.
Proof.
  revert V t. induction l as [|p l IH]; intros V t Ht HV Hl Hw; unfold resolveHardlinks in Hw;
    cbn [io_for] in Hw.
  { io_inv. exists V. split_and!; try done. by intros q ?%elem_of_nil. }
  apply io_bind_inl in Hw as (v & t1 & Hp & Hw).
  apply io_bind_inl in Hp as (e & ? & [-> He]%deref_inl & Hp).
  destruct (Hl p ltac:(by left)) as [n Hn].
  pose proof (finished_kind _ _ _ _ (tb_fin _ _ _ Ht) Hn He) as Hk.
  assert (Hone : ∃ V1, tabling S V1 t1 ∧ (∀ q, V q → V1 q) ∧ (is_link p → V1 p)).
  { case_bool_decide as Hd; last first.
    { io_inv. exists V. split_and!; try done. intros (n' & l0 & Hn' & Hb). exfalso. apply Hd.
      assert (n' = n) as -> by congruence. by rewrite Hk, Hb. }
    assert (∃ l0, n_body n = NLink l0) as [l0 Hb].
    { rewrite Hk in Hd. destruct (n_body n) as [| | |[]|[]|t0]; try done. eauto. }
    apply io_bind_inl in Hp as (tgt & ? & [-> Htgt]%deref_inl & [_ ->]%io_modify_inl).
    destruct (fs_links _ _ _ Hn Hb) as (n' & d & Hn' & Hb').
    destruct (fi_entry _ _ _ _ _ (tb_fin _ _ _ Ht) _ _ Hn) as (e0 & He0 & Hm & _).
    assert (e0 = e) as -> by congruence. clear He0.
    assert (e_hardlinkTarget e = Some l0) as El.
    { unfold matches, entry_for in Hm. rewrite Hb in Hm. by injection Hm. }
    rewrite El in Htgt. cbn in Htgt.
    assert (Hlp : l0 ≠ p) by (intros ->; congruence).
    destruct Ht as [Hfin Hio Hdo Hib Hdb Hrep Hhave Hlinks].
    exists (λ q, V q ∨ q = p). split_and!; [|by left|by right]. split; cbn; try done.
    - apply finished_alter; [done|]. intros e' He'. split_and!; try done. intros [(? & ? & ?) ?].
      destruct (fi_entry _ _ _ _ _ Hfin _ _ Hn') as (e0 & He0 & _ & [(? & ? & ?) ?] & _).
      assert (e0 = tgt) as -> by congruence. done.
    - intros q Hq. destruct (decide (q = p)) as [->|Hne].
      + rewrite lookup_alter_eq, He. eexists. split; [done|]. cbn. unfold resolve. rewrite Hn, Hb.
        destruct (Hhave l0 (HV _ _ _ Hn' Hb')) as (e0 & He0 & Hs). assert (e0 = tgt) as -> by congruence.
        by rewrite (resolve_not_link l0 n') in Hs by (try done; intros t0; by rewrite Hb').
      + rewrite lookup_alter_ne by done. destruct Hq as [Hq|Hq]; [|done]. eauto.
    - intros q m l1 Hq Hm' Hb1. destruct (decide (q = p)) as [->|Hne].
      + assert (m = n) as -> by congruence. assert (l1 = l0) as -> by congruence.
        rewrite lookup_alter_eq, He, lookup_alter_ne, Htgt by done. by eexists _, _.
      + destruct Hq as [Hq|Hq]; [|done]. destruct (Hlinks _ _ _ Hq Hm' Hb1) as (e1 & e2 & He1 & He2 & Hr).
        assert (l1 ≠ p). { intros ->. destruct (fs_links _ _ _ Hm' Hb1) as (? & ? & ? & ?). congruence. }
        rewrite !lookup_alter_ne by done. eauto. }
  destruct Hone as (V1 & Ht1 & Hsub & Hp1).
  eapply IH in Hw as (V2 & Ht2 & Hsub2 & Hp2); [|done|by eauto|intros q Hq; apply Hl; by right].
  exists V2. split_and!; [done|by eauto|]. intros q [->|Hq]%elem_of_cons; eauto.
Qed.

Lemma BlockByteOffset_nonneg k m : 0 ≤ BlockByteOffset k m.
Proof.
  unfold BlockByteOffset. induction (take k (mw_blocks m)) as [|b l IH]; cbn -[Z.add]; [done|].
  pose proof (zlen_nonneg (mb_data b)). lia.
Qed.

Lemma dir_entry_spec S V t c d t' :
  tabling S V t → V c → is_Some (fs !! c) → dir_entry c t = (inl d, t') →
  t' = t ∧ leads (t_inodeMeta t) S d c ∧ dirEntry_ok d.
Proof.
  intros Ht HVc [n Hn] Hd. unfold dir_entry in Hd.
  apply io_bind_inl in Hd as (e & ? & [-> He]%deref_inl & Hd).
  apply io_bind_inl in Hd as (tgt & ? & [-> ->]%io_gets_inl & Hd).
  set (tgt := e_hardlinkTarget e ≫= λ p, t_entries t !! p) in *.
  apply io_bind_inl in Hd as (bb & ? & [-> ->]%io_gets_inl & Hd). case_match eqn:Hbig; [done|]. bool_prop.
  apply io_ret_inl in Hd as [-> ->].
  destruct (tb_have _ _ _ Ht _ HVc) as (e0 & He0 & HS). assert (e0 = e) as -> by congruence. clear He0.
  destruct (tb_repr _ _ _ Ht _ _ HS) as (n' & e' & mt & bs & _ & _ & _ & _ & _ & _ & _ & [Hidx _] & Hro & _).
  assert (Href : match e_kind e, tgt with kindHardlink, Some tgt => e_inodeRef tgt | _, _ => e_inodeRef e end = e_inodeRef e).
  { destruct (e_kind e) eqn:Hke; try done. destruct tgt as [te|] eqn:Etgt; [|done].
    pose proof (finished_kind _ _ _ _ (tb_fin _ _ _ Ht) Hn He) as Hk.
    destruct (fi_entry _ _ _ _ _ (tb_fin _ _ _ Ht) _ _ Hn) as (e0 & He0 & Hm & _).
    assert (e0 = e) as -> by congruence. rewrite Hke in Hk.
    destruct (n_body n) as [| | |[]|[]|l] eqn:Hb; try done.
    assert (e_hardlinkTarget e = Some l) as El.
    { unfold matches, entry_for in Hm. rewrite Hb in Hm. by injection Hm. }
    destruct (tb_links _ _ _ Ht _ _ _ HVc Hn Hb) as (e1 & e2 & He1 & He2 & Hr).
    unfold tgt in Etgt. rewrite El in Etgt. cbn in Etgt. congruence. }
  rewrite Href in *. split; [done|]. split.
  - split; [done|]. exists (e_inodeRef e). by split_and!.
  - destruct (fi_entry _ _ _ _ _ (tb_fin _ _ _ Ht) _ _ Hn) as (e0 & He0 & _ & [(? & _ & _) _] & _).
    assert (e0 = e) as -> by congruence. unfold ref_ok, MetadataBlockSize in Hro.
    split; cbn; [done| | |].
    + pose proof (BlockByteOffset_nonneg (r_blockIdx (e_inodeRef e)) (t_inodeMeta t)). unfold fits_in. cbn. lia.
    + unfold fits_in. cbn. lia.
    + unfold basicTypeFor. by repeat case_match.
Qed.

Lemma dir_entries_spec S V t l ds t' :
  tabling S V t → (∀ c, c ∈ l → V c ∧ is_Some (fs !! c)) → dir_entries l t = (inl ds, t') →
  t' = t ∧ Forall2 (leads (t_inodeMeta t) S) ds l ∧ Forall dirEntry_ok ds.
Proof.
  intros Ht. revert ds. induction l as [|c l IH]; intros ds Hl Hw; cbn [dir_entries] in Hw; [by io_inv|].
  apply io_bind_inl in Hw as (d & t1 & Hd & Hw). destruct (Hl c ltac:(by left)) as [Hc Hs].
  apply (dir_entry_spec _ _ _ _ _ _ Ht Hc Hs) in Hd as (-> & Hd & Hok).
  apply io_bind_inl in Hw as (ds' & t1 & Hw & [-> ->]%io_ret_inl).
  apply IH in Hw as (-> & Hds & Hoks); [|intros c' Hc'; apply Hl; by right].
  split_and!; [done|by constructor|by constructor].
Qed.

Lemma writeDir_spec S V t d u t' :
  tabling S V t → is_folder d →
  (∀ c, c ∈ order → Dir c = d → V c ∧ is_Some (fs !! c)) →
  writeDir fixed blockSize d t = (inl u, t') →
  ∃ S', tabling S' (λ q, V q ∨ q = d) t'.
Proof.
  intros Ht (n & Hn & Hb) Hkids Hw. unfold writeDir in Hw.
  apply io_bind_inl in Hw as (e & ? & [-> He]%deref_inl & Hw).
  destruct (fi_entry _ _ _ _ _ (tb_fin _ _ _ Ht) _ _ Hn) as (e0 & He0 & _ & Hrg & Hk & _).
  assert (e0 = e) as -> by congruence. clear He0.
  apply io_bind_inl in Hw as (ds & t1 & Hds & Hw).
  apply (dir_entries_spec _ _ _ _ _ _ Ht) in Hds as (-> & Hlead & Hok).
  2:{ intros c Hc. rewrite Hk in Hc. apply list_elem_of_filter in Hc as [? ?]. by apply Hkids. }
  apply io_bind_inl in Hw as ([r nb] & t1 & Hl & Hw).
  apply on_dirs_inl in Hl as (dm & Hl & ->).
  apply writeDirListing_spec in Hl as (bs & Hg & Hdo & -> & -> & Hlen & Hparse); [|apply Ht].
  specialize (Hparse Hok).
  apply io_bind_inl in Hw as (start & ? & [-> ->]%io_gets_inl & Hw).
  apply io_bind_inl in Hw as (? & ? & [_ ->]%io_modify_inl & Hw). cbn [t_dirMeta t_entries t_inodeMeta] in *.
  set (r := Ref (t_dirMeta t)) in *.
  assert (Hsz : wrap 32 (zlen bs) = zlen bs ∧ 0 ≤ zlen bs < 2 ^ 32 - 3).
  { assert (zlen ds ≤ 2 ^ 23).
    { apply Forall2_length in Hlead. unfold zlen in *. rewrite Hlead, Hk. pose proof (length_filter (λ q, Dir q = d) order). lia. }
    pose proof (zlen_nonneg bs). unfold wrap. rewrite Z.mod_small by lia. lia. }
  destruct Hsz as [Hsz Hsz'].
  set (f := upd_listing (BlockByteOffset (r_blockIdx r) dm) (r_offset r) (wrap 32 (zlen bs))) in *.
  pose proof (Ref_ok _ (tb_dopen _ _ _ Ht)) as Hro. fold r in Hro. unfold ref_ok, MetadataBlockSize in Hro.
  assert (Ht2 : tabling S V (mkTables (alter f d (t_entries t)) (t_inodeMeta t) dm)).
  { destruct Ht as [Hfin Hio _ Hib Hdb Hrep Hhave Hlinks]. split; cbn; try done.
    - apply finished_alter; [done|]. intros e' _. split_and!; try done. intros [? ?]. split; [done|].
      unfold f. cbn [upd_listing e_dirBlockStart e_dirBlockOffset e_dirListingSize]. rewrite Hsz. split; [apply BlockByteOffset_nonneg|]. split; [|lia].
      unfold fits_in. change (256 ^ Z.of_nat 2) with 65536. lia.
    - by eapply grows_blocks.
    - eapply represented_grows; [apply grows_refl|done|done].
    - intros q Hq. destruct (Hhave q Hq) as (eq & Heq & Hs). rewrite lookup_alter. case_decide; subst; [|by eauto].
      rewrite Heq. by eexists.
    - intros q m l Hq Hm Hl. destruct (Hlinks _ _ _ Hq Hm Hl) as (e1 & e2 & He1 & He2 & Hr).
      assert (d ≠ q) by congruence. assert (d ≠ l).
      { intros ->. destruct (fs_links _ _ _ Hm Hl) as (? & ? & ? & ?). congruence. }
      rewrite !lookup_alter_ne by done. eauto. }
  eapply (writeOneInode_spec _ _ _ d n (f e)) in Hw as [S' Ht']; [by exists S'|done|done|by intros l; rewrite Hb|..].
  - cbn. by rewrite lookup_alter_eq, He.
  - intros _. cbn. exists r, bs, ds. cbn.
    assert (at_ref dm r bs) as Hat by (by apply at_ref_written; [apply Ht|]).
    split; [done|]. split; [by apply Hat|]. do 2 (split; [done|]). split; [done|]. by split.
  - intros q m l _ Hm Hl ->. destruct (fs_links _ _ _ Hm Hl) as (? & ? & ? & ?). congruence.
Qed.

Lemma io_for_app_inl {E St A} (f : A → fallible E St unit) x l u s s' :
  io_for f (x :: l) s = (inl u, s') → ∃ v s1, f x s = (inl v, s1) ∧ io_for f l s1 = (inl u, s').
Proof. cbn [io_for]. by intros (v & s1 & ? & ?)%io_bind_inl; eauto. Qed.

(** Every directory below [d] gets its inode after those it leads to. *)
Lemma dir_walk_spec fuel S V t d u t' :
  (∀ c, c ∈ order → is_Some (fs !! c)) → (∀ c, c ∈ order → ¬ is_folder c → V c) →
  tabling S V t → is_folder d → dir_walk fixed blockSize fuel d t = (inl u, t') →
  ∃ S' V', tabling S' V' t' ∧ (∀ q, V q → V' q) ∧ V' d.
Proof.
  intros Hin. revert S V t d u t'. induction fuel as [|fuel IH]; intros S V t d u t' HV Ht Hd Hw;
    cbn [dir_walk] in Hw; [done|].
  apply io_bind_inl in Hw as (e & ? & [-> He]%deref_inl & Hw).
  apply io_bind_inl in Hw as (v & t1 & Hfor & Hw).
  assert (Hloop : ∀ l S V t v t1, (∀ c, c ∈ l → c ∈ order) → (∀ c, c ∈ order → ¬ is_folder c → V c) →
    tabling S V t → io_for (λ c, io* dir := io_gets (λ t, is_dir (t_entries t) c) in
      if dir : bool then dir_walk fixed blockSize fuel c else io_ret tt) l t = (inl v, t1) →
    ∃ S' V', tabling S' V' t1 ∧ (∀ q, V q → V' q) ∧ ∀ c, c ∈ l → V' c).
  { clear S V t Ht He Hfor Hw HV v t1. induction l as [|c l IHl]; intros S V t v t1 Hl HV Ht Hfor.
    { cbn in Hfor. io_inv. exists S, V. split_and!; try done. by intros c ?%elem_of_nil. }
    apply io_for_app_inl in Hfor as (v1 & t2 & Hc & Hfor).
    apply io_bind_inl in Hc as (dir & ? & [-> ->]%io_gets_inl & Hc).
    destruct (Hin c ltac:(apply Hl; by left)) as [n Hn].
    destruct (fi_entry _ _ _ _ _ (tb_fin _ _ _ Ht) _ _ Hn) as (ec & Hec & _).
    pose proof (finished_kind _ _ _ _ (tb_fin _ _ _ Ht) Hn Hec) as Hk.
    assert (Hone : ∃ S' V', tabling S' V' t2 ∧ (∀ q, V q → V' q) ∧ V' c).
    { unfold is_dir in Hc. rewrite Hec in Hc. cbn in Hc. case_bool_decide as Hkd.
      - eapply IH; [done|done| |done]. exists n. split; [done|]. injection Hkd as Hkd. rewrite Hk in Hkd.
        by destruct (n_body n) as [| | |[]|[]|].
      - io_inv. exists S, V. split_and!; try done. apply HV; [apply Hl; by left|]. intros (n' & Hn' & Hb).
        apply Hkd. assert (n' = n) as -> by congruence. by rewrite Hk, Hb. }
    destruct Hone as (S2 & V2 & Ht2 & Hsub2 & Hc2).
    eapply (IHl S2 V2) in Hfor as (S3 & V3 & Ht3 & Hsub3 & Hl3); [|intros q Hq; apply Hl; by right|by eauto|done].
    exists S3, V3. split_and!; [done|by eauto|]. intros q [->|Hq]%elem_of_cons; eauto. }
  destruct Hd as (n & Hn & Hb).
  destruct (fi_entry _ _ _ _ _ (tb_fin _ _ _ Ht) _ _ Hn) as (e0 & He0 & _ & _ & Hk & _).
  assert (e0 = e) as -> by congruence. clear He0.
  eapply Hloop in Hfor as (S2 & V2 & Ht2 & Hsub2 & Hl2); [|intros c Hc|done|done].
  2:{ rewrite Hk in Hc. by apply list_elem_of_filter in Hc as [_ ?]. }
  eapply writeDir_spec in Hw as [S3 Ht3]; [|done|by exists n|].
  - eexists S3, _. split_and!; [done|intros q Hq; left; by apply Hsub2|by right].
  - intros c Hc Hdc. split; [|by apply Hin]. apply Hl2. rewrite Hk. by apply list_elem_of_filter.
Qed.

Lemma writeTables_spec fuel m u t' :
  (∀ c, c ∈ order ↔ is_Some (fs !! c) ∧ c ≠ root_path) → is_folder root_path →
  finished wr fs order ids m →
  writeTables fixed blockSize fuel order (mkTables m newMetaWriter newMetaWriter) = (inl u, t') →
  ∃ S, represented (t_inodeMeta t') (t_dirMeta t') S ∧
    mw_cur (t_inodeMeta t') = [] ∧ mw_cur (t_dirMeta t') = [] ∧
    Forall block_ok (mw_blocks (t_inodeMeta t')) ∧ Forall block_ok (mw_blocks (t_dirMeta t')) ∧
    ∃ e, t_entries t' !! root_path = Some e ∧ S (e_inodeRef e) root_path.
Proof.
  intros Hin Hroot Hfin Hw. unfold writeTables in Hw.
  apply io_bind_inl in Hw as (? & t1 & Hleaf & Hw). apply io_bind_inl in Hw as (? & t2 & Hlink & Hw).
  apply io_bind_inl in Hw as (? & t3 & Hdirs & Hw). apply io_bind_inl in Hw as (? & t4 & Hfi & Hfd).
  assert (Ht0 : tabling (λ _ _, False) (λ _, False) (mkTables m newMetaWriter newMetaWriter))
    by (split; cbn; [done|done|done|constructor|constructor|by intros ?? []|by intros ? []|by intros ??? []]).
  assert (Hsome : ∀ q, q ∈ order → is_Some (fs !! q)) by (intros q Hq; by apply Hin in Hq as [? _]).
  eapply writeLeafInodes_spec in Hleaf as (S1 & V1 & Ht1 & _ & Hn1 & Hl1); [|done|by intros ? []|done].
  eapply resolveHardlinks_spec in Hlink as (V2 & Ht2 & Hs2 & Hl2); [|done| |done].
  2:{ intros q n d Hq Hb. apply Hl1.
      - apply Hin. split; [by eexists|]. intros ->. destruct Hroot as (n' & Hn' & Hb'). congruence.
      - intros (n' & l & Hn' & Hb'). congruence.
      - intros (n' & Hn' & Hb'). congruence. }
  eapply dir_walk_spec in Hdirs as (S3 & V3 & Ht3 & _ & Hr3); [|done| |done|done].
  2:{ intros c Hc Hnd. destruct (fs !! c) as [n|] eqn:Hn; [|by apply Hsome in Hc as [? ?]; congruence].
      destruct (n_body n) eqn:Hb; try (apply Hs2, Hl1; [done| |done]; intros (n' & l & Hn' & Hb'); congruence).
      apply Hl2; [done|]. by exists n, target. }
  exists S3. apply on_inodes_inl in Hfi as (im & Hfi & ->). apply on_dirs_inl in Hfd as (dm & Hfd & ->).
  cbn [t_inodeMeta t_dirMeta t_entries] in *.
  apply Flush_grows in Hfi as [Hgi Hci]; [|apply Ht3]. apply Flush_grows in Hfd as [Hgd Hcd]; [|apply Ht3].
  split; [|split; [done|split; [done|split; [eapply grows_blocks; [done|apply Ht3]|split; [eapply grows_blocks; [done|apply Ht3]|]]]]].
  - eapply represented_grows; [done..|]. apply Ht3.
  - destruct (tb_have _ _ _ Ht3 _ Hr3) as (e & He & HS). exists e. split; [done|].
    destruct Hroot as (n & Hn & Hb). rewrite (resolve_not_link root_path n) in HS; [done|done|].
    intros l. by rewrite Hb.
Qed.
End Tables.
