(* ===== verification/SquashImage.v ===== *)
(** * The image that [Close] writes

    The last step of [Close] puts the tables and the superblock on disk; reading the
    image from its superblock then yields the file system that the calls of the API
    described. *)
From S2P Require Import Prelude GoSort SquashFormat SquashMeta SquashDir SquashWriter SquashFiles SquashTree.
From stdpp Require Import sorting.
#[local] Open Scope Z_scope.

(** ** Paths *)

Definition good_part (c : list Z) : Prop := c ≠ [] ∧ slash ∉ c.

Lemma split_slash_join p : concat (map (cons slash) (split_slash p)) = slash :: p.
Proof.
  induction p as [|c p IH]; [done|]. cbn [split_slash]. destruct (Z.eqb_spec c slash) as [->|Hne].
  - cbn. by rewrite IH.
  - destruct (split_slash p) as [|part parts]; [done|]. cbn in *. injection IH as IH. by rewrite IH.
Qed.

Lemma split_slash_clean p : Forall (λ c, slash ∉ c) (split_slash p).
Proof.
  induction p as [|c p IH]; cbn [split_slash]; [by repeat constructor; apply not_elem_of_nil|].
  destruct (Z.eqb_spec c slash) as [->|Hne]; [constructor; [apply not_elem_of_nil|done]|].
  destruct IH as [|part parts Hp Hps]; [repeat constructor; by apply not_elem_of_cons; split; [|apply not_elem_of_nil]|].
  constructor; [|done]. by apply not_elem_of_cons.
Qed.

Lemma split_slash_parts c parts :
  slash ∉ c → Forall (λ c, slash ∉ c) parts →
  split_slash (c ++ concat (map (cons slash) parts)) = c :: parts.
Proof.
  intros Hc Hp. revert c Hc. induction Hp as [|d parts Hd Hp IH].
  - intros c Hc. cbn. rewrite app_nil_r. induction c as [|x c IHc]; [done|]. cbn [split_slash].
    apply not_elem_of_cons in Hc as [Hx Hc]. destruct (Z.eqb_spec x slash); [done|]. by rewrite IHc.
  - intros c Hc. induction c as [|x c IHc].
    + cbn [map concat app split_slash]. rewrite Z.eqb_refl. cbn [app]. by rewrite IH.
    + apply not_elem_of_cons in Hc as [Hx Hc]. cbn [app split_slash]. destruct (Z.eqb_spec x slash); [done|].
      by rewrite IHc.
Qed.

Lemma components_path_of parts : parts ≠ [] → Forall good_part parts → components (path_of parts) = parts.
Proof.
  intros Hne Hg. destruct parts as [|c parts]; [done|]. unfold components, path_of. cbn [map concat tail app].
  apply Forall_cons in Hg as [[_ Hc] Hg]. apply split_slash_parts; [done|].
  eapply Forall_impl; [exact Hg|]. by intros d [_ ?].
Qed.

Lemma validatePath_parts p : validatePath p = None →
  ∃ parts, parts ≠ [] ∧ Forall good_part parts ∧ p = path_of parts.
Proof.
  unfold validatePath. case_bool_decide; [done|]. case_bool_decide as Hh; [|done]. cbn.
  case_bool_decide; [done|]. destruct (existsb bad_part (split_slash (tail p))) eqn:Hb; [done|]. intros _.
  destruct p as [|x p]; [done|]. cbn in Hh. injection Hh as ->. exists (split_slash p).
  assert (Hne : split_slash p ≠ []) by (pose proof (split_slash_join p) as Hj; by intros E; rewrite E in Hj).
  split_and!; [done| |].
  - cbn in Hb. pose proof (split_slash_clean p) as Hc. rewrite Forall_forall in Hc |- *. intros c Hin.
    split; [|by apply Hc]. intros ->. apply not_true_iff_false in Hb. apply Hb. apply existsb_exists.
    exists []. split; [by apply list_elem_of_In|]. unfold bad_part. rewrite bool_decide_eq_true_2; [done|by left].
  - unfold path_of. destruct (split_slash p) eqn:E; [done|]. by rewrite <- E, split_slash_join.
Qed.

Lemma Dir_Base_snoc parts c : Forall good_part (parts ++ [c]) →
  Dir (path_of (parts ++ [c])) = path_of parts ∧ Base (path_of (parts ++ [c])) = c.
Proof.
  intros Hg. unfold Dir, Base. rewrite components_path_of; [|by destruct parts|done].
  rewrite removelast_last, last_last. done.
Qed.

Lemma path_of_snoc_root parts c : Forall good_part (parts ++ [c]) → path_of (parts ++ [c]) ≠ root_path.
Proof.
  intros Hg E. pose proof (components_path_of (parts ++ [c]) ltac:(by destruct parts) Hg) as Hc.
  rewrite E in Hc. cbn in Hc. apply Forall_app in Hg as [_ Hg]. apply Forall_singleton in Hg as [Hne _].
  destruct parts as [|d parts]; [injection Hc as <-; done|]. by destruct parts.
Qed.

Lemma path_of_inj ps qs : Forall good_part ps → Forall good_part qs → path_of ps = path_of qs → ps = qs.
Proof.
  intros Hp Hq E. induction ps as [|p ps _] using rev_ind; induction qs as [|q qs _] using rev_ind.
  - done.
  - symmetry in E. by apply path_of_snoc_root in E.
  - by apply path_of_snoc_root in E.
  - rewrite <- (components_path_of (ps ++ [p])), E by (done || by destruct ps).
    by apply components_path_of; [destruct qs|].
Qed.

(** ** What is on disk *)

Section Emission.
Context `{Decompressor} {F : Type} `{FileLaws F}.

(** The superblock for tables of these sizes. *)
Definition final_superblock (w : Writer F) (t : tables) (root : entry) (ni nd nids nl : Z) : superblock :=
  let start := w_outPos w in
  mkSuperblock (totalInodeCount (t_entries t)) (imageMtime (w_mtime w) (t_entries t))
    (w_blockSize w) 0 (wrap 16 comp_ID) (blockLogFor (w_blockSize w))
    (Z.lor FlagNoFragments FlagNoXattrs) (Count (w_ids w))
    (encode_ref (e_inodeRef root) (BlockByteOffset (r_blockIdx (e_inodeRef root)) (t_inodeMeta t)))
    (start + ni + nd + nids + nl) (start + ni + nd + nids) 0xFFFFFFFFFFFFFFFF
    start (start + ni) 0xFFFFFFFFFFFFFFFF 0xFFFFFFFFFFFFFFFF.

Definition lookup_table (base n : Z) (idm : metaWriter) : list Z :=
  concat (map (le_bytes 8) (map (λ k, base + BlockByteOffset k idm) (seq 0 (batches n)))).

Lemma emit_inl {A} (m : io F A) bytes w a w' :
  emit_to m bytes w = (inl a, w') →
  ∃ out, m (w_out w) = (inl a, out) ∧ w' = set_out out (w_outPos w + bytes a) w.
Proof. unfold emit_to. destruct (m (w_out w)) as [[x|] out]; intros [= <- <-]. eauto. Qed.

Lemma splice_start (sb w junk : list Z) : (length sb ≤ length w)%nat →
  splice 0 sb (w ++ junk) = sb ++ drop (length sb) w ++ junk.
Proof. intros Hl. unfold splice. cbn. by rewrite drop_app_le. Qed.

Lemma batches_nonzero n : 0 < n → ∃ k, batches n = S k.
Proof.
  intros Hn. exists (Z.to_nat ((n + 2047) / 2048) - 1)%nat. unfold batches.
  assert (1 ≤ (n + 2047) / 2048) by (apply Z.div_le_lower_bound; lia). lia.
Qed.

Lemma WriteLookup_holds offs (f : F) n f' w :
  holds f w → WriteLookup offs f = (inl n, f') →
  n = zlen (concat (map (le_bytes 8) offs)) ∧ holds f' (w ++ concat (map (le_bytes 8) offs)).
Proof.
  intros Hh. unfold WriteLookup. destruct offs as [|o offs].
  - intros [-> ->]%io_ret_inl. cbn. by rewrite app_nil_r.
  - by apply file_write_holds.
Qed.

Lemma zlen_words k l : zlen (concat (map (le_bytes k) l)) = Z.of_nat k * zlen l.
Proof.
  induction l as [|x l IH]; cbn [map concat]; [change (@zlen Z []) with 0; lia|].
  rewrite zlen_app, zlen_cons, zlen_le_bytes, IH. lia.
Qed.

Lemma file_write_start p (f : F) n f' :
  file_write p f = (inl n, f') → position f = 0 → contents f' = splice 0 p (contents f).
Proof.
  unfold file_write. repeat case_match; intros [= <- <-] Hp. rename select (fs_Write _ _ = _) into Hw.
  apply fs_Write_ok in Hw as (_ & -> & _); [by rewrite Hp|]. pose proof (zlen_nonneg (contents f)). lia.
Qed.

(** The tables of the image, one after the other. *)
Definition image_body (wr : list Z) (t : tables) (idm : metaWriter) (nids : Z) (pad : list Z) : list Z :=
  let base := zlen wr + zlen (emitted (t_inodeMeta t)) + zlen (emitted (t_dirMeta t)) in
  wr ++ emitted (t_inodeMeta t) ++ emitted (t_dirMeta t) ++ emitted idm ++ lookup_table base nids idm ++ pad.

Lemma emit_image_spec t w wr u w' :
  holds (w_out w) wr → w_outPos w = zlen wr → superblockSize ≤ zlen wr → id_list (w_ids w) ≠ [] →
  emit_image t w = (inl u, w') →
  ∃ idm pad junk root, let nids := zlen (id_list (w_ids w)) in
    let body := image_body wr t idm nids pad in
    let sb := final_superblock w t root (zlen (emitted (t_inodeMeta t))) (zlen (emitted (t_dirMeta t)))
                (zlen (emitted idm)) (8 * Z.of_nat (batches nids)) in
    t_entries t !! root_path = Some root ∧
    Forall block_ok (mw_blocks idm) ∧ mw_cur idm = [] ∧
    (∀ i id, id_list (w_ids w) !! i = Some id →
      at_ref idm (mkRef (Z.to_nat (Z.of_nat i / idsPerMetaBlock)) (4 * (Z.of_nat i mod idsPerMetaBlock)))
        (le_bytes 4 id)) ∧
    contents (w_out w') = encode_superblock sb ++ drop (Z.to_nat superblockSize) body ++ junk ∧
    w_outPos w' = zlen body.
Proof.
  intros Hh Hpos Hsup Hids He. unfold emit_image in He.
  apply io_bind_inl in He as (w0 & ? & [-> ->]%io_gets_inl & He). cbn [id] in He.
  apply io_bind_inl in He as (n1 & ? & (o1 & E1 & ->)%emit_inl & He).
  eapply EmitTo_holds in E1 as [-> Hh1]; [|done].
  apply io_bind_inl in He as (? & ? & [-> ->]%io_gets_inl & He). cbn [w_outPos set_out w_out] in *.
  apply io_bind_inl in He as (n2 & ? & (o2 & E2 & ->)%emit_inl & He). cbn [w_outPos set_out w_out] in *.
  eapply EmitTo_holds in E2 as [-> Hh2]; [|done].
  apply io_bind_inl in He as (? & ? & [-> ->]%io_gets_inl & He). cbn [w_outPos set_out w_out] in *.
  apply io_bind_inl in He as ([offs n3] & ? & (o3 & E3 & ->)%emit_inl & He). cbn [w_outPos set_out w_out] in *.
  eapply WriteData_spec in E3 as (idm & Hib & Hic & -> & Hh3 & -> & Hid); [|done|done].
  apply io_bind_inl in He as (? & ? & [-> ->]%io_gets_inl & He). cbn [w_outPos set_out w_out] in *.
  apply io_bind_inl in He as (n4 & ? & (o4 & E4 & ->)%emit_inl & He). cbn [w_outPos set_out w_out] in *.
  eapply WriteLookup_holds in E4 as [-> Hh4]; [|done].
  apply io_bind_inl in He as (? & ? & [-> ->]%io_gets_inl & He). cbn [w_outPos set_out w_out snd] in *.
  set (L := concat (map (le_bytes 8) _)) in *. rewrite Hpos in *.
  set (used := zlen wr + _ + _ + _ + zlen L) in *.
  apply io_bind_inl in He as (n5 & w5 & Hpad & He).
  assert (∃ pad, holds (w_out w5) (wr ++ emitted (t_inodeMeta t) ++ emitted (t_dirMeta t) ++ emitted idm ++ L ++ pad) ∧
    w_outPos w5 = used + zlen pad ∧ w_ids w5 = w_ids w) as (pad & Hh5 & Hpos5 & _).
  { rewrite <- !app_assoc in Hh4. destruct (negb (used mod padAlignment =? 0)).
    - apply emit_inl in Hpad as (o5 & E5 & ->). cbn [w_out set_out] in E5.
      eapply file_write_holds in E5 as [-> Hh5]; [|done]. eexists. rewrite <- !app_assoc in Hh5. by split_and!.
    - io_inv. exists []. rewrite app_nil_r. cbn. split_and!; [done|change (@zlen Z []) with 0; lia|done]. }
  apply io_bind_inl in He as (root & ? & [-> Hroot]%deref_inl & He).
  apply io_bind_inl in He as (? & ? & (o6 & E6 & ->)%emit_inl & He). cbn [w_outPos set_out w_out] in *.
  apply io_bind_inl in He as (? & ? & (o7 & E7 & ->)%emit_inl & He). cbn [w_outPos set_out w_out] in *.
  apply io_modify_inl in He as [_ ->]. cbn [w_outPos w_out set_finished set_out].
  apply file_seek_ok in E6 as [Hp6 Hc6]. destruct Hh5 as [_ [junk Hc5]].
  assert (HL : zlen L = 8 * Z.of_nat (batches (zlen (id_list (w_ids w))))).
  { unfold L. rewrite zlen_words. unfold zlen. by rewrite length_map, length_seq. }
  apply file_write_start in E7; [|done]. rewrite Hc6, Hc5 in E7.
  exists idm, pad, junk, root. cbn zeta. split; [done|]. split; [done|]. split; [done|]. split; [done|].
  set (body := image_body _ _ _ _ _).
  assert (Eb : body = wr ++ emitted (t_inodeMeta t) ++ emitted (t_dirMeta t) ++ emitted idm ++ L ++ pad).
  { unfold body, image_body, lookup_table, L. by rewrite Hpos. }
  rewrite <- Eb in E7. split.
  - rewrite E7, splice_start.
    + pose proof (zlen_encode_superblock (final_superblock w t root (zlen (emitted (t_inodeMeta t)))
        (zlen (emitted (t_dirMeta t))) (zlen (emitted idm)) (8 * Z.of_nat (batches (zlen (id_list (w_ids w))))))) as Hz.
      unfold final_superblock in *. rewrite <- HL, Hpos in *. fold used in Hz |- *.
      unfold zlen at 1 in Hz. rewrite <- Hz, Nat2Z.id. done.
    + rewrite Eb. match goal with |- (length (encode_superblock ?sb) ≤ _)%nat =>
        pose proof (zlen_encode_superblock sb) as Hz end.
      rewrite length_app. unfold zlen in *. lia.
  - rewrite !Z.add_0_r, Hpos5, Eb, !zlen_app. unfold used. lia.
Qed.
End Emission.

(** ** Reading the image *)

Section Reading.
Context `{Decompressor} {F : Type} `{FileLaws F}.
Context (fixed : option Z) (blockSize : Z) (wr : list Z) (fs : filesystem) (order : list (list Z)) (ids : idTable).
Context (t : tables) (idm : metaWriter) (pad junk img : list Z) (sb : superblock).
Context (S : metaRef → list Z → Prop).

Definition im : metaWriter := t_inodeMeta t.
Definition dm : metaWriter := t_dirMeta t.
Definition body : list Z := image_body wr t idm (zlen (id_list ids)) pad.

Context (fs_ok : ∀ p n, fs !! p = Some n → node_ok n).
Context (fs_small : ∀ p n d, fs !! p = Some n → n_body n = NFile d → zlen d < 2 ^ 64).
Context (fs_links : ∀ p n t, fs !! p = Some n → n_body n = NLink t → ∃ n' d, fs !! t = Some n' ∧ n_body n' = NFile d).
Context (order_nodup : NoDup order).
Context (order_fs : ∀ c, c ∈ order ↔ is_Some (fs !! c) ∧ c ≠ root_path).
Context (order_valid : ∀ c, c ∈ order → validatePath c = None).
Context (parents : ∀ p, p ∈ order → ∃ n, fs !! Dir p = Some n ∧ n_body n = NDir).
Context (wr_super : superblockSize ≤ zlen wr).
Context (Hids : ids_ok ids) (ids_some : 0 < zlen (id_list ids)).
Context (bs_pos : 0 < blockSize < 2 ^ 32).
Context (Hrep : represented fixed blockSize wr fs order ids im dm S).
Context (im_done : mw_cur im = []) (dm_done : mw_cur dm = []).
Context (im_blocks : Forall block_ok (mw_blocks im)) (dm_blocks : Forall block_ok (mw_blocks dm)).
Context (idm_done : mw_cur idm = []) (idm_blocks : Forall block_ok (mw_blocks idm)).
Context (idm_at : ∀ i id, id_list ids !! i = Some id →
  at_ref idm (mkRef (Z.to_nat (Z.of_nat i / idsPerMetaBlock)) (4 * (Z.of_nat i mod idsPerMetaBlock)))
    (le_bytes 4 id)).
Context (img_body : ∀ x, superblockSize ≤ x → drop (Z.to_nat x) img = drop (Z.to_nat x) (body ++ junk)).
Context (img_small : zlen body < 2 ^ 48).
Context (sb_bs : sb_blockSize sb = blockSize).
Context (sb_it : sb_inodeTableStart sb = zlen wr).
Context (sb_dt : sb_directoryTableStart sb = zlen wr + zlen (emitted im)).
Context (sb_id : sb_idTableStart sb = zlen wr + zlen (emitted im) + zlen (emitted dm) + zlen (emitted idm)).

(** A part of the tables. *)
Lemma region_part A X B a b :
  body = A ++ X ++ B → a = zlen A → b = zlen A + zlen X → superblockSize ≤ zlen A → region img a b = X.
Proof.
  intros Hb -> -> Ha. unfold region, slice. rewrite img_body, Hb, <- !app_assoc by done.
  unfold zlen. rewrite Nat2Z.id, drop_app_length.
  replace (Z.to_nat (Z.of_nat (length A) + Z.of_nat (length X) - Z.of_nat (length A))) with (length X) by lia.
  by rewrite take_app_length.
Qed.

Lemma inode_region : region img (sb_inodeTableStart sb) (sb_directoryTableStart sb) = emitted im.
Proof. rewrite sb_it, sb_dt. by eapply (region_part wr (emitted im)). Qed.

Lemma meta_at_ref m r rec :
  Forall block_ok (mw_blocks m) → mw_cur m = [] → at_ref m r rec →
  ∃ suf, meta_at (emitted m) (BlockByteOffset (r_blockIdx r) m) (r_offset r) = Some (rec ++ suf).
Proof.
  intros Hb Hc Ha. destruct (at_ref_read m r rec Hb Hc Ha) as (s & suf & Hs & Hd).
  exists suf. unfold meta_at. rewrite Hs. cbn. by rewrite Hd.
Qed.

Lemma get_word (l : list Z) k i v rest :
  Forall (fits_in k) l → l !! i = Some v →
  ∃ s, get k (drop (k * i) (concat (map (le_bytes k) l) ++ rest)) = Some (v, s).
Proof.
  intros Hf. revert i. induction Hf as [|x l Hx Hl IH]; intros [|i] Hi; cbn [map concat] in *; [done|done| |].
  - injection Hi as ->. rewrite Nat.mul_0_r, drop_0, <- app_assoc. eexists. by apply get_le_bytes.
  - rewrite <- app_assoc. replace (k * Datatypes.S i)%nat with (length (le_bytes k x) + k * i)%nat
      by (rewrite length_le_bytes; lia). rewrite <- drop_drop, drop_app_length. by apply IH.
Qed.

Lemma BlockByteOffset_le k m : BlockByteOffset k m ≤ zlen (emitted m).
Proof.
  unfold BlockByteOffset, emitted. generalize (mw_blocks m). clear.
  induction k as [|k IH]; intros [|b l]; cbn [take foldr]; try apply zlen_nonneg.
  cbn [map concat]. rewrite zlen_app, zlen_block_bytes. specialize (IH l). lia.
Qed.

Lemma zlen_body : zlen body =
  zlen wr + zlen (emitted im) + zlen (emitted dm) + zlen (emitted idm) +
  8 * Z.of_nat (batches (zlen (id_list ids))) + zlen pad.
Proof.
  unfold body, image_body, lookup_table. fold im dm. rewrite !zlen_app, zlen_words.
  unfold zlen at 5. rewrite length_map, length_seq. lia.
Qed.

(** The entries of the lookup list. *)
Lemma lookup_word k :
  (k < batches (zlen (id_list ids)))%nat →
  ∃ s, get 8 (drop (Z.to_nat (sb_idTableStart sb + 8 * Z.of_nat k)) img) =
    Some (zlen wr + zlen (emitted im) + zlen (emitted dm) + BlockByteOffset k idm, s).
Proof.
  intros Hk. pose proof (zlen_nonneg (emitted im)). pose proof (zlen_nonneg (emitted dm)).
  pose proof (zlen_nonneg (emitted idm)). pose proof (zlen_nonneg pad). pose proof zlen_body as Hz.
  rewrite img_body by lia. rewrite sb_id.
  set (base := zlen wr + zlen (emitted im) + zlen (emitted dm)) in *.
  set (A := wr ++ emitted im ++ emitted dm ++ emitted idm).
  assert (body = A ++ lookup_table base (zlen (id_list ids)) idm ++ pad) as ->
    by (unfold body, image_body, A; by rewrite <- !app_assoc).
  replace (Z.to_nat (base + zlen (emitted idm) + 8 * Z.of_nat k)) with (length A + 8 * k)%nat
    by (unfold A, base, zlen in *; rewrite !length_app; lia).
  rewrite <- !app_assoc, <- drop_drop, drop_app_length. apply get_word.
  - apply Forall_forall. intros v Hv. apply list_elem_of_fmap in Hv as (j & -> & _).
    pose proof (BlockByteOffset_nonneg j idm). pose proof (BlockByteOffset_le j idm).
    unfold fits_in. change (256 ^ Z.of_nat 8) with (2 ^ 64). unfold base in *. pose proof (zlen_nonneg wr). lia.
  - rewrite list_lookup_fmap, lookup_seq_lt by done. done.
Qed.

Lemma read_id_ok idx id :
  0 ≤ idx → id_list ids !! Z.to_nat idx = Some id → fits_in 4 id → read_id img sb idx = Some id.
Proof.
  intros Hi Hl Hf. unfold read_id. pose proof (lookup_lt_Some _ _ _ Hl) as Hlt.
  pose proof (idm_at _ _ Hl) as Ha. rewrite Z2Nat.id in Ha by done.
  set (k := Z.to_nat (idx / idsPerMetaBlock)) in *.
  assert (idx / idsPerMetaBlock = Z.of_nat k) as Hk by (unfold k; rewrite Z2Nat.id; [done|apply Z.div_pos; [lia|done]]).
  destruct (lookup_word k) as [s Hs].
  { unfold batches. change idsPerMetaBlock with 2048 in Hk. unfold zlen in *.
    apply Nat2Z.inj_lt. rewrite <- Hk, Z2Nat.id by (apply Z.div_pos; lia).
    Z.to_euclidean_division_equations. lia. }
  rewrite Hk, Hs. cbn [mbind option_bind].
  pose proof (zlen_nonneg (emitted im)). pose proof (zlen_nonneg (emitted dm)).
  pose proof (BlockByteOffset_nonneg k idm). pose proof (BlockByteOffset_le k idm).
  assert (Hreg : region img (zlen wr + zlen (emitted im) + zlen (emitted dm) + BlockByteOffset k idm)
    (sb_idTableStart sb) = drop (Z.to_nat (BlockByteOffset k idm)) (emitted idm)).
  { eapply (region_part (wr ++ emitted im ++ emitted dm ++ take (Z.to_nat (BlockByteOffset k idm)) (emitted idm))
      _ (lookup_table (zlen wr + zlen (emitted im) + zlen (emitted dm)) (zlen (id_list ids)) idm ++ pad)).
    - unfold body, image_body. rewrite <- !app_assoc. do 3 f_equal.
      by rewrite (app_assoc (take _ _)), take_drop.
    - rewrite !zlen_app. unfold zlen in *. rewrite length_take. lia.
    - rewrite sb_id, !zlen_app. unfold zlen in *. rewrite length_take, length_drop. lia.
    - rewrite !zlen_app. pose proof (zlen_nonneg (take (Z.to_nat (BlockByteOffset k idm)) (emitted idm))). lia. }
  rewrite Hreg. destruct (at_ref_read idm _ _ idm_blocks idm_done Ha) as (s' & suf & Hm & Hd).
  cbn [r_blockIdx r_offset] in *. rewrite Hm. cbn [mbind option_bind]. rewrite Hd, get_le_bytes by done. done.
Qed.

(** The first identifier block ends the directory table. *)
Lemma first_word : ∃ s, get 8 (drop (Z.to_nat (sb_idTableStart sb)) img) =
  Some (zlen wr + zlen (emitted im) + zlen (emitted dm), s).
Proof.
  destruct (lookup_word 0) as [s Hs].
  - destruct (batches_nonzero _ ids_some) as [k ->]. lia.
  - exists s. change (BlockByteOffset 0 idm) with 0 in Hs. by rewrite !Z.add_0_r in Hs.
Qed.

Lemma dir_region : region img (sb_directoryTableStart sb) (zlen wr + zlen (emitted im) + zlen (emitted dm)) = emitted dm.
Proof.
  rewrite sb_dt. eapply (region_part (wr ++ emitted im) (emitted dm)).
  - unfold body, image_body. by rewrite <- !app_assoc.
  - by rewrite zlen_app.
  - by rewrite zlen_app.
  - rewrite zlen_app. pose proof (zlen_nonneg (emitted im)). lia.
Qed.

(** ** Nodes *)

Lemma entry_ok_of p n e :
  fs !! p = Some n → matches wr None p n (core e) → ranged e → owned ids e → entry_ok e.
Proof.
  intros Hp Hm [(? & ? & ?) (? & ? & ?)] [[? ?] _]. destruct (fs_ok _ _ Hp) as (Hmode & _ & _ & Hdev).
  change (e_attrs e) with (e_attrs (core e)) in *.
  assert (Hc : e_attrs (core e) = n_attrs n ∧ 0 ≤ e_fileBlocksStart (core e) ∧
    Forall (fits_in 4) (e_fileBlockSizes (core e)) ∧ 0 ≤ e_fileSize (core e) ∧
    0 ≤ e_devMajor (core e) ∧ 0 ≤ e_devMinor (core e)).
  { unfold matches in Hm. destruct (n_body n) as [d| |l|b mj mn|s|l] eqn:Hb;
      [destruct Hm as (start & words & dec & rest & -> & Hs & Hf & _)|rewrite Hm..];
      unfold entry_for; rewrite Hb; cbn; try (split_and!; [done..|constructor|done|lia|lia]).
    split_and!; [done|unfold superblockSize in *; lia|done|apply Z.mod_pos_bound; lia|done|done]. }
  destruct Hc as (Ha & ? & ? & ? & ? & ?). split; try done. change (e_attrs e) with (e_attrs (core e)). by rewrite Ha.
Qed.

Abbreviation place r := (BlockByteOffset (r_blockIdx r) im).

Lemma read_inode_ok r n e mtime bs p :
  fs !! p = Some n → matches wr None p n (core e) → ranged e → owned ids e →
  entryMtime fixed e = inl mtime → encodeInode e mtime blockSize = inl bs → at_ref im r bs →
  read_inode img sb (place r) (r_offset r) = Some (inode_of e mtime).
Proof.
  intros Hp Hm Hr Ho Ht He Ha. unfold read_inode. rewrite inode_region.
  destruct (meta_at_ref im r bs im_blocks im_done Ha) as [suf ->]. cbn [mbind option_bind].
  rewrite sb_bs. eapply parse_encodeInode; [by eapply entry_ok_of| |done|done].
  unfold entryMtime in Ht. unfold fits_in. change (256 ^ Z.of_nat 4) with (2 ^ 32).
  repeat case_match; simplify_eq; bool_prop; lia.
Qed.

(** The listing of a directory as the reader gets it. *)
Lemma read_dir_ok e mtime :
  e_kind e = kindDir → listing_at fs im dm S e →
  ∃ ds, read_dir img sb (inode_of e mtime) = Some (SliceStable name_less ds) ∧
    Forall2 (leads fs im S) ds (e_children e).
Proof.
  intros Hk (r & bs & ds & Hs & _ & Ho & Hz & Ha & Hp & Hl). exists ds. split; [|done].
  unfold read_dir, inode_of, body_of. rewrite Hk. cbn [i_body].
  destruct first_word as [s ->]. cbn [mbind option_bind]. rewrite dir_region, Hs, Ho.
  destruct (meta_at_ref dm r bs dm_blocks dm_done Ha) as [suf ->]. cbn [mbind option_bind].
  rewrite get_bytes_app by (rewrite Hz; unfold zlen; lia). done.
Qed.

Lemma children_names e p :
  e_children e ≡ₚ filter (λ q, Dir q = p) order →
  map Base (e_children e) ≡ₚ map Base (filter (λ q, q ≠ root_path ∧ Dir q = p) (map_to_list fs).*1).
Proof.
  intros ->. apply Permutation_map. apply NoDup_Permutation.
  - by apply NoDup_filter.
  - apply NoDup_filter, NoDup_fst_map_to_list.
  - intros q. rewrite !list_elem_of_filter, order_fs.
    assert (q ∈ (map_to_list fs).*1 ↔ is_Some (fs !! q)) as ->.
    { rewrite list_elem_of_fmap. split.
      - intros ([q' n] & -> & Hq). apply elem_of_map_to_list in Hq. by eexists.
      - intros [n Hn]. exists (q, n). split; [done|]. by apply elem_of_map_to_list. }
    tauto.
Qed.

Lemma read_view_ok r p n :
  S r p → fs !! p = Some n → (∀ l, n_body n ≠ NLink l) →
  read_view img sb (place r) (r_offset r) = node_view fixed fs p n.
Proof.
  intros HS Hp Hnl. destruct (Hrep _ _ HS) as (n' & e & mtime & bs & Hp' & Hm & Hr & Ho & Hk & Ht & He & Ha & _ & Hd).
  assert (n' = n) as -> by congruence. clear Hp'. unfold read_view.
  rewrite (read_inode_ok r n e mtime bs p) by done. cbn [mbind option_bind].
  assert (Hattrs : e_attrs e = n_attrs n).
  { change (e_attrs e) with (e_attrs (core e)). unfold matches in Hm.
    destruct (n_body n) eqn:Hb; [destruct Hm as (? & ? & ? & ? & -> & _)|rewrite Hm..]; unfold entry_for; by rewrite Hb. }
  assert (Hkind : e_kind e = kind_of (n_body n)) by (by apply matches_core in Hm as (_ & _ & _ & _ & _ & ?)).
  destruct (fs_ok _ _ Hp) as (_ & Hu & Hg & _). destruct Ho as [[Hu2 Hg2] [Hul Hgl]]. rewrite Hattrs in Hul, Hgl.
  change (i_uidIdx (inode_of e mtime)) with (e_uidIdx e). change (i_gidIdx (inode_of e mtime)) with (e_gidIdx e).
  rewrite (read_id_ok (e_uidIdx e) (a_UID (n_attrs n))) by (try done; apply Hu2). cbn [mbind option_bind].
  rewrite (read_id_ok (e_gidIdx e) (a_GID (n_attrs n))) by (try done; apply Hg2). cbn [mbind option_bind].
  assert (Hmt : mtime = default 0 (match fixed with Some _ => fixed | None => a_Mtime (n_attrs n) end)).
  { unfold entryMtime in Ht. rewrite Hattrs in Ht. by repeat case_match; simplify_eq. }
  assert (Hbody : ∀ b, read_body img sb (inode_of e mtime) = Some b →
    (b ← read_body img sb (inode_of e mtime);
     Some (mkView (i_perm (inode_of e mtime)) (a_UID (n_attrs n)) (a_GID (n_attrs n)) (i_mtime (inode_of e mtime)) b)) =
    Some (mkView (Z.land (a_Mode (n_attrs n)) 0xfff) (a_UID (n_attrs n)) (a_GID (n_attrs n))
      (default 0 (match fixed with Some _ => fixed | None => a_Mtime (n_attrs n) end)) b)).
  { intros b ->. cbn. by rewrite Hattrs, Hmt. }
  unfold node_view. destruct (n_body n) as [d| |l|b mj mn|s|l] eqn:Hb; [..|by destruct (Hnl l)];
    apply Hbody; clear Hbody; unfold read_body, inode_of, body_of; rewrite Hkind; cbn [i_body kind_of].
  - unfold matches in Hm. rewrite Hb in Hm. destruct Hm as (start & words & dec & rest & Hc & Hs & Hf & Hrd & -> & _).
    assert (e_fileBlocksStart e = start ∧ e_fileBlockSizes e = words ∧ e_fileSize e = wrap 64 (zlen (dec ++ []))) as (-> & -> & ->).
    { unfold entry_for in Hc. rewrite Hb in Hc. by injection Hc. }
    rewrite img_body by lia. unfold body, image_body. rewrite <- !app_assoc.
    rewrite drop_app_le by (unfold zlen in *; lia). erewrite read_data_app by exact Hrd. cbn [mbind option_bind].
    cbn [default]. rewrite app_nil_r in *. unfold wrap. pose proof (fs_small _ _ _ Hp Hb) as Hsm.
    pose proof (zlen_nonneg dec). rewrite Z.mod_small by lia. by rewrite Z.eqb_refl.
  - destruct (read_dir_ok e mtime) as (ds & Hrd & Hl); [by rewrite Hkind|by apply Hd|].
    unfold inode_of, body_of in Hrd. rewrite Hkind in Hrd. cbn [kind_of] in Hrd. rewrite Hrd. cbn [mbind option_bind].
    do 2 f_equal. unfold names_in. apply names_sorted. rewrite <- (children_names e p) by done.
    replace (map d_name ds) with (map Base (e_children e)); [done|].
    clear -Hl. induction Hl as [|d c ds cs [Hn _] _ IH]; [done|]. cbn. by rewrite IH, Hn.
  - unfold matches, entry_for in Hm. rewrite Hb in Hm. by injection Hm as _ _ _ _ _ _ ->.
  - assert (e_devMajor e = mj ∧ e_devMinor e = mn) as [Hmj Hmn].
    { unfold matches, entry_for in Hm. rewrite Hb in Hm. by injection Hm. }
    destruct b; cbn; by rewrite Hmj, Hmn.
  - by destruct s.
Qed.
(** ** Paths in the image *)

Lemma child_in_order parts c : Forall good_part (parts ++ [c]) →
  path_of (parts ++ [c]) ∈ order ↔ is_Some (fs !! path_of (parts ++ [c])).
Proof. intros Hg. rewrite order_fs. split; [by intros [? _]|]. intros Hs. split; [done|by apply path_of_snoc_root]. Qed.

(** What is above a node is a directory. *)
Lemma ancestor pre c rest : Forall good_part (pre ++ c :: rest) →
  is_Some (fs !! path_of (pre ++ c :: rest)) → ∃ n, fs !! path_of pre = Some n ∧ n_body n = NDir.
Proof.
  assert (Hup : ∀ parts c, Forall good_part (parts ++ [c]) → is_Some (fs !! path_of (parts ++ [c])) →
    ∃ n, fs !! path_of parts = Some n ∧ n_body n = NDir).
  { intros parts d Hg Hs. apply child_in_order, parents in Hs; [|done]. by destruct (Dir_Base_snoc parts d Hg) as [<- _]. }
  induction rest as [|x rest IH] using rev_ind; intros Hg Hs; [by eapply Hup|].
  rewrite app_comm_cons, app_assoc in Hg, Hs. apply IH; [by apply Forall_app in Hg as [? _]|].
  destruct (Hup _ _ Hg Hs) as (n & Hn & _). by eexists.
Qed.

Lemma resolve_node p n : fs !! p = Some n → ∃ n', fs !! resolve fs p = Some n' ∧
  (∀ l, n_body n' ≠ NLink l) ∧ (n_body n' = NDir ↔ n_body n = NDir) ∧ (n_body n = NDir → resolve fs p = p).
Proof.
  intros Hp. unfold resolve. rewrite Hp. destruct (n_body n) as [| | | | |l] eqn:Hb;
    try (exists n; split_and!; [done|by rewrite Hb|by rewrite Hb|done]).
  destruct (fs_links _ _ _ Hp Hb) as (n' & d & Hn' & Hd). exists n'. by rewrite Hd.
Qed.

Lemma fs_view_resolve p n n' : fs !! p = Some n → fs !! resolve fs p = Some n' →
  fs_view fixed fs p = node_view fixed fs (resolve fs p) n'.
Proof.
  intros Hp. unfold resolve, fs_view. rewrite Hp. cbn [mbind option_bind].
  destruct (n_body n) eqn:Hb; rewrite ?Hp; [intros [= <-]; done..|by intros ->].
Qed.

Lemma name_in_listing ds c :
  match List.find (λ d, bool_decide (d_name d = c)) (SliceStable name_less ds) with
  | Some d => d ∈ ds ∧ d_name d = c
  | None => ∀ d, d ∈ ds → d_name d ≠ c
  end.
Proof.
  destruct (List.find _ _) as [d|] eqn:E.
  - apply find_some in E as [Hi Hd]. split; [|by apply bool_decide_eq_true in Hd].
    apply list_elem_of_In in Hi. by rewrite (SliceStable_perm name_less ds) in Hi.
  - intros d Hd Hc. rewrite <- (SliceStable_perm name_less ds) in Hd. apply list_elem_of_In in Hd.
    apply (find_none _ _ E) in Hd. by apply bool_decide_eq_false in Hd.
Qed.

(** One step down from a directory. *)
Lemma step_spec r parts c n :
  S r (path_of parts) → Forall good_part (parts ++ [c]) → fs !! path_of parts = Some n → n_body n = NDir →
  ∃ i l, read_inode img sb (place r) (r_offset r) = Some i ∧ read_dir img sb i = Some l ∧
    match List.find (λ d, bool_decide (d_name d = c)) l with
    | Some d => is_Some (fs !! path_of (parts ++ [c])) ∧
        ∃ r', d_inodeBlockByte d = place r' ∧ d_inodeBlockOff d = r_offset r' ∧
          S r' (resolve fs (path_of (parts ++ [c])))
    | None => fs !! path_of (parts ++ [c]) = None
    end.
Proof.
  intros HS Hg Hn Hb.
  destruct (Hrep _ _ HS) as (n' & e & mtime & bs & Hp' & Hm & Hr & Ho & Hk & Ht & He & Ha & _ & Hd).
  assert (n' = n) as -> by congruence. clear Hp'.
  assert (Hkind : e_kind e = kindDir) by (apply matches_core in Hm as (_ & _ & _ & _ & _ & E); by rewrite Hb in E).
  destruct (read_dir_ok e mtime Hkind (Hd Hb)) as (ds & Hrd & Hl).
  exists (inode_of e mtime), (SliceStable name_less ds). split; [by eapply read_inode_ok|]. split; [done|].
  assert (Hchild : ∀ q, q ∈ e_children e ↔ q ∈ order ∧ Dir q = path_of parts).
  { intros q. rewrite Hk, list_elem_of_filter. tauto. }
  pose proof (name_in_listing ds c) as Hf. destruct (Dir_Base_snoc parts c Hg) as [HD HB].
  destruct (List.find _ _) as [d|].
  - destruct Hf as [Hin Hname]. apply list_elem_of_lookup in Hin as [i Hi].
    destruct (Forall2_lookup_l _ _ _ _ _ Hl Hi) as (q & Hq & Hbase & r' & Hpl & _ & Hoff & HS').
    apply list_elem_of_lookup_2, Hchild in Hq as [Hq HDq].
    destruct (validatePath_parts q (order_valid _ Hq)) as (qs & Hqn & Hgq & ->).
    induction qs as [|x qs _] using rev_ind; [done|]. destruct (Dir_Base_snoc qs x Hgq) as [HDq' HBq].
    assert (qs = parts) as ->.
    { apply path_of_inj; [by apply Forall_app in Hgq as [? _]|by apply Forall_app in Hg as [? _]|congruence]. }
    assert (x = c) as -> by congruence. split; [by apply child_in_order|]. by exists r'.
  - apply eq_None_not_Some. intros Hs. apply child_in_order in Hs; [|done].
    assert (path_of (parts ++ [c]) ∈ e_children e) as Hc by (by apply Hchild).
    apply list_elem_of_lookup in Hc as [i Hi]. destruct (Forall2_lookup_r _ _ _ _ _ Hl Hi) as (d & Hdi & Hbase & _).
    apply (Hf d); [by eapply list_elem_of_lookup_2|congruence].
Qed.

Lemma no_step r p n :
  S r p → fs !! p = Some n → n_body n ≠ NDir →
  ∃ i, read_inode img sb (place r) (r_offset r) = Some i ∧ read_dir img sb i = None.
Proof.
  intros HS Hn Hb.
  destruct (Hrep _ _ HS) as (n' & e & mtime & bs & Hp' & Hm & Hr & Ho & Hk & Ht & He & Ha & _ & _).
  assert (n' = n) as -> by congruence. exists (inode_of e mtime). split; [by eapply read_inode_ok|].
  apply matches_core in Hm as (_ & _ & _ & _ & _ & E). unfold read_dir, inode_of, body_of. cbn [i_body].
  change (e_kind (core e)) with (e_kind e) in E. rewrite E. by destruct (n_body n) as [| | |[]|[]|].
Qed.

(** The walk finds exactly the paths of the file system. *)
Lemma walk_spec rest : ∀ pre r n,
  S r (resolve fs (path_of pre)) → fs !! path_of pre = Some n → Forall good_part (pre ++ rest) →
  match fs !! path_of (pre ++ rest) with
  | Some _ => ∃ r', walk_path img sb (place r) (r_offset r) rest = Some (place r', r_offset r') ∧
      S r' (resolve fs (path_of (pre ++ rest)))
  | None => walk_path img sb (place r) (r_offset r) rest = None
  end.
Proof.
  induction rest as [|c rest IH]; intros pre r n HS Hn Hg; cbn [walk_path].
  { rewrite app_nil_r, Hn. by exists r. }
  destruct (resolve_node _ _ Hn) as (n' & Hn' & _ & Hdir & Hsame).
  assert (n_body n = NDir ∨ n_body n ≠ NDir) as [Hb|Hb] by (destruct (n_body n); by (left + right)).
  - rewrite (Hsame Hb) in HS. rewrite cons_middle, app_assoc in Hg |- *.
    destruct (step_spec r pre c n) as (i & l & -> & Hl & Hf); [done|by apply Forall_app in Hg as [? _]|done|done|].
    cbn [mbind option_bind]. rewrite Hl. cbn [mbind option_bind].
    destruct (List.find _ l) as [d|]; cbn [mbind option_bind].
    + destruct Hf as ([m Hm] & r' & -> & -> & HS'). by eapply IH.
    + destruct (fs !! path_of ((pre ++ [c]) ++ rest)) eqn:E; [|done].
      destruct rest as [|x rest]; [rewrite app_nil_r in E; congruence|].
      destruct (ancestor (pre ++ [c]) x rest) as (? & ? & _); [done|by eexists|congruence].
  - destruct (no_step r _ n' HS Hn') as (i & -> & Hi); [tauto|]. cbn [mbind option_bind]. rewrite Hi.
    destruct (fs !! path_of (pre ++ c :: rest)) eqn:E; [|done].
    destruct (ancestor pre c rest) as (? & ? & ?); [done|by eexists|congruence].
Qed.

Lemma stat_from r parts :
  S r root_path → is_folder fs root_path → Forall good_part parts →
  ('(block, off) ← walk_path img sb (place r) (r_offset r) parts; read_view img sb block off) =
    fs_view fixed fs (path_of parts).
Proof.
  intros HS (n & Hn & Hb) Hg. destruct (resolve_node _ _ Hn) as (_ & _ & _ & _ & Hsame).
  rewrite <- (Hsame Hb) in HS. pose proof (walk_spec parts [] r n HS Hn Hg) as Hw. cbn [app] in Hw.
  destruct (fs !! path_of parts) as [m|] eqn:Hm.
  - destruct Hw as (r' & -> & HS'). cbn [mbind option_bind]. destruct (resolve_node _ _ Hm) as (m' & Hm' & Hnl & _).
    rewrite (fs_view_resolve _ _ _ Hm Hm'). by apply read_view_ok.
  - rewrite Hw. unfold fs_view. by rewrite Hm.
Qed.
End Reading.
