(* ===== verification/SquashTotal.v ===== *)
(** * The squashfs writer does not panic and its loops end

    [NilPointer] stands for a nil pointer that Go would follow, [OutOfFuel] for a loop
    that is not over after the rounds it was given.  Neither happens: the errors of the
    API are the ones the code returns. *)
From S2P Require Import Prelude GoSort SquashFormat SquashMeta SquashDir SquashWriter SquashFiles SquashTree SquashImage.
From stdpp Require Import sorting.
#[local] Open Scope Z_scope.

(** An error that the Go code returns. *)
Definition proper (e : sq_error) : Prop := e ≠ OutOfFuel ∧ e ≠ NilPointer.

(** From [P], the computation ends in [Q] or with an error that the code returns. *)
Definition safe {S A} (P : S → Prop) (m : io S A) (Q : A → S → Prop) : Prop :=
  ∀ s, P s → match m s with (inl a, s') => Q a s' | (inr e, _) => proper e end.

Abbreviation keeps P m := (safe P%function m (λ _, P%function)).

Lemma safe_ret {S A} (P : S → Prop) (a : A) : keeps P (io_ret a).
Proof. by intros s Hs. Qed.

Lemma safe_fail {S A} (P : S → Prop) e (Q : A → S → Prop) : proper e → safe P (io_fail e) Q.
Proof. by intros He s _. Qed.

Lemma safe_lift {S A} (P : S → Prop) (r : A + sq_error) :
  (∀ e, r = inr e → proper e) → keeps P (lift r).
Proof. intros Hr s Hs. unfold lift. destruct r; [done|by apply Hr]. Qed.

Lemma safe_gets {S A} (P : S → Prop) (g : S → A) : keeps P (io_gets g).
Proof. by intros s Hs. Qed.

Lemma safe_modify {S} (P Q : S → Prop) (g : S → S) : (∀ s, P s → Q (g s)) → safe P (io_modify g) (λ _, Q).
Proof. intros Hg s Hs. by apply Hg. Qed.

Lemma safe_bind {S A B} (P : S → Prop) (m : io S A) (k : A → io S B) Q R :
  safe P m Q → (∀ a, safe (Q a) (k a) R) → safe P (io_bind m k) R.
Proof.
  intros Hm Hk s Hs. specialize (Hm s Hs). unfold io_bind. destruct (m s) as [[a|e] s1]; [|done]. by apply Hk.
Qed.

Lemma safe_conseq {S A} (P P' : S → Prop) (m : io S A) (Q Q' : A → S → Prop) :
  safe P m Q → (∀ s, P' s → P s) → (∀ a s, Q a s → Q' a s) → safe P' m Q'.
Proof. intros Hm HP HQ s Hs. specialize (Hm s (HP s Hs)). destruct (m s) as [[a|e] s1]; auto. Qed.

Lemma safe_for {S A} (P : S → Prop) (f : A → io S unit) l :
  (∀ x, x ∈ l → keeps P (f x)) → keeps P (io_for f l).
Proof.
  induction l as [|x l IH]; intros Hf; cbn [io_for]; [apply safe_ret|].
  eapply safe_bind; [apply Hf; by left|]. intros ?. apply IH. intros y Hy. apply Hf. by right.
Qed.

(** ** Metadata *)

Section Meta.
Context `{Decompressor}.

Lemma sealCurrent_safe : safe (λ m, zlen (mw_cur m) ≤ MetadataBlockSize) sealCurrent (λ _, open_ok).
Proof.
  intros m Hm. destruct (sealCurrent m) as [[u|e] m'] eqn:E.
  - apply sealCurrent_grows in E as [_ Hc]; [|done]. unfold open_ok. by rewrite Hc.
  - unfold sealCurrent in E. by repeat case_match; simplify_eq.
Qed.

Lemma Flush_safe : keeps open_ok Flush.
Proof. eapply safe_conseq; [apply sealCurrent_safe| |done]. unfold open_ok. intros m. lia. Qed.

Lemma Write_safe p : keeps open_ok (Write p).
Proof.
  intros m Hm. destruct (Write p m) as [[u|e] m'] eqn:E.
  - by apply Write_grows in E as [_ ?].
  - unfold Write in E. by apply write_loop_error in E as [msg ->].
Qed.

Lemma write_entries_safe base l n : keeps open_ok (write_entries base l n).
Proof.
  revert n. induction l as [|e l IH]; intros n; cbn [write_entries]; [apply safe_ret|].
  case_match; [by apply safe_fail|]. eapply safe_bind; [apply Write_safe|]. intros ?. apply IH.
Qed.

Lemma write_headers_safe fuel : ∀ l n, (length l ≤ fuel)%nat → keeps open_ok (write_headers fuel l n).
Proof.
  induction fuel as [|fuel IH]; intros [|b l] n Hl; cbn [write_headers length] in *;
    [apply safe_ret|lia|apply safe_ret|].
  eapply safe_bind; [apply Write_safe|]. intros ?. eapply safe_bind; [apply write_entries_safe|]. intros k.
  apply IH. cbn [drop]. rewrite length_drop. lia.
Qed.

Lemma writeDirListing_safe l : keeps open_ok (writeDirListing l).
Proof.
  unfold writeDirListing. eapply safe_bind; [apply safe_gets|]. intros r.
  eapply safe_bind; [by apply write_headers_safe|]. intros n. apply safe_ret.
Qed.

Lemma pack_ids_safe ids : ∀ i, keeps open_ok (pack_ids i ids).
Proof.
  induction ids as [|id ids IH]; intros i; cbn [pack_ids]; [apply safe_ret|].
  eapply (safe_bind _ _ _ (λ _, open_ok)).
  - case_match; [|apply safe_ret]. eapply (safe_bind _ _ _ (λ _, open_ok)).
    + case_match; [apply Flush_safe|apply safe_ret].
    + intros ?. apply safe_gets.
  - intros start. eapply safe_bind; [apply Write_safe|]. intros ?.
    eapply safe_bind; [apply IH|]. intros rest. apply safe_ret.
Qed.

Context {F : Type} `{FileLaws F}.
Implicit Types P : F → Prop.

Abbreviation any := (λ _ : F, True).

Lemma file_write_safe p : keeps any (file_write p).
Proof. intros f _. unfold file_write. by destruct (fs_Write p f) as [[n [msg|]] f']. Qed.

Lemma file_seek_safe : keeps any file_seek.
Proof. intros f _. unfold file_seek. by destruct (fs_Seek f) as [[msg|] f']. Qed.

Lemma EmitTo_safe m : keeps any (EmitTo m).
Proof.
  unfold EmitTo. induction (mw_blocks m) as [|b l IH]; cbn [emit_blocks]; [apply safe_ret|].
  case_match; [by apply safe_fail|]. eapply safe_bind; [apply file_write_safe|]. intros n1.
  eapply safe_bind; [apply file_write_safe|]. intros n2. eapply safe_bind; [apply IH|]. intros t. apply safe_ret.
Qed.

Lemma WriteData_safe t base : keeps any (WriteData t base).
Proof.
  unfold WriteData. destruct (id_list t) as [|id ids]; [apply safe_ret|].
  assert (Hp : keeps open_ok (io* starts := pack_ids 0 (id :: ids) in io* _ := Flush in io_ret starts)).
  { eapply safe_bind; [apply pack_ids_safe|]. intros l. eapply safe_bind; [apply Flush_safe|]. intros ?. apply safe_ret. }
  specialize (Hp newMetaWriter). destruct (io_bind _ _ newMetaWriter) as [[l|e] meta]; [|apply safe_fail; by apply Hp].
  eapply safe_bind; [apply EmitTo_safe|]. intros n. apply safe_ret.
Qed.

Lemma WriteLookup_safe l : keeps any (WriteLookup l).
Proof. unfold WriteLookup. destruct l; [apply safe_ret|apply file_write_safe]. Qed.

Lemma emit_safe {A} (P : Writer F → Prop) (m : io F A) bytes :
  keeps any m → (∀ w out pos, P w → P (set_out out pos w)) → keeps P (emit_to m bytes).
Proof.
  intros Hm Hset w Hw. unfold emit_to. specialize (Hm (w_out w) I). destruct (m (w_out w)) as [[a|e] out]; [|done].
  by apply Hset.
Qed.

(** ** The calls *)

Lemma emitBlock_safe : safe (λ w : Writer F, is_Some (w_curFile w)) emitBlock (λ _ _, True).
Proof.
  intros w [fw Hw]. unfold emitBlock. rewrite Hw. case_bool_decide; [done|]. cbv beta zeta.
  destruct (Compress _) as [out| |msg]; [destruct (_ <=? _)|..]; try done;
    match goal with |- context [fs_Write ?d ?o] => by destruct (fs_Write d o) as [[n [msg|]] f] end.
Qed.

Lemma flushCurFile_safe : safe (λ _ : Writer F, True) flushCurFile (λ _ _, True).
Proof.
  intros w _. unfold flushCurFile, flushTail. unfold io_bind at 1, io_gets. destruct (w_curFile w) as [fw|] eqn:E; [|done].
  pose proof (emitBlock_safe w ltac:(by eexists)) as Hs. unfold io_bind.
  by destruct (emitBlock w) as [[u|e] w1].
Qed.

(** Every round of the loop takes a byte, since the buffer is not full. *)
Lemma file_loop_error p fuel : ∀ data (w : Writer F) wr buf e w',
  (length data ≤ fuel)%nat → holds (w_out w) wr → w_curFile w = Some (mkFile p buf) →
  zlen buf < w_blockSize w < 2 ^ 24 → file_loop fuel data w = (inr e, w') → proper e.
Proof.
  induction fuel as [|fuel IH]; intros [|x data] w wr buf e w' Hf Hh Hc Hl Hw; cbn [file_loop length] in *;
    [done|lia|done|].
  rewrite Hc in Hw. cbn [fw_buf fw_e] in Hw. set (q := x :: data) in *.
  set (n := Z.to_nat (Z.min (zlen q) (w_blockSize w - zlen buf))) in *.
  set (w0 := set_curFile (Some (mkFile p (buf ++ take n q))) w) in *.
  assert (0 < n)%nat by (unfold n, q, zlen in *; cbn; lia).
  assert (length (drop n q) ≤ fuel)%nat by (rewrite length_drop; unfold q; cbn; lia).
  assert (Hlen : zlen (buf ++ take n q) ≤ w_blockSize w).
  { rewrite zlen_app. unfold n, zlen in *. rewrite length_take. lia. }
  change (w_blockSize w0) with (w_blockSize w) in Hw. unfold io_bind in Hw.
  destruct (Z.eqb_spec (zlen (buf ++ take n q)) (w_blockSize w)) as [Hfull|Hopen].
  - destruct (emitBlock w0) as [[u|e'] w1] eqn:He.
    + eapply emitBlock_streams in He as (wr1 & Hs1 & Hc1); [|done|done|lia].
      destruct Hs1 as (? & ? & ? & ? & ? & ? & _ & _ & Hh1 & -> & _).
      eapply IH in Hw; [done|done|exact Hh1|exact Hc1|].
      change (@zlen Z []) with 0. change (w_blockSize (streamed _ _ _ _ _ _)) with (w_blockSize w).
      pose proof (zlen_nonneg buf). lia.
    + injection Hw as <- <-. pose proof (emitBlock_safe w0 ltac:(by eexists)) as Hs. by rewrite He in Hs.
  - cbn [io_ret] in Hw. eapply IH in Hw; [done|done|exact Hh|done|].
    change (w_blockSize w0) with (w_blockSize w). lia.
Qed.

Lemma FileWrite_error fixed (w : Writer F) fs wr file data e w' :
  writing fixed w fs wr → FileWrite file data w = (inr e, w') → proper e.
Proof.
  intros Hw. unfold FileWrite, io_bind at 1 2, io_gets. case_bool_decide as Hc; [|by intros [= <- _]]. cbn [negb].
  rewrite (wi_open _ _ _ _ Hw). unfold io_bind. destruct (file_loop _ _ w) as [[u|e'] w1] eqn:E; [done|].
  intros [= -> ->]. destruct (w_curFile w) as [[f buf]|] eqn:Ec; [|done]. cbn in Hc. injection Hc as ->.
  destruct (wi_cur _ _ _ _ Hw _ Ec) as [Hb _]. pose proof (wi_bsize _ _ _ _ Hw).
  eapply file_loop_error; [|apply Hw|exact Ec| |exact E]; [lia|]. cbn in Hb. lia.
Qed.

Lemma validatePath_error p e : validatePath p = Some e → proper e.
Proof. unfold validatePath. by repeat case_match; intros [= <-]. Qed.

Lemma beginEntry_safe p : safe (λ _ : Writer F, True) (beginEntry p) (λ _ _, True).
Proof.
  unfold beginEntry. eapply safe_bind; [apply safe_gets|]. intros [|]; [by apply safe_fail|].
  eapply safe_bind; [apply flushCurFile_safe|]. intros ?. destruct (validatePath p) eqn:E.
  - apply safe_fail. by eapply validatePath_error.
  - eapply safe_bind; [apply safe_gets|]. intros ents. case_bool_decide; [by apply safe_fail|apply safe_ret].
Qed.

Lemma CreateHardlink_safe l t : safe (λ _ : Writer F, True) (CreateHardlink l t) (λ _ _, True).
Proof.
  unfold CreateHardlink. eapply safe_bind; [apply safe_gets|]. intros [|]; [by apply safe_fail|].
  eapply safe_bind; [apply flushCurFile_safe|]. intros ?.
  destruct (validatePath l) eqn:El; [apply safe_fail; by eapply validatePath_error|].
  destruct (validatePath t) eqn:Et; [apply safe_fail; by eapply validatePath_error|].
  eapply safe_bind; [apply safe_gets|]. intros ents. case_bool_decide; [by apply safe_fail|].
  case_match; [by apply safe_fail|]. by apply safe_modify.
Qed.

Lemma run_op_error fixed o (w : Writer F) fs wr e w' :
  writing fixed w fs wr → run_op o w = (inr e, w') → proper e.
Proof.
  intros Hw.
  assert (Hsafe : safe (λ _ : Writer F, True) (run_op o) (λ _ _, True) → run_op o w = (inr e, w') → proper e).
  { intros Hs E. specialize (Hs w I). by rewrite E in Hs. }
  assert (Hnew : ∀ p g, safe (λ _ : Writer F, True) (io* _ := beginEntry p in io_modify g) (λ _ _, True)).
  { intros p g. eapply safe_bind; [apply beginEntry_safe|]. intros ?. by apply safe_modify. }
  destruct o as [a|file data|a|a t|l t|b a mj mn|sk a]; cbn [run_op] in *.
  - apply Hsafe. unfold CreateFile. eapply safe_bind; [|intros ?; apply safe_ret].
    eapply safe_bind; [apply beginEntry_safe|]. intros ?. eapply safe_bind; [apply safe_gets|]. intros pos.
    eapply (safe_bind _ _ _ (λ _ _, True)); [by apply safe_modify|]. intros ?. eapply (safe_bind _ _ _ (λ _ _, True)); [by apply safe_modify|]. intros ?. apply safe_ret.
  - unfold io_bind. destruct (FileWrite file data w) as [[n|e'] w1] eqn:E; [done|]. intros [= -> _].
    by eapply FileWrite_error.
  - apply Hsafe, Hnew.
  - apply Hsafe. unfold CreateSymlink. eapply safe_bind; [apply beginEntry_safe|]. intros ?.
    case_bool_decide; [by apply safe_fail|]. by apply safe_modify.
  - apply Hsafe, CreateHardlink_safe.
  - apply Hsafe. destruct b; apply Hnew.
  - apply Hsafe. destruct sk; apply Hnew.
Qed.
End Meta.

(** ** The tables *)

Lemma encodeInode_error e mtime blockSize err : encodeInode e mtime blockSize = inr err → proper err.
Proof.
  unfold encodeInode, encodeBasicFile, encodeBasicDir, encodeBasicSymlink, encodeBasicDevice, encodeDevice.
  intros He. repeat (case_match; try discriminate He); simplify_eq; done.
Qed.

Lemma entryMtime_error fixed e err : entryMtime fixed e = inr err → proper err.
Proof. unfold entryMtime. intros He. repeat (case_match; try discriminate He); simplify_eq; done. Qed.

Section Tables.
Context `{Decompressor} (fixed : option Z) (blockSize : Z) (D : list Z → Prop) (M : nat).

(** Pointers between entries are not nil, and children have longer paths. *)
Record tree (ents : entries) : Prop := {
  tr_dom : ∀ p, D p → is_Some (ents !! p);
  tr_kids : ∀ p e c, ents !! p = Some e → c ∈ e_children e → D c ∧ (length p < length c ≤ M)%nat;
  tr_link : ∀ p e, ents !! p = Some e → e_kind e = kindHardlink → D (default [] (e_hardlinkTarget e))
}.

(** An entry with the same pointers. *)
Definition alike (e e' : entry) : Prop :=
  (∀ c, c ∈ e_children e' → c ∈ e_children e) ∧ e_kind e' = e_kind e ∧ e_hardlinkTarget e' = e_hardlinkTarget e.

Lemma tree_alike ents ents' : (∀ q, option_Forall2 alike (ents !! q) (ents' !! q)) → tree ents → tree ents'.
Proof.
  intros Ha [Hd Hk Hl].
  assert (Hlook : ∀ q e', ents' !! q = Some e' → ∃ e, ents !! q = Some e ∧ alike e e').
  { intros q e' Hq. specialize (Ha q). rewrite Hq in Ha. inversion Ha; subst. eauto. }
  split.
  - intros q Hq. destruct (Hd q Hq) as [e He]. specialize (Ha q). rewrite He in Ha. inversion Ha; subst. by eexists.
  - intros q e' c (e & He & Hc & _)%Hlook Hin. by eapply Hk, Hc.
  - intros q e' (e & He & _ & -> & ->)%Hlook Hh. by eapply Hl.
Qed.

Lemma tree_alter ents p f : (∀ e, alike e (f e)) → tree ents → tree (alter f p ents).
Proof.
  intros Hf. apply tree_alike. intros q. destruct (decide (q = p)) as [->|Hne].
  - rewrite lookup_alter_eq. destruct (ents !! p); constructor. apply Hf.
  - rewrite lookup_alter_ne by done. by destruct (ents !! q); constructor.
Qed.

Lemma tree_insert ents p e e' : ents !! p = Some e → alike e e' → tree ents → tree (<[p := e']> ents).
Proof.
  intros Hp Hf. apply tree_alike. intros q. destruct (decide (q = p)) as [->|Hne].
  - rewrite lookup_insert_eq, Hp. by constructor.
  - rewrite lookup_insert_ne by done. by destruct (ents !! q); constructor.
Qed.

Lemma tree_touched ents ents' : touched ents ents' → tree ents → tree ents'.
Proof.
  intros Ht. apply tree_alike. intros q. specialize (Ht q). inversion Ht as [e e' Hr|]; constructor.
  apply rtc_upd_data in Hr as [Hc Hk]. split; [intros c; by rewrite Hk|].
  change (e_kind (core e') = e_kind (core e) ∧ e_hardlinkTarget (core e') = e_hardlinkTarget (core e)). by rewrite Hc.
Qed.

Definition tabled (t : tables) : Prop :=
  tree (t_entries t) ∧ open_ok (t_inodeMeta t) ∧ open_ok (t_dirMeta t).

Lemma deref_safe {S} (P : S → Prop) (lookup : S → entries) p :
  (∀ s, P s → is_Some (lookup s !! p)) → safe P (deref lookup p) (λ e s, P s ∧ lookup s !! p = Some e).
Proof. intros Hp s Hs. unfold deref. destruct (Hp s Hs) as [e He]. by rewrite He. Qed.

(** The entry at a path of the tree, and what is known of it. *)
Lemma tree_entry_safe {S A : Type} (P : S → Prop) (lookup : S → entries) p (k : entry → io S A) Q :
  (∀ s, P s → tree (lookup s)) → D p →
  (∀ e, (∀ c, c ∈ e_children e → D c ∧ (length p < length c ≤ M)%nat) →
        (e_kind e = kindHardlink → D (default [] (e_hardlinkTarget e))) →
        safe (λ s, P s ∧ lookup s !! p = Some e) (k e) Q) →
  safe P (io_bind (deref lookup p) k) Q.
Proof.
  intros HP Hp Hk. eapply safe_bind.
  - apply deref_safe. intros s Hs. by apply (tr_dom _ (HP s Hs)).
  - intros e s [Hs He]. apply (Hk e); [| |done].
    + intros c Hc. by eapply (tr_kids _ (HP s Hs)).
    + intros Hl. by eapply (tr_link _ (HP s Hs)).
Qed.

Lemma safe_forget {S A : Type} (P X : S → Prop) (m : io S A) Q : safe P m Q → safe (λ s, P s ∧ X s) m Q.
Proof. intros Hm. eapply safe_conseq; [exact Hm| |done]. by intros s [? _]. Qed.

Lemma entry_safe {A} p (k : entry → io tables A) Q :
  D p →
  (∀ e, (∀ c, c ∈ e_children e → D c ∧ (length p < length c ≤ M)%nat) →
        (e_kind e = kindHardlink → D (default [] (e_hardlinkTarget e))) → safe tabled (k e) Q) →
  safe tabled (io_bind (deref t_entries p) k) Q.
Proof.
  intros Hp Hk. apply tree_entry_safe; [by intros t [? _]|done|]. intros e Hc Hl. by apply safe_forget, Hk.
Qed.

(** *** The passes over the entries *)

Lemma dir_test_safe {S A : Type} (P : S → Prop) (test : S → bool) (m k : io S A) Q :
  safe P m Q → safe P k Q → safe P (io* dir := io_gets test in if dir : bool then m else k) Q.
Proof. intros Hm Hk. eapply safe_bind; [apply safe_gets|]. by intros [|]. Qed.

Lemma sortRec_safe fuel : ∀ d, D d → (length d ≤ M < fuel + length d)%nat → keeps tree (sortRec fuel d).
Proof.
  induction fuel as [|fuel IH]; intros d Hd Hf; cbn [sortRec]; [lia|].
  eapply (safe_bind _ _ _ (λ _, tree)).
  - apply safe_modify. intros m. apply tree_alter. intros e. split; [|done]. intros c. cbn. by rewrite SliceStable_perm.
  - intros ?. apply tree_entry_safe; [done|done|]. intros e He _. apply safe_forget, safe_for. intros c Hc.
    destruct (He c Hc) as [HD Hlen]. apply dir_test_safe; [|apply safe_ret]. apply IH; [done|lia].
Qed.

Lemma number_walk_safe fuel : ∀ p parent, D p → (length p ≤ M < fuel + length p)%nat →
  keeps (λ s : Z * entries, tree (snd s)) (number_walk fuel p parent).
Proof.
  induction fuel as [|fuel IH]; intros p parent Hp Hf; cbn [number_walk]; [lia|].
  apply tree_entry_safe; [done|done|]. intros e He _. case_bool_decide; [apply safe_forget, safe_ret|].
  eapply safe_bind; [apply safe_gets|]. intros number. eapply (safe_bind _ _ _ (λ _ s, tree (snd s))).
  - apply safe_modify. intros [next m] [Ht Hm]. cbn [snd] in *. eapply tree_insert; [exact Hm|by split|done].
  - intros ?. case_bool_decide; [|apply safe_ret]. apply safe_for. intros c Hc. destruct (He c Hc) as [HD Hlen].
    apply IH; [done|lia].
Qed.

Lemma safe_fold {S A B : Type} (P : S → Prop) (f : B → A → io S B) l :
  (∀ b x, x ∈ l → keeps P (f b x)) → ∀ b, keeps P (io_fold f b l).
Proof.
  induction l as [|x l IH]; intros Hf b; cbn [io_fold]; [apply safe_ret|].
  eapply safe_bind; [apply Hf; by left|]. intros b'. apply IH. intros b0 y Hy. apply Hf. by right.
Qed.

Lemma link_walk_safe fuel : ∀ d, D d → (length d ≤ M < fuel + length d)%nat → keeps tree (link_walk fuel d).
Proof.
  induction fuel as [|fuel IH]; intros d Hd Hf; cbn [link_walk]; [lia|].
  apply tree_entry_safe; [done|done|]. intros e He _. apply safe_forget. eapply (safe_bind _ _ _ (λ _, tree)).
  - apply safe_fold. intros n c Hc. destruct (He c Hc) as [HD Hlen]. apply dir_test_safe; [|apply safe_ret].
    eapply safe_bind; [apply IH; [done|lia]|]. intros ?. apply safe_ret.
  - intros n. apply safe_modify. intros m. apply tree_alter. by intros e'.
Qed.

Lemma exec_safe {S A : Type} (P : S → Prop) (m : io S A) s :
  keeps P m → P s → match exec m s with inl s' => P s' | inr e => proper e end.
Proof. intros Hm Hs. unfold exec. specialize (Hm s Hs). by destruct (m s) as [[a|e] s']. Qed.

(** *** The two passes over the tables *)

Lemma upd_entry_safe p f :
  (∀ e, alike e (f e)) →
  keeps tabled (upd_entry p f).
Proof. intros Hf. apply safe_modify. intros t (Ht & Hi & Hd). split; [by apply tree_alter|by split]. Qed.

Lemma on_inodes_safe {A} (m : io metaWriter A) : keeps open_ok m → keeps tabled (on_inodes m).
Proof.
  intros Hm t (Ht & Hi & Hd). unfold on_inodes. specialize (Hm _ Hi).
  destruct (m (t_inodeMeta t)) as [[a|e] im']; [|done]. by split_and!.
Qed.

Lemma on_dirs_safe {A} (m : io metaWriter A) : keeps open_ok m → keeps tabled (on_dirs m).
Proof.
  intros Hm t (Ht & Hi & Hd). unfold on_dirs. specialize (Hm _ Hd).
  destruct (m (t_dirMeta t)) as [[a|e] dm']; [|done]. by split_and!.
Qed.

Lemma writeOneInode_safe p : D p → keeps tabled (writeOneInode fixed blockSize p).
Proof.
  intros Hp. unfold writeOneInode. apply entry_safe; [done|]. intros e _ _.
  eapply safe_bind; [apply safe_lift; apply entryMtime_error|]. intros mtime.
  eapply safe_bind; [apply safe_lift; apply encodeInode_error|]. intros bs.
  eapply safe_bind; [apply safe_gets|]. intros r.
  eapply safe_bind; [by apply upd_entry_safe|]. intros ?. apply on_inodes_safe, Write_safe.
Qed.

Lemma writeLeafInodes_safe l : Forall D l → keeps tabled (writeLeafInodes fixed blockSize l).
Proof.
  rewrite Forall_forall. intros Hl. apply safe_for. intros p Hp. apply entry_safe; [by apply Hl|]. intros e _ _.
  case_bool_decide; [apply safe_ret|]. by apply writeOneInode_safe, Hl.
Qed.

Lemma resolveHardlinks_safe l : Forall D l → keeps tabled (resolveHardlinks l).
Proof.
  rewrite Forall_forall. intros Hl. apply safe_for. intros p Hp. apply entry_safe; [by apply Hl|]. intros e _ He.
  case_bool_decide; [|apply safe_ret]. apply entry_safe; [by apply He|]. intros e' _ _. by apply upd_entry_safe.
Qed.

Lemma dir_entries_safe l : Forall D l → keeps tabled (dir_entries l).
Proof.
  induction 1 as [|c l Hc Hl IH]; cbn [dir_entries]; [apply safe_ret|].
  eapply (safe_bind _ _ _ (λ _, tabled)).
  - unfold dir_entry. apply entry_safe; [done|]. intros e _ _. eapply safe_bind; [apply safe_gets|]. intros tgt.
    eapply safe_bind; [apply safe_gets|]. intros b. case_match; [by apply safe_fail|apply safe_ret].
  - intros d. eapply safe_bind; [apply IH|]. intros ds. apply safe_ret.
Qed.

Lemma writeDir_safe d : D d → keeps tabled (writeDir fixed blockSize d).
Proof.
  intros Hd. unfold writeDir. apply entry_safe; [done|]. intros e He _.
  eapply safe_bind; [apply dir_entries_safe, Forall_forall; intros c Hc; by apply He|]. intros ds.
  eapply safe_bind; [apply on_dirs_safe, writeDirListing_safe|]. intros [r n].
  eapply safe_bind; [apply safe_gets|]. intros start.
  eapply safe_bind; [by apply upd_entry_safe|]. intros ?. by apply writeOneInode_safe.
Qed.

(** The walk goes down at most as far as paths are long. *)
Lemma dir_walk_safe fuel : ∀ d, D d → (length d ≤ M < fuel + length d)%nat →
  keeps tabled (dir_walk fixed blockSize fuel d).
Proof.
  induction fuel as [|fuel IH]; intros d Hd Hf; cbn [dir_walk]; [lia|].
  apply entry_safe; [done|]. intros e He _. eapply (safe_bind _ _ _ (λ _, tabled)).
  - apply safe_for. intros c Hc. destruct (He c Hc) as [HD Hlen]. eapply safe_bind; [apply safe_gets|].
    intros [|]; [|apply safe_ret]. apply IH; [done|]. lia.
  - intros ?. by apply writeDir_safe.
Qed.

Lemma writeTables_safe fuel l :
  Forall D l → D root_path → (1 ≤ M ≤ fuel)%nat → keeps tabled (writeTables fixed blockSize fuel l).
Proof.
  intros Hl Hr HM. unfold writeTables. eapply safe_bind; [by apply writeLeafInodes_safe|]. intros ?.
  eapply safe_bind; [by apply resolveHardlinks_safe|]. intros ?.
  eapply safe_bind; [apply dir_walk_safe; [done|cbn; lia]|]. intros ?.
  eapply safe_bind; [apply on_inodes_safe, Flush_safe|]. intros ?. apply on_dirs_safe, Flush_safe.
Qed.
End Tables.

(** ** [Close] *)

Lemma link_children_error order : ∀ ents e, link_children ents order = inr e → proper e.
Proof.
  induction order as [|p order IH]; intros ents e; cbn [link_children]; [done|]. unfold link_child.
  repeat case_match; try done; intros He; simplify_eq; try done; by eapply IH.
Qed.

Lemma length_Dir p : validatePath p = None → (length (Dir p) < length p)%nat.
Proof.
  intros (parts & Hne & Hg & ->)%validatePath_parts. induction parts as [|c parts _] using rev_ind; [done|].
  destruct (Dir_Base_snoc parts c Hg) as [-> _]. apply Forall_app in Hg as [_ [[Hc _] _]%Forall_cons].
  destruct c as [|x c]; [done|]. unfold path_of. destruct parts as [|d parts]; [cbn; lia|].
  cbn [app]. rewrite app_comm_cons, map_app, concat_app, length_app. cbn. lia.
Qed.

Lemma depth_fuel_ge ents p : is_Some (ents !! p) → (length p ≤ depth_fuel ents)%nat.
Proof.
  unfold depth_fuel. revert p. apply (map_fold_weak_ind (λ n ents, ∀ p, is_Some (ents !! p) → (length p ≤ n)%nat)).
  - intros p [e He]. by rewrite lookup_empty in He.
  - intros q e m n _ IH p Hp. destruct (decide (p = q)) as [->|Hne]; [lia|].
    rewrite lookup_insert_ne in Hp by done. specialize (IH _ Hp). lia.
Qed.

Lemma depth_fuel_pos ents : (1 ≤ depth_fuel ents)%nat.
Proof. unfold depth_fuel. apply (map_fold_weak_ind (λ n _, (1 ≤ n)%nat)); [done|]. intros. lia. Qed.

(** The longest path of a list. *)
Definition longest (l : list (list Z)) : nat := foldr (λ p n, Nat.max (length p) n) 1%nat l.

Lemma longest_ge l p : p ∈ l → (length p ≤ longest l)%nat.
Proof.
  induction l as [|q l IH]; [by intros ?%elem_of_nil|]. intros [->|Hp]%elem_of_cons; unfold longest; cbn [foldr]; [lia|].
  specialize (IH Hp). unfold longest in IH. lia.
Qed.

Lemma longest_pos l : (1 ≤ longest l)%nat.
Proof. unfold longest. induction l as [|q l IH]; cbn [foldr]; lia. Qed.

Lemma longest_fuel l ents : (∀ p, p ∈ l → is_Some (ents !! p)) → (longest l ≤ depth_fuel ents)%nat.
Proof.
  intros Hl. induction l as [|q l IH]; [apply depth_fuel_pos|].
  pose proof (depth_fuel_ge ents q ltac:(apply Hl; by left)).
  assert (longest l ≤ depth_fuel ents)%nat by (apply IH; intros p Hp; apply Hl; by right).
  unfold longest in *. cbn [foldr]. lia.
Qed.

Section Close.
Context `{Decompressor} {F : Type} `{FileLaws F} (fixed : option Z).

Lemma intern_owner_safe D M p :
  D p → keeps (λ s : entries * idTable, tree D M (fst s)) (intern_owner p).
Proof.
  intros Hp. unfold intern_owner. apply tree_entry_safe with (D := D) (M := M); [done|done|]. intros e _ _.
  assert (HI : ∀ id, keeps (λ s : entries * idTable, tree D M (fst s) ∧ fst s !! p = Some e)
    (λ '(ents, ids), let '(res, ids) := Intern id ids in (res, (ents, ids)))).
  { intros id [m t] Hm. unfold Intern. repeat case_match; simplify_eq; done. }
  eapply safe_bind; [apply HI|]. intros u. eapply safe_bind; [apply HI|]. intros g.
  apply safe_modify. intros [m t] [Ht Hm]. cbn [fst] in *. by eapply tree_insert.
Qed.

Lemma internIDs_safe D M l :
  Forall D l → D root_path → keeps (λ s : entries * idTable, tree D M (fst s)) (internIDs l).
Proof.
  rewrite Forall_forall. intros Hl Hr. unfold internIDs. eapply (safe_bind _ _ _ (λ _ s, tree D M (fst s))).
  - apply safe_for. intros p Hp. apply tree_entry_safe with (D := D) (M := M); [done|by apply Hl|].
    intros e _ _. apply safe_forget. case_bool_decide; [apply safe_ret|]. by apply intern_owner_safe, Hl.
  - intros ?. apply tree_entry_safe with (D := D) (M := M); [done|done|].
    intros e _ _. apply safe_forget. case_match; [by apply intern_owner_safe|apply safe_ret].
Qed.

(** What the paths of the image are, for the two lemmas below. *)
Definition known (w : Writer F) (p : list Z) : Prop := p ∈ root_path :: w_entryOrder w.

Definition deepest (w : Writer F) : nat := longest (root_path :: w_entryOrder w).

(** The entries with their children form a tree. *)
Lemma linked_tree (w : Writer F) fs wr m2 :
  writing fixed w fs wr →
  link_children (match w_entries w !! root_path with
                 | Some _ => w_entries w
                 | None => <[root_path := synthetic_root (w_mtime w)]> (w_entries w)
                 end) (w_entryOrder w) = inl m2 →
  tree (known w) (deepest w) m2.
Proof.
  intros Hw El.
  assert (Hroot : fs !! root_path = None).
  { apply eq_None_not_Some. intros Hr. by apply (wi_valid _ _ _ _ Hw) in Hr. }
  assert (Hnin : root_path ∉ w_entryOrder w).
  { intros Hr. apply (wi_order _ _ _ _ Hw) in Hr as [n Hn]. congruence. }
  destruct (w_entries w !! root_path) as [e|] eqn:Er.
  { apply (wi_entries _ _ _ _ Hw) in Er as [n Hn]. congruence. }
  apply link_children_spec in El as [Hch _]; [|done].
  set (m1 := <[root_path := _]> (w_entries w)) in *.
  assert (Hent : ∀ p e, m1 !! p = Some e → e_children e = [] ∧
    (e_kind e = kindHardlink → known w (default [] (e_hardlinkTarget e)))).
  { unfold m1. intros p e [[<- <-]|[Hne He]]%lookup_insert_Some; [done|].
    destruct (wi_entries _ _ _ _ Hw _ _ He) as [n Hn].
    destruct (wi_match _ _ _ _ Hw _ _ Hn) as (e' & He' & Hm). assert (e' = e) as -> by congruence.
    pose proof (matches_core _ _ _ _ _ Hm) as (_ & Hc & _ & _ & _ & Hk). split; [done|]. rewrite Hk.
    destruct (n_body n) as [| | |[]|[]|t] eqn:Hb; try done. intros _. unfold matches, entry_for in Hm. rewrite Hb in Hm. subst e.
    cbn. right. destruct (wi_links _ _ _ _ Hw _ _ _ Hn Hb) as (n' & d & Hn' & _). apply (wi_order _ _ _ _ Hw). by eexists. }
  split.
  - intros p Hp. rewrite Hch, fmap_is_Some. unfold m1. apply elem_of_cons in Hp as [->|Hp]; [by rewrite lookup_insert_eq|].
    rewrite lookup_insert_ne by (by intros <-). apply (wi_order _ _ _ _ Hw) in Hp as [n Hn].
    destruct (wi_match _ _ _ _ Hw _ _ Hn) as (e & He & _). by eexists.
  - intros p e c He Hc. rewrite Hch in He. apply fmap_Some in He as (e1 & He1 & ->).
    destruct (Hent _ _ He1) as [Hkids _]. cbn in Hc. rewrite Hkids in Hc. cbn in Hc.
    apply list_elem_of_filter in Hc as [<- Hc]. split; [by right|]. split; [|apply longest_ge; by right].
    apply length_Dir. by apply (wi_valid _ _ _ _ Hw), (wi_order _ _ _ _ Hw).
  - intros p e He Hk. rewrite Hch in He. apply fmap_Some in He as (e1 & He1 & ->). by apply (Hent _ _ He1).
Qed.

Lemma finish_entries_safe order (w : Writer F) fs wr :
  writing fixed w fs wr →
  match finish_entries order w with inl (m, _) => tree (known w) (deepest w) m | inr e => proper e end.
Proof.
  intros Hw. unfold finish_entries, buildTree.
  assert (Hfuel : ∀ m, tree (known w) (deepest w) m → (length root_path ≤ deepest w < depth_fuel m + length root_path)%nat).
  { intros m Hm. pose proof (longest_pos (root_path :: w_entryOrder w)).
    pose proof (longest_fuel (root_path :: w_entryOrder w) m (tr_dom _ _ _ Hm)). unfold deepest. change (length root_path) with 1%nat. lia. }
  assert (Hroot : known w root_path) by (by left).
  destruct (link_children _ _) as [m2|e] eqn:El; [|by eapply link_children_error].
  apply (linked_tree _ _ _ _ Hw) in El.
  pose proof (exec_safe _ _ _ (sortRec_safe _ _ (depth_fuel m2) root_path Hroot (Hfuel _ El)) El) as Hs.
  destruct (exec (sortRec _ _) m2) as [ms|e]; [|done]. unfold assignInodeNumbers.
  pose proof (exec_safe _ _ (1, ms) (number_walk_safe _ _ (depth_fuel ms) root_path 1 Hroot (Hfuel _ Hs)) Hs) as Hn.
  destruct (exec (number_walk _ _ _) _) as [[n mn]|e]; [|done]. cbn [snd] in Hn. unfold computeLinkCounts.
  assert (Hc : tree (known w) (deepest w) (foldl count_link mn order)).
  { eapply tree_touched; [|exact Hn]. apply touched_foldl, count_link_touched. }
  pose proof (exec_safe _ _ _ (link_walk_safe _ _ (depth_fuel _) root_path Hroot (Hfuel _ Hc)) Hc) as Hl.
  destruct (exec (link_walk _ _) _) as [m4|e]; [|done].
  pose proof (exec_safe _ _ (m4, w_ids w) (internIDs_safe (known w) (deepest w) (w_entryOrder w)
    ltac:(apply Forall_forall; by right) Hroot) Hl) as Hi.
  by destruct (exec (internIDs _) _) as [[m5 t]|e].
Qed.

Lemma emit_image_safe t :
  is_Some (t_entries t !! root_path) → safe (λ _ : Writer F, True) (emit_image t) (λ _ w, w_finished w = true).
Proof.
  intros Hr. unfold emit_image.
  assert (Hemit : ∀ {A} (m : io F A) bytes, keeps (λ _ : F, True) m → keeps (λ _ : Writer F, True) (emit_to m bytes)).
  { intros A m bytes Hm. by apply emit_safe. }
  eapply safe_bind; [apply safe_gets|]. intros w0. cbv zeta.
  eapply safe_bind; [apply Hemit, EmitTo_safe|]. intros ?. eapply safe_bind; [apply safe_gets|]. intros dt.
  eapply safe_bind; [apply Hemit, EmitTo_safe|]. intros ?. eapply safe_bind; [apply safe_gets|]. intros idt.
  eapply safe_bind; [apply Hemit, WriteData_safe|]. intros [offs n]. eapply safe_bind; [apply safe_gets|]. intros its.
  eapply safe_bind; [apply Hemit, WriteLookup_safe|]. intros ?. eapply safe_bind; [apply safe_gets|]. intros used.
  eapply (safe_bind _ _ _ (λ _ _, True)).
  { case_match; [apply Hemit, file_write_safe|apply safe_ret]. }
  intros ?. eapply (safe_bind _ _ _ (λ _ _, True)).
  { eapply safe_conseq; [by apply (deref_safe (λ _, True))|done|done]. }
  intros root. eapply safe_bind; [apply Hemit, file_seek_safe|]. intros ?.
  eapply safe_bind; [apply Hemit, file_write_safe|]. intros ?. by apply safe_modify.
Qed.

Lemma Close_safe order (w : Writer F) fs wr :
  writing fixed w fs wr →
  match Close order w with (inl _, w') => w_finished w' = true | (inr e, _) => proper e end.
Proof.
  intros Hw. unfold Close. unfold io_bind at 1, io_gets at 1. rewrite (wi_open _ _ _ _ Hw).
  unfold io_bind at 1. pose proof (flushCurFile_safe w I) as Hfs.
  destruct (flushCurFile w) as [[u|e] w1] eqn:Hfl; [|done].
  apply (flushCurFile_writing _ _ _ _ _ _ Hw) in Hfl as (wr1 & Hw1 & Hc). clear Hfs.
  unfold io_bind at 1, io_modify at 1. unfold io_bind at 1, io_gets at 1. cbn [id].
  unfold io_bind at 1, lift at 1. change (finish_entries order (set_closed true w1)) with (finish_entries order w1).
  pose proof (finish_entries_safe order _ _ _ Hw1) as Hfin.
  destruct (finish_entries order w1) as [[ents ids]|e]; [|done].
  unfold io_bind at 1, io_modify at 1. cbn [w_mtime w_blockSize w_entryOrder set_closed].
  pose proof (writeTables_safe (w_mtime w1) (w_blockSize w1) (known w1) (deepest w1) (depth_fuel ents) (w_entryOrder w1)
    ltac:(apply Forall_forall; by right) ltac:(by left)
    ltac:(split; [apply longest_pos|apply longest_fuel, (tr_dom _ _ _ Hfin)])
    (mkTables ents newMetaWriter newMetaWriter) ltac:(by split_and!)) as Ht.
  destruct (writeTables _ _ _ _ _) as [[v|e] t]; [|done]. destruct Ht as [Htr _].
  unfold io_bind, io_modify. apply emit_image_safe; [|done]. apply (tr_dom _ _ _ Htr). by left.
Qed.
End Close.
