(* ===== verification/SquashTheorems.v ===== *)
(** * The round trip of the squashfs writer

    A sequence of calls that succeeds and a [Close] that succeeds leave an image in which
    every path shows what the calls put there. *)
From S2P Require Import Prelude GoSort SquashFormat SquashMeta SquashDir SquashWriter SquashFiles SquashTree SquashImage SquashTotal.
From stdpp Require Import sorting.
#[local] Open Scope Z_scope.

(** ** Calls *)

Definition attrs_ok (a : Attrs) : Prop :=
  0 ≤ a_Mode a ∧ fits_in 4 (a_UID a) ∧ fits_in 4 (a_GID a).

(** The arguments are in the range of their Go types. *)
Definition op_ok (o : op) : Prop :=
  match o with
  | OpFile a | OpDir a | OpSymlink a _ | OpIpc _ a => attrs_ok a
  | OpDevice _ a major minor => attrs_ok a ∧ 0 ≤ major ∧ 0 ≤ minor
  | OpWrite _ _ | OpHardlink _ _ => True
  end.

Definition op_bytes (o : op) : Z := match o with OpWrite _ data => zlen data | _ => 0 end.

Definition total_bytes (ops : list op) : Z := foldr (λ o n, op_bytes o + n) 0 ops.

Definition spec_ops (ops : list op) (fs : filesystem) : filesystem :=
  foldl (λ fs o, spec_op o fs) fs ops.

(** What the calls can have built: nodes in range, with [b] bytes at most in a file. *)
Record sane (b : Z) (fs : filesystem) : Prop := {
  sn_ok : ∀ p n, fs !! p = Some n → node_ok n;
  sn_data : ∀ p n d, fs !! p = Some n → n_body n = NFile d → zlen d ≤ b
}.

Lemma sane_insert b fs p n :
  sane b fs → node_ok n → (∀ d, n_body n = NFile d → zlen d ≤ b) → sane b (<[p := n]> fs).
Proof.
  intros [Ho Hd] Hn Hb. split.
  - intros q m Hq. apply lookup_insert_Some in Hq as [[_ <-]|[_ Hq]]; [done|by eapply Ho].
  - intros q m d Hq. apply lookup_insert_Some in Hq as [[_ <-]|[_ Hq]]; [by apply Hb|by eapply Hd].
Qed.

Lemma spec_op_sane b fs o :
  0 ≤ b → op_ok o → sane b fs → sane (b + op_bytes o) (spec_op o fs).
Proof.
  intros Hb Ho Hs.
  assert (Hnew : ∀ p n, node_ok n → (∀ d, n_body n = NFile d → d = []) → sane (b + 0) (<[p := n]> fs)).
  { intros p n Hn Hd. rewrite Z.add_0_r. apply sane_insert; [done..|]. intros d ->%Hd. done. }
  destruct o as [a|file data|a|a tg|link tg|blk a mj mn|sk a]; cbn [spec_op op_bytes] in *;
    try (apply Hnew; [destruct Ho as (? & ? & ?); by split_and!|by intros d [= <-]]).
  - pose proof (zlen_nonneg data). destruct Hs as [Hn Hd].
    assert (Hl : ∀ p n, alter (append_data data) file fs !! p = Some n → ∃ n', fs !! p = Some n' ∧
      (n = n' ∨ n = append_data data n')).
    { intros p n Hp. destruct (decide (p = file)) as [->|Hne].
      - rewrite lookup_alter_eq in Hp. destruct (fs !! file) as [n'|]; [|done]. injection Hp as <-. eauto.
      - rewrite lookup_alter_ne in Hp by done. eauto. }
    split.
    + intros p n (n' & Hp & [->| ->])%Hl; [by eapply Hn|]. pose proof (Hn _ _ Hp) as Hk.
      unfold append_data. destruct (n_body n'); try done. destruct Hk as (? & ? & ? & _). by split_and!.
    + intros p n d (n' & Hp & [->| ->])%Hl Hb'; [specialize (Hd _ _ _ Hp Hb'); lia|].
      unfold append_data in Hb'. destruct (n_body n') as [d'| | | | |] eqn:E; try congruence.
      cbn in Hb'. injection Hb' as <-. specialize (Hd _ _ _ Hp E). rewrite zlen_app. lia.
  - apply Hnew; [|by intros d]. split_and!; cbn; try done; unfold fits_in; lia.
  - destruct Ho as [(? & ? & ?) [? ?]]. apply Hnew; [by split_and!|by intros d].
Qed.

Lemma spec_ops_sane ops : ∀ b fs,
  0 ≤ b → Forall op_ok ops → sane b fs → sane (b + total_bytes ops) (spec_ops ops fs).
Proof.
  induction ops as [|o ops IH]; intros b fs Hb Ho Hs; cbn.
  - by rewrite Z.add_0_r.
  - apply Forall_cons in Ho as [Ho Hops]. rewrite Z.add_assoc.
    apply IH; [|done|by apply spec_op_sane]. destruct o; cbn; try lia. pose proof (zlen_nonneg data). lia.
Qed.

Section Runs.
Context `{Decompressor} {F : Type} `{FileLaws F}.

Lemma run_ops_writing fixed ops : ∀ (w : Writer F) fs wr u w',
  writing fixed w fs wr → io_for run_op ops w = (inl u, w') →
  ∃ wr', writing fixed w' (spec_ops ops fs) wr'.
Proof.
  induction ops as [|o ops IH]; intros w fs wr u w' Hw Hr.
  - cbn in Hr. io_inv. by exists wr.
  - apply io_for_app_inl in Hr as (v & w1 & Ho & Hr). eapply run_op_writing in Ho as [wr1 Hw1]; [|done].
    by eapply IH.
Qed.

Lemma order_size fixed (w : Writer F) fs wr :
  writing fixed w fs wr → (length (w_entryOrder w) ≤ size fs)%nat.
Proof.
  intros Hw. rewrite <- length_map_to_list. rewrite <- (length_fmap fst).
  apply submseteq_length, NoDup_submseteq; [apply Hw|]. intros p Hp.
  apply (wi_order _ _ _ _ Hw) in Hp as [n Hn]. apply list_elem_of_fmap. exists (p, n).
  split; [done|]. by apply elem_of_map_to_list.
Qed.

(** ** The superblock *)

Lemma clamp32_fits sec : fits_in 4 (clamp32 sec).
Proof. unfold clamp32, fits_in. change (256 ^ Z.of_nat 4) with (2 ^ 32). repeat case_match; bool_prop; lia. Qed.

Lemma encode_ref_root r off :
  ref_ok r → 0 ≤ off < 2 ^ 48 →
  fits_in 8 (encode_ref r off) ∧ Z.shiftr (encode_ref r off) 16 = off ∧ Z.land (encode_ref r off) 0xffff = r_offset r.
Proof.
  unfold ref_ok. change MetadataBlockSize with 8192. intros Hr Ho. unfold encode_ref, wrap.
  rewrite Z.shiftl_mul_pow2, Z.mod_small, Z.lor_comm, lor_low_high by lia.
  unfold fits_in. change (256 ^ Z.of_nat 8) with (2 ^ 64). split; [lia|].
  change 0xffff with (Z.ones 16). rewrite Z.land_ones, Z.shiftr_div_pow2 by lia.
  split; Z.to_euclidean_division_equations; lia.
Qed.

Lemma final_superblock_ok (w : Writer F) t root ni nd nids nl k :
  0 ≤ k → w_blockSize w = 2 ^ k → w_blockSize w ≤ 2 ^ 20 →
  0 ≤ w_outPos w → 0 ≤ ni → 0 ≤ nd → 0 ≤ nids → 0 ≤ nl → w_outPos w + ni + nd + nids + nl < 2 ^ 48 →
  fits_in 8 (encode_ref (e_inodeRef root) (BlockByteOffset (r_blockIdx (e_inodeRef root)) (t_inodeMeta t))) →
  superblock_ok (final_superblock w t root ni nd nids nl).
Proof.
  intros Hk Hb Hb20 Hpos ??????.
  assert (k ≤ 20) by (rewrite Hb in Hb20; by apply Z.pow_le_mono_r_iff in Hb20).
  assert (Hlog : blockLogFor (w_blockSize w) = k) by (rewrite Hb; by apply blockLogFor_pow2).
  assert (Hbs : w_blockSize w = Z.shiftl 1 k) by (rewrite Z.shiftl_mul_pow2 by done; lia).
  split; cbn; rewrite ?Hlog; try done; unfold fits_in, totalInodeCount, imageMtime, Count, wrap;
    change (256 ^ Z.of_nat 8) with (2 ^ 64); change (256 ^ Z.of_nat 4) with (2 ^ 32); change (256 ^ Z.of_nat 2) with (2 ^ 16);
    try (apply Z.mod_pos_bound; lia); try lia.
  case_match; apply clamp32_fits.
Qed.

(** ** [Close] *)

(** The steps of a [Close] that succeeds. *)
Lemma Close_inl order (w : Writer F) u w' :
  Close order w = (inl u, w') →
  ∃ v w1 ents ids v' t, w_closed w = false ∧ flushCurFile w = (inl v, w1) ∧
    finish_entries order w1 = inl (ents, ids) ∧
    writeTables (w_mtime w1) (w_blockSize w1) (depth_fuel ents) (w_entryOrder w1)
      (mkTables ents newMetaWriter newMetaWriter) = (inl v', t) ∧
    emit_image t (set_entries (t_entries t) (set_ids ids (set_entries ents (set_closed true w1)))) = (inl u, w').
Proof.
  unfold Close. intros (cl & ? & [-> ->]%io_gets_inl & Hc)%io_bind_inl.
  destruct (w_closed w); [done|].
  apply io_bind_inl in Hc as (v & w1 & Hfl & Hc). apply io_bind_inl in Hc as (? & ? & [_ ->]%io_modify_inl & Hc).
  apply io_bind_inl in Hc as (? & ? & [-> ->]%io_gets_inl & Hc). cbn [id] in Hc.
  apply io_bind_inl in Hc as ([ents ids] & ? & [-> Hf]%lift_inl & Hc).
  apply io_bind_inl in Hc as (? & ? & [_ ->]%io_modify_inl & Hc).
  cbn [w_mtime w_blockSize w_entryOrder set_closed] in Hc.
  destruct (writeTables _ _ _ _ _) as [[v'|err] t] eqn:Ht; [|done].
  apply io_bind_inl in Hc as (? & ? & [_ ->]%io_modify_inl & Hc). by exists v, w1, ents, ids, v', t.
Qed.

Lemma with_root_lookup fixed fs p n :
  with_root fixed fs !! p = Some n →
  (p = root_path ∧ n = mkNode (mkAttrs [] 0x1ed 0 0 fixed) NDir) ∨ p ≠ root_path ∧ fs !! p = Some n.
Proof. unfold with_root. intros [[<- <-]|[? ?]]%lookup_insert_Some; [by left|by right]. Qed.

Lemma drop_superblock sb bytes junk x :
  superblockSize ≤ zlen bytes → superblockSize ≤ x →
  drop (Z.to_nat x) (encode_superblock sb ++ drop (Z.to_nat superblockSize) bytes ++ junk) =
    drop (Z.to_nat x) (bytes ++ junk).
Proof.
  intros Hb Hx. pose proof (zlen_encode_superblock sb) as Hz. unfold zlen in *.
  rewrite <- (drop_app_le _ junk), drop_app_ge, drop_drop by lia. f_equal. lia.
Qed.

(** The file system with its root, as the tables need it. *)
Record rooted (fs : filesystem) (order : list (list Z)) : Prop := {
  rt_folder : is_folder fs root_path;
  rt_links : ∀ p n l, fs !! p = Some n → n_body n = NLink l → ∃ n' d, fs !! l = Some n' ∧ n_body n' = NFile d;
  rt_ok : ∀ p n, fs !! p = Some n → node_ok n;
  rt_data : ∀ p n d, fs !! p = Some n → n_body n = NFile d → zlen d < 2 ^ 64;
  rt_order : ∀ c, c ∈ order ↔ is_Some (fs !! c) ∧ c ≠ root_path
}.

Lemma with_root_rooted fixed b (w : Writer F) fs wr :
  writing fixed w fs wr → sane b fs → b < 2 ^ 64 → rooted (with_root fixed fs) (w_entryOrder w).
Proof.
  intros Hw Hs Hb.
  assert (Hroot : fs !! root_path = None).
  { apply eq_None_not_Some. intros Hr. by apply (wi_valid _ _ _ _ Hw) in Hr. }
  split.
  - eexists. split; [apply lookup_insert_eq|done].
  - intros p n l [[_ ->]|[_ Hp]]%with_root_lookup Hl; [done|].
    destruct (wi_links _ _ _ _ Hw _ _ _ Hp Hl) as (n' & d & Hn' & Hd).
    exists n', d. split; [|done]. unfold with_root. rewrite lookup_insert_ne; congruence.
  - intros p n [[_ ->]|[_ Hp]]%with_root_lookup; [|by eapply Hs]. split_and!; cbn; try done; unfold fits_in; lia.
  - intros p n d [[_ ->]|[_ Hp]]%with_root_lookup Hd; [done|]. pose proof (sn_data _ _ Hs _ _ _ Hp Hd). lia.
  - intros c. rewrite (wi_order _ _ _ _ Hw). unfold with_root. split.
    + intros [n Hn]. assert (c ≠ root_path) as Hne by congruence. by rewrite lookup_insert_ne.
    + intros [Hc Hne]. by rewrite lookup_insert_ne in Hc.
Qed.

Lemma finished_ids wr fs order ids m : is_folder fs root_path → finished wr fs order ids m → id_list ids ≠ [].
Proof.
  intros (n & Hn & Hb) Hfd. destruct (fi_entry _ _ _ _ _ Hfd _ _ Hn) as (e & _ & _ & _ & _ & Ho).
  destruct Ho as [_ [Hl _]]; [by rewrite Hb|]. intros E. by rewrite E in Hl.
Qed.

(** An image with these tables. *)
Lemma image_stat fixed (w : Writer F) wr fs ids t S root idm pad junk img parts :
  let nids := zlen (id_list ids) in
  let bytes := image_body wr t idm nids pad in
  let sb := final_superblock w t root (zlen (emitted (t_inodeMeta t))) (zlen (emitted (t_dirMeta t)))
              (zlen (emitted idm)) (8 * Z.of_nat (batches nids)) in
  img = encode_superblock sb ++ drop (Z.to_nat superblockSize) bytes ++ junk →
  w_outPos w = zlen wr → superblockSize ≤ zlen wr → zlen bytes < 2 ^ 48 →
  2 ^ 12 ≤ w_blockSize w ≤ 2 ^ 20 → (∃ k, 0 ≤ k ∧ w_blockSize w = 2 ^ k) →
  NoDup (w_entryOrder w) → (∀ p, p ∈ w_entryOrder w → validatePath p = None) →
  rooted fs (w_entryOrder w) → (∀ p, p ∈ w_entryOrder w → is_folder fs (Dir p)) → id_list ids ≠ [] →
  represented fixed (w_blockSize w) wr fs (w_entryOrder w) ids (t_inodeMeta t) (t_dirMeta t) S →
  mw_cur (t_inodeMeta t) = [] → mw_cur (t_dirMeta t) = [] →
  Forall block_ok (mw_blocks (t_inodeMeta t)) → Forall block_ok (mw_blocks (t_dirMeta t)) →
  Forall block_ok (mw_blocks idm) → mw_cur idm = [] →
  (∀ i id, id_list ids !! i = Some id →
    at_ref idm (mkRef (Z.to_nat (Z.of_nat i / idsPerMetaBlock)) (4 * (Z.of_nat i mod idsPerMetaBlock)))
      (le_bytes 4 id)) →
  S (e_inodeRef root) root_path → Forall good_part parts →
  stat img parts = fs_view fixed fs (path_of parts).
Proof.
  intros nids bytes sb Himg Hpos Hsup Hsmall Hbs (lg & Hlg & Hpow) Hnd Hval Hrt Hpar Hids Hrep Hci Hcd Hbi Hbd Hbid Hcid
    Hat HS Hg.
  pose proof (zlen_body wr ids t idm pad) as Hz. change (SquashImage.body wr ids t idm pad) with bytes in Hz.
  unfold im, dm in Hz. fold nids in Hz.
  destruct (Hrep _ _ HS) as (_ & _ & _ & _ & _ & _ & _ & _ & _ & _ & _ & _ & Hrr & _).
  pose proof (zlen_nonneg (emitted (t_inodeMeta t))). pose proof (zlen_nonneg (emitted (t_dirMeta t))).
  pose proof (zlen_nonneg (emitted idm)). pose proof (zlen_nonneg pad). pose proof (zlen_nonneg wr).
  destruct (encode_ref_root (e_inodeRef root) (BlockByteOffset (r_blockIdx (e_inodeRef root)) (t_inodeMeta t)))
    as (Hfit & Hblk & Hoff); [done| |].
  { pose proof (BlockByteOffset_nonneg (r_blockIdx (e_inodeRef root)) (t_inodeMeta t)).
    pose proof (BlockByteOffset_le (r_blockIdx (e_inodeRef root)) (t_inodeMeta t)). lia. }
  assert (Hsb : superblock_ok sb).
  { eapply final_superblock_ok; [exact Hlg|done|apply Hbs|..]; try done; rewrite ?Hpos; try lia. }
  unfold stat. rewrite Himg at 1. rewrite parse_encode_superblock by done. cbn [mbind option_bind].
  change (sb_rootInodeRef sb) with
    (encode_ref (e_inodeRef root) (BlockByteOffset (r_blockIdx (e_inodeRef root)) (t_inodeMeta t))).
  rewrite Hblk, Hoff.
  eapply (stat_from fixed (w_blockSize w) wr fs (w_entryOrder w) ids t idm pad junk _ sb S); try done; try apply Hrt.
  - destruct (id_list ids); [done|]. rewrite zlen_cons. pose proof (zlen_nonneg l). lia.
  - lia.
  - intros x Hx. rewrite Himg. apply (drop_superblock sb bytes); [lia|done].
  - cbn. rewrite Hpos. done.
  - cbn. rewrite Hpos. done.
Qed.

Lemma Close_stat fixed order b (w : Writer F) fs wr u w' parts :
  writing fixed w fs wr → sane b fs → Z.of_nat (size fs) ≤ 2 ^ 23 → b < 2 ^ 64 →
  Close order w = (inl u, w') → zlen (contents (w_out w')) < 2 ^ 48 → Forall good_part parts →
  stat (contents (w_out w')) parts = fs_view fixed (with_root fixed fs) (path_of parts).
Proof.
  intros Hw Hs Hk Hb Hc Hsmall Hg.
  apply Close_inl in Hc as (v & w1 & m & ids & v' & t & _ & Hfl & Hfin & Htab & Hemit).
  apply (flushCurFile_writing _ _ _ _ _ _ Hw) in Hfl as (wr1 & Hw1 & Hcur). pose proof Hw1 as [].
  rewrite wi_mtime in Htab. pose proof (with_root_rooted _ _ _ _ _ Hw1 Hs Hb) as Hrt.
  assert (Hfd : finished wr1 (with_root fixed fs) (w_entryOrder w1) ids m).
  { rewrite <- wi_mtime in Hw1 |- *. by eapply finish_entries_spec. }
  pose proof (order_size _ _ _ _ Hw1) as Hlen.
  eapply writeTables_spec in Htab as (S & Hrep & Hci & Hcd & Hbi & Hbd & root & Hre & HS);
    [|apply Hrt|unfold zlen; lia|apply Hrt|apply Hrt|exact Hfd].
  assert (Hids : id_list ids ≠ []) by (eapply finished_ids; [apply Hrt|exact Hfd]).
  apply (emit_image_spec _ _ wr1) in Hemit as (idm & pad & junk & root' & Hre' & Hbid & Hcid & Hat & Himg & Hend); try done.
  assert (root' = root) as -> by congruence. cbn [w_ids set_entries set_ids] in *.
  eapply (image_stat fixed _ wr1 _ ids t S root idm pad junk _ _ Himg); try done.
  - rewrite Himg, !zlen_app, zlen_encode_superblock in Hsmall. pose proof (zlen_nonneg junk).
    unfold zlen in *. rewrite length_drop in Hsmall. change superblockSize with 96 in *. lia.
  - intros p Hp. by apply wi_valid, wi_order.
  - apply Hfd.
Qed.

Lemma ops_stat fixed (w0 : Writer F) wr ops u1 w1 order u2 w2 parts :
  writing fixed w0 ∅ wr → io_for run_op ops w0 = (inl u1, w1) → Close order w1 = (inl u2, w2) →
  Forall op_ok ops → Z.of_nat (size (spec_ops ops ∅)) ≤ 2 ^ 23 → total_bytes ops < 2 ^ 64 →
  zlen (contents (w_out w2)) < 2 ^ 48 → Forall good_part parts →
  stat (contents (w_out w2)) parts = fs_view fixed (with_root fixed (spec_ops ops ∅)) (path_of parts).
Proof.
  intros Hw Hr Hc Ho Hlen Hb Hsmall Hg. eapply run_ops_writing in Hr as [wr1 Hw1]; [|exact Hw].
  eapply (Close_stat _ _ (0 + total_bytes ops)); try done.
  apply spec_ops_sane; [done..|]. split; intros p n; by rewrite lookup_empty.
Qed.

(** C22: The round trip of the squashfs writer.  Take a new writer, any sequence of calls
    of its API that succeed ([CreateFile], [Write] on a file, [CreateDir],
    [CreateSymlink], [CreateHardlink], device nodes, FIFOs and sockets), and a [Close]
    that succeeds, whatever order Go's map iteration takes.  Then following the format
    from the superblock of the image, through the inode table, the directory table, the
    identifier table and the data blocks, shows at every path what the calls put there:
    the permissions, the owner and group, the modification time, the contents of files
    (also through hard links), the targets of symbolic links, the numbers of devices and
    the sorted names in each directory; other paths do not exist.  Of the
    compressor it is assumed that the decompressor inverts it, that it never returns an
    empty output and that its number fits 16 bits; the output file may fail at any call.
    Limits: 2^23 entries, images of less than 2^48 bytes. *)
Theorem image_reads_back opts f0 w0 ops u1 w1 order u2 (w2 : Writer F) parts :
  NewWriter opts f0 = inl w0 →
  io_for run_op ops w0 = (inl u1, w1) →
  Close order w1 = (inl u2, w2) →
  Forall op_ok ops → Z.of_nat (size (spec_ops ops ∅)) ≤ 2 ^ 23 → total_bytes ops < 2 ^ 64 →
  zlen (contents (w_out w2)) < 2 ^ 48 → Forall good_part parts →
  stat (contents (w_out w2)) parts =
    fs_view (w_mtime w0) (with_root (w_mtime w0) (spec_ops ops ∅)) (path_of parts).
Proof. intros [Hw _]%NewWriter_writing. by eapply ops_stat. Qed.
End Runs.

Section Totality.
Context `{Decompressor} {F : Type} `{FileLaws F}.

Lemma run_ops_error fixed ops : ∀ (w : Writer F) fs wr e w',
  writing fixed w fs wr → io_for run_op ops w = (inr e, w') → proper e.
Proof.
  induction ops as [|o ops IH]; intros w fs wr e w' Hw Hr; cbn [io_for] in Hr; [done|].
  unfold io_bind in Hr. destruct (run_op o w) as [[u|e'] w1] eqn:Ho.
  - eapply run_op_writing in Ho as [wr1 Hw1]; [|done]. by eapply IH.
  - injection Hr as -> ->. by eapply run_op_error.
Qed.

(** C23: The writer does not panic and its loops end.  From a new writer, a sequence of
    calls and [Close] either succeed, and then the image is complete, or return an error
    of the package, the compressor or the output file: no nil pointer is followed, no loop
    is cut short by the fuel the model gives it, whatever the calls and their arguments. *)
Theorem writer_total opts (f0 : F) w0 ops order :
  NewWriter opts f0 = inl w0 →
  match io_for run_op ops w0 with
  | (inr e, _) => proper e
  | (inl _, w1) =>
      match Close order w1 with
      | (inr e, _) => proper e
      | (inl _, w2) => w_finished w2 = true
      end
  end.
Proof.
  intros Hn. apply NewWriter_writing in Hn as [Hw _].
  destruct (io_for run_op ops w0) as [[u|e] w1] eqn:E; [|by eapply run_ops_error].
  eapply run_ops_writing in E as [wr1 Hw1]; [|done]. by eapply Close_safe.
Qed.
End Totality.

(** ** An image *)

(** The root with a directory [/a] and a file [/a/f] that holds two bytes. *)
Definition demo_attrs (p : list Z) : Attrs := mkAttrs p 0x1a4 5 7 (Some 9).
Definition demo_ops : list op :=
  [OpDir (demo_attrs [47; 97]); OpFile (demo_attrs [47; 97; 47; 102]); OpWrite [47; 97; 47; 102] [104; 105]].
Definition demo_start : Writer mem_file :=
  match NewWriter [WithCompressor true] (mkMem [] 0) with
  | inl w => w
  | inr _ => mkWriter (mkMem [] 0) 0 None false false 0 ∅ [] None newIDTable
  end.
Definition demo_order : list (list Z) := [[47]; [47; 97; 47; 102]; [47; 97]].
Definition demo_written : Writer mem_file := snd (io_for run_op demo_ops demo_start).
Definition demo_closed : Writer mem_file := snd (Close demo_order demo_written).

Lemma pair_snd {A B} (x : A * B) a : fst x = a → x = (a, snd x).
Proof. by destruct x; intros <-. Qed.

Lemma demo_runs : io_for run_op demo_ops demo_start = (inl tt, demo_written).
Proof. unfold demo_written. apply (pair_snd (io_for run_op demo_ops demo_start)). vm_compute. reflexivity. Qed.

Lemma demo_closes : Close demo_order demo_written = (inl tt, demo_closed).
Proof. unfold demo_closed. apply (pair_snd (Close demo_order demo_written)). vm_compute. reflexivity. Qed.

Lemma image_reads_back_witness :
  stat (contents (w_out demo_closed)) [[97]; [102]] = Some (mkView 0x1a4 5 7 9 (VFile [104; 105])).
Proof.
  rewrite (image_reads_back [WithCompressor true] (mkMem [] 0) demo_start demo_ops tt demo_written demo_order tt demo_closed
    [[97]; [102]]).
  - vm_compute. reflexivity.
  - reflexivity.
  - exact demo_runs.
  - exact demo_closes.
  - repeat (constructor; [vm_compute; repeat split; try discriminate|]). constructor.
  - vm_compute. discriminate.
  - reflexivity.
  - vm_compute. reflexivity.
  - repeat (constructor; [split; [discriminate|by apply (bool_decide_unpack _)]|]). constructor.
Defined.

Lemma writer_total_witness :
  match io_for run_op demo_ops demo_start with
  | (inr e, _) => proper e
  | (inl _, w1) =>
      match Close demo_order w1 with
      | (inr e, _) => proper e
      | (inl _, w2) => w_finished w2 = true
      end
  end.
Proof. exact (writer_total [WithCompressor true] (mkMem [] 0) demo_start demo_ops demo_order eq_refl). Defined.
