(* ===== verification/Rootfs.v ===== *)
(** * Root file systems of guests

    [internal/image/rootfs.go]: the names of cached images, and [buildSquashfs], which
    turns the tar of an OCI image into a squashfs image with the init agent and the
    mount points the guest needs.  The tar reader is the list of entries it returns,
    each with the portions its [Read] calls give; [os.Create] and [Close] of the output
    file are arguments.  Strings are lists of bytes. *)
From S2P Require Import Prelude GoSort SquashFormat SquashMeta SquashDir SquashWriter SquashFiles SquashTree SquashImage SquashTheorems.
From stdpp Require Import strings.
#[local] Open Scope Z_scope.

Fixpoint bytes_of (s : string) : list Z :=
  match s with
  | EmptyString => []
  | String a s => Z.of_nat (Ascii.nat_of_ascii a) :: bytes_of s
  end.

(** ** Strings *)

(** [strings.HasPrefix], [TrimPrefix], [HasSuffix], [TrimSuffix]. *)
Definition HasPrefix (s pre : list Z) : bool := bool_decide (take (length pre) s = pre).
Definition TrimPrefix (s pre : list Z) : list Z := if HasPrefix s pre then drop (length pre) s else s.
Definition HasSuffix (s suf : list Z) : bool :=
  (length suf <=? length s)%nat && bool_decide (drop (length s - length suf) s = suf).
Definition TrimSuffix (s suf : list Z) : list Z :=
  if HasSuffix s suf then take (length s - length suf) s else s.

(** [strings.IndexByte]. *)
Fixpoint IndexByte (s : list Z) (c : Z) : option nat :=
  match s with
  | [] => None
  | x :: s => if x =? c then Some O else S <$> IndexByte s c
  end.

(** ** Names of cached images *)

Definition dash : Z := 45.
Definition colon : Z := 58.
Definition rootfsSuffix : list Z := Eval cbv in bytes_of ".sqsh".
Definition sha256 : list Z := Eval cbv in bytes_of "sha256".

Definition splitDigest (s : list Z) : option (list Z * list Z) :=
  match s with
  | [] => None
  | _ =>
      match IndexByte s colon with
      | Some i =>
          if (i =? 0)%nat || (i =? length s - 1)%nat then None
          else Some (take i s, drop (S i) s)
      | None => Some (sha256, s)
      end
  end.

Definition encodeRootfsName (digest : list Z) : option (list Z) :=
  match splitDigest digest with
  | None => None
  | Some (algo, hex) => Some (algo ++ [dash] ++ hex ++ rootfsSuffix)
  end.

Definition decodeRootfsName (name : list Z) : option (list Z) :=
  if negb (HasSuffix name rootfsSuffix) then None
  else
    let stem := TrimSuffix name rootfsSuffix in
    match IndexByte stem dash with
    | None => None
    | Some i =>
        if (i =? 0)%nat || (i =? length stem - 1)%nat then None
        else Some (take i stem ++ [colon] ++ drop (S i) stem)
    end.

(** ** The tar of an image *)

Record tar_header := mkHeader {
  h_Name : list Z;
  h_Typeflag : Z;
  h_Size : Z;
  h_Mode : Z;
  h_Uid : Z;
  h_Gid : Z;
  h_ModTime : option Z;
  h_Linkname : list Z;
  h_Devmajor : Z;
  h_Devminor : Z
}.

(** An entry: the portions of its contents, and the error that reading ends with, if it
    does not end at the end of the entry. *)
Record tar_entry := mkTarEntry {
  t_header : tar_header;
  t_reads : list (list Z);
  t_fail : option (list Z)
}.

(** The stream: entries, and the error of the last [Next] unless it is [io.EOF]. *)
Record tar_stream := mkTar { ts_entries : list tar_entry; ts_fail : option (list Z) }.

Definition TypeReg : Z := 48.
Definition TypeRegA : Z := 0.
Definition TypeLink : Z := 49.
Definition TypeSymlink : Z := 50.
Definition TypeChar : Z := 51.
Definition TypeBlock : Z := 52.
Definition TypeDir : Z := 53.
Definition TypeFifo : Z := 54.

Definition maxTarTotalBytes : Z := Z.shiftl 16 30.
Definition maxTarEntryCount : Z := Z.shiftl 1 20.

Definition InstallDir : list Z := Eval cbv in bytes_of "/.craftling".
Definition InitPath : list Z := Eval cbv in bytes_of "/.craftling/init".
Definition tmp_path : list Z := Eval cbv in bytes_of "/tmp".
Definition standardMountpoints : list (list Z) :=
  Eval cbv in map bytes_of ["/proc"; "/sys"; "/dev"; "/tmp"; "/run"]%string.

Inductive build_error : Type :=
| ErrCreateOut (msg : list Z) | ErrCloseOut (msg : list Z)
| ErrSquashfs (e : sq_error)
| ErrTarHeader (msg : list Z)
| ErrTarEntryCountExceeded | ErrTarTotalBytesExceeded
| ErrTarName (name : list Z)
| ErrCopy (msg : list Z)
| ErrSymlinkTarget | ErrLinkTarget.

(** [None] is a name that is refused, [Some []] the root of the archive. *)
Definition normalizeTarPath (name : list Z) : option (list Z) :=
  if bool_decide (name = []) || bool_decide (0 ∈ name) then None
  else if bool_decide (name = [dot] ∨ name = [slash] ∨ name = [dot; slash]) then Some []
  else
    let name := TrimPrefix name [dot; slash] in
    if HasPrefix name [slash] then None
    else
      let name := TrimSuffix name [slash] in
      if bool_decide (name = []) then None
      else if existsb bad_part (split_slash name) then None
      else Some (slash :: name).

(** The loop of [ensureAncestors] that collects the directories above [cur], [cur]
    included; every round shortens [cur]. *)
Fixpoint ancestors (fuel : nat) (cur : list Z) (acc : list (list Z)) : list (list Z) :=
  match fuel with
  | O => acc
  | S fuel =>
      if bool_decide (cur = root_path ∨ cur = [dot]) then acc
      else ancestors fuel (Dir cur) (cur :: acc)
  end.

Definition reserved (p : list Z) : bool :=
  bool_decide (p = InstallDir) || HasPrefix p (InstallDir ++ [slash]).

(** ** The builder *)

Section Builder.
Context `{Compressor} {F : Type} `{WriteSeeker F}.

(** The writer and the map [created]. *)
Definition bld (A : Type) : Type := fallible build_error (Writer F * gset (list Z)) A.

(** A call of the writer. *)
Definition writer_call {A} (m : io (Writer F) A) : bld A := λ '(w, created),
  match m w with
  | (inl a, w) => (inl a, (w, created))
  | (inr e, w) => (inr (ErrSquashfs e), (w, created))
  end.

Definition is_created (p : list Z) : bld bool := io_gets (λ '(_, created), bool_decide (p ∈ created)).
Definition mark_created (p : list Z) : bld unit := io_modify (λ '(w, created), (w, {[p]} ∪ created)).

(** [CreateDir] of a directory that the image does not describe. *)
Definition make_dir (p : list Z) (mode : Z) : bld unit :=
  io* _ := writer_call (CreateDir (mkAttrs p mode 0 0 None)) in
  mark_created p.

Definition ensureAncestors (p : list Z) : bld unit :=
  let parent := Dir p in
  if bool_decide (parent = root_path ∨ parent = [dot]) then io_ret tt
  else
    io_for (λ a,
      io* c := is_created a in
      if c : bool then io_ret tt else make_dir a 0x1ed) (ancestors (length p) parent []).

(** [io.Copy] of an [io.LimitReader] into a file of the image; an empty portion is not
    written. *)
Fixpoint copy_limited (file : list Z) (limit : Z) (reads : list (list Z)) (fail : option (list Z)) : bld Z :=
  if limit <=? 0 then io_ret 0
  else
    match reads with
    | [] => match fail with Some msg => io_fail (ErrCopy msg) | None => io_ret 0 end
    | d :: reads =>
        let d := take (Z.to_nat (limit `min` zlen d)) d in
        io* n := (if bool_decide (d = []) then io_ret 0 else writer_call (FileWrite file d)) in
        io* rest := copy_limited file (limit - n) reads fail in
        io_ret (n + rest)
    end.

Definition attrs_of (h : tar_header) (p : list Z) : Attrs :=
  mkAttrs p (Z.land (wrap 32 (h_Mode h)) 0x1ff) (wrap 32 (h_Uid h)) (wrap 32 (h_Gid h)) (h_ModTime h).

(** The [switch] over the type of an entry: the bytes it added, or [None] where the loop
    continues without an entry. *)
Definition create_entry (total : Z) (p : list Z) (t : tar_entry) : bld (option Z) :=
  let h := t_header t in
  let attrs := attrs_of h p in
  let typ := h_Typeflag h in
  if (typ =? TypeReg) || (typ =? TypeRegA) then
    io* fw := writer_call (CreateFile attrs) in
    let remaining := maxTarTotalBytes - total in
    io* n := copy_limited fw (remaining + 1) (t_reads t) (t_fail t) in
    if remaining <? n then io_fail ErrTarTotalBytesExceeded else io_ret (Some n)
  else if typ =? TypeDir then
    io* _ := writer_call (CreateDir attrs) in io_ret (Some 0)
  else if typ =? TypeSymlink then
    if bool_decide (h_Linkname h = []) then io_fail ErrSymlinkTarget
    else io* _ := writer_call (CreateSymlink attrs (h_Linkname h)) in io_ret (Some 0)
  else if typ =? TypeLink then
    match normalizeTarPath (h_Linkname h) with
    | None | Some [] => io_fail ErrLinkTarget
    | Some target => io* _ := writer_call (CreateHardlink p target) in io_ret (Some 0)
    end
  else if typ =? TypeChar then
    io* _ := writer_call (CreateCharDevice attrs (wrap 32 (h_Devmajor h)) (wrap 32 (h_Devminor h))) in io_ret (Some 0)
  else if typ =? TypeBlock then
    io* _ := writer_call (CreateBlockDevice attrs (wrap 32 (h_Devmajor h)) (wrap 32 (h_Devminor h))) in io_ret (Some 0)
  else if typ =? TypeFifo then
    io* _ := writer_call (CreateFIFO attrs) in io_ret (Some 0)
  else io_ret None.

(** One entry after the checks of count and size: the bytes it added. *)
Definition stream_entry (total : Z) (t : tar_entry) : bld Z :=
  match normalizeTarPath (h_Name (t_header t)) with
  | None => io_fail (ErrTarName (h_Name (t_header t)))
  | Some [] => io_ret 0
  | Some p =>
      if reserved p then io_ret 0
      else
        io* c := is_created p in
        if c : bool then io_ret 0
        else
          io* _ := ensureAncestors p in
          io* n := create_entry total p t in
          match n with
          | None => io_ret 0
          | Some n => io* _ := mark_created p in io_ret n
          end
  end.

Fixpoint stream_loop (entryCount totalBytes : Z) (l : list tar_entry) (fail : option (list Z)) : bld unit :=
  match l with
  | [] => match fail with None => io_ret tt | Some msg => io_fail (ErrTarHeader msg) end
  | t :: l =>
      let entryCount := entryCount + 1 in
      let size := h_Size (t_header t) in
      if maxTarEntryCount <? entryCount then io_fail ErrTarEntryCountExceeded
      else if (0 <? size) && (maxTarTotalBytes - totalBytes <? size) then io_fail ErrTarTotalBytesExceeded
      else
        io* n := stream_entry totalBytes t in
        stream_loop entryCount (totalBytes + n) l fail
  end.

Definition streamTarToSquashfs (tr : tar_stream) : bld unit := stream_loop 0 0 (ts_entries tr) (ts_fail tr).

(** [io.Copy] of a [bytes.Reader] writes once, and not at all when there is nothing. *)
Definition injectInit (initBin : list Z) : bld unit :=
  io* c := is_created InstallDir in
  io* _ := (if c : bool then io_ret tt else make_dir InstallDir 0x1ed) in
  io* fw := writer_call (CreateFile (mkAttrs InitPath 0x1ed 0 0 None)) in
  io* _ := (if bool_decide (initBin = []) then io_ret 0 else writer_call (FileWrite fw initBin)) in
  mark_created InitPath.

Definition ensureStandardMountpoints : bld unit :=
  io_for (λ p,
    io* c := is_created p in
    if c : bool then io_ret tt
    else make_dir p (if bool_decide (p = tmp_path) then 0x3ff else 0x1ed)) standardMountpoints.

(** The result is the file that is left, [order] the order of Go's map iteration in
    [Close] of the writer. *)
Definition buildSquashfs (tarStream : tar_stream) (initBin : list Z) (order : list (list Z))
    (created_out : F + list Z) (close_out : option (list Z)) : F + build_error :=
  match created_out with
  | inr msg => inr (ErrCreateOut msg)
  | inl out =>
      match NewWriter [WithCompressor true] out with
      | inr e => inr (ErrSquashfs e)
      | inl w =>
          let build :=
            io* _ := streamTarToSquashfs tarStream in
            io* _ := injectInit initBin in
            io* _ := ensureStandardMountpoints in
            writer_call (Close order) in
          match build (w, ∅) with
          | (inr e, _) => inr e
          | (inl _, (w, _)) => match close_out with Some msg => inr (ErrCloseOut msg) | None => inl (w_out w) end
          end
      end
  end.
End Builder.

(** ** What the image should hold *)

Definition dir_node (p : list Z) (mode : Z) : node := mkNode (mkAttrs p mode 0 0 None) NDir.

(** [mkdir] unless something is there. *)
Definition ensure_dir (mode : list Z → Z) (fs : filesystem) (p : list Z) : filesystem :=
  match fs !! p with Some _ => fs | None => <[p := dir_node p (mode p)]> fs end.

(** The directories above a path, the root apart, from the top. *)
Definition above (p : list Z) : list (list Z) :=
  map (λ k, path_of (take k (components p))) (seq 1 (length (components p) - 1)).

(** The node that an entry of the tar describes; other types of entries have none. *)
Definition tar_node (p : list Z) (t : tar_entry) : option node :=
  let h := t_header t in
  let own body := Some (mkNode (attrs_of h p) body) in
  let typ := h_Typeflag h in
  if (typ =? TypeReg) || (typ =? TypeRegA) then own (NFile (concat (t_reads t)))
  else if typ =? TypeDir then own NDir
  else if typ =? TypeSymlink then own (NSymlink (h_Linkname h))
  else if typ =? TypeLink then
    target ← normalizeTarPath (h_Linkname h); Some (mkNode no_attrs (NLink target))
  else if typ =? TypeChar then own (NDevice false (wrap 32 (h_Devmajor h)) (wrap 32 (h_Devminor h)))
  else if typ =? TypeBlock then own (NDevice true (wrap 32 (h_Devmajor h)) (wrap 32 (h_Devminor h)))
  else if typ =? TypeFifo then own (NIpc false)
  else None.

(** The first entry of a path counts; the directories above it exist. *)
Definition add_entry_of (fs : filesystem) (t : tar_entry) : filesystem :=
  match normalizeTarPath (h_Name (t_header t)) with
  | None | Some [] => fs
  | Some p =>
      if reserved p then fs
      else
        match fs !! p with
        | Some _ => fs
        | None =>
            let fs := foldl (ensure_dir (λ _, 0x1ed)) fs (above p) in
            match tar_node p t with Some n => <[p := n]> fs | None => fs end
        end
  end.

Definition tar_fs (tr : tar_stream) : filesystem := foldl add_entry_of ∅ (ts_entries tr).

Definition init_node (initBin : list Z) : node := mkNode (mkAttrs InitPath 0x1ed 0 0 None) (NFile initBin).

Definition with_init (initBin : list Z) (fs : filesystem) : filesystem :=
  <[InitPath := init_node initBin]> (ensure_dir (λ _, 0x1ed) fs InstallDir).

Definition mount_mode (p : list Z) : Z := if bool_decide (p = tmp_path) then 0x3ff else 0x1ed.

Definition rootfs_of (tr : tar_stream) (initBin : list Z) : filesystem :=
  foldl (ensure_dir mount_mode) (with_init initBin (tar_fs tr)) standardMountpoints.

(** ** Paths *)

Lemma split_slash_nonempty p : split_slash p ≠ [].
Proof. intros E. pose proof (split_slash_join p) as Hj. by rewrite E in Hj. Qed.

Lemma split_slash_app k l : split_slash (k ++ slash :: l) = split_slash k ++ split_slash l.
Proof.
  induction k as [|x k IH]; [done|]. cbn [app split_slash]. rewrite IH. destruct (x =? slash); [done|].
  pose proof (split_slash_nonempty k). by destruct (split_slash k).
Qed.

(** A name is refused or becomes a path of the writer. *)
Lemma normalize_valid name p : normalizeTarPath name = Some p → p = [] ∨ validatePath p = None.
Proof.
  unfold normalizeTarPath. destruct (_ || _); [done|]. case_bool_decide; [intros; simplify_eq; by left|].
  cbv zeta. destruct (HasPrefix (TrimPrefix _ _) _); [done|]. set (n := TrimSuffix _ _). case_bool_decide as Hn; [done|].
  destruct (existsb bad_part (split_slash n)) eqn:Hb; [done|]. intros Hp. injection Hp as <-. right.
  unfold validatePath. rewrite bool_decide_eq_false_2 by (intros [?|[= ?]]; done).
  rewrite bool_decide_eq_true_2 by done. cbn [negb tail]. rewrite Hb.
  rewrite bool_decide_eq_false_2; [done|]. intros Hl.
  destruct n as [|y k _] using rev_ind; [done|]. rewrite app_comm_cons, last_snoc in Hl. injection Hl as ->.
  rewrite split_slash_app, existsb_app in Hb. apply orb_false_iff in Hb as [_ Hb]. done.
Qed.

(** The loop over the directories above a path finds them all, from the top. *)
Lemma ancestors_above_go fuel parts acc :
  (length parts < fuel)%nat → Forall good_part parts →
  ancestors fuel (path_of parts) acc = map (λ k, path_of (take k parts)) (seq 1 (length parts)) ++ acc.
Proof.
  revert parts acc. induction fuel as [|fuel IH]; intros parts acc Hf Hg; [lia|]. cbn [ancestors].
  destruct parts as [|c parts _] using rev_ind; [done|].
  rewrite bool_decide_eq_false_2.
  - destruct (Dir_Base_snoc parts c Hg) as [-> _]. rewrite length_app in Hf |- *. cbn [length] in *.
    rewrite IH; [|lia|by apply Forall_app in Hg as [? _]].
    rewrite Nat.add_1_r, seq_S, map_app, <- app_assoc. cbn [map app]. f_equal.
    + apply map_ext_in. intros k Hk%in_seq. by rewrite take_app_le by lia.
    + f_equal. rewrite take_ge; [done|]. rewrite length_app. cbn. lia.
  - intros [E|E].
    + by apply path_of_snoc_root in E.
    + destruct parts; discriminate E.
Qed.

Lemma length_path_of parts : (length parts ≤ length (path_of parts))%nat.
Proof.
  destruct parts as [|c parts]; [cbn; lia|]. unfold path_of. induction (c :: parts) as [|d l IH]; [done|].
  cbn [map concat length]. rewrite length_app. cbn. lia.
Qed.

Lemma ancestors_above p : validatePath p = None → ancestors (length p) (Dir p) [] = above p.
Proof.
  intros (parts & Hne & Hg & ->)%validatePath_parts. unfold above. rewrite components_path_of by done.
  destruct parts as [|c parts _] using rev_ind; [done|]. destruct (Dir_Base_snoc parts c Hg) as [-> _].
  rewrite ancestors_above_go; [|pose proof (length_path_of (parts ++ [c])); rewrite length_app in *; cbn in *; lia|
    by apply Forall_app in Hg as [? _]].
  rewrite app_nil_r, length_app. cbn [length]. rewrite Nat.add_sub.
  apply map_ext_in. intros k Hk%in_seq. by rewrite take_app_le by lia.
Qed.

(** ** The reserved directory *)

Lemma HasPrefix_spec s pre : HasPrefix s pre = true ↔ pre `prefix_of` s.
Proof.
  unfold HasPrefix. rewrite bool_decide_eq_true. split.
  - intros E. exists (drop (length pre) s). by rewrite <- E at 1; rewrite take_drop.
  - intros [k ->]. by rewrite take_app_length.
Qed.

Lemma reserved_spec p : reserved p = true ↔ p = InstallDir ∨ InstallDir ++ [slash] `prefix_of` p.
Proof. unfold reserved. by rewrite orb_true_iff, bool_decide_eq_true, HasPrefix_spec. Qed.

Lemma reserved_below p q : reserved p = true → reserved (p ++ slash :: q) = true.
Proof.
  rewrite !reserved_spec. intros [->|[k ->]]; right.
  - exists q. by rewrite <- app_assoc.
  - exists (k ++ slash :: q). by rewrite <- app_assoc.
Qed.

Lemma path_of_app l c l' : l ≠ [] → path_of (l ++ c :: l') = path_of l ++ slash :: (c ++ concat (map (cons slash) l')).
Proof.
  intros Hl. unfold path_of. destruct l as [|a l]; [done|]. cbn [app]. rewrite app_comm_cons, map_app, concat_app.
  cbn [map concat]. by rewrite app_comm_cons.
Qed.

Lemma take_path_reserved parts k :
  (1 ≤ k < length parts)%nat → reserved (path_of (take k parts)) = true → reserved (path_of parts) = true.
Proof.
  intros Hk Hr. rewrite <- (take_drop k parts). destruct (drop k parts) as [|c l] eqn:Ed.
  { apply (f_equal length) in Ed. rewrite length_drop in Ed. cbn in Ed. lia. }
  rewrite path_of_app; [by apply reserved_below|]. intros E. apply (f_equal length) in E.
  rewrite length_take in E. cbn in E. lia.
Qed.

(** A path of the image's own: canonical, and not in the reserved directory. *)
Definition own_path (p : list Z) : Prop :=
  reserved p = false ∧ ∃ parts, parts ≠ [] ∧ Forall good_part parts ∧ p = path_of parts.

Lemma above_own p q : own_path p → q ∈ above p → own_path q.
Proof.
  intros [Hr (parts & Hne & Hg & ->)]. unfold above. rewrite components_path_of by done.
  rewrite list_elem_of_fmap. intros (k & -> & Hk). rewrite elem_of_seq in Hk. split.
  - apply not_true_iff_false. intros Hk'. apply take_path_reserved in Hk'; [congruence|lia].
  - exists (take k parts). split; [|split; [by apply Forall_take|done]].
    intros E. apply (f_equal length) in E. rewrite length_take in E. destruct parts; [done|]. cbn in *. lia.
Qed.

Lemma ensure_dir_dom mode (P : list Z → Prop) fs p :
  P p → (∀ q, is_Some (fs !! q) → P q) → ∀ q, is_Some (ensure_dir mode fs p !! q) → P q.
Proof.
  intros Hp Hfs q. unfold ensure_dir. destruct (fs !! p); [apply Hfs|].
  intros [<-|[_ ?]]%lookup_insert_is_Some; [done|by apply Hfs].
Qed.

Lemma ensure_dirs_dom mode (P : list Z → Prop) l : ∀ fs,
  (∀ p, p ∈ l → P p) → (∀ q, is_Some (fs !! q) → P q) → ∀ q, is_Some (foldl (ensure_dir mode) fs l !! q) → P q.
Proof.
  induction l as [|p l IH]; intros fs Hl Hfs; [done|]. cbn [foldl]. apply IH.
  - intros q Hq. apply Hl. by right.
  - apply ensure_dir_dom; [apply Hl; by left|done].
Qed.

(** Whatever the tar holds, its paths are canonical and outside the reserved directory. *)
Lemma tar_fs_own tr p : is_Some (tar_fs tr !! p) → own_path p.
Proof.
  revert p. unfold tar_fs. assert (Hbase : ∀ p, is_Some ((∅ : filesystem) !! p) → own_path p) by
    (intros p; rewrite lookup_empty; by intros [? ?]).
  revert Hbase. generalize (∅ : filesystem). induction (ts_entries tr) as [|t l IH]; intros fs Hfs; [done|].
  cbn [foldl]. apply IH. clear IH l. unfold add_entry_of.
  destruct (normalizeTarPath _) as [p|] eqn:Hp; [|done]. apply normalize_valid in Hp as [->|Hv]; [done|].
  destruct p as [|c q]; [done|]. set (p := c :: q) in *. destruct (reserved p) eqn:Hr; [done|].
  assert (Hown : own_path p) by (split; [done|by apply validatePath_parts]).
  destruct (fs !! p); [done|].
  assert (Hab : ∀ q, is_Some (foldl (ensure_dir (λ _, 0x1ed)) fs (above p) !! q) → own_path q).
  { apply ensure_dirs_dom; [|done]. intros a. by apply above_own. }
  destruct (tar_node p t); [|done]. intros q' [<-|[_ ?]]%lookup_insert_is_Some; [done|by apply Hab].
Qed.

(** *** Directories that are made where nothing is *)

Lemma ensure_dirs_keep mode l : ∀ fs q n, fs !! q = Some n → foldl (ensure_dir mode) fs l !! q = Some n.
Proof.
  induction l as [|p l IH]; intros fs q n Hq; [done|]. cbn [foldl]. apply IH. unfold ensure_dir.
  destruct (fs !! p) eqn:Hp; [done|]. rewrite lookup_insert_ne; [done|congruence].
Qed.

Lemma ensure_dirs_new mode l : ∀ fs q,
  q ∈ l → fs !! q = None → foldl (ensure_dir mode) fs l !! q = Some (dir_node q (mode q)).
Proof.
  induction l as [|p l IH]; intros fs q Hq Hn; [by apply not_elem_of_nil in Hq|]. cbn [foldl].
  destruct (decide (q = p)) as [->|Hne].
  - apply ensure_dirs_keep. unfold ensure_dir. by rewrite Hn, lookup_insert_eq.
  - apply IH; [by apply elem_of_cons in Hq as [?|?]|]. unfold ensure_dir. destruct (fs !! p); [done|]. by rewrite lookup_insert_ne.
Qed.

Lemma names_in_singleton (fs : filesystem) x n :
  fs !! x = Some n → x ≠ root_path →
  (∀ p, is_Some (fs !! p) → p ≠ root_path → Dir p = Dir x → p = x) → names_in fs (Dir x) = [Base x].
Proof.
  intros Hx Hr Hu. unfold names_in. set (l := filter _ _). assert (l = [x]) as ->; [|done].
  apply Permutation_singleton_r, NoDup_Permutation.
  - apply NoDup_filter, NoDup_fst_map_to_list.
  - apply NoDup_singleton.
  - intros p. unfold l. rewrite list_elem_of_filter, list_elem_of_singleton, list_elem_of_fmap. split.
    + intros [[Hp Hd] ([q m] & -> & Hq%elem_of_map_to_list)]. apply Hu; [by eexists|done..].
    + intros ->. split; [done|]. exists (x, n). split; [done|]. by apply elem_of_map_to_list.
Qed.

(** *** What the builder adds *)

Lemma tar_fs_reserved tr p : reserved p = true → tar_fs tr !! p = None.
Proof.
  intros Hr. apply eq_None_not_Some. intros [Hn _]%tar_fs_own. congruence.
Qed.

Lemma rootfs_init tr initBin : rootfs_of tr initBin !! InitPath = Some (init_node initBin).
Proof. apply ensure_dirs_keep. unfold with_init. by rewrite lookup_insert_eq. Qed.

Lemma rootfs_install tr initBin : rootfs_of tr initBin !! InstallDir = Some (dir_node InstallDir 0x1ed).
Proof.
  apply ensure_dirs_keep. unfold with_init. rewrite lookup_insert_ne by done. unfold ensure_dir.
  rewrite tar_fs_reserved by done. by rewrite lookup_insert_eq.
Qed.

Lemma with_init_other initBin fs p : p ≠ InitPath → p ≠ InstallDir → with_init initBin fs !! p = fs !! p.
Proof.
  intros Hi Hd. unfold with_init, ensure_dir. rewrite lookup_insert_ne by done. destruct (fs !! InstallDir); [done|].
  by rewrite lookup_insert_ne.
Qed.

Lemma rootfs_mountpoint tr initBin p :
  p ∈ standardMountpoints → tar_fs tr !! p = None → rootfs_of tr initBin !! p = Some (dir_node p (mount_mode p)).
Proof.
  intros Hp Hn. apply ensure_dirs_new; [done|]. rewrite with_init_other; [done|..];
    intros ->; revert Hp; by apply (bool_decide_unpack _).
Qed.

(** What the tar put outside the reserved directory stays. *)
Lemma rootfs_keeps tr initBin p n : tar_fs tr !! p = Some n → rootfs_of tr initBin !! p = Some n.
Proof.
  intros Hn. apply ensure_dirs_keep. rewrite with_init_other; [done|..]; intros ->;
    by rewrite tar_fs_reserved in Hn.
Qed.

Lemma rootfs_dom tr initBin p :
  is_Some (rootfs_of tr initBin !! p) → own_path p ∨ p = InstallDir ∨ p = InitPath.
Proof.
  unfold rootfs_of. apply (ensure_dirs_dom mount_mode (λ p, own_path p ∨ p = InstallDir ∨ p = InitPath)).
  - intros q Hq. left. split.
    + revert q Hq. apply Forall_forall. by repeat constructor.
    + apply validatePath_parts. revert q Hq. apply Forall_forall. by repeat constructor.
  - unfold with_init. intros q [<-|[_ Hq]]%lookup_insert_is_Some; [by right; right|].
    eapply (ensure_dir_dom _ (λ p, own_path p ∨ p = InstallDir ∨ p = InitPath)); [| |exact Hq]; [by right; left|].
    intros q' Hq'. left. by eapply tar_fs_own.
Qed.

(** Only the init agent is in the reserved directory. *)
Lemma rootfs_install_names tr initBin :
  names_in (with_root None (rootfs_of tr initBin)) InstallDir = [Base InitPath].
Proof.
  change InstallDir with (Dir InitPath). eapply names_in_singleton.
  - unfold with_root. rewrite lookup_insert_ne by done. apply rootfs_init.
  - done.
  - intros p Hp Hne Hd. unfold with_root in Hp. rewrite lookup_insert_ne in Hp by done.
    apply rootfs_dom in Hp as [[Hr (parts & Hn & Hg & ->)]|[->| ->]]; [|by vm_compute in Hd|done]. exfalso.
    destruct parts as [|c l _] using rev_ind; [done|]. destruct (Dir_Base_snoc l c Hg) as [Hdir _].
    assert (Hl : path_of l = InstallDir) by (by rewrite <- Hdir, Hd).
    rewrite path_of_app in Hr by (by intros ->). rewrite Hl, reserved_below in Hr; done.
Qed.

(** ** Runs of the builder *)

Definition tracked (created : gset (list Z)) (fs : filesystem) : Prop := ∀ p, p ∈ created ↔ is_Some (fs !! p).

Section Runs.
Context `{Compressor} {F : Type} `{WriteSeeker F}.

Definition pre : Type := gset (list Z) → filesystem → Prop.
Definition post (A : Type) : Type := A → gset (list Z) → filesystem → Z → Prop.

(** From states in [P], a computation that succeeds makes calls of the writer that are in
    range and end in [Q], with the number of bytes they write. *)
Definition built {A : Type} (P : pre) (m : bld A) (Q : post A) : Prop :=
  ∀ (w : Writer F) cr fs a w' cr', P cr fs → m (w, cr) = (inl a, (w', cr')) →
    ∃ ops, io_for run_op ops w = (inl tt, w') ∧ Forall op_ok ops ∧ Q a cr' (spec_ops ops fs) (total_bytes ops).

Lemma built_fail {A : Type} (P : pre) (e : build_error) (Q : post A) : built P (io_fail e) Q.
Proof. by intros w cr fs a w' cr' _ ?. Qed.

Lemma built_ret {A : Type} (P : pre) (a : A) (Q : post A) :
  (∀ cr fs, P cr fs → Q a cr fs 0) → built P (io_ret a) Q.
Proof.
  intros HQ w cr fs a' w' cr' HP [= <- <- <-]. exists []. split; [done|]. split; [constructor|]. by apply HQ.
Qed.

Lemma io_for_app {E S A : Type} (f : A → fallible E S unit) l1 l2 s s1 r :
  io_for f l1 s = (inl tt, s1) → io_for f l2 s1 = r → io_for f (l1 ++ l2) s = r.
Proof.
  revert s. induction l1 as [|x l1 IH]; intros s H1 H2; cbn [io_for app] in *; [by injection H1 as ->|].
  unfold io_bind in *. destruct (f x s) as [[a|e] s']; [by apply IH|done].
Qed.

Lemma total_bytes_app l1 l2 : total_bytes (l1 ++ l2) = total_bytes l1 + total_bytes l2.
Proof. induction l1 as [|o l1 IH]; [done|]. cbn [app total_bytes foldr] in *. unfold total_bytes in *. lia. Qed.

Lemma built_bind {A B : Type} (P : pre) (m : bld A) (k : A → bld B) (X : A → pre) (n : A → Z) (R : post B) :
  built P m (λ a cr fs b, X a cr fs ∧ b = n a) →
  (∀ a, built (X a) (k a) (λ c cr fs b, R c cr fs (n a + b))) →
  built P (io_bind m k) R.
Proof.
  intros Hm Hk w cr fs c w' cr' HP (a & [w1 cr1] & E1 & E2)%io_bind_inl.
  destruct (Hm _ _ _ _ _ _ HP E1) as (ops1 & Hr1 & Ho1 & HX & Hn).
  destruct (Hk _ _ _ _ _ _ _ HX E2) as (ops2 & Hr2 & Ho2 & HR).
  exists (ops1 ++ ops2). split; [by eapply io_for_app|]. split; [by apply Forall_app|].
  rewrite total_bytes_app, Hn. unfold spec_ops. by rewrite foldl_app.
Qed.

(** The same after a computation that writes no bytes. *)
Lemma built_then {A B : Type} (P : pre) (m : bld A) (k : A → bld B) (X : A → pre) (R : post B) :
  built P m (λ a cr fs b, X a cr fs ∧ b = 0) → (∀ a, built (X a) (k a) R) → built P (io_bind m k) R.
Proof. intros Hm Hk. by apply (built_bind P m k X (λ _, 0)). Qed.

Lemma built_conseq {A : Type} (P P' : pre) (m : bld A) (Q Q' : post A) :
  built P m Q → (∀ cr fs, P' cr fs → P cr fs) → (∀ a cr fs b, Q a cr fs b → Q' a cr fs b) → built P' m Q'.
Proof.
  intros Hm HP HQ w cr fs a w' cr' Hp E. destruct (Hm _ _ _ _ _ _ (HP _ _ Hp) E) as (ops & ? & ? & ?). eauto.
Qed.

(** Binds associate. *)
Lemma built_assoc {A B C : Type} (m : bld A) (f : A → bld B) (k : B → bld C) (P : pre) (Q : post C) :
  built P (io_bind (io_bind m f) k) Q → built P (io_bind m (λ a, io_bind (f a) k)) Q.
Proof.
  intros Hb w cr fs c w' cr' HP E. apply (Hb w cr fs c w' cr' HP). revert E. unfold io_bind.
  by destruct (m (w, cr)) as [[a|e] s].
Qed.

(** A call of the writer is one of the operations. *)
Lemma built_call {A : Type} (P : pre) (m : io (Writer F) A) (o : op) (Q : post A) :
  op_ok o →
  (∀ w a w', m w = (inl a, w') → run_op o w = (inl tt, w') ∧
     ∀ cr fs, P cr fs → Q a cr (spec_op o fs) (op_bytes o)) →
  built P (writer_call m) Q.
Proof.
  intros Ho Hm w cr fs a w' cr' HP E. unfold writer_call in E. destruct (m w) as [[x|e] w1] eqn:Em; [|done].
  injection E as -> -> ->. destruct (Hm _ _ _ Em) as [Hr HQ]. exists [o]. split.
  - cbn. unfold io_bind. by rewrite Hr.
  - split; [by constructor|]. cbn. rewrite Z.add_0_r. by apply HQ.
Qed.

(** The file system is [fs0] and [created] has its paths. *)
Definition holding (fs0 : filesystem) : pre := λ cr fs, tracked cr fs ∧ fs = fs0.

(** [n] was put at [p], which is not in [created] yet. *)
Definition made (fs0 : filesystem) (p : list Z) (n : node) : pre := λ cr fs, tracked cr fs0 ∧ fs = <[p := n]> fs0.

Lemma is_created_built fs0 p :
  built (holding fs0) (is_created p)
    (λ c cr fs b, (c = bool_decide (is_Some (fs0 !! p)) ∧ holding fs0 cr fs) ∧ b = 0).
Proof.
  intros w cr fs c w' cr' [Ht ->] E. injection E as <- <- <-. exists []. split; [done|]. split; [constructor|].
  split; [|done]. split; [|done]. by apply bool_decide_ext, Ht.
Qed.

Lemma mark_built fs0 p n :
  built (made fs0 p n) (mark_created p) (λ _ cr fs b, holding (<[p := n]> fs0) cr fs ∧ b = 0).
Proof.
  intros w cr fs c w' cr' [Ht ->] E. injection E as <- <- <-. exists []. split; [done|]. split; [constructor|].
  split; [|done]. split; [|done]. intros q. cbn. rewrite elem_of_union, elem_of_singleton.
  destruct (decide (q = p)) as [->|Hne]; [rewrite lookup_insert_eq; by split; [|left]|].
  rewrite lookup_insert_ne by done. rewrite (Ht q). split; [by intros [?|?]|by right].
Qed.

(** Calls that put a node. *)
Lemma create_built {A : Type} fs0 (m : io (Writer F) A) (o : op) p n :
  op_ok o → op_bytes o = 0 → (∀ fs, spec_op o fs = <[p := n]> fs) →
  (∀ w a w', m w = (inl a, w') → run_op o w = (inl tt, w')) →
  built (holding fs0) (writer_call m) (λ _ cr fs b, made fs0 p n cr fs ∧ b = 0).
Proof.
  intros Ho Hb Hs Hr. eapply built_call; [exact Ho|]. intros w a w' E. split; [by eapply Hr|].
  intros cr fs [Ht ->]. by rewrite Hb, Hs.
Qed.

Lemma run_unit (m : io (Writer F) unit) w a w' : m w = (inl a, w') → m w = (inl tt, w').
Proof. by destruct a. Qed.

Lemma make_dir_built fs0 p mode :
  0 ≤ mode → built (holding fs0) (make_dir p mode) (λ _ cr fs b, holding (<[p := dir_node p mode]> fs0) cr fs ∧ b = 0).
Proof.
  intros Hm. apply (built_then _ _ _ (λ _, made fs0 p (dir_node p mode))).
  - apply (create_built fs0 _ (OpDir (mkAttrs p mode 0 0 None)) p (dir_node p mode)); [|done|done|].
    + split; [done|]. split; unfold fits_in; cbn; lia.
    + intros w a w' E. by destruct a.
  - intros a. apply mark_built.
Qed.

Lemma ensure_built fs0 p mode :
  (∀ q, 0 ≤ mode q) →
  built (holding fs0) (io* c := is_created p in if c : bool then io_ret tt else make_dir p (mode p))
    (λ _ cr fs b, holding (ensure_dir mode fs0 p) cr fs ∧ b = 0).
Proof.
  intros Hm. apply (built_then _ _ _ (λ c cr fs, c = bool_decide (is_Some (fs0 !! p)) ∧ holding fs0 cr fs)).
  - apply is_created_built.
  - intros c. unfold ensure_dir. destruct (fs0 !! p) as [n|] eqn:Ep.
    + destruct c; [apply built_ret; by intros cr fs [_ ?]|]. by intros w cr fs a w' cr' [? _].
    + destruct c; [by intros w cr fs a w' cr' [Hc _]|].
      eapply built_conseq; [by apply (make_dir_built fs0 p (mode p))|by intros cr fs [_ ?]|done].
Qed.

Lemma for_built {X : Type} (f : X → bld unit) (g : filesystem → X → filesystem) l :
  (∀ x fs0, x ∈ l → built (holding fs0) (f x) (λ _ cr fs b, holding (g fs0 x) cr fs ∧ b = 0)) →
  ∀ fs0, built (holding fs0) (io_for f l) (λ _ cr fs b, holding (foldl g fs0 l) cr fs ∧ b = 0).
Proof.
  induction l as [|x l IH]; intros Hf fs0; cbn [io_for foldl]; [by apply built_ret|].
  apply (built_then _ _ _ (λ _, holding (g fs0 x))); [apply Hf; by left|]. intros a. apply IH.
  intros y fs1 Hy. apply Hf. by right.
Qed.

Lemma ensureAncestors_built fs0 p :
  validatePath p = None →
  built (holding fs0) (ensureAncestors p)
    (λ _ cr fs b, holding (foldl (ensure_dir (λ _, 0x1ed)) fs0 (above p)) cr fs ∧ b = 0).
Proof.
  intros Hp. unfold ensureAncestors. pose proof (ancestors_above p Hp) as Ha. case_bool_decide as Hd.
  - assert (above p = []) as ->; [|by apply built_ret]. rewrite <- Ha. destruct p as [|c p]; [done|].
    cbn [length ancestors]. by rewrite bool_decide_eq_true_2.
  - rewrite Ha. apply for_built. intros a fs1 _. by apply (ensure_built fs1 a (λ _, 0x1ed)).
Qed.

(** *** Contents of files *)

Lemma FileWrite_inl file d (w : Writer F) n w' :
  FileWrite file d w = (inl n, w') → n = zlen d ∧ run_op (OpWrite file d) w = (inl tt, w').
Proof.
  intros E. split; [|cbn; unfold io_bind; by rewrite E].
  unfold FileWrite in E. apply io_bind_inl in E as (? & ? & [-> ->]%io_gets_inl & E).
  apply io_bind_inl in E as (? & ? & [-> ->]%io_gets_inl & E). case_match; [done|]. case_match; [done|]. by io_inv.
Qed.

(** The file [p], with [d] in it so far. *)
Definition filling (fs0 : filesystem) (p : list Z) (a : Attrs) (d : list Z) : pre := made fs0 p (mkNode a (NFile d)).

Lemma write_built fs0 p a d d' :
  built (filling fs0 p a d) (if bool_decide (d' = []) then io_ret 0 else writer_call (FileWrite p d'))
    (λ n cr fs b, filling fs0 p a (d ++ d') cr fs ∧ b = zlen d' ∧ n = zlen d').
Proof.
  case_bool_decide as Hd.
  - apply built_ret. intros cr fs Hf. by rewrite Hd, app_nil_r.
  - apply (built_call _ _ (OpWrite p d')); [done|]. intros w n w' [-> Hr]%FileWrite_inl. split; [done|].
    intros cr fs [Ht ->]. split; [|done]. split; [done|]. cbn. by rewrite alter_insert_eq.
Qed.

Lemma take_concat_cons n (d : list Z) l :
  take n (concat (d :: l)) = take n d ++ take (n - length (take n d)) (concat l).
Proof. cbn. rewrite take_app. f_equal. rewrite length_take. f_equal. lia. Qed.

Lemma take_zmin limit (d : list Z) : take (Z.to_nat (limit `min` zlen d)) d = take (Z.to_nat limit) d.
Proof.
  unfold zlen. destruct (Z.le_gt_cases limit (Z.of_nat (length d))); [by rewrite Z.min_l|].
  rewrite Z.min_r, Nat2Z.id, !take_ge by lia. done.
Qed.

Lemma copy_built fs0 p a reads fail : ∀ limit d,
  built (filling fs0 p a d) (copy_limited p limit reads fail)
    (λ n cr fs b, filling fs0 p a (d ++ take (Z.to_nat limit) (concat reads)) cr fs ∧
       b = zlen (take (Z.to_nat limit) (concat reads)) ∧ n = b).
Proof.
  induction reads as [|r reads IH]; intros limit d; cbn [copy_limited].
  - destruct (limit <=? 0); [|destruct fail; [apply built_fail|]]; apply built_ret; intros cr fs Hf; cbn;
      by rewrite take_nil, app_nil_r.
  - destruct (Z.leb_spec limit 0) as [Hl|Hl].
    { apply built_ret. intros cr fs Hf. replace (Z.to_nat limit) with 0%nat by lia. cbn. by rewrite app_nil_r. }
    rewrite take_zmin. set (d' := take (Z.to_nat limit) r).
    apply (built_bind _ _ _ (λ n cr fs, filling fs0 p a (d ++ d') cr fs ∧ n = zlen d') (λ _, zlen d')).
    { eapply built_conseq; [apply (write_built fs0 p a d d')|done|]. by intros n cr fs b (? & -> & ->). }
    intros n. rewrite take_concat_cons. fold d'.
    apply (built_bind _ _ _ (λ k cr fs, filling fs0 p a (d ++ d' ++ take (Z.to_nat (limit - zlen d')) (concat reads)) cr fs ∧
        n = zlen d' ∧ k = zlen (take (Z.to_nat (limit - zlen d')) (concat reads)))
      (λ _, zlen (take (Z.to_nat (limit - zlen d')) (concat reads)))).
    + intros w cr fs k w' cr' [Hf ->] E. rewrite (app_assoc d). 
      destruct (IH _ _ _ _ _ _ _ _ Hf E) as (ops & Hr & Ho & Hf' & Hb & Hk).
      exists ops. split; [done|]. split; [done|]. split; [|done]. split; [done|]. by rewrite Hk.
    + intros k. apply built_ret. intros cr fs (Hf & -> & ->).
      replace (Z.to_nat limit - length d')%nat with (Z.to_nat (limit - zlen d')) by (unfold zlen; lia).
      split; [done|]. rewrite zlen_app. split; lia.
Qed.

(** *** Entries *)

Lemma attrs_of_ok h p : attrs_ok (attrs_of h p).
Proof.
  split; [apply Z.land_nonneg; by right|]. split; unfold fits_in; change (256 ^ Z.of_nat 4) with (2 ^ 32);
    by apply Z.mod_pos_bound.
Qed.

(** What [create_entry] leaves: the node of the entry, or nothing. *)
Definition created_as (fs0 : filesystem) (total : Z) (p : list Z) (t : tar_entry) : post (option Z) :=
  λ n cr fs b,
    match n, tar_node p t with
    | Some n, Some nd => made fs0 p nd cr fs ∧ b = n ∧ 0 ≤ n ∧ total + n ≤ maxTarTotalBytes
    | None, None => holding fs0 cr fs ∧ b = 0
    | _, _ => False
    end.

Lemma create_file_built fs0 total p t :
  total ≤ maxTarTotalBytes → tar_node p t = Some (mkNode (attrs_of (t_header t) p) (NFile (concat (t_reads t)))) →
  built (holding fs0)
    (io* fw := writer_call (CreateFile (attrs_of (t_header t) p)) in
     io* n := copy_limited fw (maxTarTotalBytes - total + 1) (t_reads t) (t_fail t) in
     if maxTarTotalBytes - total <? n then io_fail ErrTarTotalBytesExceeded else io_ret (Some n))
    (created_as fs0 total p t).
Proof.
  intros Htot Hn. set (a := attrs_of _ _) in *. set (lim := maxTarTotalBytes - total + 1).
  apply (built_then _ _ _ (λ fw cr fs, filling fs0 p a [] cr fs ∧ fw = p)).
  - apply (built_call _ _ (OpFile a)); [apply attrs_of_ok|]. intros w fw w' E. split; [cbn; unfold io_bind; by rewrite E|].
    intros cr fs [Ht ->]. split; [|done]. split; [done|]. unfold CreateFile in E. by io_inv.
  - intros fw. set (d := take (Z.to_nat lim) (concat (t_reads t))).
    apply (built_bind _ _ _ (λ n cr fs, filling fs0 p a d cr fs ∧ n = zlen d) (λ _, zlen d)).
    + intros w cr fs n w' cr' [Hf ->] E. destruct (copy_built _ _ _ _ _ _ _ _ _ _ _ _ _ Hf E) as (ops & ? & ? & ? & Hb & ->).
      exists ops. by rewrite Hb.
    + intros n. destruct (Z.ltb_spec (maxTarTotalBytes - total) n) as [Hlt|Hle]; [apply built_fail|].
      apply built_ret. intros cr fs [Hf ->]. unfold created_as. rewrite Hn. rewrite Z.add_0_r.
      assert (d = concat (t_reads t)) as Ed.
      { unfold d in *. apply take_ge. unfold zlen in Hle. rewrite length_take in Hle. lia. }
      rewrite <- Ed. split; [done|]. split; [done|]. split; [apply zlen_nonneg|lia].
Qed.

Lemma create_node_built fs0 total p t (m : io (Writer F) unit) o n :
  total ≤ maxTarTotalBytes → tar_node p t = Some n →
  op_ok o → op_bytes o = 0 → (∀ fs, spec_op o fs = <[p := n]> fs) → m = run_op o →
  built (holding fs0) (io* _ := writer_call m in io_ret (Some 0)) (created_as fs0 total p t).
Proof.
  intros Htot Hn Ho Hb Hs ->. apply (built_then _ _ _ (λ _, made fs0 p n)).
  - apply (create_built fs0 _ o p n); [done..|]. intros w [] w' E. done.
  - intros u. apply built_ret. intros cr fs Hm. unfold created_as. rewrite Hn. split; [done|]. split; [done|]. lia.
Qed.

Lemma create_entry_built fs0 total p t :
  total ≤ maxTarTotalBytes → built (holding fs0) (create_entry total p t) (created_as fs0 total p t).
Proof.
  intros Htot. pose proof (attrs_of_ok (t_header t) p) as Hok. assert (Hdev : ∀ v, 0 ≤ wrap 32 v) by
    (intros v; unfold wrap; by apply Z.mod_pos_bound).
  assert (Hnode : ∀ n (m : io (Writer F) unit) o, tar_node p t = Some n → op_ok o → op_bytes o = 0 →
    (∀ fs, spec_op o fs = <[p := n]> fs) → m = run_op o →
    built (holding fs0) (io* _ := writer_call m in io_ret (Some 0)) (created_as fs0 total p t)) by (intros; by eapply create_node_built).
  unfold create_entry. pose proof (eq_refl (tar_node p t)) as Hn. unfold tar_node in Hn at 2.
  destruct (_ || _); [by apply create_file_built|].
  destruct (_ =? TypeDir); [by eapply (Hnode _ _ (OpDir _)); [exact Hn|..]|].
  destruct (_ =? TypeSymlink).
  { case_bool_decide; [apply built_fail|]. by eapply (Hnode _ _ (OpSymlink _ _)); [exact Hn|..]. }
  destruct (_ =? TypeLink).
  { destruct (normalizeTarPath _) as [[|c tg]|]; [apply built_fail| |apply built_fail].
    by eapply (Hnode _ _ (OpHardlink _ _)); [exact Hn|..]. }
  destruct (_ =? TypeChar); [apply (Hnode _ _ (OpDevice false (attrs_of (t_header t) p) (wrap 32 (h_Devmajor (t_header t)))
    (wrap 32 (h_Devminor (t_header t)))) Hn); [by split|done..]|].
  destruct (_ =? TypeBlock); [apply (Hnode _ _ (OpDevice true (attrs_of (t_header t) p) (wrap 32 (h_Devmajor (t_header t)))
    (wrap 32 (h_Devminor (t_header t)))) Hn); [by split|done..]|].
  destruct (_ =? TypeFifo); [by eapply (Hnode _ _ (OpIpc false _)); [exact Hn|..]|].
  apply built_ret. intros cr fs Hh. unfold created_as. by rewrite Hn.
Qed.

Lemma stream_entry_built fs0 total t :
  total ≤ maxTarTotalBytes →
  built (holding fs0) (stream_entry total t)
    (λ n cr fs b, holding (add_entry_of fs0 t) cr fs ∧ b = n ∧ 0 ≤ n ∧ total + n ≤ maxTarTotalBytes).
Proof.
  intros Htot. unfold stream_entry, add_entry_of. destruct (normalizeTarPath _) as [p|] eqn:Hp; [|apply built_fail].
  assert (Hskip : built (holding fs0) (io_ret 0)
    (λ n cr fs b, holding fs0 cr fs ∧ b = n ∧ 0 ≤ n ∧ total + n ≤ maxTarTotalBytes)).
  { apply built_ret. intros cr fs Hh. split; [done|]. split; [done|]. lia. }
  apply normalize_valid in Hp as [->|Hv]; [done|]. destruct p as [|c p]; [done|]. set (q := c :: p) in *.
  destruct (reserved q); [done|].
  apply (built_then _ _ _ (λ b cr fs, b = bool_decide (is_Some (fs0 !! q)) ∧ holding fs0 cr fs)); [apply is_created_built|].
  intros b. destruct (fs0 !! q) as [n|] eqn:Eq.
  { destruct b; [|by intros w cr fs a w' cr' [? _]]. eapply built_conseq; [exact Hskip|by intros cr fs [_ ?]|done]. }
  destruct b; [by intros w cr fs a w' cr' [Hc _]|].
  apply (built_then _ _ _ (λ _, holding (foldl (ensure_dir (λ _, 0x1ed)) fs0 (above q)))).
  { eapply built_conseq; [by apply ensureAncestors_built|by intros cr fs [_ ?]|done]. }
  intros _. set (fs1 := foldl _ fs0 _).
  intros w cr fs n w' cr' Hh E. apply io_bind_inl in E as (r & [w1 cr1] & E1 & E2).
  destruct (create_entry_built fs1 total q t Htot _ _ _ _ _ _ Hh E1) as (ops & Hr & Ho & Hc). unfold created_as in Hc.
  destruct r as [k|], (tar_node q t) as [nd|]; try done.
  - destruct Hc as (Hm & Hb & Hk).
    apply io_bind_inl in E2 as (u & [w2 cr2] & E3 & E4). injection E4 as <- <- <-.
    destruct (mark_built fs1 q nd _ _ _ _ _ _ Hm E3) as (ops2 & Hr2 & Ho2 & Hh2 & Hb2).
    exists (ops ++ ops2). split; [by eapply io_for_app|]. split; [by apply Forall_app|].
    rewrite total_bytes_app, Hb, Hb2, Z.add_0_r. unfold spec_ops in *. by rewrite foldl_app.
  - destruct Hc as [Hm Hb]. injection E2 as <- <- <-. exists ops. split; [done|]. split; [done|]. split; [done|].
    split; [done|]. lia.
Qed.

Lemma stream_loop_built l fail : ∀ count total fs0,
  total ≤ maxTarTotalBytes →
  built (holding fs0) (stream_loop count total l fail)
    (λ _ cr fs b, holding (foldl add_entry_of fs0 l) cr fs ∧ 0 ≤ b ≤ maxTarTotalBytes - total).
Proof.
  induction l as [|t l IH]; intros count total fs0 Htot; cbn [stream_loop foldl].
  - destruct fail; [apply built_fail|]. apply built_ret. intros cr fs Hh. split; [done|]. lia.
  - destruct (_ <? _); [apply built_fail|]. destruct (_ && _); [apply built_fail|].
    intros w cr fs a w' cr' Hh E. apply io_bind_inl in E as (n & [w1 cr1] & E1 & E2).
    destruct (stream_entry_built fs0 total t Htot _ _ _ _ _ _ Hh E1) as (ops & Hr & Ho & Hh1 & Hb & Hn).
    destruct (IH (count + 1) (total + n) (add_entry_of fs0 t) ltac:(lia) _ _ _ _ _ _ Hh1 E2) as (ops2 & Hr2 & Ho2 & Hh2 & Hb2).
    exists (ops ++ ops2). split; [by eapply io_for_app|]. split; [by apply Forall_app|].
    rewrite total_bytes_app. unfold spec_ops in *. rewrite foldl_app. split; [done|]. lia.
Qed.

Lemma injectInit_built fs0 initBin :
  built (holding fs0) (injectInit initBin)
    (λ _ cr fs b, holding (with_init initBin fs0) cr fs ∧ b = zlen initBin).
Proof.
  unfold injectInit, with_init. set (fs1 := ensure_dir _ fs0 InstallDir). set (a := mkAttrs InitPath 0x1ed 0 0 None).
  apply (built_assoc (is_created InstallDir) (λ c : bool, if c then io_ret tt else make_dir InstallDir 0x1ed)).
  apply (built_then _ _ _ (λ _, holding fs1)); [by apply (ensure_built fs0 InstallDir (λ _, 0x1ed))|]. intros _.
  apply (built_then _ _ _ (λ fw cr fs, filling fs1 InitPath a [] cr fs ∧ fw = InitPath)).
  - apply (built_call _ _ (OpFile a)).
    + split; [done|]. split; unfold fits_in; cbn; lia.
    + intros w fw w' E. split; [cbn; unfold io_bind; by rewrite E|].
      intros cr fs [Ht ->]. split; [|done]. split; [done|]. unfold CreateFile in E. by io_inv.
  - intros fw. apply (built_bind _ _ _ (λ _, filling fs1 InitPath a initBin) (λ _, zlen initBin)).
    + intros w cr fs n w' cr' [Hf ->] E.
      destruct (write_built fs1 InitPath a [] initBin _ _ _ _ _ _ Hf E) as (ops & ? & ? & ? & ? & _). by exists ops.
    + intros n. eapply built_conseq; [apply (mark_built fs1 InitPath (init_node initBin))|done|].
      intros v cr fs b [Hm ->]. by rewrite Z.add_0_r.
Qed.

Lemma mountpoints_built fs0 :
  built (holding fs0) ensureStandardMountpoints
    (λ _ cr fs b, holding (foldl (ensure_dir mount_mode) fs0 standardMountpoints) cr fs ∧ b = 0).
Proof.
  apply for_built. intros p fs1 _. apply (ensure_built fs1 p mount_mode). intros q. unfold mount_mode. by case_bool_decide.
Qed.

(** Everything before [Close]. *)
Lemma contents_built tr initBin :
  built (holding ∅) (io* _ := streamTarToSquashfs tr in io* _ := injectInit initBin in ensureStandardMountpoints)
    (λ _ cr fs b, holding (rootfs_of tr initBin) cr fs ∧ 0 ≤ b ≤ maxTarTotalBytes + zlen initBin).
Proof.
  intros w cr fs a w' cr' Hh E. apply io_bind_inl in E as (u1 & [w1 cr1] & E1 & E).
  destruct (stream_loop_built _ _ 0 0 ∅ ltac:(done) _ _ _ _ _ _ Hh E1) as (ops1 & Hr1 & Ho1 & Hh1 & Hb1).
  apply io_bind_inl in E as (u2 & [w2 cr2] & E2 & E3).
  destruct (injectInit_built _ _ _ _ _ _ _ _ Hh1 E2) as (ops2 & Hr2 & Ho2 & Hh2 & Hb2).
  destruct (mountpoints_built _ _ _ _ _ _ _ Hh2 E3) as (ops3 & Hr3 & Ho3 & Hh3 & Hb3).
  exists (ops1 ++ ops2 ++ ops3). split; [by eapply io_for_app, io_for_app|]. split; [by rewrite !Forall_app|].
  rewrite !total_bytes_app. unfold spec_ops in *. rewrite !foldl_app. split; [done|]. pose proof (zlen_nonneg initBin). lia.
Qed.
End Runs.

(** ** The image *)

Section Image.
Context `{Decompressor} {F : Type} `{FileLaws F}.

Lemma call_inl {A} (m : io (Writer F) A) w cr a w' cr' :
  writer_call m (w, cr) = (inl a, (w', cr')) → m w = (inl a, w') ∧ cr' = cr.
Proof. unfold writer_call. by destruct (m w) as [[x|e] w1]; intros [= -> -> ->]. Qed.

Lemma build_inl tr initBin order out f :
  buildSquashfs tr initBin order (inl out) None = inl f →
  ∃ w0 (w1 w2 : Writer F) ops, NewWriter [WithCompressor true] out = inl w0 ∧ io_for run_op ops w0 = (inl tt, w1) ∧
    Close order w1 = (inl tt, w2) ∧ f = w_out w2 ∧ Forall op_ok ops ∧
    spec_ops ops ∅ = rootfs_of tr initBin ∧ 0 ≤ total_bytes ops ≤ maxTarTotalBytes + zlen initBin.
Proof.
  unfold buildSquashfs. destruct (NewWriter _ out) as [w0|] eqn:Ew; [|done]. cbv zeta.
  destruct (io_bind _ _ _) as [[u|e] [w2 cr2]] eqn:E; [|done]. intros [= <-].
  assert (E' : (io* _ := (io* _ := streamTarToSquashfs tr in io* _ := injectInit initBin in ensureStandardMountpoints) in
    writer_call (Close order)) (w0, ∅) = (inl u, (w2, cr2))).
  { revert E. unfold io_bind. destruct (streamTarToSquashfs tr (w0, ∅)) as [[u1|e1] s1]; [|done].
    destruct (injectInit initBin s1) as [[u2|e2] s2]; [|done]. by destruct (ensureStandardMountpoints s2) as [[u3|e3] s3]. }
  apply io_bind_inl in E' as (u1 & [w1 cr1] & E1 & E2). apply call_inl in E2 as [Hc _]. destruct u.
  destruct (contents_built tr initBin w0 ∅ ∅ u1 w1 cr1) as (ops & Hr & Ho & [_ Hfs] & Hb); [|done|].
  { split; [|done]. intros p. rewrite lookup_empty, elem_of_empty. by split; [|intros [? ?]]. }
  by exists w0, w1, w2, ops.
Qed.

Lemma NewWriter_mtime (out : F) w : NewWriter [WithCompressor true] out = inl w → w_mtime w = None.
Proof. unfold NewWriter. cbn [apply_options]. destruct (io_bind _ _ _) as [[? |?] ?]; by intros [= <-]. Qed.

Lemma build_stat tr initBin order out f parts :
  buildSquashfs tr initBin order (inl out) None = inl f →
  Z.of_nat (size (rootfs_of tr initBin)) ≤ 2 ^ 23 → zlen initBin < 2 ^ 63 → zlen (contents f) < 2 ^ 48 →
  Forall good_part parts →
  stat (contents f) parts = fs_view None (with_root None (rootfs_of tr initBin)) (path_of parts).
Proof.
  intros (w0 & w1 & w2 & ops & Hn & Hr & Hc & -> & Ho & Hfs & Hb)%build_inl Hsz Hi Hlen Hg.
  pose proof (NewWriter_mtime _ _ Hn) as Hm. apply NewWriter_writing in Hn as [Hw _]. rewrite Hm in Hw.
  rewrite <- Hfs in Hsz |- *. eapply ops_stat; try done. change maxTarTotalBytes with (2 ^ 34) in Hb. lia.
Qed.

(** C24: What a guest boots from.  When [buildSquashfs] succeeds, reading the image it leaves
    shows at every path what the tar says, under the rules of the builder: the first
    entry of a path counts, with its type, its contents whole, its permissions and its
    owner; missing directories above an entry are made; nothing of the tar is in the
    reserved directory; a mount point that the tar does not have is a directory of
    the root user (with mode 1777 for /tmp).  Whatever the tar holds, links and entries
    that name the reserved directory included, [/.craftling] has exactly one entry, and
    it is the init agent, byte for byte, executable and owned by the root user. *)
Theorem rootfs_image tr initBin order (out : F) f :
  buildSquashfs tr initBin order (inl out) None = inl f →
  Z.of_nat (size (rootfs_of tr initBin)) ≤ 2 ^ 23 → zlen initBin < 2 ^ 63 → zlen (contents f) < 2 ^ 48 →
  (∀ parts, Forall good_part parts →
     stat (contents f) parts = fs_view None (with_root None (rootfs_of tr initBin)) (path_of parts)) ∧
  (∀ p n, tar_fs tr !! p = Some n → rootfs_of tr initBin !! p = Some n) ∧
  (∀ p, p ∈ standardMountpoints → tar_fs tr !! p = None →
     rootfs_of tr initBin !! p = Some (dir_node p (mount_mode p))) ∧
  stat (contents f) [tail InstallDir] = Some (mkView 0x1ed 0 0 0 (VDir [Base InitPath])) ∧
  stat (contents f) [tail InstallDir; Base InitPath] = Some (mkView 0x1ed 0 0 0 (VFile initBin)).
Proof.
  intros Hb Hs Hi Hl. pose proof (λ parts, build_stat tr initBin order out f parts Hb Hs Hi Hl) as Hst.
  split; [exact Hst|]. split; [apply rootfs_keeps|]. split; [intros p; apply rootfs_mountpoint|].
  split; (rewrite Hst; [|repeat (constructor; [split; [done|by apply (bool_decide_unpack _)]|]); constructor]); unfold fs_view, with_root.
  - change (path_of [tail InstallDir]) with InstallDir. rewrite lookup_insert_ne by done. rewrite rootfs_install.
    unfold mbind, option_bind, node_view, dir_node. cbn [n_body n_attrs a_Mode a_UID a_GID a_Mtime default].
    fold (with_root None (rootfs_of tr initBin)). by rewrite rootfs_install_names.
  - change (path_of [tail InstallDir; Base InitPath]) with InitPath. rewrite lookup_insert_ne by done. by rewrite rootfs_init.
Qed.
End Image.

(** ** An image with a hostile entry *)

Definition demo_header (name : string) (typ : Z) : tar_header :=
  mkHeader (bytes_of name) typ 2 0x1a4 5 7 (Some 9) [] 0 0.
Definition demo_tar : tar_stream :=
  mkTar [mkTarEntry (demo_header "./a/f" TypeReg) [[104]; [105]] None;
         mkTarEntry (demo_header ".craftling/init" TypeReg) [[66; 97; 100]] None;
         mkTarEntry (demo_header "tmp/" TypeDir) [] None] None.
Definition demo_init : list Z := [127; 69; 76; 70].
Definition demo_rootfs : mem_file :=
  match buildSquashfs demo_tar demo_init [] (inl (mkMem [] 0)) None with inl f => f | inr _ => mkMem [] 0 end.

Lemma demo_builds : buildSquashfs demo_tar demo_init [] (inl (mkMem [] 0)) None = inl demo_rootfs.
Proof. vm_compute. reflexivity. Qed.

Lemma rootfs_image_witness :
  stat (contents demo_rootfs) [bytes_of ".craftling"; bytes_of "init"] = Some (mkView 0x1ed 0 0 0 (VFile demo_init)) ∧
  stat (contents demo_rootfs) [[97]; [102]] = Some (mkView 0x1a4 5 7 9 (VFile [104; 105])).
Proof.
  destruct (rootfs_image demo_tar demo_init [] (mkMem [] 0) demo_rootfs demo_builds) as (Hst & _ & _ & _ & Hi).
  - vm_compute. discriminate.
  - reflexivity.
  - vm_compute. reflexivity.
  - split; [exact Hi|]. rewrite Hst; [vm_compute; reflexivity|].
    repeat (constructor; [split; [discriminate|by apply (bool_decide_unpack _)]|]). constructor.
Defined.
