(* ===== verification/ImageStore.v ===== *)
(** * The cache of root file systems

    The [Store] of [internal/image/rootfs.go]: [Ensure] and [PullImage], which build the
    image of a digest beside its final name and rename it into place, and the other
    operations on the cache directory.  The directory is a table from names to inodes, so
    that an open file outlives its name; the names have no slash, where [filepath.Join]
    only prepends the directory.  What the registry, the other calls of the operating
    system and a failing build give are arguments. *)
From S2P Require Import Prelude GoSort SquashFormat SquashMeta SquashDir SquashWriter SquashFiles SquashTree SquashImage SquashTheorems Rootfs.
From stdpp Require Import strings.
#[local] Open Scope Z_scope.

(** ** The registry *)

Record image_config := mkConfig {
  cf_OS : list Z;
  cf_Architecture : list Z;
  cf_Entrypoint : list (list Z);
  cf_Cmd : list (list Z);
  cf_Env : list (list Z);
  cf_WorkingDir : list Z
}.

(** What [crane.Pull] gives: the answers of [Digest] and [ConfigFile], and the flattened
    layers that [mutate.Extract] streams. *)
Record pulled_image := mkImage {
  im_Digest : list Z + list Z;
  im_ConfigFile : image_config + list Z;
  im_layers : tar_stream
}.

(** The fields of a run spec that an image determines; the others are nil. *)
Record RunSpec := mkRunSpec {
  rs_Entrypoint : list (list Z);
  rs_Cmd : list (list Z);
  rs_Env : list (list Z);
  rs_WorkingDir : list Z
}.

Definition specFromConfig (cfg : image_config) : RunSpec :=
  mkRunSpec (cf_Entrypoint cfg) (cf_Cmd cfg) (cf_Env cfg) (cf_WorkingDir cfg).

(** An empty slice of Go is [nil] or not; the init agent only asks for the length. *)
Definition Argv (s : RunSpec) : list (list Z) := rs_Entrypoint s ++ rs_Cmd s.

Record InitBinaries := mkInit { LinuxAmd64 : list Z; LinuxArm64 : list Z }.

Inductive store_error : Type :=
| ErrInvalidDigest (digest : list Z)
| ErrPull (msg : list Z) | ErrReadDigest (msg : list Z) | ErrDigestMismatch
| ErrReadConfig (msg : list Z) | ErrNotLinux
| ErrMkdir (msg : list Z)
| ErrNoInit (arch : list Z) | ErrInitUnset (arch : list Z) | ErrReadInit (msg : list Z)
| ErrBuild (e : build_error)
| ErrRename (msg : list Z) | ErrStat (msg : list Z) | ErrReadDir (msg : list Z) | ErrRemove (msg : list Z).

Definition amd64 : list Z := Eval cbv in bytes_of "amd64".
Definition arm64 : list Z := Eval cbv in bytes_of "arm64".
Definition linux : list Z := Eval cbv in bytes_of "linux".
Definition tmp_suffix : list Z := Eval cbv in bytes_of ".tmp".

(** [ReadFile] answers for a path. *)
Definition loadInitBinary (Init : InitBinaries) (ReadFile : list Z → list Z + list Z) (arch : list Z) :
    list Z + store_error :=
  let load p :=
    if bool_decide (p = []) then inr (ErrInitUnset arch)
    else match ReadFile p with inl bin => inl bin | inr msg => inr (ErrReadInit msg) end in
  if bool_decide (arch = amd64) then load (LinuxAmd64 Init)
  else if bool_decide (arch = arm64) then load (LinuxArm64 Init)
  else inr (ErrNoInit arch).

(** ** The cache directory *)

(** The answer of [os.ReadDir]: entries, each with its name and whether it is a directory. *)
Inductive read_dir_answer : Type :=
| DirMissing | DirFailed (msg : list Z) | DirEntries (l : list (list Z * bool)).

Fixpoint decoded_names (l : list (list Z * bool)) : list (list Z) :=
  match l with
  | [] => []
  | (name, is_dir) :: l =>
      if is_dir : bool then decoded_names l
      else match decodeRootfsName name with None => decoded_names l | Some digest => digest :: decoded_names l end
  end.

Definition GetExistingImages (answer : read_dir_answer) : list (list Z) + store_error :=
  match answer with
  | DirMissing => inl []
  | DirFailed msg => inr (ErrReadDir msg)
  | DirEntries l => inl (decoded_names l)
  end.

Definition PathFor (digest : list Z) : list Z + store_error :=
  match encodeRootfsName digest with Some name => inl name | None => inr (ErrInvalidDigest digest) end.

Section Cache.
Context {F : Type}.

(** Names refer to inodes, which have contents; [d_next] is free. *)
Record disk := mkDisk { d_names : gmap (list Z) nat; d_files : gmap nat F; d_next : nat }.

Definition file (d : disk) (p : list Z) : option F := i ← d_names d !! p; d_files d !! i.

(** [os.Remove]; the flag says whether the call has an effect. *)
Definition disk_remove (done : bool) (p : list Z) (d : disk) : disk :=
  if done then mkDisk (delete p (d_names d)) (d_files d) (d_next d) else d.

(** [os.Create] truncates the file of that name or makes a new one. *)
Definition disk_create (blank : F) (p : list Z) (d : disk) : nat * disk :=
  match d_names d !! p with
  | Some i => (i, mkDisk (d_names d) (<[i := blank]> (d_files d)) (d_next d))
  | None => (d_next d, mkDisk (<[p := d_next d]> (d_names d)) (<[d_next d := blank]> (d_files d)) (S (d_next d)))
  end.

(** Writes through the open file [i]. *)
Definition disk_write (i : nat) (f : F) (d : disk) : disk :=
  mkDisk (d_names d) (<[i := f]> (d_files d)) (d_next d).

(** [os.Rename] fails when there is nothing to rename. *)
Definition disk_rename (p q : list Z) (d : disk) : option disk :=
  match d_names d !! p with
  | None => None
  | Some i => Some (mkDisk (<[q := i]> (delete p (d_names d))) (d_files d) (d_next d))
  end.

Definition UntagImage (digest : list Z) (fail : option (list Z)) (d : disk) : (unit + store_error) * disk :=
  match encodeRootfsName digest with
  | None => (inr (ErrInvalidDigest digest), d)
  | Some name =>
      match fail with
      | Some msg => (inr (ErrRemove msg), d)
      | None => (inl tt, disk_remove true name d)
      end
  end.
End Cache.
Arguments disk : clear implicits.

(** The operating system during a build. *)
Record host_calls (F : Type) := mkCalls {
  c_MkdirAll : option (list Z);
  c_ReadFile : list Z → list Z + list Z;
  c_Remove : bool;
  c_Create : option (list Z);
  c_blank : F;
  c_order : list (list Z);
  c_Close : option (list Z);
  c_partial : F;
  c_Rename : option (list Z);
  c_RemoveLate : bool;
  c_Stat : option (list Z)
}.
Arguments mkCalls {F}.
Arguments c_MkdirAll {F}.
Arguments c_ReadFile {F}.
Arguments c_Remove {F}.
Arguments c_Create {F}.
Arguments c_blank {F}.
Arguments c_order {F}.
Arguments c_Close {F}.
Arguments c_partial {F}.
Arguments c_Rename {F}.
Arguments c_RemoveLate {F}.
Arguments c_Stat {F}.

Section Store.
Context `{Compressor} {F : Type} `{WriteSeeker F}.
Context (Init : InitBinaries).

(** [buildSquashfs] at a name: the file is open from [os.Create] on, and holds
    [c_partial] when the build fails. *)
Definition build_at (h : host_calls F) (tr : tar_stream) (initBin tmpPath : list Z) (d : disk F) :
    (unit + store_error) * disk F :=
  match c_Create h with
  | Some msg => (inr (ErrBuild (ErrCreateOut msg)), d)
  | None =>
      let '(i, d) := disk_create (c_blank h) tmpPath d in
      match buildSquashfs tr initBin (c_order h) (inl (c_blank h)) (c_Close h) with
      | inr e => (inr (ErrBuild e), disk_write i (c_partial h) d)
      | inl f => (inl tt, disk_write i f d)
      end
  end.

(** The last step: the built file gets its name. *)
Definition publish (h : host_calls F) (finalPath tmpPath : list Z) (d : disk F) : (unit + store_error) * disk F :=
  match c_Rename h with
  | Some msg => (inr (ErrRename msg), disk_remove (c_RemoveLate h) tmpPath d)
  | None =>
      match disk_rename tmpPath finalPath d with
      | None => (inr (ErrRename []), disk_remove (c_RemoveLate h) tmpPath d)
      | Some d => (inl tt, d)
      end
  end.

Definition buildInto (h : host_calls F) (img : pulled_image) (cfg : image_config) (finalPath tmpPath : list Z)
    (d : disk F) : (unit + store_error) * disk F :=
  match c_MkdirAll h with
  | Some msg => (inr (ErrMkdir msg), d)
  | None =>
      match loadInitBinary Init (c_ReadFile h) (cf_Architecture cfg) with
      | inr e => (inr e, d)
      | inl initBin =>
          let d := disk_remove (c_Remove h) tmpPath d in
          match build_at h (im_layers img) initBin tmpPath d with
          | (inr e, d) => (inr e, disk_remove (c_RemoveLate h) tmpPath d)
          | (inl _, d) => publish h finalPath tmpPath d
          end
      end
  end.

Definition PullImage (h : host_calls F) (pulled : pulled_image + list Z) (expectedDigest : list Z) (d : disk F) :
    (RunSpec + store_error) * disk F :=
  match encodeRootfsName expectedDigest with
  | None => (inr (ErrInvalidDigest expectedDigest), d)
  | Some finalPath =>
      match pulled with
      | inr msg => (inr (ErrPull msg), d)
      | inl img =>
          match im_Digest img with
          | inr msg => (inr (ErrReadDigest msg), d)
          | inl dgst =>
              if negb (bool_decide (dgst = expectedDigest)) then (inr ErrDigestMismatch, d)
              else
                match im_ConfigFile img with
                | inr msg => (inr (ErrReadConfig msg), d)
                | inl cfg =>
                    if negb (bool_decide (cf_OS cfg = linux)) then (inr ErrNotLinux, d)
                    else
                      match buildInto h img cfg finalPath (finalPath ++ tmp_suffix) d with
                      | (inr e, d) => (inr e, d)
                      | (inl _, d) => (inl (specFromConfig cfg), d)
                      end
                end
          end
      end
  end.

(** The path is the name in the cache directory. *)
Definition Ensure (h : host_calls F) (pulled : pulled_image + list Z) (d : disk F) :
    (list Z * RunSpec + store_error) * disk F :=
  match pulled with
  | inr msg => (inr (ErrPull msg), d)
  | inl img =>
      match im_Digest img with
      | inr msg => (inr (ErrReadDigest msg), d)
      | inl dgst =>
          match im_ConfigFile img with
          | inr msg => (inr (ErrReadConfig msg), d)
          | inl cfg =>
              if negb (bool_decide (cf_OS cfg = linux)) then (inr ErrNotLinux, d)
              else
                match encodeRootfsName dgst with
                | None => (inr (ErrInvalidDigest dgst), d)
                | Some finalPath =>
                    let spec := specFromConfig cfg in
                    match c_Stat h with
                    | Some msg => (inr (ErrStat msg), d)
                    | None =>
                        match d_names d !! finalPath with
                        | Some _ => (inl (finalPath, spec), d)
                        | None =>
                            match buildInto h img cfg finalPath (finalPath ++ tmp_suffix) d with
                            | (inr e, d) => (inr e, d)
                            | (inl _, d) => (inl (finalPath, spec), d)
                            end
                        end
                    end
                end
          end
      end
  end.
End Store.

(** ** Names *)

Lemma IndexByte_notin s c : c ∉ s → IndexByte s c = None.
Proof.
  induction s as [|x s IH]; [done|]. rewrite not_elem_of_cons. intros [Hx Hs]. cbn.
  destruct (Z.eqb_spec x c); [congruence|]. by rewrite IH.
Qed.

Lemma IndexByte_app s c t : c ∉ s → IndexByte (s ++ c :: t) c = Some (length s).
Proof.
  induction s as [|x s IH]; [cbn; by rewrite Z.eqb_refl|]. rewrite not_elem_of_cons. intros [Hx Hs]. cbn.
  destruct (Z.eqb_spec x c); [congruence|]. by rewrite IH.
Qed.

Lemma HasSuffix_app s suf : HasSuffix (s ++ suf) suf = true.
Proof.
  unfold HasSuffix. rewrite length_app. apply andb_true_iff. split; [apply Nat.leb_le; lia|].
  apply bool_decide_eq_true. rewrite Nat.add_sub. apply drop_app_length.
Qed.

Lemma TrimSuffix_app s suf : TrimSuffix (s ++ suf) suf = s.
Proof. unfold TrimSuffix. rewrite HasSuffix_app, length_app, Nat.add_sub. apply take_app_length. Qed.

Lemma splitDigest_nonempty s algo hex : splitDigest s = Some (algo, hex) → algo ≠ [] ∧ hex ≠ [].
Proof.
  unfold splitDigest. destruct s as [|x s]; [done|]. set (d := x :: s).
  destruct (IndexByte d colon) as [i|] eqn:Hi; [|by intros [= <- <-]].
  assert (Hlt : (i < length d)%nat).
  { clearbody d. revert i Hi. induction d as [|y d IH]; intros i; [done|]. cbn. destruct (y =? colon).
    - intros [= <-]. lia.
    - destruct (IndexByte d colon) as [j|]; [|done]. cbn. intros [= <-]. pose proof (IH j eq_refl). lia. }
  destruct (Nat.eqb_spec i 0) as [H0|H0]; [done|]. destruct (Nat.eqb_spec i (length d - 1)) as [Hl|Hl]; [done|].
  intros E. injection E as <- <-. split; intros E; apply (f_equal length) in E.
  - rewrite length_take in E. change (length (@nil Z)) with 0%nat in E. lia.
  - change (length (drop (S i) d) = 0%nat) in E. rewrite length_drop in E. lia.
Qed.

(** The name of a digest decodes to the digest, with its algorithm spelled out. *)
Lemma decode_encode digest algo hex name :
  splitDigest digest = Some (algo, hex) → dash ∉ algo → encodeRootfsName digest = Some name →
  decodeRootfsName name = Some (algo ++ [colon] ++ hex).
Proof.
  intros Hs Hd. unfold encodeRootfsName. rewrite Hs. intros Hn%(inj Some). subst name. apply splitDigest_nonempty in Hs as [Ha Hh].
  unfold decodeRootfsName. replace (algo ++ [dash] ++ hex ++ rootfsSuffix) with ((algo ++ dash :: hex) ++ rootfsSuffix)
    by (by rewrite <- app_assoc).
  rewrite HasSuffix_app, TrimSuffix_app. cbn [negb]. rewrite IndexByte_app by done. rewrite length_app. cbn [length].
  destruct (Nat.eqb_spec (length algo) 0) as [E|E]; [by apply length_zero_iff_nil in E|].
  destruct (Nat.eqb_spec (length algo) (length algo + S (length hex) - 1)) as [E'|E'].
  { assert (length hex = 0%nat) as E2 by lia. by apply length_zero_iff_nil in E2. }
  cbn [orb]. rewrite take_app_length. f_equal. f_equal. f_equal.
  by rewrite cons_middle, app_assoc, drop_app_length' by (rewrite length_app; cbn; lia).
Qed.

(** The name of a build in progress is no name of an image. *)
Lemma decode_tmp name : decodeRootfsName (name ++ tmp_suffix) = None.
Proof.
  unfold decodeRootfsName. destruct (HasSuffix _ _) eqn:E; [|done]. exfalso. revert E. unfold HasSuffix.
  intros [_ Hd%bool_decide_eq_true]%andb_true_iff. set (s := name ++ tmp_suffix) in Hd.
  pose proof (take_drop (length s - length rootfsSuffix) s) as Hs. rewrite Hd in Hs. unfold s in Hs at 3.
  apply (f_equal last) in Hs. rewrite !last_app in Hs. discriminate Hs.
Qed.

(** ** The disk *)

Section Disk.
Context {F : Type}.
Implicit Types d : disk F.

(** Every name has an inode of its own, which exists and is not the free one. *)
Definition disk_ok d : Prop :=
  (∀ p q i, d_names d !! p = Some i → d_names d !! q = Some i → p = q) ∧
  (∀ p i, d_names d !! p = Some i → (i < d_next d)%nat).

Definition same_but (tmp : list Z) d d' : Prop := ∀ p, p ≠ tmp → file d' p = file d p ∧ d_names d' !! p = d_names d !! p.

Lemma disk_remove_ok b p d : disk_ok d → disk_ok (disk_remove b p d) ∧ same_but p d (disk_remove b p d).
Proof.
  intros [Hi Hn]. destruct b; [|done]. split.
  - split; cbn.
    + intros q r i [_ Hq]%lookup_delete_Some [_ Hr]%lookup_delete_Some. by eapply Hi.
    + intros q i [_ Hq]%lookup_delete_Some. by eapply Hn.
  - intros q Hq. unfold file. cbn. by rewrite lookup_delete_ne.
Qed.

Lemma disk_create_ok (blank : F) p d i d' :
  disk_ok d → disk_create blank p d = (i, d') → disk_ok d' ∧ same_but p d d' ∧ d_names d' !! p = Some i.
Proof.
  intros [Hi Hn]. unfold disk_create. destruct (d_names d !! p) as [j|] eqn:Hp; intros E; injection E as <- <-.
  - split; [done|]. split; [|done]. intros q Hq. unfold file. cbn. split; [|done].
    destruct (d_names d !! q) as [k|] eqn:Hk; [|done]. cbn. rewrite lookup_insert_ne; [done|].
    intros ->. by eapply Hq, Hi.
  - split; [|split; [|apply lookup_insert_eq]].
    + split; cbn.
      * intros q r k [[<- <-]|[? Hq]]%lookup_insert_Some [[<- ?]|[? Hr]]%lookup_insert_Some; simplify_eq; try done.
        -- apply Hn in Hr. lia.
        -- apply Hn in Hq. lia.
        -- by eapply Hi.
      * intros q k [[<- <-]|[? Hq%Hn]]%lookup_insert_Some; lia.
    + intros q Hq. unfold file. cbn. rewrite lookup_insert_ne by done. split; [|done].
      destruct (d_names d !! q) as [k|] eqn:Hk; [|done]. cbn. rewrite lookup_insert_ne; [done|].
      apply Hn in Hk. lia.
Qed.

Lemma disk_write_ok (f : F) p i d :
  disk_ok d → d_names d !! p = Some i →
  disk_ok (disk_write i f d) ∧ same_but p d (disk_write i f d) ∧ file (disk_write i f d) p = Some f ∧
  d_names (disk_write i f d) !! p = Some i.
Proof.
  intros [Hi Hn] Hp. split; [done|]. split; [|split; [|done]].
  - intros q Hq. unfold file. cbn. split; [|done]. destruct (d_names d !! q) as [k|] eqn:Hk; [|done]. cbn.
    rewrite lookup_insert_ne; [done|]. intros ->. by eapply Hq, Hi.
  - unfold file. cbn. rewrite Hp. cbn. apply lookup_insert_eq.
Qed.

Lemma disk_rename_ok p q d d' :
  disk_ok d → p ≠ q → disk_rename p q d = Some d' →
  disk_ok d' ∧ file d' q = file d p ∧ is_Some (d_names d' !! q) ∧ ∀ r, r ≠ p → r ≠ q → file d' r = file d r.
Proof.
  intros [Hi Hn] Hne. unfold disk_rename. destruct (d_names d !! p) as [i|] eqn:Hp; [|done].
  intros E%(inj Some). subst d'. split; [|split; [|split]].
  - split; cbn.
    + intros r s k [[<- <-]|[? [? Hr]%lookup_delete_Some]]%lookup_insert_Some
        [[<- ?]|[? [? Hs]%lookup_delete_Some]]%lookup_insert_Some; simplify_eq; try done; try (by eapply Hi).
      * exfalso. by eapply (Hi p s i) in Hs.
      * exfalso. by eapply (Hi p r k) in Hr.
    + intros r k [[<- <-]|[? [? Hr]%lookup_delete_Some]]%lookup_insert_Some; by eapply Hn.
  - unfold file. cbn. by rewrite lookup_insert_eq, Hp.
  - cbn. rewrite lookup_insert_eq. by eexists.
  - intros r Hr Hr'. unfold file. cbn. by rewrite lookup_insert_ne, lookup_delete_ne.
Qed.

Lemma same_but_trans tmp d1 d2 d3 : same_but tmp d1 d2 → same_but tmp d2 d3 → same_but tmp d1 d3.
Proof. intros H1 H2 p Hp. destruct (H1 p Hp) as [<- <-]. by apply H2. Qed.
End Disk.

(** ** Builds *)

Section Builds.
Context `{Compressor} {F : Type} `{WriteSeeker F}.
Context (Init : InitBinaries).

Lemma build_close_inl tr initBin order (out : F) close f :
  buildSquashfs tr initBin order (inl out) close = inl f → close = None.
Proof.
  unfold buildSquashfs. destruct (NewWriter _ _); [|done]. destruct (io_bind _ _ _) as [[?|?] [? ?]]; [|done].
  by destruct close.
Qed.

(** [f] is the image of the layers with the init agent of the architecture. *)
Definition image_of (h : host_calls F) (img : pulled_image) (cfg : image_config) (f : F) : Prop :=
  ∃ initBin, loadInitBinary Init (c_ReadFile h) (cf_Architecture cfg) = inl initBin ∧
    buildSquashfs (im_layers img) initBin (c_order h) (inl (c_blank h)) None = inl f.

Lemma build_at_ok h tr initBin tmp (d : disk F) r d' :
  disk_ok d → build_at h tr initBin tmp d = (r, d') →
  disk_ok d' ∧ same_but tmp d d' ∧
  (r = inl tt → ∃ f, buildSquashfs tr initBin (c_order h) (inl (c_blank h)) None = inl f ∧ file d' tmp = Some f).
Proof.
  intros Hd. unfold build_at. destruct (c_Create h); [by intros [= <- <-]|].
  destruct (disk_create _ _ d) as [i d1] eqn:Hc. destruct (disk_create_ok _ _ _ _ _ Hd Hc) as (Hd1 & Hs1 & Hi).
  assert (Hw : ∀ f, disk_ok (disk_write i f d1) ∧ same_but tmp d (disk_write i f d1) ∧
    file (disk_write i f d1) tmp = Some f).
  { intros f. destruct (disk_write_ok f tmp i d1 Hd1 Hi) as (? & Hs2 & ? & _). split; [done|].
    split; [by eapply same_but_trans|done]. }
  destruct (buildSquashfs _ _ _ _ _) as [f|e] eqn:Hb; intros E; injection E as <- <-.
  - destruct (Hw f) as (? & ? & Hf). split; [done|]. split; [done|]. intros _. exists f. split; [|done].
    by rewrite (build_close_inl _ _ _ _ _ _ Hb) in Hb.
  - by destruct (Hw (c_partial h)) as (? & ? & _).
Qed.

Lemma publish_ok h final tmp (d : disk F) r d' :
  disk_ok d → tmp ≠ final → publish h final tmp d = (r, d') →
  disk_ok d' ∧
  match r with
  | inr _ => same_but tmp d d'
  | inl _ => file d' final = file d tmp ∧ ∀ p, p ≠ tmp → p ≠ final → file d' p = file d p
  end.
Proof.
  intros Hd Hne. unfold publish. pose proof (disk_remove_ok (c_RemoveLate h) tmp d Hd) as Hrm.
  destruct (c_Rename h); [by intros [= <- <-]|].
  destruct (disk_rename tmp final d) as [d1|] eqn:Hr; intros [= <- <-]; [|done].
  by destruct (disk_rename_ok _ _ _ _ Hd Hne Hr) as (? & ? & _ & ?).
Qed.

Lemma tmp_differs final : final ++ tmp_suffix ≠ final.
Proof. intros E. apply (f_equal length) in E. rewrite length_app in E. cbn in E. lia. Qed.

Lemma buildInto_ok h img cfg final (d : disk F) r d' :
  disk_ok d → buildInto Init h img cfg final (final ++ tmp_suffix) d = (r, d') →
  disk_ok d' ∧
  match r with
  | inr _ => same_but (final ++ tmp_suffix) d d'
  | inl _ => (∃ f, image_of h img cfg f ∧ file d' final = Some f) ∧
      ∀ p, p ≠ final ++ tmp_suffix → p ≠ final → file d' p = file d p
  end.
Proof.
  intros Hd. set (tmp := final ++ tmp_suffix). unfold buildInto. destruct (c_MkdirAll h); [by intros [= <- <-]|].
  destruct (loadInitBinary _ _ _) as [initBin|] eqn:Hl; [|by intros [= <- <-]]. cbv zeta.
  destruct (disk_remove_ok (c_Remove h) tmp d Hd) as [Hd1 Hs1]. set (d1 := disk_remove _ _ d) in *.
  destruct (build_at _ _ _ _ _) as [[u|e] d2] eqn:Hb;
    destruct (build_at_ok _ _ _ _ _ _ _ Hd1 Hb) as (Hd2 & Hs2 & Hf).
  - intros Hp. destruct (publish_ok _ _ _ _ _ _ Hd2 (tmp_differs final) Hp) as [Hd3 Hr]. split; [done|].
    pose proof (same_but_trans _ _ _ _ Hs1 Hs2) as Hs. destruct r as [v|e].
    + destruct Hr as [Hfin Hoth]. destruct u. destruct (Hf eq_refl) as (f & Hbf & Hft). split.
      * exists f. split; [by exists initBin|]. by rewrite Hfin.
      * intros p Hpt Hpf. rewrite Hoth by done. by apply Hs.
    + by eapply same_but_trans.
  - intros E; injection E as <- <-. destruct (disk_remove_ok (c_RemoveLate h) tmp d2 Hd2) as [Hd3 Hs3].
    split; [done|]. by do 2 (eapply same_but_trans; [done|]).
Qed.

(** No image but [but] changed. *)
Definition images_kept (but : list Z → Prop) (d d' : disk F) : Prop :=
  ∀ name, is_Some (decodeRootfsName name) → ¬ but name → file d' name = file d name.

Lemma same_but_kept final (d d' : disk F) : same_but (final ++ tmp_suffix) d d' → images_kept (λ _, False) d d'.
Proof. intros Hs name Hn _. apply Hs. intros ->. rewrite decode_tmp in Hn. by destruct Hn. Qed.

Lemma published_kept final (d d' : disk F) :
  (∀ p, p ≠ final ++ tmp_suffix → p ≠ final → file d' p = file d p) → images_kept (λ p, p = final) d d'.
Proof. intros Hs name Hn Hne. apply Hs; [|done]. intros ->. rewrite decode_tmp in Hn. by destruct Hn. Qed.

(** C25: A build is published whole or not at all.  Whatever fails, and whatever a failed
    build leaves in its file, [Ensure] returns an error with every image of the cache as
    it was.  When it returns a path, the path is the name of the pulled digest and
    decodes to that digest; either the image was there, and nothing changed, or the file
    at the path is the image that [buildSquashfs] makes of the layers and the init agent
    of the architecture, and the other images are as they were.  In every case names
    keep inodes of their own, so the next call starts from a cache in order. *)
Theorem ensure_atomic h pulled (d : disk F) r d' :
  disk_ok d → Ensure Init h pulled d = (r, d') →
  disk_ok d' ∧
  match r with
  | inr _ => images_kept (λ _, False) d d'
  | inl (path, spec) =>
      ∃ img digest cfg, pulled = inl img ∧ im_Digest img = inl digest ∧ im_ConfigFile img = inl cfg ∧
        cf_OS cfg = linux ∧ spec = specFromConfig cfg ∧ encodeRootfsName digest = Some path ∧
        (∀ algo hex, splitDigest digest = Some (algo, hex) → dash ∉ algo →
           decodeRootfsName path = Some (algo ++ [colon] ++ hex)) ∧
        (is_Some (d_names d !! path) ∧ d' = d ∨
         d_names d !! path = None ∧ images_kept (λ p, p = path) d d' ∧
         ∃ f, image_of h img cfg f ∧ file d' path = Some f)
  end.
Proof.
  intros Hd. unfold Ensure. destruct pulled as [img|]; [|by intros [= <- <-]].
  destruct (im_Digest img) as [digest|] eqn:Hdg; [|by intros [= <- <-]].
  destruct (im_ConfigFile img) as [cfg|] eqn:Hcf; [|by intros [= <- <-]].
  case_bool_decide as Hos; [|by intros [= <- <-]]. cbn [negb].
  destruct (encodeRootfsName digest) as [path|] eqn:Hen; [|by intros [= <- <-]]. cbv zeta.
  destruct (c_Stat h); [by intros [= <- <-]|].
  pose proof (λ algo hex Hs Ha, decode_encode digest algo hex path Hs Ha Hen) as Hdec.
  destruct (d_names d !! path) as [i|] eqn:Hpath.
  { intros E; injection E as <- <-. split; [done|]. exists img, digest, cfg. do 7 (split; [done|]). left. by rewrite Hpath. }
  destruct (buildInto _ _ _ _ _ _ _) as [[u|e] d1] eqn:Hb; intros E; injection E as <- <-;
    destruct (buildInto_ok _ _ _ _ _ _ _ Hd Hb) as [Hd1 Hr]; (split; [done|]).
  - destruct Hr as [Hf Hoth]. exists img, digest, cfg. do 7 (split; [done|]). right. split; [done|].
    split; [by apply published_kept|done].
  - by eapply same_but_kept.
Qed.

(** [PullImage] is as careful; it builds also when the image is there. *)
Lemma pull_atomic h pulled expected (d : disk F) r d' :
  disk_ok d → PullImage Init h pulled expected d = (r, d') →
  disk_ok d' ∧
  match r with
  | inr _ => images_kept (λ _, False) d d'
  | inl spec =>
      ∃ img cfg path f, pulled = inl img ∧ im_Digest img = inl expected ∧ im_ConfigFile img = inl cfg ∧
        cf_OS cfg = linux ∧ spec = specFromConfig cfg ∧ encodeRootfsName expected = Some path ∧
        images_kept (λ p, p = path) d d' ∧ image_of h img cfg f ∧ file d' path = Some f
  end.
Proof.
  intros Hd. unfold PullImage. destruct (encodeRootfsName expected) as [path|] eqn:Hen; [|by intros [= <- <-]].
  destruct pulled as [img|]; [|by intros [= <- <-]].
  destruct (im_Digest img) as [digest|] eqn:Hdg; [|by intros [= <- <-]].
  case_bool_decide as Heq; [|by intros [= <- <-]]. cbn [negb].
  destruct (im_ConfigFile img) as [cfg|] eqn:Hcf; [|by intros [= <- <-]].
  case_bool_decide as Hos; [|by intros [= <- <-]]. cbn [negb].
  destruct (buildInto _ _ _ _ _ _ _) as [[u|e] d1] eqn:Hb; intros E; injection E as <- <-;
    destruct (buildInto_ok _ _ _ _ _ _ _ Hd Hb) as [Hd1 Hr]; (split; [done|]).
  - destruct Hr as [(f & Hf & Hfile) Hoth]. exists img, cfg, path, f. rewrite Hdg, Heq. do 6 (split; [done|]).
    split; [by apply published_kept|done].
  - by eapply same_but_kept.
Qed.
End Builds.

(** ** Listing the cache *)

Lemma decoded_names_spec l digest :
  digest ∈ decoded_names l ↔ ∃ name, (name, false) ∈ l ∧ decodeRootfsName name = Some digest.
Proof.
  induction l as [|[name b] l IH]; cbn [decoded_names].
  - split; [by intros ?%not_elem_of_nil|by intros (? & ?%not_elem_of_nil & _)].
  - assert (Hr : (∃ n, (n, false) ∈ (name, b) :: l ∧ decodeRootfsName n = Some digest) ↔
      (b = false ∧ decodeRootfsName name = Some digest) ∨ digest ∈ decoded_names l).
    { rewrite IH. setoid_rewrite elem_of_cons. naive_solver. }
    rewrite Hr. destruct b; [naive_solver|].
    destruct (decodeRootfsName name) as [dg|]; [rewrite elem_of_cons; naive_solver|naive_solver].
Qed.

(** Builds in progress and directories are not listed. *)
Lemma listing_spec l digest images :
  GetExistingImages (DirEntries l) = inl images →
  digest ∈ images ↔ ∃ name, (name, false) ∈ l ∧ decodeRootfsName name = Some digest.
Proof. intros [= <-]. apply decoded_names_spec. Qed.

(** ** Two builds of one image *)

(** [Ensure] takes no lock, and the temporary name depends on the digest alone.  Of two
    calls that both found no image, the second removes the file the first is writing and
    creates its own under the same name; the first then publishes that one, empty or half
    written, while its own file has no name any more; the second finds nothing to rename
    and fails. *)
Lemma concurrent_ensure_publishes_partial {F : Type} `{Compressor} `{WriteSeeker F}
    (h : host_calls F) (final : list Z) (d : disk F) (image : F) :
  disk_ok d → c_Rename h = None →
  let tmp := final ++ tmp_suffix in
  let '(i, d1) := disk_create (c_blank h) tmp (disk_remove true tmp d) in
  let '(j, d2) := disk_create (c_blank h) tmp (disk_remove true tmp d1) in
  ∃ d3, publish h final tmp (disk_write i image d2) = (inl tt, d3) ∧
    file d3 final = Some (c_blank h) ∧
    publish h final tmp d3 = (inr (ErrRename []), disk_remove (c_RemoveLate h) tmp d3).
Proof.
  intros [_ Hn] Hr. cbv zeta. set (tmp := final ++ tmp_suffix). unfold disk_create at 1. cbn [d_names disk_remove].
  rewrite lookup_delete_eq. unfold disk_create. cbn [d_names d_files d_next disk_remove]. rewrite lookup_delete_eq.
  unfold publish. rewrite Hr. unfold disk_rename. cbn [disk_write d_names d_files d_next]. rewrite lookup_insert_eq.
  eexists. split; [done|]. split.
  - unfold file. cbn. rewrite lookup_insert_eq. cbn. rewrite lookup_insert_ne by lia. apply lookup_insert_eq.
  - cbn. rewrite lookup_insert_ne by (intros E; by apply (tmp_differs final)). by rewrite lookup_delete_eq.
Qed.

(** ** A cache with one image *)

Definition demo_config : image_config := mkConfig linux amd64 [] [bytes_of "/bin/sh"] [] [].
Definition demo_image : pulled_image := mkImage (inl (bytes_of "sha256:ab")) (inl demo_config) demo_tar.
Definition demo_calls : host_calls mem_file :=
  mkCalls None (λ _, inl demo_init) true None (mkMem [] 0) [] None (mkMem [] 0) None true None.
Definition demo_inits : InitBinaries := mkInit (bytes_of "/init") [].
Definition empty_disk : disk mem_file := mkDisk ∅ ∅ 0.
Definition demo_disk : disk mem_file := snd (Ensure demo_inits demo_calls (inl demo_image) empty_disk).
Definition demo_path : list Z := bytes_of "sha256-ab.sqsh".

Lemma demo_ensured :
  Ensure demo_inits demo_calls (inl demo_image) empty_disk = (inl (demo_path, specFromConfig demo_config), demo_disk).
Proof.
  unfold demo_disk. apply (pair_snd (Ensure demo_inits demo_calls (inl demo_image) empty_disk)).
  vm_compute. reflexivity.
Qed.

Lemma empty_disk_ok : disk_ok empty_disk.
Proof. split; [intros p q i Hp _|intros p i Hp]; discriminate Hp. Qed.

Lemma ensure_atomic_witness :
  decodeRootfsName demo_path = Some (bytes_of "sha256:ab") ∧
  ∃ f, image_of demo_inits demo_calls demo_image demo_config f ∧ file demo_disk demo_path = Some f.
Proof.
  destruct (ensure_atomic demo_inits demo_calls (inl demo_image) empty_disk _ _ empty_disk_ok demo_ensured)
    as (_ & img & digest & cfg & Hi & Hd & Hc & _ & _ & _ & Hdec & Hcase).
  injection Hi as <-. injection Hd as <-. injection Hc as <-. split.
  - apply (Hdec (bytes_of "sha256") (bytes_of "ab")); [reflexivity|]. by apply (bool_decide_unpack _).
  - destruct Hcase as [[[i Hn] _]|(_ & _ & Hf)]; [discriminate Hn|exact Hf].
Defined.
